(* ===== verification/_CoqProject ===== *)
-Q . S2P
Prelude.v
Bits.v
Uefi.v
Allocator.v
Heap.v
Paging.v
Trb.v
Event.v
Contexts.v
Graphics.v
Display.v
Acpi.v
Pci.v
Mutex.v
Executor.v
Await.v
Controller.v
Usb.v
Storage.v
Driver.v
Device.v
Interrupt.v
Segments.v
Console.v
Boot.v
Attach.v
Kernel.v
Start.v
Tests.v
Format.v
