(* ===== verification/Prelude.v ===== *)
(** * Mushix: verification of a small operating system written in Rust

    Mushix boots from UEFI on x86-64, takes over the firmware's memory map, draws on the
    frame buffer, and drives an xHCI controller far enough to read the first sector of a USB
    mass-storage device.  This library models the implementation under [src/src/] and proves
    what makes each part of it correct.  Definitions keep the names of the Rust functions
    and follow their bodies: the same guards in the same order, early returns, reads that
    happen twice, and the writes a failing function has already done.

    ** Conventions (this file)

    A fallible function returns an [outcome]: [Ok], [Err] (the code's own error strings) or
    [Panic] (unwrap, index, assertion and arithmetic-overflow panics; the dev profile checks
    overflow, so [add_chk] and its relatives do).  Undefined behaviour, such as a null pointer
    that is dereferenced, ends a run with [Panic msg_ub]: no theorem says what follows it, and
    the panic handlers do not get it.  A method on [&mut self] is a state
    transformer [M S A]; a failure keeps the state it left.  Machine words are integers with
    their width written out ([in_width], [wrap], [wnot]); a bit field is
    [get_field]/[set_field]; memory-mapped structures are bytes or words.  [zbits] decides
    bitwise equalities, [mstep] and [bind_ok] step through a computation.

    ** The parts and how they interact

    - [Bits]: [bits.rs] and [volatile.rs], the bit fields every register access goes through.
    - [Uefi]: the memory map of [uefi.rs], from the firmware's bytes to descriptors.
    - [Allocator]: [allocator.rs].  The heap is a map from addresses to headers;
      [init_with_mmap] consumes the memory map of [Uefi].  [BlockSpec] is the abstract
      first-fit allocator on a list of blocks, and [represents] the refinement relation.
      [Heap] states what boxes rely on as the classes [GlobalAlloc] and [GlobalAllocLaws],
      and derives the laws for the allocator; [IoBoxes] is the interface of [IoBox].
    - [Paging]: the page tables of [x86.rs].  [create_mapping] takes frames through the class
      [FrameSource]; its theorems use the laws [FrameSourceLaws], which the heap of
      [Allocator] satisfies.  The specification is the processor's table walk.
    - [Trb], [Event], [Contexts], [Controller], [Usb], [Storage], [Driver]: [xhci.rs], [cbw.rs]
      and [slice.rs], from the 16-byte transfer request block upwards.  [Trb] has the producer
      side of the rings, store by store, against the rules a controller follows ([Xhc]); [Event] the consumer
      side and the dispatch to waiting futures; [Contexts] the structures the driver hands
      over; [Controller] the registers behind the class [MmioBus], the bring-up and port
      reset; [Usb] and [Storage] the wire formats; [Driver] the class driver, as effects on
      the rings, registers, buffers and events of a [World]; [Device] what bringing
      up a port, addressing a device, reading its configuration and setting up a mass-storage
      device do as whole sequences of requests.
    - [Graphics]: [graphics.rs] over the frame buffer of [uefi.rs], through the class [Bitmap];
      [Display]: [init_display] of [init.rs], with drawing confined to some pixels as a
      composable specification.
    - [Acpi] and [Pci]: [acpi.rs] and [pci.rs]; the configuration space is behind the class
      [ConfigSpace], and the ECAM base comes from the MCFG table of [Acpi].
    - [Mutex]: [mutex.rs], with threads interleaving their atomic steps.
    - [Executor]: [hpet.rs] and [executor.rs].  A future is an instance of the class [Future];
      the port reset of [Controller] is one, run by [block_on], and the serial task of
      [Kernel] another, run by [run_once].  [Await] puts the driver's polling task and a task
      that awaits an [EventFuture] of [Event] on its queue.
    - [Interrupt]: the assembly entry points of [x86.rs] as lists of instructions on a
      processor state ([Cpu]), and [inthandler]; the compiled handler is any function that
      keeps the calling convention ([SysvCall]).  [Segments]: the descriptor tables, stored
      byte by byte in boxes of [Heap] and read back as the processor reads them.
    - [Console]: [serial.rs] and [print.rs].  Port instructions are the class [PortIo]; [Uart]
      states what a 16550 does, and the writer of [Graphics] sits behind the lock of [Mutex].
    - [Boot]: the firmware calls of [uefi.rs] (class [Firmware], with [UefiMemoryMap] for what
      UEFI promises of its memory map), [init.rs], and the page-table services of [x86.rs] and
      [mmio.rs] ([disable_cache], [IoBox]; this is the instance of [IoBoxes] that the
      allocating part of [Controller] runs on).  [Attach]: [PciXhciDriver::attach], where the
      configuration space, the page tables, the heap, the registers of the controller and
      the executor's queue meet.
    - [Kernel]: the state of the running kernel, its log macros, the serial task of [main.rs]
      and the executor's loop over it.  [Start]: [efi_main] and the functions it calls, which
      compose all of the above into the state that [Kernel] starts from.
    - [Tests]: the repository's own unit tests as executable definitions, their runner
      ([test_runner.rs]) and exit port ([qemu.rs]), and the two panic handlers.
    - [Format]: the texts that [pci.rs] and [x86.rs] define for their data; its lemma
      [InterruptInfo_text_read] reads the interrupted context back from a report.

    ** What the theorems show

    The properties carry an identifier C1 to C40 in their doc comments.
    - The kernel as a whole: [efi_main_starts] (start-up leaves boot services in one attempt
      and reaches the executor, or memory runs out), [serial_monitor_refines] and [serial_task_muted] (the main loop against a listener
      that wakes every 20 ms, and what a key other than T pressed too early does), [init_hpet_clock] (the
      clock tells the time), [init_display_picture].
    - Memory: [heap_safety] and [alloc_refines_first_fit] for the allocator, and [unit_tests_report]:
      no heap makes the repository's tests fail, unless memory runs out (which one of them
      does not notice);
      [create_mapping_correct], [init_pading_identity] and [io_box_uncached] (a zeroed box on
      uncached pages) for the address space, as the processor's walk finds it.
    - Exceptions: [exceptions_routed] (the tables in memory send every vector to its entry
      point on its own stack), [interrupt_transparent] and [interrupt_fatal] (what the entry
      points do), and [breakpoint_returns], which composes the two.
    - The xHCI protocol: [trbs_well_typed], [command_ring_delivers], [event_ring_fifo] and
      [event_poll_dispatches] say that commands and events are well formed, neither lost,
      duplicated nor reordered, in every interleaving with the controller, and reach the
      right waiter (for commands: as long as at most 14 are outstanding, which the code does
      not check, and outside the window in which [push] has cleared the slot that the
      controller waits for on every second lap), and [await_first_match] that an await on the executor returns it;
      [attach_starts] is the bring-up, from the configuration space to the queued driver, with
      every translation that the processor finds afterwards;
      [init_port_correct], [address_device_correct] and [mass_storage_sequence] are whole
      command sequences, from the port reset to the bulk endpoints, with the contexts as the
      controller reads them; [request_descriptor_stages] and [scsi_read_10_correct] a control
      and a bulk transfer from the first push to the result.
    - Data from the device: [config_descriptors_read], [descriptor_iterator_progress],
      [find_bulk_correct] and [sector_zero_correct] (the exact report), including what
      malformed bytes do.
    - Scheduling: [mutex_exclusion] and [executor_round_robin], including a task that panics.
    - Output and buses: [send_str_transmits], [global_print_both], [hexdump_is_dump_lines],
      [fill_rect_correct], [draw_line_correct], [rsdp_tables_found], [try_bar0_mem64_sizes];
      [write_bits_lens] for bit fields.

    Some of them state defects, which the manifest lists as findings: a byte that arrives
    during boot silences the serial console ([serial_task_muted]), the transfer type of a
    setup stage ([request_descriptor_stages]), the window of a push in which a TRB of zeros
    belongs to the controller ([command_ring_delivers]), prefetchable BARs ([try_bar0_mem64_sizes]),
    cylinders ([sector_zero_correct]) and zero-length descriptors
    ([descriptor_iterator_progress]).  Others are lemmas of their files: the alignment of
    the scratchpad buffers ([scratchpad_buffers_unaligned]), bulk endpoints numbered 0
    ([bulk_endpoint_context_correct]), the reuse of freed memory ([freed_block_not_reusable]),
    large pages ([create_mapping_large_page]), a refusal to leave the firmware that nobody
    notices, since [EfiStatus] has one value ([exit_boot_services_refusal]), the reserved bit
    of a page fault
    ([page_fault_cause_bits]) and the dropped table of [get_page_pointer].

    ** Bounds and fuel

    Loops that Rust bounds by data are structural recursion.  A loop with no such bound takes
    fuel: the allocator's search takes as many steps as the heap has headers, which is enough
    because the list is duplicate free (its theorems have no fuel hypothesis); the polling
    loops of the controller, the waits of the serial port and the poll of a future take fuel that their theorems show to exist, the same for every
    larger fuel; the loop that leaves the firmware ends in its first round; the descriptor
    iterator ends within one step per byte or, on a zero length, never.

    ** Not modelled

    The encoding of instructions (the entry points are lists of instructions, port and MSR
    accesses are interfaces); the core library's formatting beyond decimal and hexadecimal
    numbers; the compiled code of the interrupt handler beyond its calling convention; log
    lines of the drivers; the one unit test that needs page tables; the contents of the event
    ring's segment table.  In [Driver] a box is its address, so the remapping of the pages of
    the rings it makes for endpoints is left to [io_box_uncached].
    Memory has one model per component (headers of the heap, page tables, bytes of the
    descriptor tables, pixels, ACPI bytes): the theorems on boxes say that live objects are
    apart, which is what keeps these views independent.  Wakers do nothing in this executor.
    Within one poll of the serial task time stands still, since a poll is short against its
    20 ms sleep.  Memory fences have no effect on a model whose steps are sequentially
    consistent.  Start-up takes what attaching the driver does as a parameter: [Start] keeps
    no page tables, so [attach] and its theorem stand beside it in [Attach]. *)

From Stdlib Require Export ZArith Lia Bool Btauto.
From stdpp Require Export base tactics option numbers strings fin_maps fin_map_dom gmap list list_numbers.

#[global] Open Scope Z_scope.

(** ** Outcomes of Rust code

    [Ok] and [Err] are the two constructors of [crate::result::Result]; [Panic] is a
    Rust panic ([unwrap]/[expect] on an error, [assert!], an out-of-range index, an
    arithmetic overflow in the dev profile that [cargo run] builds).  Both [Err] (through
    the [?] operator) and [Panic] (through unwinding) leave the enclosing block early. *)
Inductive outcome (A : Type) : Type :=
  | Ok (a : A)
  | Err (msg : string)
  | Panic (msg : string).
Arguments Ok {A} a.
Arguments Err {A} msg.
Arguments Panic {A} msg.

#[global] Instance outcome_ret : MRet outcome := fun A a => Ok a.
#[global] Instance outcome_bind : MBind outcome := fun A B f r =>
  match r with Ok a => f a | Err e => Err e | Panic p => Panic p end.

#[global] Instance outcome_eq_dec {A} `{EqDecision A} : EqDecision (outcome A).
Proof. solve_decision. Defined.

(** [Result::unwrap] / [expect]: an [Err] becomes a panic. *)
Definition unwrap {A} (r : outcome A) : outcome A :=
  match r with Ok a => Ok a | Err e => Panic e | Panic p => Panic p end.

(** [Option::ok_or]. *)
Definition ok_or {A} (o : option A) (e : string) : outcome A :=
  match o with Some a => Ok a | None => Err e end.

Definition is_ok {A} (r : outcome A) : bool :=
  match r with Ok _ => true | _ => false end.

(** ** Stateful Rust code

    A method on [&mut self] (or on a memory) is a function from the state to an outcome
    and the state it leaves behind: a method that fails half-way keeps the writes it did. *)
Definition M (S A : Type) : Type := S -> outcome A * S.

#[global] Instance M_ret {S} : MRet (M S) := fun A a s => (Ok a, s).
#[global] Instance M_bind {S} : MBind (M S) := fun A B f m s =>
  match m s with
  | (Ok a, s') => f a s'
  | (Err e, s') => (Err e, s')
  | (Panic p, s') => (Panic p, s')
  end.

Definition get {S} : M S S := fun s => (Ok s, s).
Definition put {S} (s : S) : M S unit := fun _ => (Ok tt, s).
Definition modify {S} (f : S -> S) : M S unit := fun s => (Ok tt, f s).
Definition lift {S A} (r : outcome A) : M S A := fun s => (r, s).
Definition throw {S A} (e : string) : M S A := fun s => (Err e, s).
Definition panic {S A} (e : string) : M S A := fun s => (Panic e, s).

(** Run a method of a field on the whole structure. *)
Definition zoom {S T A} (g : S -> T) (p : T -> S -> S) (m : M T A) : M S A := fun s =>
  let '(r, t) := m (g s) in (r, p t s).

(** [.unwrap()] on the result of a stateful call. *)
Definition unwrapM {S A} (m : M S A) : M S A := fun s =>
  let '(r, s') := m s in (unwrap r, s').

(** ** Machine words: a [w]-bit unsigned integer is a [Z] in [0 .. 2^w - 1]. *)
Definition in_width (w x : Z) : Prop := 0 <= x < 2 ^ w.

(** [x as uN]: keep the low [w] bits. *)
Definition wrap (w x : Z) : Z := x mod 2 ^ w.

Definition msg_add : string := "attempt to add with overflow".
Definition msg_sub : string := "attempt to subtract with overflow".
Definition msg_mul : string := "attempt to multiply with overflow".
Definition msg_shr : string := "attempt to shift right with overflow".
Definition msg_shl : string := "attempt to shift left with overflow".

(** What Rust leaves undefined (a read through a dangling pointer, ...) panics in the model. *)
Definition msg_ub : string := "undefined behaviour".

(** [x + y], [x - y], [x * y] on a [w]-bit word, overflow checked. *)
Definition add_chk (w x y : Z) : outcome Z :=
  if x + y <? 2 ^ w then Ok (x + y) else Panic msg_add.
Definition sub_chk (x y : Z) : outcome Z :=
  if y <=? x then Ok (x - y) else Panic msg_sub.
Definition mul_chk (w x y : Z) : outcome Z :=
  if x * y <? 2 ^ w then Ok (x * y) else Panic msg_mul.
(** [x << s]: panics when the shift amount is not below the width; bits shifted out are lost. *)
Definition shl_chk (w x s : Z) : outcome Z :=
  if s <? w then Ok (wrap w (Z.shiftl x s)) else Panic msg_shl.
(** [x >> s]: panics when the shift amount is not below the width. *)
Definition shr_chk (w x s : Z) : outcome Z :=
  if s <? w then Ok (Z.shiftr x s) else Panic msg_shr.
(** [!x] on a [w]-bit word. *)
Definition wnot (w x : Z) : Z := Z.lxor x (Z.ones w).

(** An [i64] result, overflow checked. *)
Definition i64_chk (msg : string) (z : Z) : outcome Z :=
  if (- 2 ^ 63 <=? z) && (z <? 2 ^ 63) then Ok z else Panic msg.

(** ** Bit-level reasoning

    [zbits] proves equalities between bit expressions by comparing them bit by bit. *)
Create Rewrite HintDb zbits.

Lemma testbit_ones (w i : Z) : 0 <= w -> 0 <= i -> Z.testbit (Z.ones w) i = (i <? w).
Proof. intros. by apply Z.testbit_ones_nonneg. Qed.

Lemma testbit_mod (w x i : Z) :
  0 <= w -> 0 <= i -> Z.testbit (x mod 2 ^ w) i = (i <? w) && Z.testbit x i.
Proof.
  intros. destruct (Z.ltb_spec i w).
  - by rewrite Z.mod_pow2_bits_low by lia.
  - by rewrite Z.mod_pow2_bits_high by lia.
Qed.

Lemma testbit_high (w x i : Z) : in_width w x -> 0 <= w <= i -> Z.testbit x i = false.
Proof.
  intros [H0 H1] Hi. rewrite <- (Z.mod_small x (2 ^ w)) by lia.
  apply Z.mod_pow2_bits_high. lia.
Qed.

Lemma in_width_testbit (w x : Z) :
  0 <= w -> 0 <= x -> (forall i, w <= i -> Z.testbit x i = false) -> in_width w x.
Proof.
  intros Hw Hx Hb. split; [done|].
  destruct (Z.eq_dec x 0) as [->|Hne]; [lia|].
  apply Z.log2_lt_pow2; [lia|].
  destruct (Z.lt_ge_cases (Z.log2 x) w) as [|Hge]; [done|].
  specialize (Hb _ Hge). rewrite Z.bit_log2 in Hb by lia. done.
Qed.

#[export] Hint Rewrite Z.land_spec Z.lor_spec Z.lxor_spec Z.ldiff_spec Z.bits_0 : zbits.
#[export] Hint Rewrite Z.shiftl_spec Z.shiftr_spec Z.lnot_spec testbit_ones testbit_mod
  using lia : zbits.

(** Bring an index difference [a + s - s] back to [a], so that equal bits look equal. *)
Ltac zbits_norm :=
  autorewrite with zbits;
  repeat match goal with
  | |- context [Z.testbit ?x (?a + ?b - ?b)] => replace (a + b - b) with a by lia
  | |- context [Z.testbit ?x (?a - ?b + ?b)] => replace (a - b + b) with a by lia
  | |- context [Z.testbit ?x (?a + 0)] => rewrite (Z.add_0_r a)
  | |- context [Z.testbit ?x (?a - 0)] => rewrite (Z.sub_0_r a)
  end.

Ltac zbits_case :=
  match goal with
  | |- context [?a <? ?b] => destruct (Z.ltb_spec a b)
  | |- context [Z.testbit ?x ?i] => rewrite (Z.testbit_neg_r x i) by lia
  | H : in_width ?w ?x |- context [Z.testbit ?x ?i] =>
      rewrite (testbit_high w x i H) by lia
  | |- context [Z.testbit ?x ?i] =>
      assert_fails (assert (0 <= i) by lia); destruct (Z.lt_ge_cases i 0)
  | H : in_width ?w ?x |- context [Z.testbit ?x ?i] =>
      assert_fails (assert (i < w) by lia); destruct (Z.lt_ge_cases i w)
  end.

Ltac zbits_bool :=
  cbn [andb orb negb xorb];
  rewrite ?andb_true_r, ?andb_false_r, ?orb_false_r, ?orb_true_r, ?xorb_false_r, ?xorb_true_r;
  cbn [andb orb negb xorb].

Ltac zbits :=
  apply Z.bits_inj'; intros ?i ?Hi; zbits_norm;
  repeat (zbits_case; zbits_norm; zbits_bool; try lia);
  zbits_bool; try reflexivity; try lia; try btauto.

Lemma land_nonneg_l (a b : Z) : 0 <= a -> 0 <= Z.land a b.
Proof. intros. apply Z.land_nonneg. by left. Qed.

Lemma ones_nonneg (w : Z) : 0 <= w -> 0 <= Z.ones w.
Proof. intros. rewrite Z.ones_equiv. pose proof (Z.pow_pos_nonneg 2 w). lia. Qed.

Lemma wrap_width (w x : Z) : 0 <= w -> in_width w (wrap w x).
Proof. intros. apply Z.mod_pos_bound. by apply Z.pow_pos_nonneg. Qed.

Lemma wrap_small (w x : Z) : in_width w x -> wrap w x = x.
Proof. apply Z.mod_small. Qed.

Lemma wnot_width (w x : Z) : in_width w x -> 0 <= w -> in_width w (wnot w x).
Proof.
  intros Hx Hw. apply in_width_testbit; [done| |].
  - apply Z.lxor_nonneg. split; intros; [|destruct Hx; lia]. by apply ones_nonneg.
  - intros i Hi. unfold wnot. autorewrite with zbits. zbits_case; [lia|]. by zbits_case.
Qed.

Lemma wnot_sub (w x : Z) : 0 <= w -> in_width w x -> wnot w x = 2 ^ w - 1 - x.
Proof.
  intros Hw Hx. assert (x + wnot w x = Z.ones w) as H.
  { unfold wnot. rewrite Z.add_nocarry_lxor.
    - by rewrite <- Z.lxor_assoc, Z.lxor_nilpotent, Z.lxor_0_l.
    - zbits. }
  rewrite Z.ones_equiv in H. lia.
Qed.

(** [a & !b] on [w]-bit words is the set difference of the bits. *)
Lemma land_wnot (w a b : Z) : 0 <= w -> in_width w a -> Z.land a (wnot w b) = Z.ldiff a b.
Proof. intros Hw Ha. unfold wnot. zbits. Qed.

(** Testing one bit with a mask, as the code does. *)
Lemma land_pow2_testbit (x k : Z) : 0 <= k -> negb (Z.land x (2 ^ k) =? 0) = Z.testbit x k.
Proof.
  intros Hk. assert (Z.land x (2 ^ k) = if Z.testbit x k then 2 ^ k else 0) as ->.
  { apply Z.bits_inj'. intros i Hi. rewrite Z.land_spec, Z.pow2_bits_eqb by done.
    destruct (Z.eqb_spec k i) as [->|Hne].
    - destruct (Z.testbit x i); [|by rewrite Z.bits_0]. by rewrite Z.pow2_bits_true.
    - rewrite andb_false_r. destruct (Z.testbit x k); [|by rewrite Z.bits_0].
      by rewrite Z.pow2_bits_false. }
  destruct (Z.testbit x k); [|done]. pose proof (Z.pow_pos_nonneg 2 k).
  by rewrite (proj2 (Z.eqb_neq _ _)) by lia.
Qed.

(** *** Bit fields: [width] bits of a word starting at bit [shift]. *)
Definition get_field (x shift width : Z) : Z := Z.land (Z.shiftr x shift) (Z.ones width).
Definition set_field (x shift width v : Z) : Z :=
  Z.lor (Z.shiftl v shift) (Z.ldiff x (Z.shiftl (Z.ones width) shift)).

Section fields.
Context (x s w v : Z) (Hs : 0 <= s) (Hw : 0 <= w).

Lemma get_field_div : get_field x s w = (x / 2 ^ s) mod 2 ^ w.
Proof using Hs Hw.
  unfold get_field. rewrite Z.land_ones by done. by rewrite Z.shiftr_div_pow2.
Qed.

Lemma get_field_width : in_width w (get_field x s w).
Proof using Hs Hw. rewrite get_field_div. by apply (wrap_width w). Qed.

Lemma get_set_same : in_width w v -> get_field (set_field x s w v) s w = v.
Proof using Hs Hw. intros Hv. unfold get_field, set_field. zbits. Qed.

Lemma get_set_other (s' w' : Z) :
  in_width w v -> 0 <= s' -> 0 <= w' -> s' + w' <= s \/ s + w <= s' ->
  get_field (set_field x s w v) s' w' = get_field x s' w'.
Proof using Hs Hw. intros Hv Hs' Hw' Hd. unfold get_field, set_field. zbits. Qed.

Lemma set_get : set_field x s w (get_field x s w) = x.
Proof using Hs Hw. unfold get_field, set_field. zbits. Qed.

Lemma set_set (v' : Z) : in_width w v -> in_width w v' ->
  set_field (set_field x s w v) s w v' = set_field x s w v'.
Proof using Hs Hw. intros Hv Hv'. unfold set_field. zbits. Qed.

Lemma set_field_width (W : Z) :
  in_width W x -> in_width w v -> s + w <= W -> in_width W (set_field x s w v).
Proof using Hs Hw.
  intros Hx Hv HW. apply in_width_testbit; [lia| |].
  - unfold set_field. apply Z.lor_nonneg. split.
    + apply Z.shiftl_nonneg. by destruct Hv.
    + apply Z.ldiff_nonneg. left. by destruct Hx.
  - intros i Hi. unfold set_field. autorewrite with zbits.
    by repeat (zbits_case; cbn [andb orb negb]; try lia).
Qed.
End fields.

Create HintDb words.
#[export] Hint Resolve wrap_width get_field_width wnot_width : words.

(** The shape [x &= !(mask << s); x |= v << s] the driver writes out by hand. *)
Lemma clear_or_is_set_field (W x s w v : Z) :
  in_width W x -> 0 <= s -> 0 <= w -> s + w <= W ->
  Z.lor (Z.land x (wnot W (Z.shiftl (Z.ones w) s))) (Z.shiftl v s) = set_field x s w v.
Proof.
  intros Hx Hs Hw HW. unfold set_field. rewrite land_wnot by (done || lia).
  apply Z.lor_comm.
Qed.

(** ** Stepping through the state monad *)
Lemma bind_ok {S A B} (m : M S A) (k : A -> M S B) s a s' :
  m s = (Ok a, s') -> (m ≫= k) s = k a s'.
Proof. intros H. unfold mbind, M_bind. by rewrite H. Qed.

Lemma bind_err {S A B} (m : M S A) (k : A -> M S B) s e s' :
  m s = (Err e, s') -> (m ≫= k) s = (Err e, s').
Proof. intros H. unfold mbind, M_bind. by rewrite H. Qed.

Lemma bind_panic {S A B} (m : M S A) (k : A -> M S B) s e s' :
  m s = (Panic e, s') -> (m ≫= k) s = (Panic e, s').
Proof. intros H. unfold mbind, M_bind. by rewrite H. Qed.

Lemma bind_ok_inv {S A B} (m : M S A) (k : A -> M S B) s b s'' :
  (m ≫= k) s = (Ok b, s'') -> exists a s', m s = (Ok a, s') /\ k a s' = (Ok b, s'').
Proof. unfold mbind, M_bind. destruct (m s) as [[a|e|e] s']; [eauto|done|done]. Qed.

(** Reading a result off a boolean test of it, which [vm_compute] evaluates. *)
Lemma outcome_ok_test {S A} (P : A -> bool) (r : outcome A * S) :
  match r.1 with Ok a => P a | _ => false end = true -> exists a s, r = (Ok a, s) /\ P a = true.
Proof. destruct r as [[a|e|e] s]; [eauto|discriminate..]. Qed.

(** ** Computations that may run out of memory *)

Definition msg_oom : string := "memory allocation failed".

(** The computation ends normally in a state satisfying [Q], unless the heap is exhausted. *)
Definition oom_or {S A} (r : outcome A * S) (Q : A -> S -> Prop) : Prop :=
  match r with
  | (Ok a, s') => Q a s'
  | (Err _, _) => False
  | (Panic e, _) => e = msg_oom
  end.

Lemma oom_bind {S A B} (m : M S A) (k : A -> M S B) s Q R :
  oom_or (m s) Q -> (forall a s', Q a s' -> oom_or (k a s') R) -> oom_or ((m ≫= k) s) R.
Proof.
  unfold oom_or, mbind, M_bind. intros Hm Hk. destruct (m s) as [[a|e|e] s']; [by apply Hk|done|done].
Qed.

Lemma oom_weaken {S A} (r : outcome A * S) (Q R : A -> S -> Prop) :
  oom_or r Q -> (forall a s, Q a s -> R a s) -> oom_or r R.
Proof. unfold oom_or. destruct r as [[a|e|e] s]; auto. Qed.

(** A method keeps a property of its state, however it ends. *)
Definition keeps {S A} (I : S -> Prop) (m : M S A) : Prop := forall s, I s -> I (m s).2.

Lemma keeps_bind {S A B} (I : S -> Prop) (m : M S A) (k : A -> M S B) :
  keeps I m -> (forall a, keeps I (k a)) -> keeps I (m ≫= k).
Proof.
  intros Hm Hk s Hs. specialize (Hm s Hs). unfold mbind, M_bind.
  destruct (m s) as [[a|e|e] s']; [by apply Hk|done|done].
Qed.
Lemma keeps_get {S A} (I : S -> Prop) (k : S -> M S A) :
  (forall s, I s -> I (k s s).2) -> keeps I (s ← get; k s).
Proof. intros Hk s Hs. by apply Hk. Qed.
Lemma keeps_lift {S A} (I : S -> Prop) (r : outcome A) : keeps I (lift r).
Proof. by intros s Hs. Qed.
Lemma keeps_ret {S A} (I : S -> Prop) (a : A) : keeps I (mret a : M S A).
Proof. by intros s Hs. Qed.
Lemma keeps_unwrap {S A} (I : S -> Prop) (m : M S A) : keeps I m -> keeps I (unwrapM m).
Proof. intros Hm s Hs. specialize (Hm s Hs). unfold unwrapM. by destruct (m s). Qed.

Lemma add_chk_ok w x y : x + y < 2 ^ w -> add_chk w x y = Ok (x + y).
Proof. intros. unfold add_chk. by rewrite (proj2 (Z.ltb_lt _ _)). Qed.
Lemma sub_chk_ok x y : y <= x -> sub_chk x y = Ok (x - y).
Proof. intros. unfold sub_chk. by rewrite (proj2 (Z.leb_le _ _)). Qed.
Lemma mul_chk_ok w x y : x * y < 2 ^ w -> mul_chk w x y = Ok (x * y).
Proof. intros. unfold mul_chk. by rewrite (proj2 (Z.ltb_lt _ _)). Qed.
Lemma shl_chk_ok w x s : s < w -> shl_chk w x s = Ok (wrap w (Z.shiftl x s)).
Proof. intros. unfold shl_chk. by rewrite (proj2 (Z.ltb_lt _ _)). Qed.
Lemma shr_chk_ok w x s : s < w -> shr_chk w x s = Ok (Z.shiftr x s).
Proof. intros. unfold shr_chk. by rewrite (proj2 (Z.ltb_lt _ _)). Qed.

(** One step of a monadic computation whose first action evaluates to [Ok]. *)
Ltac mstep := erewrite bind_ok by reflexivity; cbv beta.

(** ** Bytes: a byte is a [Z] in [0 .. 255]; words are laid out little-endian on x86-64. *)
Definition is_byte (b : Z) : Prop := 0 <= b < 256.

Fixpoint le_decode (bs : list Z) : Z :=
  match bs with [] => 0 | b :: t => b + 256 * le_decode t end.

Fixpoint le_encode (n : nat) (v : Z) : list Z :=
  match n with O => [] | S n => v mod 256 :: le_encode n (v / 256) end.

(** [from_be_bytes] reads the same bytes in the other order. *)
Definition be_decode (bs : list Z) : Z := le_decode (rev bs).
Definition be_encode (n : nat) (v : Z) : list Z := rev (le_encode n v).

(** [&l[ofs .. ofs + n]] when it is in range. *)
Definition slice {A} (l : list A) (ofs n : nat) : list A := take n (drop ofs l).

Lemma length_le_encode n v : length (le_encode n v) = n.
Proof. revert v. induction n; intros; simpl; by f_equal. Qed.

Lemma le_encode_bytes n v : Forall is_byte (le_encode n v).
Proof.
  revert v. induction n as [|n IH]; intros v; simpl; constructor; [|done].
  apply Z.mod_pos_bound. lia.
Qed.

Lemma le_decode_encode n v : le_decode (le_encode n v) = v mod 2 ^ (8 * Z.of_nat n).
Proof.
  revert v. induction n as [|n IH]; intros v; simpl le_encode; simpl le_decode.
  - by rewrite Z.mod_1_r.
  - rewrite IH. replace (8 * Z.of_nat (S n)) with (8 + 8 * Z.of_nat n) by lia.
    rewrite Z.pow_add_r by lia. change (2 ^ 8) with 256.
    pose proof (Z.pow_pos_nonneg 2 (8 * Z.of_nat n)).
    rewrite Z.rem_mul_r by lia. done.
Qed.

Lemma le_decode_encode_id n v :
  in_width (8 * Z.of_nat n) v -> le_decode (le_encode n v) = v.
Proof. intros. rewrite le_decode_encode. by apply wrap_small. Qed.

Lemma le_decode_app bs cs :
  le_decode (bs ++ cs) = le_decode bs + 2 ^ (8 * Z.of_nat (length bs)) * le_decode cs.
Proof.
  induction bs as [|b bs IH]; [cbn [app le_decode length]; lia|].
  cbn [app le_decode length]. rewrite IH. replace (8 * Z.of_nat (S (length bs))) with (8 + 8 * Z.of_nat (length bs)) by lia.
  rewrite Z.pow_add_r by lia. lia.
Qed.

Lemma le_decode_bound bs :
  Forall is_byte bs -> in_width (8 * Z.of_nat (length bs)) (le_decode bs).
Proof.
  induction 1 as [|b bs Hb Hbs [IH1 IH2]]; simpl le_decode; simpl length; [split; simpl; lia|].
  unfold is_byte in Hb. replace (8 * Z.of_nat (S (length bs))) with (8 + 8 * Z.of_nat (length bs)) by lia.
  unfold in_width. rewrite Z.pow_add_r by lia. change (2 ^ 8) with 256. lia.
Qed.

Lemma le_encode_decode bs : Forall is_byte bs -> le_encode (length bs) (le_decode bs) = bs.
Proof.
  induction 1 as [|b bs Hb Hbs IH]; simpl; [done|]. unfold is_byte in Hb.
  rewrite (Z.mul_comm 256), Z.mod_add, Z.div_add, Z.mod_small, Z.div_small by lia.
  by rewrite Z.add_0_l, IH.
Qed.

Lemma be_decode_encode_id n v :
  in_width (8 * Z.of_nat n) v -> be_decode (be_encode n v) = v.
Proof. intros. unfold be_decode, be_encode. rewrite rev_involutive. by apply le_decode_encode_id. Qed.

Lemma slice_app_skip {A} (l1 l2 : list A) (ofs n : nat) :
  (length l1 <= ofs)%nat -> slice (l1 ++ l2) ofs n = slice l2 (ofs - length l1) n.
Proof. intros. unfold slice. by rewrite drop_app_ge. Qed.

Lemma slice_app_here {A} (l1 l2 : list A) (ofs n : nat) :
  ofs = 0%nat -> n = length l1 -> slice (l1 ++ l2) ofs n = l1.
Proof. intros -> ->. unfold slice. rewrite drop_0. by rewrite take_app_length. Qed.

Lemma slice_all {A} (l : list A) (ofs n : nat) :
  ofs = 0%nat -> n = length l -> slice l ofs n = l.
Proof. intros -> ->. unfold slice. rewrite drop_0. by apply take_ge. Qed.

(** ** Integer intrinsics *)
(** The number of significant bits; [x.leading_zeros()] is [w - bit_length x]. *)
Definition bit_length (x : Z) : Z := if x =? 0 then 0 else Z.log2 x + 1.
Definition leading_zeros (w x : Z) : Z := w - bit_length x.
Definition checked_shl (w x s : Z) : option Z :=
  if s <? w then Some (wrap w (Z.shiftl x s)) else None.
Definition saturating_sub (x y : Z) : Z := Z.max 0 (x - y).
Definition wrapping_sub (w x y : Z) : Z := wrap w (x - y).
Definition wrapping_add (w x y : Z) : Z := wrap w (x + y).

Definition is_pow2 (x : Z) : Prop := exists k, 0 <= k /\ x = 2 ^ k.

(** Rounding down to a multiple of a power of two, as [x & !(align - 1)]. *)
Lemma land_align (x k : Z) :
  in_width 64 x -> 0 <= k < 64 ->
  Z.land x (wnot 64 (2 ^ k - 1)) = x / 2 ^ k * 2 ^ k.
Proof.
  intros Hx Hk. rewrite land_wnot by (done || lia).
  rewrite Z.sub_1_r, <- Z.ones_equiv, Z.ldiff_ones_r by lia.
  by rewrite Z.shiftl_mul_pow2, Z.shiftr_div_pow2 by lia.
Qed.

(** Equality of structures up to linear arithmetic in their fields. *)
Ltac feq_lia := first [reflexivity | lia | f_equal; feq_lia].

(** Linear arithmetic with division and remainder by constants. *)
Ltac div_lia := Z.to_euclidean_division_equations; lia.

(** ** Loops and [i64] arithmetic *)

(** [for x in l { f(x)?; }] *)
Fixpoint for_each {S A} (l : list A) (f : A -> M S unit) : M S unit :=
  match l with
  | [] => mret tt
  | x :: l => f x;; for_each l f
  end.

Lemma for_each_app {S A} (l k : list A) (f : A -> M S unit) s :
  for_each (l ++ k) f s = (for_each l f;; for_each k f) s.
Proof.
  revert s. induction l as [|x l IH]; intros s; [done|].
  cbn [app for_each]. unfold mbind, M_bind in *. destruct (f x s) as [[[]|e|e] s']; [apply IH|done..].
Qed.

(** [lo..hi] over [i64]. *)
Definition range (lo hi : Z) : list Z := (fun i => lo + Z.of_nat i) <$> seq 0 (Z.to_nat (hi - lo)).

Definition add64 (x y : Z) : outcome Z := i64_chk msg_add (x + y).
Definition sub64 (x y : Z) : outcome Z := i64_chk msg_sub (x - y).
Definition mul64 (x y : Z) : outcome Z := i64_chk msg_mul (x * y).

(** [let _ = m;] on a fallible call: the error is dropped, a panic is not. *)
Definition ignore_err {S} (m : M S unit) : M S unit := fun s =>
  match m s with (Err _, s') => (Ok tt, s') | r => r end.

Lemma i64_chk_ok msg z : - 2 ^ 63 <= z < 2 ^ 63 -> i64_chk msg z = Ok z.
Proof.
  intros. unfold i64_chk.
  by rewrite (proj2 (Z.leb_le _ _)), (proj2 (Z.ltb_lt _ _)) by lia.
Qed.

Lemma elem_of_range lo hi z : z ∈ range lo hi <-> lo <= z < hi.
Proof.
  unfold range. rewrite list_elem_of_fmap. setoid_rewrite elem_of_seq. split.
  - intros (i & -> & Hi). lia.
  - intros H. exists (Z.to_nat (z - lo)). lia.
Qed.
