(* ===== verification/Bits.v ===== *)
(** * Bit fields of registers and structures: [src/src/bits.rs], [src/src/volatile.rs].

    [Bits] is [extract_bits]; [Volatile] is the [Volatile<T>] cell with its generic
    [write_bits]/[read_bits], for a [tw]-bit unsigned [T].  The theorems identify both with
    the mathematical bit field ([get_field]/[set_field] of the prelude). *)

From S2P Require Import Prelude.

Module Bits.

(** [extract_bits::<T>(value, shift, width)] for a [tw]-bit [T]: [min(63, width)] low bits
    of [value >> shift] ([checked_shr] gives 0 for a shift of 64 or more), and 0 when the
    result does not fit [T]. *)
Definition extract_bits (tw value shift width : Z) : Z :=
  let mask := Z.shiftl 1 (Z.min 63 width) - 1 in
  let amount := wrap 32 shift in
  let value := Z.land (if amount <? 64 then Z.shiftr value amount else 0) mask in
  if value <? 2 ^ tw then value else 0.

End Bits.

Module Volatile.

(** [Volatile<T>] is one word; [read]/[write] are the volatile accesses. *)
Definition Volatile_read : M Z Z := get.
Definition Volatile_write (new_value : Z) : M Z unit := put new_value.

Definition write_bits (tw shift width value : Z) : M Z unit :=
  one ← lift (shl_chk tw 1 width);
  mask ← lift (sub_chk one 1);
  if negb (Z.land mask value =? value) then throw "Value out of range" else
  mask ← lift (shl_chk tw mask shift);
  v ← lift (shl_chk tw value shift);
  cur ← Volatile_read;
  Volatile_write (Z.lor v (Z.land cur (wnot tw mask))).

Definition read_bits (tw shift width : Z) : M Z Z :=
  one ← lift (shl_chk tw 1 width);
  mask ← lift (sub_chk one 1);
  cur ← Volatile_read;
  v ← lift (shr_chk tw cur shift);
  mret (Z.land v mask).

End Volatile.

Import Bits Volatile.

(** ** Lemmas *)

Lemma pow2_sub_one (n : Z) : 2 ^ n - 1 = Z.ones n.
Proof. by rewrite Z.ones_equiv, Z.sub_1_r. Qed.

Lemma ones_shiftl (n : Z) : 0 <= n -> Z.shiftl 1 n - 1 = Z.ones n.
Proof. intros. by rewrite Z.shiftl_1_l, pow2_sub_one. Qed.

Lemma land_ones_eqb (w v : Z) : 0 <= w -> 0 <= v -> (Z.land (Z.ones w) v =? v) = (v <? 2 ^ w).
Proof.
  intros Hw Hv. rewrite Z.land_comm, Z.land_ones by done.
  pose proof (Z.pow_pos_nonneg 2 w).
  destruct (Z.ltb_spec v (2 ^ w)).
  - rewrite Z.mod_small by lia. apply Z.eqb_refl.
  - apply Z.eqb_neq. pose proof (Z.mod_pos_bound v (2 ^ w)). lia.
Qed.

Lemma wrap_shiftl_one (tw n : Z) : 0 <= n < tw -> wrap tw (Z.shiftl 1 n) = 2 ^ n.
Proof.
  intros. rewrite Z.shiftl_1_l. apply wrap_small. split.
  - by apply Z.pow_nonneg.
  - by apply Z.pow_lt_mono_r; lia.
Qed.

Lemma wrap_shiftl_field (tw s w v : Z) :
  0 <= s -> 0 <= w -> s + w <= tw -> in_width w v -> wrap tw (Z.shiftl v s) = Z.shiftl v s.
Proof.
  intros Hs Hw Htw [Hv0 Hv]. apply wrap_small. split; [by apply Z.shiftl_nonneg|].
  rewrite Z.shiftl_mul_pow2 by done.
  apply Z.lt_le_trans with (2 ^ w * 2 ^ s).
  - apply Z.mul_lt_mono_pos_r; [by apply Z.pow_pos_nonneg|done].
  - rewrite <- Z.pow_add_r by done. apply Z.pow_le_mono_r; lia.
Qed.

Lemma ones_in_width (w : Z) : 0 <= w -> in_width w (Z.ones w).
Proof. intros. rewrite Z.ones_equiv. pose proof (Z.pow_pos_nonneg 2 w). split; lia. Qed.

(** The whole behaviour of [write_bits] on a field that lies inside the word. *)
Lemma write_bits_eq (tw s w v x : Z) :
  0 <= s < tw -> 0 <= w < tw -> s + w <= tw -> 0 <= v -> in_width tw x ->
  write_bits tw s w v x =
    if v <? 2 ^ w then (Ok tt, set_field x s w v) else (Err "Value out of range", x).
Proof.
  intros Hs Hw Hsw Hv Hx. unfold write_bits.
  rewrite (shl_chk_ok tw 1 w) by lia. mstep.
  rewrite wrap_shiftl_one by lia.
  rewrite sub_chk_ok by (pose proof (Z.pow_pos_nonneg 2 w); lia).
  mstep.
  rewrite pow2_sub_one, land_ones_eqb by lia.
  destruct (Z.ltb_spec v (2 ^ w)); cbn [negb]; [|reflexivity]. rewrite !shl_chk_ok by lia.
  rewrite !(wrap_shiftl_field tw s w) by (lia || (split; lia) || (apply ones_in_width; lia)).
  unfold mbind, M_bind, lift, Volatile_read, Volatile_write, get, put.
  rewrite <- (clear_or_is_set_field tw x s w v) by (done || lia).
  by rewrite Z.lor_comm.
Qed.

Lemma read_bits_eq (tw s w x : Z) :
  0 <= s < tw -> 0 <= w < tw -> read_bits tw s w x = (Ok (get_field x s w), x).
Proof.
  intros Hs Hw. unfold read_bits.
  rewrite (shl_chk_ok tw 1 w) by lia. mstep.
  rewrite wrap_shiftl_one by lia.
  rewrite sub_chk_ok by (pose proof (Z.pow_pos_nonneg 2 w); lia).
  mstep.
  unfold mbind, M_bind, Volatile_read, get. rewrite shr_chk_ok by lia.
  unfold lift, mret, M_ret, get_field.
  by rewrite pow2_sub_one.
Qed.

Lemma land_shiftr_ones (v s w : Z) :
  0 <= s -> 0 <= w -> Z.land (Z.shiftr v s) (Z.ones w) = (v / 2 ^ s) mod 2 ^ w.
Proof. intros. rewrite Z.land_ones by done. by rewrite Z.shiftr_div_pow2. Qed.

Lemma div_pow2_le (v s : Z) : 0 <= v -> 0 <= s -> v / 2 ^ s <= v.
Proof.
  intros. pose proof (Z.pow_pos_nonneg 2 s).
  apply Z.div_le_upper_bound; [lia|]. nia.
Qed.

(** A field that lies in the low 64 bits and fits the type. *)
Lemma extract_bits_field (tw v s w : Z) :
  0 <= s < 64 -> 0 <= w <= 63 -> w <= tw -> extract_bits tw v s w = get_field v s w.
Proof.
  intros Hs Hw Htw. unfold extract_bits. rewrite (wrap_small 32) by (split; lia).
  rewrite (proj2 (Z.ltb_lt s 64)), Z.min_r, ones_shiftl by lia. fold (get_field v s w).
  pose proof (get_field_width v s w) as [_ Hb]; [lia..|].
  pose proof (Z.pow_le_mono_r 2 w tw). by rewrite (proj2 (Z.ltb_lt _ _)) by lia.
Qed.

(** ** Properties *)

(** [extract_bits] on a [tw]-bit word ([tw] at most 64) is the arithmetic bit field
    [(value / 2^shift) mod 2^width] for every shift that fits the [u32] cast and every
    width, where widths of 64 and above behave as 63: so it never falls into its
    [unwrap_or_else] default, and a 64-bit extraction drops bit 63. *)
Theorem extract_bits_is_field (tw value shift width : Z)
  (Htw : 0 <= tw <= 64) (Hv : in_width tw value)
  (Hs : 0 <= shift < 2 ^ 32) (Hw : 0 <= width) :
  extract_bits tw value shift width = (value / 2 ^ shift) mod 2 ^ (Z.min 63 width).
Proof.
  unfold extract_bits. rewrite (wrap_small 32) by done.
  rewrite ones_shiftl by lia. destruct Hv as [Hv0 Hv1].
  assert (Hsmall : value < 2 ^ 64).
  { apply Z.lt_le_trans with (2 ^ tw); [done|]. apply Z.pow_le_mono_r; lia. }
  assert (Hbnd : 0 <= (value / 2 ^ shift) mod 2 ^ (Z.min 63 width) < 2 ^ tw).
  { pose proof (Z.pow_pos_nonneg 2 shift). pose proof (Z.pow_pos_nonneg 2 (Z.min 63 width)).
    pose proof (Z.div_pos value (2 ^ shift)). pose proof (div_pow2_le value shift).
    pose proof (Z.mod_le (value / 2 ^ shift) (2 ^ Z.min 63 width)).
    pose proof (Z.mod_pos_bound (value / 2 ^ shift) (2 ^ Z.min 63 width)). lia. }
  replace (if shift <? 64 then Z.shiftr value shift else 0) with (Z.shiftr value shift).
  - rewrite land_shiftr_ones by lia. by rewrite (proj2 (Z.ltb_lt _ _)) by lia.
  - destruct (Z.ltb_spec shift 64); [done|].
    rewrite Z.shiftr_div_pow2 by lia. apply Z.div_small. split; [done|].
    apply Z.lt_le_trans with (2 ^ 64); [done|]. apply Z.pow_le_mono_r; lia.
Qed.

Lemma extract_bits_is_field_witness :
  in_width 64 0xF234567812345678 /\
  extract_bits 64 0xF234567812345678 0 64 = 0x7234567812345678.
Proof.
  split; [split; lia|].
  rewrite (extract_bits_is_field 64 0xF234567812345678 0 64); [reflexivity|lia|split; lia|lia|lia].
Defined.

(** C40. [Volatile::write_bits] and [read_bits] are a lens on the bits of a [tw]-bit cell: a
    value that fits the field is stored and read back, every disjoint field keeps its
    value, the cell stays a [tw]-bit word; a value that does not fit is refused with the
    cell untouched. *)
Theorem write_bits_lens (tw s w v x s' w' : Z)
  (Hs : 0 <= s) (Hw : 0 <= w < tw) (Hsw : s + w <= tw) (Hv : 0 <= v) (Hx : in_width tw x)
  (Hst : s < tw) (Hs' : 0 <= s' < tw) (Hw' : 0 <= w' < tw) (Hd : s' + w' <= s \/ s + w <= s') :
  (v < 2 ^ w ->
   exists x', write_bits tw s w v x = (Ok tt, x') /\ in_width tw x' /\
     read_bits tw s w x' = (Ok v, x') /\
     (read_bits tw s' w' x').1 = (read_bits tw s' w' x).1) /\
  (2 ^ w <= v -> write_bits tw s w v x = (Err "Value out of range", x)).
Proof.
  rewrite write_bits_eq by (done || lia). split; intros Hlt.
  - rewrite (proj2 (Z.ltb_lt _ _)) by done. eexists. split; [done|].
    split; [apply set_field_width; (lia || done || (split; lia))|].
    rewrite !read_bits_eq by (done || lia).
    rewrite get_set_same by (lia || (split; lia)).
    by rewrite get_set_other by (lia || (split; lia)).
  - by rewrite (proj2 (Z.ltb_ge _ _)).
Qed.

Lemma write_bits_lens_witness :
  exists x', write_bits 32 24 8 0xAA 0x1234 = (Ok tt, x') /\ in_width 32 x' /\
     read_bits 32 24 8 x' = (Ok 0xAA, x') /\
     (read_bits 32 0 1 x').1 = (read_bits 32 0 1 0x1234).1.
Proof.
  apply (write_bits_lens 32 24 8 0xAA 0x1234 0 1); try lia. split; lia.
Defined.
