(* ===== verification/Uefi.v ===== *)
(** * The UEFI interface: [src/src/uefi.rs].

    The status every service returns, memory descriptors as the firmware lays them out in
    [MemoryMapHolder]'s buffer, and the iterator that decodes them.  The services themselves
    and the code that calls them are in [Boot]. *)

From S2P Require Import Prelude.

(** [EfiStatus] has one value, so the derived comparison has one answer.  A firmware that
    returns another word breaks the contract of the [extern] function; whatever it returns,
    the code cannot tell it from [Success]. *)
Inductive EfiStatus : Type := Success.
Definition EfiStatus_eq (a b : EfiStatus) : bool := match a, b with Success, Success => true end.

Inductive EfiMemoryType : Type :=
  | RESERVED | LOADER_CODE | LOADER_DATA | BOOT_SERVICES_CODE | BOOT_SERVICES_DATA
  | RUNTIME_SERVICES_CODE | RUNTIME_SERVICES_DATA | CONVENTIONAL_MEMORY | UNUSABLE_MEMORY
  | ACPI_RECLAIM_MEMORY | ACPI_MEMORY_NVS | MEMORY_MAPPED_IO | MEMORY_MAPPED_IO_PORT_SPACE
  | PAL_CODE | PERSISTENT_MEMORY.

#[global] Instance EfiMemoryType_eq_dec : EqDecision EfiMemoryType.
Proof. solve_decision. Defined.

(** The [repr(i64)] discriminants. *)
Definition EfiMemoryType_repr (t : EfiMemoryType) : Z :=
  match t with
  | RESERVED => 0 | LOADER_CODE => 1 | LOADER_DATA => 2 | BOOT_SERVICES_CODE => 3
  | BOOT_SERVICES_DATA => 4 | RUNTIME_SERVICES_CODE => 5 | RUNTIME_SERVICES_DATA => 6
  | CONVENTIONAL_MEMORY => 7 | UNUSABLE_MEMORY => 8 | ACPI_RECLAIM_MEMORY => 9
  | ACPI_MEMORY_NVS => 10 | MEMORY_MAPPED_IO => 11 | MEMORY_MAPPED_IO_PORT_SPACE => 12
  | PAL_CODE => 13 | PERSISTENT_MEMORY => 14
  end.

Definition EfiMemoryType_all : list EfiMemoryType :=
  [RESERVED; LOADER_CODE; LOADER_DATA; BOOT_SERVICES_CODE; BOOT_SERVICES_DATA;
   RUNTIME_SERVICES_CODE; RUNTIME_SERVICES_DATA; CONVENTIONAL_MEMORY; UNUSABLE_MEMORY;
   ACPI_RECLAIM_MEMORY; ACPI_MEMORY_NVS; MEMORY_MAPPED_IO; MEMORY_MAPPED_IO_PORT_SPACE;
   PAL_CODE; PERSISTENT_MEMORY].

(** A word read back as the enum; another word is not a value of the type. *)
Definition EfiMemoryType_of_repr (z : Z) : option EfiMemoryType :=
  if z <? 0 then None else EfiMemoryType_all !! Z.to_nat z.

Record EfiMemoryDescriptor : Type := {
  memory_type : EfiMemoryType;
  physical_start : Z;
  virtual_start : Z;
  number_of_pages : Z;
  attribute : Z;
}.

Definition MEMORY_MAP_BUFFER_SIZE : Z := 0x8000.

Record MemoryMapHolder : Type := {
  memory_map_buffer : list Z;
  memory_map_size : Z;
  map_key : Z;
  descriptor_size : Z;
  descriptor_version : Z;
}.

Definition MemoryMapHolder_new : MemoryMapHolder := {|
  memory_map_buffer := replicate (Z.to_nat MEMORY_MAP_BUFFER_SIZE) 0;
  memory_map_size := MEMORY_MAP_BUFFER_SIZE;
  map_key := 0;
  descriptor_size := 0;
  descriptor_version := 0;
|}.

(** [size_of::<EfiMemoryDescriptor>()], five 8-byte fields. *)
Definition descriptor_bytes : nat := 40.

(** The [&*(buffer.add(ofs) as *const EfiMemoryDescriptor)] cast: five little-endian words.
    A read past the buffer, or a word that is no [EfiMemoryType], is undefined behaviour in
    Rust and a panic of the model. *)
Definition read_descriptor (buf : list Z) (ofs : Z) : outcome EfiMemoryDescriptor :=
  let bs := slice buf (Z.to_nat ofs) descriptor_bytes in
  if negb (length bs =? descriptor_bytes)%nat then Panic msg_ub else
  let word i := le_decode (slice bs (8 * i) 8) in
  match EfiMemoryType_of_repr (word 0%nat) with
  | None => Panic msg_ub
  | Some t => Ok {| memory_type := t; physical_start := word 1%nat;
                    virtual_start := word 2%nat; number_of_pages := word 3%nat;
                    attribute := word 4%nat |}
  end.

(** [MemoryMapIterator::next]; the iterator's state is [ofs]. *)
Definition MemoryMapIterator_next (map : MemoryMapHolder) (ofs : Z)
    : outcome (option EfiMemoryDescriptor) * Z :=
  if memory_map_size map <=? ofs then (Ok None, ofs) else
  match read_descriptor (memory_map_buffer map) ofs with
  | Ok e => match add_chk 64 ofs (descriptor_size map) with
            | Ok ofs' => (Ok (Some e), ofs')
            | Err m => (Err m, ofs) | Panic m => (Panic m, ofs)
            end
  | Err m => (Err m, ofs) | Panic m => (Panic m, ofs)
  end.

(** The descriptors a [for e in memory_map.iter()] loop visits, with fuel for the number of
    [next] calls ([None]: out of fuel). *)
Fixpoint iter_from (fuel : nat) (map : MemoryMapHolder) (ofs : Z)
    : option (outcome (list EfiMemoryDescriptor)) :=
  match fuel with
  | O => None
  | S fuel =>
      match MemoryMapIterator_next map ofs with
      | (Ok None, _) => Some (Ok [])
      | (Ok (Some e), ofs') =>
          rest ← iter_from fuel map ofs';
          Some (es ← rest; Ok (e :: es))
      | (Err m, _) => Some (Err m)
      | (Panic m, _) => Some (Panic m)
      end
  end.

(** One call per [descriptor_size] bytes and the last one; a firmware whose
    [descriptor_size] is 0 makes the loop diverge. *)
Definition iter_fuel (map : MemoryMapHolder) : nat := S (Z.to_nat (memory_map_size map)).
Definition MemoryMapHolder_iter (map : MemoryMapHolder) : option (outcome (list EfiMemoryDescriptor)) :=
  iter_from (iter_fuel map) map 0.

(** ** The firmware's layout of a descriptor list, and its decoding *)

Definition descriptor_in_width (d : EfiMemoryDescriptor) : Prop :=
  in_width 64 (physical_start d) /\ in_width 64 (virtual_start d) /\
  in_width 64 (number_of_pages d) /\ in_width 64 (attribute d).

Definition encode_descriptor (d : EfiMemoryDescriptor) : list Z :=
  le_encode 8 (EfiMemoryType_repr (memory_type d)) ++ le_encode 8 (physical_start d) ++
  le_encode 8 (virtual_start d) ++ le_encode 8 (number_of_pages d) ++
  le_encode 8 (attribute d).
#[global] Arguments encode_descriptor : simpl never.

(** Descriptors at a stride that leaves [pad] bytes of vendor data after each. *)
Definition encode_map (pad : nat) (ds : list EfiMemoryDescriptor) : list Z :=
  mjoin ((fun d => encode_descriptor d ++ replicate pad 0) <$> ds).

Lemma EfiMemoryType_repr_inv t : EfiMemoryType_of_repr (EfiMemoryType_repr t) = Some t.
Proof. by destruct t. Qed.

Lemma EfiMemoryType_repr_width t : in_width 64 (EfiMemoryType_repr t).
Proof. destruct t; split; simpl; lia. Qed.

Lemma length_encode_descriptor d : length (encode_descriptor d) = descriptor_bytes.
Proof. unfold encode_descriptor. by rewrite !length_app, !length_le_encode. Qed.

(** Reading word [i] of an encoded descriptor. *)
Lemma encoded_word (d : EfiMemoryDescriptor) (i : nat) (v : Z) :
  [EfiMemoryType_repr (memory_type d); physical_start d; virtual_start d;
   number_of_pages d; attribute d] !! i = Some v ->
  in_width 64 v -> le_decode (slice (encode_descriptor d) (8 * i) 8) = v.
Proof.
  intros Hi Hv.
  assert (slice (encode_descriptor d) (8 * i) 8 = le_encode 8 v) as Hs.
  { do 5 (destruct i as [|i]; [injection Hi as <-; reflexivity|]). done. }
  rewrite Hs. by apply le_decode_encode_id.
Qed.

Lemma read_encoded_descriptor pre d suf ofs :
  descriptor_in_width d -> ofs = Z.of_nat (length pre) ->
  read_descriptor (pre ++ encode_descriptor d ++ suf) ofs = Ok d.
Proof.
  intros (Hp & Hv & Hn & Ha) ->. unfold read_descriptor. rewrite Nat2Z.id.
  rewrite slice_app_skip by lia. rewrite Nat.sub_diag.
  assert (slice (encode_descriptor d ++ suf) 0 descriptor_bytes = encode_descriptor d) as ->.
  { apply slice_app_here; [lia|]. by rewrite length_encode_descriptor. }
  rewrite length_encode_descriptor. rewrite Nat.eqb_refl. cbn [negb].
  rewrite (encoded_word d 0 _ eq_refl) by apply EfiMemoryType_repr_width.
  rewrite (encoded_word d 1 _ eq_refl), (encoded_word d 2 _ eq_refl),
    (encoded_word d 3 _ eq_refl), (encoded_word d 4 _ eq_refl) by done.
  rewrite EfiMemoryType_repr_inv. by destruct d.
Qed.

Lemma encode_map_cons pad d ds :
  encode_map pad (d :: ds) = encode_descriptor d ++ replicate pad 0 ++ encode_map pad ds.
Proof. unfold encode_map. rewrite fmap_cons. unfold mjoin; cbn [list_join]. by rewrite <- app_assoc. Qed.

Lemma length_encode_map pad ds :
  length (encode_map pad ds) = ((descriptor_bytes + pad) * length ds)%nat.
Proof.
  induction ds as [|d ds IH]; [simpl; lia|].
  rewrite encode_map_cons, !length_app, length_encode_descriptor, length_replicate, IH.
  cbn [length]. unfold descriptor_bytes. lia.
Qed.

Section iter.
Context (map : MemoryMapHolder) (pad : nat).
Hypothesis stride : descriptor_size map = Z.of_nat (descriptor_bytes + pad).

Lemma iter_from_encoded ds tl : forall pre fuel,
  memory_map_buffer map = pre ++ encode_map pad ds ++ tl ->
  memory_map_size map = Z.of_nat (length pre + length (encode_map pad ds)) ->
  memory_map_size map < 2 ^ 63 -> descriptor_size map < 2 ^ 63 ->
  Forall descriptor_in_width ds -> (length ds < fuel)%nat ->
  iter_from fuel map (Z.of_nat (length pre)) = Some (Ok ds).
Proof using stride.
  induction ds as [|d ds IH]; intros pre fuel Hbuf Hsz Hmax Hstr Hwf Hfuel;
    (destruct fuel as [|fuel]; [simpl in Hfuel; lia|]); cbn [iter_from].
  - unfold MemoryMapIterator_next. rewrite Hsz. simpl length.
    by rewrite (proj2 (Z.leb_le _ _)) by lia.
  - apply Forall_cons_1 in Hwf as [Hd Hds]. rewrite encode_map_cons in Hbuf, Hsz.
    rewrite !length_app, length_encode_descriptor, length_replicate in Hsz.
    rewrite <- !app_assoc in Hbuf. cbn [length] in Hfuel.
    unfold MemoryMapIterator_next.
    destruct (Z.leb_spec (memory_map_size map) (Z.of_nat (length pre)));
      [unfold descriptor_bytes in *; lia|].
    rewrite Hbuf at 1. rewrite read_encoded_descriptor by done.
    rewrite (add_chk_ok 64) by (unfold descriptor_bytes in *; lia).
    set (pre' := pre ++ encode_descriptor d ++ replicate pad 0).
    assert (length pre' = length pre + (descriptor_bytes + pad))%nat as Hpre'.
    { unfold pre'. rewrite !length_app, length_encode_descriptor, length_replicate. lia. }
    replace (Z.of_nat (length pre) + descriptor_size map) with (Z.of_nat (length pre')) by lia.
    rewrite IH; try done; [|lia|lia].
    rewrite Hbuf. unfold pre'. by rewrite <- !app_assoc.
Qed.
End iter.

(** ** Properties *)

(** The memory map iterator inverts the firmware's layout: over a buffer that holds the
    descriptors [ds] at the stride the firmware reports (40 bytes and any padding), with any
    bytes after them, [MemoryMapHolder::iter] visits exactly [ds], in order, and stops. *)
Theorem memory_map_iter_roundtrip (map : MemoryMapHolder) (pad : nat)
  (ds : list EfiMemoryDescriptor) (rest : list Z)
  (Hbuf : memory_map_buffer map = encode_map pad ds ++ rest)
  (Hsize : memory_map_size map = Z.of_nat (length (encode_map pad ds)))
  (Hstride : descriptor_size map = Z.of_nat (descriptor_bytes + pad))
  (Hmax : memory_map_size map < 2 ^ 63) (Hpad : descriptor_size map < 2 ^ 63)
  (Hds : Forall descriptor_in_width ds) :
  MemoryMapHolder_iter map = Some (Ok ds).
Proof.
  unfold MemoryMapHolder_iter.
  apply (iter_from_encoded map pad Hstride ds rest []); try done.
  - unfold iter_fuel. rewrite Hsize, length_encode_map. unfold descriptor_bytes. lia.
Qed.

Definition example_descriptors : list EfiMemoryDescriptor := [
  {| memory_type := BOOT_SERVICES_DATA; physical_start := 0; virtual_start := 0;
     number_of_pages := 1; attribute := 15 |};
  {| memory_type := CONVENTIONAL_MEMORY; physical_start := 0x100000; virtual_start := 0;
     number_of_pages := 0x700; attribute := 15 |}].

Definition example_map : MemoryMapHolder := {|
  memory_map_buffer := encode_map 8 example_descriptors ++ replicate 32 0xFF;
  memory_map_size := 96; map_key := 1; descriptor_size := 48; descriptor_version := 1 |}.

Lemma memory_map_iter_roundtrip_witness :
  MemoryMapHolder_iter example_map = Some (Ok example_descriptors).
Proof.
  apply (memory_map_iter_roundtrip example_map 8 example_descriptors (replicate 32 0xFF)).
  - reflexivity.
  - vm_compute; reflexivity.
  - reflexivity.
  - reflexivity.
  - reflexivity.
  - repeat constructor; simpl; lia.
Defined.
