(* ===== verification/Allocator.v ===== *)
(** * The heap: [src/src/allocator.rs].

    [FirstFitAllocator] keeps a linked list of block headers inside the memory it manages.
    The model's memory is the map from an address to the [Header] written there; a
    [Box<Header>] is that address.  [Allocator] holds the code, [BlockSpec] the abstract
    first-fit allocator on lists of blocks that it refines, and the lemmas and theorems
    follow. *)

From S2P Require Import Prelude Uefi.

Module Allocator.

Definition round_up_to_nearest_pow2 (v : Z) : outcome Z :=
  ok_or (checked_shl 64 1 (64 - leading_zeros 64 (wrapping_sub 64 v 1))) "Out of range".

Record Header : Type := {
  h_next_header : option Z;
  h_size : Z;
  h_is_allocated : bool;
  h_reserved : Z;
}.

Definition HEADER_SIZE : Z := 32.

(** The memory: which header is at which address. *)
Abbreviation heap := (gmap Z Header).

Definition set_next_header (o : option Z) (h : Header) : Header :=
  {| h_next_header := o; h_size := h_size h; h_is_allocated := h_is_allocated h;
     h_reserved := h_reserved h |}.
Definition set_size (s : Z) (h : Header) : Header :=
  {| h_next_header := h_next_header h; h_size := s; h_is_allocated := h_is_allocated h;
     h_reserved := h_reserved h |}.
Definition set_is_allocated (b : bool) (h : Header) : Header :=
  {| h_next_header := h_next_header h; h_size := h_size h; h_is_allocated := b;
     h_reserved := h_reserved h |}.

(** Dereferencing a [Box<Header>]; an address no header was written to is undefined
    behaviour in Rust and a panic of the model. *)
Definition deref (a : Z) : M heap Header := fun m =>
  match m !! a with Some h => (Ok h, m) | None => (Panic msg_ub, m) end.
Definition write_header (a : Z) (h : Header) : M heap unit := modify <[a := h]>.
Definition update_header (a : Z) (f : Header -> Header) : M heap unit :=
  h ← deref a; write_header a (f h).

Definition can_provide (h : Header) (size align : Z) : outcome bool :=
  s ← add_chk 64 size (HEADER_SIZE * 2);
  s ← add_chk 64 s align;
  Ok (s <=? h_size h).

Definition end_addr (self : Z) : M heap Z :=
  h ← deref self; lift (add_chk 64 self (h_size h)).

Definition new_from_addr (addr : Z) : M heap Z :=
  write_header addr {| h_next_header := None; h_size := 0; h_is_allocated := false;
                       h_reserved := 0 |};;
  mret addr.

Definition from_allocated_region (addr : Z) : outcome Z := sub_chk addr HEADER_SIZE.

(** [Option::take] on [self.next_header]. *)
Definition take_next_header (self : Z) : M heap (option Z) :=
  h ← deref self; write_header self (set_next_header None h);; mret (h_next_header h).

(** The padding block after an allocation that does not reach the end of the block. *)
Definition provide_padding (self header_for_allocated size_used : Z) : M heap Z :=
  e_alloc ← end_addr header_for_allocated;
  e_self ← end_addr self;
  if e_alloc =? e_self then mret size_used else
  header_for_padding ← new_from_addr e_alloc;
  update_header header_for_padding (set_is_allocated false);;
  pad ← lift (sub_chk e_self e_alloc);
  update_header header_for_padding (set_size pad);;
  size_used ← lift (add_chk 64 size_used pad);
  next ← take_next_header header_for_allocated;
  update_header header_for_padding (set_next_header next);;
  update_header header_for_allocated (set_next_header (Some header_for_padding));;
  mret size_used.

Definition provide (self size align : Z) : M heap (option Z) :=
  match round_up_to_nearest_pow2 size with
  | Err _ => mret None
  | Panic p => panic p
  | Ok rounded =>
      let size := Z.max rounded HEADER_SIZE in
      let align := Z.max align HEADER_SIZE in
      h ← deref self;
      if h_is_allocated h then mret None else
      can ← lift (can_provide h size align);
      if negb can then mret None else
      e ← end_addr self;
      top ← lift (sub_chk e size);
      low ← lift (sub_chk align 1);
      let allocated_addr := Z.land top (wnot 64 low) in
      ha ← lift (sub_chk allocated_addr HEADER_SIZE);
      header_for_allocated ← new_from_addr ha;
      update_header header_for_allocated (set_is_allocated true);;
      sz ← lift (add_chk 64 size HEADER_SIZE);
      update_header header_for_allocated (set_size sz);;
      size_used ← lift (add_chk 64 0 sz);
      next ← take_next_header self;
      update_header header_for_allocated (set_next_header next);;
      size_used ← provide_padding self header_for_allocated size_used;
      h ← deref self;
      need ← lift (add_chk 64 size_used HEADER_SIZE);
      if negb (need <=? h_size h) then panic "assertion failed" else
      left ← lift (sub_chk (h_size h) size_used);
      update_header self (set_size left);;
      update_header self (set_next_header (Some header_for_allocated));;
      mret (Some allocated_addr)
  end.

(** [FirstFitAllocator]: the list's head and the memory. *)
Record FirstFitAllocator : Type := { first_header : option Z; memory : heap }.

Definition in_memory {A} (m : M heap A) : M FirstFitAllocator A :=
  zoom memory (fun hp st => {| first_header := first_header st; memory := hp |}) m.

Record Layout : Type := { l_size : Z; l_align : Z }.

(** The loop of [alloc_with_options]: [header] is the link the cursor points at. *)
Fixpoint alloc_loop (fuel : nat) (header : option Z) (layout : Layout) : M heap Z :=
  match header with
  | None => mret 0
  | Some e =>
      match fuel with
      | O => panic "out of fuel"
      | S fuel =>
          r ← provide e (l_size layout) (l_align layout);
          match r with
          | Some p => mret p
          | None => h ← deref e; alloc_loop fuel (h_next_header h) layout
          end
      end
  end.

(** The list visits each header in memory at most once. *)
Definition alloc_with_options (layout : Layout) : M FirstFitAllocator Z := fun st =>
  in_memory (alloc_loop (size (memory st)) (first_header st) layout) st.

Definition dealloc (ptr : Z) (_layout : Layout) : M FirstFitAllocator unit :=
  region ← lift (from_allocated_region ptr);
  in_memory (update_header region (set_is_allocated false)).

Definition add_free_from_descriptor (desc : EfiMemoryDescriptor) : M FirstFitAllocator unit :=
  let start_addr := physical_start desc in
  sz ← lift (mul_chk 64 (number_of_pages desc) 4096);
  let '(start_addr, sz) :=
    if start_addr =? 0 then (start_addr + 4096, saturating_sub sz 4096)
    else (start_addr, sz) in
  if sz <=? 4096 then mret tt else
  header ← in_memory (new_from_addr start_addr);
  in_memory (update_header header (set_next_header None));;
  in_memory (update_header header (set_is_allocated false));;
  in_memory (update_header header (set_size sz));;
  st ← get;
  let prev_last := first_header st in
  put {| first_header := Some header; memory := memory st |};;
  in_memory (update_header header (set_next_header prev_last)).

Fixpoint init_loop (fuel : nat) (map : MemoryMapHolder) (ofs : Z) : M FirstFitAllocator unit :=
  match fuel with
  | O => panic "out of fuel"
  | S fuel =>
      match MemoryMapIterator_next map ofs with
      | (Ok None, _) => mret tt
      | (Ok (Some e), ofs') =>
          (if decide (memory_type e = CONVENTIONAL_MEMORY)
           then add_free_from_descriptor e else mret tt);;
          init_loop fuel map ofs'
      | (Err m, _) => throw m
      | (Panic m, _) => panic m
      end
  end.

Definition init_with_mmap (map : MemoryMapHolder) : M FirstFitAllocator unit :=
  init_loop (iter_fuel map) map 0.

(** The [static ALLOCATOR], before [init_with_mmap]. *)
Definition ALLOCATOR : FirstFitAllocator := {| first_header := None; memory := ∅ |}.

Definition LAYOUT_PAGE_4K : Layout := {| l_size := 4096; l_align := 4096 |}.

End Allocator.

Import Allocator.

(** ** The abstract allocator: a list of blocks, first fit, the block split from its top *)
Module BlockSpec.

Record Block : Type := { b_addr : Z; b_size : Z; b_alloc : bool }.

Definition b_end (b : Block) : Z := b_addr b + b_size b.

(** The size actually reserved for a request, and the alignment actually used. *)
Definition request_size (size : Z) : Z := Z.max (2 ^ Z.log2_up size) HEADER_SIZE.
Definition request_align (align : Z) : Z := Z.max align HEADER_SIZE.

Definition fits (b : Block) (size align : Z) : bool :=
  negb (b_alloc b) && (size + 2 * HEADER_SIZE + align <=? b_size b).

(** The address handed out of block [b]. *)
Definition place (b : Block) (size align : Z) : Z := (b_end b - size) / align * align.

Definition split_block (b : Block) (size align : Z) : list Block :=
  let p := place b size align in
  {| b_addr := b_addr b; b_size := p - HEADER_SIZE - b_addr b; b_alloc := false |} ::
  {| b_addr := p - HEADER_SIZE; b_size := size + HEADER_SIZE; b_alloc := true |} ::
  if p + size =? b_end b then []
  else [{| b_addr := p + size; b_size := b_end b - (p + size); b_alloc := false |}].

Fixpoint first_fit (bs : list Block) (size align : Z) : option (Z * list Block) :=
  match bs with
  | [] => None
  | b :: bs =>
      if fits b size align then Some (place b size align, split_block b size align ++ bs)
      else '(p, bs') ← first_fit bs size align; Some (p, b :: bs')
  end.

(** What [alloc] of a layout promises: the null pointer, or the first fit. *)
Definition spec_alloc (bs : list Block) (l : Layout) : option (Z * list Block) :=
  if (l_size l =? 0) || (2 ^ 63 <? l_size l) then None
  else first_fit bs (request_size (l_size l)) (request_align (l_align l)).

(** Freeing the block whose data starts at [p]. *)
Definition spec_dealloc (bs : list Block) (p : Z) : list Block :=
  (fun b => if b_addr b =? p - HEADER_SIZE
            then {| b_addr := b_addr b; b_size := b_size b; b_alloc := false |} else b) <$> bs.

(** Well-formed block lists: 32-byte granularity, no overlap, no wrap-around. *)
Definition block_ok (b : Block) : Prop :=
  (HEADER_SIZE | b_addr b) /\ (HEADER_SIZE | b_size b) /\ HEADER_SIZE <= b_size b /\
  0 < b_addr b /\ b_end b < 2 ^ 64.

Definition disjoint_blocks (b c : Block) : Prop := b_end b <= b_addr c \/ b_end c <= b_addr b.

Fixpoint pairwise_disjoint (bs : list Block) : Prop :=
  match bs with
  | [] => True
  | b :: bs => Forall (disjoint_blocks b) bs /\ pairwise_disjoint bs
  end.

Definition wf_blocks (bs : list Block) : Prop := Forall block_ok bs /\ pairwise_disjoint bs.

(** The memory [hp] holds the list of blocks [bs], linked from [o]. *)
Fixpoint chain (hp : heap) (o : option Z) (bs : list Block) : Prop :=
  match bs with
  | [] => o = None
  | b :: bs =>
      o = Some (b_addr b) /\
      exists h, hp !! b_addr b = Some h /\ h_size h = b_size b /\
        h_is_allocated h = b_alloc b /\ chain hp (h_next_header h) bs
  end.

(** The allocator's state represents [bs]. *)
Definition represents (st : FirstFitAllocator) (bs : list Block) : Prop :=
  chain (memory st) (first_header st) bs /\ wf_blocks bs.

(** The documented invariant of [core::alloc::Layout]. *)
Definition layout_ok (l : Layout) : Prop :=
  0 <= l_size l /\ is_pow2 (l_align l) /\
  (l_size l + (l_align l - 1)) / l_align l * l_align l < 2 ^ 63.

End BlockSpec.

Import BlockSpec.

(** ** Sizes and alignments *)

Lemma round_up_eq (v : Z) :
  in_width 64 v ->
  round_up_to_nearest_pow2 v =
    if (v =? 0) || (2 ^ 63 <? v) then Err "Out of range" else Ok (2 ^ Z.log2_up v).
Proof.
  intros [Hv0 Hv]. unfold round_up_to_nearest_pow2, leading_zeros, wrapping_sub.
  destruct (Z.eqb_spec v 0) as [->|Hne]; [reflexivity|]. cbn [orb].
  rewrite wrap_small by (split; lia).
  replace (64 - (64 - bit_length (v - 1))) with (Z.log2_up v).
  2: { unfold bit_length, Z.log2_up. rewrite <- Z.sub_1_r.
       destruct (Z.compare_spec 1 v); destruct (Z.eqb_spec (v - 1) 0); lia. }
  unfold checked_shl. pose proof (Z.log2_up_nonneg v).
  destruct (Z.ltb_spec (2 ^ 63) v) as [Hbig|Hsmall].
  - assert (63 < Z.log2_up v) by (apply Z.log2_up_lt_pow2; lia).
    by rewrite (proj2 (Z.ltb_ge _ _)) by lia.
  - assert (Z.log2_up v <= 63) by (apply Z.log2_up_le_pow2; lia).
    rewrite (proj2 (Z.ltb_lt _ _)) by lia. rewrite Z.shiftl_1_l. simpl. f_equal.
    apply wrap_small. split; [by apply Z.pow_nonneg|]. apply Z.pow_lt_mono_r; lia.
Qed.

Lemma pow2_divide (a b : Z) : 0 <= a <= b -> (2 ^ a | 2 ^ b).
Proof.
  intros. exists (2 ^ (b - a)). rewrite <- Z.pow_add_r by lia. f_equal. lia.
Qed.

Lemma max_header_pow2 (x : Z) :
  is_pow2 x -> exists k, 5 <= k /\ Z.max x HEADER_SIZE = 2 ^ k.
Proof.
  intros (k & Hk & ->). change HEADER_SIZE with (2 ^ 5).
  destruct (Z.le_ge_cases 5 k).
  - exists k. split; [done|]. apply Z.max_l. by apply Z.pow_le_mono_r.
  - exists 5. split; [done|]. apply Z.max_r. by apply Z.pow_le_mono_r.
Qed.

Lemma request_size_pow2 (size : Z) : exists k, 5 <= k /\ request_size size = 2 ^ k.
Proof. apply max_header_pow2. eexists. split; [apply Z.log2_up_nonneg|done]. Qed.

Lemma request_align_pow2 (align : Z) : is_pow2 align -> exists k, 5 <= k /\ request_align align = 2 ^ k.
Proof. apply max_header_pow2. Qed.

Lemma request_size_ge (size : Z) : 0 < size -> size <= request_size size.
Proof.
  intros. unfold request_size. pose proof (Z.log2_up_nonneg size).
  assert (size <= 2 ^ Z.log2_up size); [|lia].
  destruct (Z.eq_dec size 1) as [->|]; [done|]. apply Z.log2_up_spec. lia.
Qed.

Lemma request_size_le (size : Z) : size <= 2 ^ 63 -> request_size size <= 2 ^ 63.
Proof.
  intros. unfold request_size, HEADER_SIZE. apply Z.max_lub; [|lia].
  apply Z.pow_le_mono_r; [lia|]. destruct (Z.le_gt_cases size 1).
  - rewrite Z.log2_up_eqn0 by lia. lia.
  - apply Z.log2_up_le_pow2; lia.
Qed.

Lemma layout_bounds (l : Layout) :
  layout_ok l -> 0 < l_size l -> l_size l <= 2 ^ 63 /\ request_align (l_align l) <= 2 ^ 62.
Proof.
  intros (Hs & (k & Hk & Hal) & Hr) Hpos. rewrite Hal in *.
  pose proof (Z.pow_pos_nonneg 2 k) as Hp.
  assert (l_size l <= (l_size l + (2 ^ k - 1)) / 2 ^ k * 2 ^ k) as Hle.
  { pose proof (Z.mod_pos_bound (l_size l + (2 ^ k - 1)) (2 ^ k)).
    pose proof (Z.div_mod (l_size l + (2 ^ k - 1)) (2 ^ k)). lia. }
  assert (2 ^ k <= (l_size l + (2 ^ k - 1)) / 2 ^ k * 2 ^ k) as Hge.
  { assert (1 <= (l_size l + (2 ^ k - 1)) / 2 ^ k); [|nia].
    apply Z.div_le_lower_bound; lia. }
  assert (k < 63) by (apply (Z.pow_lt_mono_r_iff 2); lia).
  split; [lia|]. unfold request_align, HEADER_SIZE. apply Z.max_lub; [|lia].
  apply Z.pow_le_mono_r; lia.
Qed.

(** ** Geometry of a split *)

Definition within (c b : Block) : Prop := b_addr b <= b_addr c /\ b_end c <= b_end b.
Definition in_block (b : Block) (x : Z) : Prop := b_addr b <= x < b_end b.
Definition covers (bs : list Block) (x : Z) : Prop := Exists (fun b => in_block b x) bs.

Section split.
Context (b : Block) (s a ks ka : Z).
Hypothesis Hb : block_ok b.
Hypothesis Hks : 5 <= ks /\ s = 2 ^ ks.
Hypothesis Hka : 5 <= ka /\ a = 2 ^ ka.
Hypothesis Hfit : fits b s a = true.

Lemma split_place :
  let p := place b s a in
  (a | p) /\ (HEADER_SIZE | p) /\ (HEADER_SIZE | s) /\ HEADER_SIZE <= s /\
  b_addr b + 2 * HEADER_SIZE < p /\ p + s <= b_end b /\ b_end b < p + s + a.
Proof using Hb Hks Hka Hfit.
  destruct Hb as (Hba & Hbs & Hmin & Hpos & Hend), Hks as [Hks1 ->], Hka as [Hka1 ->].
  unfold fits in Hfit. apply andb_prop in Hfit as [_ Hfit'%Z.leb_le]. intros p.
  assert (2 ^ 5 <= 2 ^ ks) by (apply Z.pow_le_mono_r; lia).
  pose proof (Z.pow_pos_nonneg 2 ka) as Hapos.
  pose proof (Z.mod_pos_bound (b_end b - 2 ^ ks) (2 ^ ka)).
  pose proof (Z.div_mod (b_end b - 2 ^ ks) (2 ^ ka)) as Hdm.
  assert (p = b_end b - 2 ^ ks - (b_end b - 2 ^ ks) mod 2 ^ ka) as Hp
    by (unfold p, place; lia).
  unfold b_end, HEADER_SIZE in *.
  assert (2 ^ ka | p) by (exists ((b_addr b + b_size b - 2 ^ ks) / 2 ^ ka); done).
  split; [done|]. split; [|split; [|lia]].
  - apply Z.divide_trans with (2 ^ ka); [by apply (pow2_divide 5)|done].
  - by apply (pow2_divide 5).
Qed.

Lemma split_ok : Forall block_ok (split_block b s a).
Proof using Hb Hks Hka Hfit.
  pose proof split_place as (_ & Hp & Hs & Hsmin & Hlo & Hhi & _).
  destruct Hb as (Hba & Hbs & Hmin & Hpos & Hend).
  unfold split_block. set (p := place b s a) in *.
  assert (HEADER_SIZE | HEADER_SIZE) as H32 by apply Z.divide_refl.
  assert (HEADER_SIZE | p - HEADER_SIZE - b_addr b) as Hd1
    by (apply Z.divide_sub_r; [apply Z.divide_sub_r|]; done).
  assert (HEADER_SIZE | b_end b - (p + s)) as Hd2
    by (unfold b_end; apply Z.divide_sub_r; apply Z.divide_add_r; done).
  assert (HEADER_SIZE <= p - HEADER_SIZE - b_addr b) as Hmin1
    by (destruct Hd1; unfold HEADER_SIZE in *; lia).
  constructor; [|constructor].
  - repeat split; cbn [b_addr b_size b_end]; unfold b_end in *; cbn [b_addr b_size];
      unfold HEADER_SIZE in *; try lia; done.
  - repeat split; cbn [b_addr b_size]; unfold b_end in *; cbn [b_addr b_size];
      try (by apply Z.divide_sub_r); try (by apply Z.divide_add_r);
      unfold HEADER_SIZE in *; lia.
  - destruct (Z.eqb_spec (p + s) (b_end b)); constructor; [|done].
    assert (HEADER_SIZE <= b_end b - (p + s)) as Hmin2
      by (destruct Hd2; unfold HEADER_SIZE in *; lia).
    repeat split; cbn [b_addr b_size]; unfold b_end in *; cbn [b_addr b_size];
      try (by apply Z.divide_add_r); unfold HEADER_SIZE in *; try lia; done.
Qed.

Lemma split_disjoint : pairwise_disjoint (split_block b s a).
Proof using Hb Hks Hka Hfit.
  pose proof split_place as (_ & Hp & Hs & Hsmin & Hlo & Hhi & _).
  unfold split_block. set (p := place b s a) in *. unfold disjoint_blocks, b_end, HEADER_SIZE in *.
  destruct (p + s =? b_addr b + b_size b);
    simpl; repeat split; repeat constructor; unfold b_end; simpl; lia.
Qed.

Lemma split_within : Forall (fun c => within c b) (split_block b s a).
Proof using Hb Hks Hka Hfit.
  pose proof split_place as (_ & Hp & Hs & Hsmin & Hlo & Hhi & _).
  unfold split_block. set (p := place b s a) in *. unfold within, b_end, HEADER_SIZE in *.
  destruct (p + s =? b_addr b + b_size b);
    repeat constructor; simpl; lia.
Qed.

Lemma split_covers x : covers (split_block b s a) x <-> in_block b x.
Proof using Hb Hks Hka Hfit.
  pose proof split_place as (_ & Hp & Hs & Hsmin & Hlo & Hhi & _).
  unfold split_block, covers, in_block. set (p := place b s a) in *.
  unfold b_end, HEADER_SIZE in *.
  destruct (Z.eqb_spec (p + s) (b_addr b + b_size b));
    rewrite !Exists_cons, Exists_nil; cbn [b_addr b_size]; lia.
Qed.
End split.

(** ** Lists of disjoint blocks *)

Lemma disjoint_blocks_sym b c : disjoint_blocks b c -> disjoint_blocks c b.
Proof. unfold disjoint_blocks. tauto. Qed.

Lemma disjoint_within b c d : disjoint_blocks b c -> within d c -> disjoint_blocks b d.
Proof. unfold disjoint_blocks, within. lia. Qed.

Lemma within_in_block c b x : within c b -> in_block c x -> in_block b x.
Proof. unfold within, in_block. lia. Qed.

Lemma pairwise_app l1 l2 :
  pairwise_disjoint (l1 ++ l2) <->
  pairwise_disjoint l1 /\ pairwise_disjoint l2 /\
  Forall (fun b => Forall (disjoint_blocks b) l2) l1.
Proof.
  induction l1 as [|b l1 IH]; simpl; [by rewrite Forall_nil; intuition|].
  rewrite IH, Forall_app, Forall_cons. intuition.
Qed.

(** Replacing a block by disjoint parts of it keeps the list well-formed. *)
Lemma wf_replace l1 b l2 cs :
  wf_blocks (l1 ++ b :: l2) -> Forall block_ok cs -> pairwise_disjoint cs ->
  Forall (fun c => within c b) cs -> wf_blocks (l1 ++ cs ++ l2).
Proof.
  intros [Hok Hpw] Hcs Hpcs Hw.
  apply Forall_app in Hok as [Hok1 [_ Hok2]%Forall_cons_1].
  apply pairwise_app in Hpw as (Hp1 & [Hb2 Hp2] & H12).
  split; [by rewrite !Forall_app|]. rewrite !pairwise_app. split_and!; try done.
  - eapply Forall_impl; [exact Hw|]. intros c Hc. eapply Forall_impl; [exact Hb2|].
    intros d Hd. apply disjoint_blocks_sym. eapply disjoint_within; [|exact Hc].
    by apply disjoint_blocks_sym.
  - eapply Forall_impl; [exact H12|]. intros d [Hdb Hd2]%Forall_cons_1.
    apply Forall_app. split; [|done]. eapply Forall_impl; [exact Hw|].
    intros c Hc. by eapply disjoint_within.
Qed.

Lemma wf_split l1 b l2 s a :
  wf_blocks (l1 ++ b :: l2) -> fits b s a = true ->
  (exists ks, 5 <= ks /\ s = 2 ^ ks) -> (exists ka, 5 <= ka /\ a = 2 ^ ka) ->
  wf_blocks (l1 ++ split_block b s a ++ l2).
Proof.
  intros Hwf Hf (ks & Hks) (ka & Hka).
  assert (block_ok b) by (destruct Hwf as [Hok _]; apply Forall_app in Hok as [_ [? _]%Forall_cons_1]; done).
  eapply wf_replace; [exact Hwf|..]; [by eapply split_ok|by eapply split_disjoint|by eapply split_within].
Qed.

Lemma first_fit_some bs s a p bs' :
  first_fit bs s a = Some (p, bs') ->
  exists l1 b l2, bs = l1 ++ b :: l2 /\ Forall (fun c => fits c s a = false) l1 /\
    fits b s a = true /\ p = place b s a /\ bs' = l1 ++ split_block b s a ++ l2.
Proof.
  revert bs'. induction bs as [|b bs IH]; intros bs' H; [done|]. cbn [first_fit] in H.
  destruct (fits b s a) eqn:Hf.
  - simplify_eq. by exists [], b, bs.
  - destruct (first_fit bs s a) as [[p' bs0]|] eqn:Hff; [|done]. simplify_eq/=.
    destruct (IH _ eq_refl) as (l1 & c & l2 & -> & Hl1 & Hc & -> & ->).
    exists (b :: l1), c, l2. split_and!; try done. by constructor.
Qed.

Lemma first_fit_none bs s a :
  first_fit bs s a = None <-> Forall (fun c => fits c s a = false) bs.
Proof.
  induction bs as [|b bs IH]; cbn [first_fit]; [split; [constructor|done]|].
  rewrite Forall_cons. destruct (fits b s a) eqn:Hf; [split; [done|intros [? _]; done]|].
  destruct (first_fit bs s a) as [[p bs']|]; simpl.
  - split; [done|]. intros [_ H]. by apply IH in H.
  - split; [|done]. intros _. split; [done|]. by apply IH.
Qed.

(** ** The linked list in memory *)

Lemma chain_frame hp hp' o bs :
  chain hp o bs -> (forall b, b ∈ bs -> hp' !! b_addr b = hp !! b_addr b) -> chain hp' o bs.
Proof.
  revert o. induction bs as [|b bs IH]; intros o; [done|].
  intros [-> (h & Hh & Hs & Ha & Hc)] Hf. split; [done|]. exists h. rewrite Hf by set_solver.
  split_and!; try done. apply IH; [done|]. intros c Hc'. apply Hf. set_solver.
Qed.

Lemma deref_ok hp a h : hp !! a = Some h -> deref a hp = (Ok h, hp).
Proof. intros H. unfold deref. by rewrite H. Qed.

Lemma update_header_ok hp a f h :
  hp !! a = Some h -> update_header a f hp = (Ok tt, <[a := f h]> hp).
Proof. intros H. unfold update_header. by erewrite bind_ok by (by apply deref_ok). Qed.

Lemma take_next_ok hp a h :
  hp !! a = Some h ->
  take_next_header a hp = (Ok (h_next_header h), <[a := set_next_header None h]> hp).
Proof. intros H. unfold take_next_header. by erewrite bind_ok by (by apply deref_ok). Qed.

Lemma end_addr_ok hp a h :
  hp !! a = Some h -> a + h_size h < 2 ^ 64 -> end_addr a hp = (Ok (a + h_size h), hp).
Proof.
  intros H Hs. unfold end_addr. erewrite bind_ok by (by apply deref_ok).
  unfold lift. by rewrite add_chk_ok.
Qed.

Lemma bind_lift_ok {S A B} (r : outcome A) (k : A -> M S B) s a :
  r = Ok a -> (lift r ≫= k) s = k a s.
Proof. by intros ->. Qed.

(** Walk one header access of [provide], whose target the known lookups determine. *)
Ltac hstep :=
  lazymatch goal with
  | |- context [(lift _ ≫= _) _] =>
      erewrite bind_lift_ok by
        (first [eapply add_chk_ok | eapply sub_chk_ok | eapply mul_chk_ok | reflexivity];
         cbn [h_size set_size set_next_header set_is_allocated]; lia); cbv beta
  | |- context [(deref _ ≫= _) _] =>
      erewrite bind_ok by (apply deref_ok; by simplify_map_eq); cbv beta
  | |- context [(update_header _ _ ≫= _) _] =>
      erewrite bind_ok by (eapply update_header_ok; by simplify_map_eq); cbv beta
  | |- context [(take_next_header _ ≫= _) _] =>
      erewrite bind_ok by (eapply take_next_ok; by simplify_map_eq); cbv beta
  | |- context [(end_addr _ ≫= _) _] =>
      erewrite bind_ok by (eapply end_addr_ok; [by simplify_map_eq |
        cbn [h_size set_size set_next_header set_is_allocated]; lia]); cbv beta
  | |- context [(new_from_addr _ ≫= _) _] => mstep
  end; cbn [h_size h_next_header h_is_allocated h_reserved set_size set_next_header set_is_allocated].

Lemma can_provide_eq h s a :
  s <= 2 ^ 63 -> a <= 2 ^ 62 -> can_provide h s a = Ok (s + 2 * HEADER_SIZE + a <=? h_size h).
Proof.
  intros. unfold can_provide. rewrite add_chk_ok by (unfold HEADER_SIZE; lia).
  cbn [mbind outcome_bind]. by rewrite add_chk_ok by (unfold HEADER_SIZE; lia).
Qed.

(** Two memories built by writes to distinct addresses. *)
Ltac finish_heap :=
  apply map_eq; intros ?i; rewrite !lookup_insert;
  repeat case_decide; subst; try done; try lia.

Lemma provide_padding_eq hp self ha hs hA used :
  hp !! self = Some hs -> hp !! ha = Some hA ->
  let ea := ha + h_size hA in let es := self + h_size hs in
  self <> ha -> ea <> self -> ea <> ha -> ea <= es < 2 ^ 64 -> used + (es - ea) < 2 ^ 64 ->
  provide_padding self ha used hp =
    (Ok (used + (es - ea)),
     if ea =? es then hp else
     <[ha := set_next_header (Some ea) hA]>
       (<[ea := {| h_next_header := h_next_header hA; h_size := es - ea;
                   h_is_allocated := false; h_reserved := 0 |}]> hp)).
Proof.
  intros Hs HA ea es Hne Hne1 Hne2 Hle Hu. unfold provide_padding.
  erewrite bind_ok by (eapply end_addr_ok; [done|lia]). fold ea.
  erewrite bind_ok by (eapply end_addr_ok; [done|lia]). fold es.
  destruct (Z.eqb_spec ea es) as [Heq|Hneq].
  - unfold mret, M_ret. feq_lia.
  - do 8 hstep.
    unfold mret, M_ret. f_equal. finish_heap.
Qed.

Section provide_proof.
Context (b : Block) (h : Header) (hp : heap) (size align s a ks ka : Z).
Hypothesis Hs : request_size size = s.
Hypothesis Ha : request_align align = a.
Hypothesis Hb : block_ok b.
Hypothesis Hlookup : hp !! b_addr b = Some h.
Hypothesis Hsize : h_size h = b_size b.
Hypothesis Hfree : h_is_allocated h = b_alloc b.
Hypothesis Hks : 5 <= ks /\ s = 2 ^ ks.
Hypothesis Hka : 5 <= ka /\ a = 2 ^ ka.
Hypothesis Hs0 : 0 < size <= 2 ^ 63.
Hypothesis Hbound : s <= 2 ^ 63 /\ a <= 2 ^ 62.

Lemma provide_round : round_up_to_nearest_pow2 size = Ok (2 ^ Z.log2_up size).
Proof.
  clear Hbound Hka Hks Hlookup Hfree Hsize Hb. rewrite round_up_eq by (split; lia).
  destruct (Z.eqb_spec size 0); [lia|]. destruct (Z.ltb_spec (2 ^ 63) size); [lia|]. done.
Qed.

(** A block that is taken or too small is left alone. *)
Lemma provide_miss : fits b s a = false -> provide (b_addr b) size align hp = (Ok None, hp).
Proof.
  intros Hf. unfold provide. rewrite provide_round.
  fold (request_size size) (request_align align). rewrite Hs, Ha.
  erewrite bind_ok by (by apply deref_ok).
  unfold fits in Hf. rewrite Hfree. destruct (b_alloc b); [done|]. cbn [negb andb] in Hf.
  rewrite can_provide_eq, Hsize, Hf by lia. done.
Qed.

(** The header left in each part of a split block. *)
Definition split_headers : heap :=
  let p := place b s a in
  let alloc_next := if p + s =? b_end b then h_next_header h else Some (p + s) in
  let hp1 := if p + s =? b_end b then hp else
    <[p + s := {| h_next_header := h_next_header h; h_size := b_end b - (p + s);
                  h_is_allocated := false; h_reserved := 0 |}]> hp in
  <[b_addr b := {| h_next_header := Some (p - HEADER_SIZE);
                   h_size := p - HEADER_SIZE - b_addr b;
                   h_is_allocated := h_is_allocated h; h_reserved := h_reserved h |}]>
  (<[p - HEADER_SIZE := {| h_next_header := alloc_next; h_size := s + HEADER_SIZE;
                           h_is_allocated := true; h_reserved := 0 |}]> hp1).

Lemma provide_hit :
  fits b s a = true ->
  provide (b_addr b) size align hp = (Ok (Some (place b s a)), split_headers).
Proof.
  intros Hf. pose proof (split_place b s a ks ka Hb Hks Hka Hf) as
    (Hpa & Hp32 & _ & Hsmin & Hlo & Hhi & Hhi2).
  unfold provide. rewrite provide_round.
  fold (request_size size) (request_align align). rewrite Hs, Ha.
  pose proof Hf as Hf'. unfold fits in Hf'.
  apply andb_prop in Hf' as [Hna%negb_true_iff Hle]. pose proof (proj1 (Z.leb_le _ _) Hle) as Hle'.
  assert (0 < a) as Hapos by (destruct Hka as [? ->]; apply Z.pow_pos_nonneg; lia).
  assert (place b s a = Z.land (b_end b - s) (wnot 64 (a - 1))) as Hplace.
  { destruct Hka as [? Haeq]. rewrite Haeq. rewrite land_align; [done| |].
    - destruct Hb as (_ & _ & _ & ? & ?). unfold in_width, b_end, HEADER_SIZE in *. lia.
    - split; [lia|]. apply (Z.pow_lt_mono_r_iff 2); lia. }
  destruct Hb as (_ & _ & Hbmin & Hbpos & Hbend).
  clear Hs Ha Hf. unfold split_headers. set (p := place b s a) in *.
  assert (HEADER_SIZE = 32) as H32 by done.
  unfold b_end in *.
  hstep. rewrite Hfree, Hna.
  rewrite can_provide_eq, Hsize, Hle by lia. mstep. cbn [negb].
  hstep. rewrite Hsize. hstep. hstep. rewrite <- Hplace. hstep.
  set (ha := p - HEADER_SIZE) in *.
  assert (ha <> b_addr b) as Hne by lia. assert (b_addr b <> ha) as Hne' by lia.
  do 7 hstep.
  erewrite bind_ok by (eapply (provide_padding_eq _ (b_addr b) ha);
    [by simplify_map_eq|by simplify_map_eq|lia|cbn; lia..]).
  cbn [h_size h_next_header set_size set_next_header set_is_allocated].
  replace (ha + (s + HEADER_SIZE)) with (p + s) by lia. rewrite Hsize.
  destruct (Z.eqb_spec (p + s) (b_addr b + b_size b)) as [Heq|Hneq].
  - do 2 hstep. rewrite Hsize. rewrite (proj2 (Z.leb_le _ _)) by lia. cbn [negb].
    do 3 hstep. unfold mret, M_ret. f_equal.
    finish_heap. unfold set_next_header, set_size. cbn. rewrite Hfree, Hna.
    fold p. unfold ha. feq_lia.
  - assert (p + s <> b_addr b /\ p + s <> ha) as [Hne1 Hne2] by lia.
    do 2 hstep. rewrite Hsize. rewrite (proj2 (Z.leb_le _ _)) by lia. cbn [negb].
    do 3 hstep. unfold mret, M_ret. f_equal.
    finish_heap. unfold set_next_header, set_size. cbn. rewrite Hfree, Hna.
    fold p. unfold ha. feq_lia.
Qed.
End provide_proof.

Section split_chain.
Context (b : Block) (h : Header) (hp : heap) (s a ks ka : Z) (rest : list Block).
Hypothesis Hb : block_ok b.
Hypothesis Hlookup : hp !! b_addr b = Some h.
Hypothesis Hfree : h_is_allocated h = b_alloc b.
Hypothesis Hks : 5 <= ks /\ s = 2 ^ ks.
Hypothesis Hka : 5 <= ka /\ a = 2 ^ ka.
Hypothesis Hfit : fits b s a = true.

(** A split only writes inside the block. *)
Lemma split_headers_frame x :
  ~ in_block b x -> split_headers b h hp s a !! x = hp !! x.
Proof.
  pose proof (split_place b s a ks ka Hb Hks Hka Hfit) as (_ & _ & _ & ? & ? & ? & ?).
  unfold split_headers, in_block. intros Hx.
  assert (HEADER_SIZE = 32) by done.
  rewrite !lookup_insert_ne by lia.
  destruct (Z.eqb_spec (place b s a + s) (b_end b)); [done|].
  by rewrite lookup_insert_ne by lia.
Qed.

Lemma split_headers_chain :
  chain hp (h_next_header h) rest -> Forall (disjoint_blocks b) rest -> Forall block_ok rest ->
  chain (split_headers b h hp s a) (Some (b_addr b)) (split_block b s a ++ rest).
Proof.
  intros Hch Hdis Hok.
  assert (chain (split_headers b h hp s a) (h_next_header h) rest) as Hch'.
  { eapply chain_frame; [exact Hch|]. intros c Hc. apply split_headers_frame.
    rewrite Forall_forall in Hdis. rewrite Forall_forall in Hok. specialize (Hdis c Hc).
    destruct (Hok c Hc) as (_ & _ & Hmin & _ & _).
    unfold disjoint_blocks, in_block, b_end, HEADER_SIZE in *. lia. }
  pose proof (split_place b s a ks ka Hb Hks Hka Hfit) as (_ & _ & _ & Hs & Hlo & Hhi & _).
  pose proof Hfit as Hf. unfold fits in Hf. apply andb_prop in Hf as [Hna%negb_true_iff _].
  assert (HEADER_SIZE = 32) as H32 by done.
  revert Hch'. unfold split_headers, split_block. set (p := place b s a) in *. intros Hch'.
  destruct (Z.eqb_spec (p + s) (b_end b)) as [Heq|Hneq]; cbn [app chain b_addr b_size b_alloc].
  - split; [done|]. eexists. rewrite lookup_insert_eq. split_and!; try done; [cbn; congruence|].
    eexists. rewrite lookup_insert_ne, lookup_insert_eq by lia. done.
  - split; [done|]. eexists. rewrite lookup_insert_eq. split_and!; try done; [cbn; congruence|].
    eexists. rewrite lookup_insert_ne, lookup_insert_eq by lia.
    split_and!; try done. eexists.
    rewrite !lookup_insert_ne, lookup_insert_eq by lia. done.
Qed.
End split_chain.

(** [alloc_loop] on the linked list is [first_fit] on the blocks it represents. *)
Lemma alloc_loop_refines (l : Layout) bs : forall hp o fuel,
  layout_ok l -> 0 < l_size l -> l_size l <= 2 ^ 63 ->
  chain hp o bs -> wf_blocks bs -> (length bs <= fuel)%nat ->
  match first_fit bs (request_size (l_size l)) (request_align (l_align l)) with
  | None => alloc_loop fuel o l hp = (Ok 0, hp)
  | Some (p, bs') =>
      exists hp', alloc_loop fuel o l hp = (Ok p, hp') /\ chain hp' o bs' /\
        (forall x, ~ covers bs x -> hp' !! x = hp !! x)
  end.
Proof.
  intros hp o fuel Hl Hpos Hmax. revert hp o fuel.
  destruct (layout_bounds l Hl Hpos) as [_ Hamax].
  destruct (request_size_pow2 (l_size l)) as (ks & Hks).
  destruct (request_align_pow2 (l_align l)) as (ka & Hka); [by destruct Hl as (_ & ? & _)|].
  pose proof (request_size_le _ Hmax) as Hsmax.
  induction bs as [|b bs IH]; intros hp o fuel Hch Hwf Hfuel; cbn [first_fit].
  { simpl in Hch. subst o. by destruct fuel. }
  destruct Hch as [-> (h & Hh & Hsz & Hal & Hch)]. destruct Hwf as [[Hb Hok]%Forall_cons_1 [Hdis Hpw]].
  destruct fuel as [|fuel]; [simpl in Hfuel; lia|]. simpl in Hfuel. cbn [alloc_loop].
  destruct (fits b _ _) eqn:Hf.
  - exists (split_headers b h hp (request_size (l_size l)) (request_align (l_align l))).
    split_and!.
    + by erewrite bind_ok by (eapply (provide_hit b h hp); eauto; lia).
    + by eapply split_headers_chain.
    + intros x Hx. eapply split_headers_frame; eauto. intros Hin. apply Hx. by left.
  - erewrite bind_ok by (eapply (provide_miss b h hp); eauto; lia). cbv beta iota.
    erewrite bind_ok by (by apply deref_ok).
    cbv beta. specialize (IH hp (h_next_header h) fuel Hch (conj Hok Hpw) ltac:(lia)).
    destruct (first_fit bs _ _) as [[p bs']|]; [|done]. cbn.
    destruct IH as (hp' & Hrun & Hch' & Hframe). exists hp'. split_and!; [done|done| |].
    + exists h. rewrite Hframe; [done|]. intros Hin. apply Exists_exists in Hin as (c & Hc & Hcin).
      rewrite Forall_forall in Hdis. specialize (Hdis c Hc).
      destruct Hb as (_ & _ & Hmin & _).
      unfold disjoint_blocks, in_block, b_end, HEADER_SIZE in *. lia.
    + intros x Hx. apply Hframe. intros Hin. apply Hx. by right.
Qed.

(** The fuel [alloc_with_options] takes is enough: the listed headers are distinct. *)
Lemma chain_dom hp o bs : chain hp o bs -> Forall (fun b => is_Some (hp !! b_addr b)) bs.
Proof.
  revert o. induction bs as [|b bs IH]; intros o; [constructor|].
  intros [_ (h & Hh & _ & _ & Hc)]. constructor; [by exists h|]. by eapply IH.
Qed.

Lemma wf_addrs_nodup bs : wf_blocks bs -> NoDup (b_addr <$> bs).
Proof.
  intros [Hok Hpw]. induction bs as [|b bs IH]; [constructor|]. simpl in *.
  apply Forall_cons_1 in Hok as [Hb Hok]. destruct Hpw as [Hd Hpw].
  constructor; [|by apply IH]. intros (c & Hac & Hc)%list_elem_of_fmap.
  rewrite Forall_forall in Hd. rewrite Forall_forall in Hok. specialize (Hd c Hc). specialize (Hok c Hc).
  destruct Hb as (_ & _ & ? & _), Hok as (_ & _ & ? & _).
  unfold disjoint_blocks, b_end, HEADER_SIZE in *. lia.
Qed.

Lemma nodup_dom_length (hp : heap) (l : list Z) :
  NoDup l -> Forall (fun a => is_Some (hp !! a)) l -> (length l <= size hp)%nat.
Proof.
  intros Hnd Hin. rewrite <- (size_list_to_set (C := gset Z) l Hnd), <- size_dom.
  apply subseteq_size. intros x Hx%elem_of_list_to_set.
  rewrite Forall_forall in Hin. apply elem_of_dom. by apply Hin.
Qed.

Lemma chain_fuel st bs : represents st bs -> (length bs <= size (memory st))%nat.
Proof.
  intros [Hch Hwf]. rewrite <- (length_fmap b_addr bs).
  apply nodup_dom_length; [by apply wf_addrs_nodup|].
  apply Forall_fmap. eapply Forall_impl; [by eapply chain_dom|]. done.
Qed.

Lemma provide_zero hp self align : provide self 0 align hp = (Ok None, hp).
Proof. reflexivity. Qed.

Lemma alloc_loop_zero (l : Layout) bs : forall hp o fuel,
  l_size l = 0 -> chain hp o bs -> (length bs <= fuel)%nat -> alloc_loop fuel o l hp = (Ok 0, hp).
Proof.
  induction bs as [|b bs IH]; intros hp o fuel Hl Hch Hfuel.
  - simpl in Hch. subst o. by destruct fuel.
  - destruct Hch as [-> (h & Hh & _ & _ & Hch)]. destruct fuel; simpl in Hfuel; [lia|].
    cbn [alloc_loop]. rewrite Hl. erewrite bind_ok by (apply provide_zero). cbv beta iota.
    erewrite bind_ok by (by apply deref_ok). apply IH; [done|done|lia].
Qed.

Lemma state_eta st : {| first_header := first_header st; memory := memory st |} = st.
Proof. by destruct st. Qed.

Lemma first_fit_wf bs s a p bs' :
  wf_blocks bs -> (exists ks, 5 <= ks /\ s = 2 ^ ks) -> (exists ka, 5 <= ka /\ a = 2 ^ ka) ->
  first_fit bs s a = Some (p, bs') -> wf_blocks bs'.
Proof.
  intros Hwf Hs Ha Hff.
  destruct (first_fit_some _ _ _ _ _ Hff) as (l1 & b & l2 & -> & _ & Hfit & _ & ->).
  by apply wf_split.
Qed.

Lemma alloc_with_options_refines st bs l :
  represents st bs -> layout_ok l ->
  match spec_alloc bs l with
  | None => alloc_with_options l st = (Ok 0, st)
  | Some (p, bs') => exists st', alloc_with_options l st = (Ok p, st') /\ represents st' bs'
  end.
Proof.
  intros Hrep Hl. pose proof (chain_fuel st bs Hrep) as Hfuel. destruct Hrep as [Hch Hwf].
  unfold spec_alloc, alloc_with_options, in_memory, zoom.
  destruct (Z.eqb_spec (l_size l) 0) as [Hz|Hnz]; cbn [orb].
  { rewrite (alloc_loop_zero l bs) by done. by rewrite state_eta. }
  assert (0 < l_size l) as Hpos by (destruct Hl; lia).
  destruct (layout_bounds l Hl Hpos) as [Hmax _].
  rewrite (proj2 (Z.ltb_ge _ _)) by done.
  pose proof (alloc_loop_refines l bs _ _ _ Hl Hpos Hmax Hch Hwf Hfuel) as Href.
  destruct (first_fit bs _ _) as [[p bs']|] eqn:Hff.
  - destruct Href as (hp' & -> & Hch' & _). eexists. split; [done|]. split; [done|].
    eapply first_fit_wf; [exact Hwf|..|exact Hff].
    + apply request_size_pow2.
    + apply request_align_pow2. by destruct Hl as (_ & ? & _).
  - rewrite Href. by rewrite state_eta.
Qed.

(** ** Deallocation *)

Lemma wf_dealloc bs p : wf_blocks bs -> wf_blocks (spec_dealloc bs p).
Proof.
  intros [Hok Hpw]. set (f := fun b => if b_addr b =? p - HEADER_SIZE
    then {| b_addr := b_addr b; b_size := b_size b; b_alloc := false |} else b).
  assert (forall b, b_addr (f b) = b_addr b /\ b_size (f b) = b_size b) as Hf
    by (intros b; unfold f; by destruct (_ =? _)).
  assert (forall b, b_end (f b) = b_end b) as Hfe
    by (intros b; unfold b_end; by destruct (Hf b) as [-> ->]).
  unfold spec_dealloc. fold f. split.
  - apply Forall_fmap. eapply Forall_impl; [exact Hok|]. intros b. unfold block_ok. simpl.
    rewrite Hfe. by destruct (Hf b) as [-> ->].
  - clear Hok. induction bs as [|b bs IH]; [done|]. destruct Hpw as [Hd Hpw].
    split; [|by apply IH]. apply Forall_fmap. eapply Forall_impl; [exact Hd|].
    intros c. unfold disjoint_blocks. simpl. rewrite !Hfe.
    destruct (Hf b) as [-> _], (Hf c) as [-> _]. done.
Qed.

Lemma chain_dealloc hp bs p h : forall o,
  hp !! (p - HEADER_SIZE) = Some h -> chain hp o bs ->
  chain (<[p - HEADER_SIZE := set_is_allocated false h]> hp) o (spec_dealloc bs p).
Proof.
  induction bs as [|b bs IH]; intros o Hh; [done|].
  intros [-> (hb & Hhb & Hs & Ha & Hch)]. unfold spec_dealloc. rewrite fmap_cons. cbn [chain].
  destruct (Z.eqb_spec (b_addr b) (p - HEADER_SIZE)) as [Heq|Hne]; cbn [b_addr b_size b_alloc].
  - split; [done|]. rewrite Heq, lookup_insert_eq. rewrite Heq in Hhb. assert (hb = h) as -> by congruence.
    eexists. split_and!; try done. by apply IH.
  - split; [done|]. exists hb. rewrite lookup_insert_ne by done. split_and!; try done.
    by apply IH.
Qed.

Lemma chain_lookup hp o bs b :
  chain hp o bs -> b ∈ bs -> exists h, hp !! b_addr b = Some h.
Proof.
  intros Hch Hin. pose proof (chain_dom hp o bs Hch) as Hd. rewrite Forall_forall in Hd.
  destruct (Hd b Hin) as [h Hh]. by exists h.
Qed.

Lemma dealloc_refines_lemma st bs b l :
  represents st bs -> b ∈ bs ->
  exists st', dealloc (b_addr b + HEADER_SIZE) l st = (Ok tt, st') /\
    represents st' (spec_dealloc bs (b_addr b + HEADER_SIZE)).
Proof.
  intros [Hch Hwf] Hin. destruct (chain_lookup _ _ _ _ Hch Hin) as [h Hh].
  assert (0 < b_addr b) as Hpos.
  { destruct Hwf as [Hok _]. rewrite Forall_forall in Hok. by destruct (Hok b Hin) as (_ & _ & _ & ? & _). }
  unfold dealloc, from_allocated_region.
  rewrite sub_chk_ok by (unfold HEADER_SIZE; lia). mstep.
  replace (b_addr b + HEADER_SIZE - HEADER_SIZE) with (b_addr b) by lia.
  unfold in_memory, zoom. erewrite update_header_ok by done. eexists. split; [done|].
  split; [|by apply wf_dealloc]. simpl.
  replace (b_addr b) with (b_addr b + HEADER_SIZE - HEADER_SIZE) at 1 by lia.
  apply chain_dealloc; [|done]. by replace (b_addr b + HEADER_SIZE - HEADER_SIZE) with (b_addr b) by lia.
Qed.

(** ** What an allocation gives the client *)

Lemma first_fit_covers bs s a p bs' x :
  wf_blocks bs -> (exists ks, 5 <= ks /\ s = 2 ^ ks) -> (exists ka, 5 <= ka /\ a = 2 ^ ka) ->
  first_fit bs s a = Some (p, bs') -> covers bs' x <-> covers bs x.
Proof.
  intros [Hok _] (ks & Hks) (ka & Hka) Hff.
  destruct (first_fit_some _ _ _ _ _ Hff) as (l1 & b & l2 & -> & _ & Hfit & _ & ->).
  apply Forall_app in Hok as [_ [Hb _]%Forall_cons_1].
  pose proof (split_covers b s a ks ka Hb Hks Hka Hfit x) as Hsp.
  unfold covers in *. rewrite !Exists_app, Exists_cons, Hsp. tauto.
Qed.

Lemma align_divides l p :
  layout_ok l -> (request_align (l_align l) | p) -> (l_align l | p).
Proof.
  intros (_ & (k & Hk & ->) & _) Hd. eapply Z.divide_trans; [|exact Hd].
  unfold request_align. change HEADER_SIZE with (2 ^ 5).
  destruct (Z.max_spec (2 ^ k) (2 ^ 5)) as [[Hlt ->]|[_ ->]]; [|by apply Z.divide_refl].
  apply pow2_divide. split; [done|]. apply Z.lt_le_incl. by apply (Z.pow_lt_mono_r_iff 2).
Qed.

(** The block that holds the object returned at [p] for layout [l]. *)
Definition holds (l : Layout) (p : Z) (b : Block) : Prop :=
  b_alloc b = true /\ b_addr b = p - HEADER_SIZE /\
  b_size b = request_size (l_size l) + HEADER_SIZE.

Lemma spec_alloc_some bs l p bs' :
  wf_blocks bs -> layout_ok l -> spec_alloc bs l = Some (p, bs') ->
  0 < l_size l /\ (l_align l | p) /\
  (exists b, b ∈ bs /\ b_alloc b = false /\
     b_addr b + 2 * HEADER_SIZE < p /\ p + request_size (l_size l) <= b_end b) /\
  (exists b, b ∈ bs' /\ holds l p b) /\
  (forall b, b ∈ bs -> b_alloc b = true -> b ∈ bs') /\
  (forall b, b ∈ bs' -> b_alloc b = true -> b ∈ bs \/ holds l p b).
Proof.
  intros [Hok _] Hl Hsp. unfold spec_alloc in Hsp.
  destruct (Z.eqb_spec (l_size l) 0) as [|Hnz]; [done|]. cbn [orb] in Hsp.
  destruct (Z.ltb_spec (2 ^ 63) (l_size l)); [done|].
  destruct (request_size_pow2 (l_size l)) as (ks & Hks).
  destruct (request_align_pow2 (l_align l)) as (ka & Hka); [by destruct Hl as (_ & ? & _)|].
  destruct (first_fit_some _ _ _ _ _ Hsp) as (l1 & b & l2 & -> & _ & Hfit & -> & ->).
  apply Forall_app in Hok as [_ [Hb _]%Forall_cons_1].
  pose proof (split_place b _ _ ks ka Hb Hks Hka Hfit) as (Hpa & _ & _ & _ & Hlo & Hhi & _).
  assert (b_alloc b = false) as Hfree
    by (unfold fits in Hfit; by apply andb_prop in Hfit as [?%negb_true_iff _]).
  split_and!.
  - destruct Hl as [? _]. lia.
  - by apply align_divides.
  - exists b. split_and!; try done. rewrite elem_of_app, elem_of_cons. by right; left.
  - exists {| b_addr := place b (request_size (l_size l)) (request_align (l_align l)) - HEADER_SIZE;
              b_size := request_size (l_size l) + HEADER_SIZE; b_alloc := true |}.
    split; [|done]. rewrite !elem_of_app. right. left.
    unfold split_block. rewrite !elem_of_cons. by right; left.
  - intros c Hc Hca. rewrite elem_of_app, elem_of_cons in Hc. rewrite !elem_of_app.
    destruct Hc as [?|[->|?]]; [by left|congruence|by right; right].
  - intros c Hc Hca. rewrite !elem_of_app in Hc. rewrite elem_of_app, elem_of_cons.
    destruct Hc as [?|[Hc|?]]; [by left; left| |by left; right; right].
    right. unfold split_block in Hc. rewrite !elem_of_cons in Hc.
    destruct Hc as [->|[->|Hc]]; [done|by split_and!|].
    destruct (_ =? _); [by apply elem_of_nil in Hc|].
    rewrite elem_of_cons, elem_of_nil in Hc. by destruct Hc as [->|[]].
Qed.

Lemma spec_alloc_wf bs l p bs' :
  wf_blocks bs -> layout_ok l -> spec_alloc bs l = Some (p, bs') -> wf_blocks bs'.
Proof.
  intros Hwf Hl Hsp. unfold spec_alloc in Hsp. destruct (_ || _); [done|].
  eapply first_fit_wf; [exact Hwf|apply request_size_pow2| |exact Hsp].
  apply request_align_pow2. by destruct Hl as (_ & ? & _).
Qed.

(** Two blocks of a well-formed list are the same or disjoint. *)
Lemma pairwise_cases bs b c :
  pairwise_disjoint bs -> b ∈ bs -> c ∈ bs -> b = c \/ disjoint_blocks b c.
Proof.
  induction bs as [|d bs IH]; [by intros _ ?%elem_of_nil|]. intros [Hd Hpw].
  rewrite Forall_forall in Hd. rewrite !elem_of_cons. intros [->|Hb] [->|Hc]; auto.
  right. apply disjoint_blocks_sym. by apply Hd.
Qed.

Lemma block_addr_inj bs b c :
  wf_blocks bs -> b ∈ bs -> c ∈ bs -> b_addr b = b_addr c -> b = c.
Proof.
  intros [Hok Hpw] Hb Hc Heq. destruct (pairwise_cases bs b c Hpw Hb Hc) as [|Hd]; [done|].
  rewrite Forall_forall in Hok.
  destruct (Hok b Hb) as (_ & _ & ? & _), (Hok c Hc) as (_ & _ & ? & _).
  unfold disjoint_blocks, b_end, HEADER_SIZE in *. lia.
Qed.

(** ** Initialisation from the memory map *)

(** The memory a descriptor describes, as a block. *)
Definition descriptor_range (e : EfiMemoryDescriptor) : Block :=
  {| b_addr := physical_start e; b_size := number_of_pages e * 4096; b_alloc := false |}.

(** The block [add_free_from_descriptor] makes of it: page 0 is dropped, and so is a region
    of one page or less. *)
Definition free_block (e : EfiMemoryDescriptor) : list Block :=
  let b := if physical_start e =? 0
           then {| b_addr := 4096; b_size := saturating_sub (number_of_pages e * 4096) 4096;
                   b_alloc := false |}
           else descriptor_range e in
  if b_size b <=? 4096 then [] else [b].

(** What the UEFI specification promises of a descriptor: page alignment, and a range that
    fits the address space. *)
Definition descriptor_ok (e : EfiMemoryDescriptor) : Prop :=
  (4096 | physical_start e) /\ 0 <= physical_start e /\ 0 <= number_of_pages e /\
  physical_start e + number_of_pages e * 4096 < 2 ^ 64.

Definition conventional (e : EfiMemoryDescriptor) : Prop := memory_type e = CONVENTIONAL_MEMORY.

(** ... and of a map: the conventional descriptors do not overlap. *)
Definition mmap_ok (es : list EfiMemoryDescriptor) : Prop :=
  Forall (fun e => conventional e -> descriptor_ok e) es /\
  pairwise_disjoint (descriptor_range <$> filter conventional es).

(** The block list after initialisation: the last descriptor's block comes first. *)
Definition initial_blocks (es : list EfiMemoryDescriptor) : list Block :=
  mjoin (free_block <$> rev (filter conventional es)).

Lemma free_block_within e c :
  c ∈ free_block e -> within c (descriptor_range e).
Proof.
  unfold free_block, within, b_end, descriptor_range, saturating_sub.
  destruct (Z.eqb_spec (physical_start e) 0); cbn [b_addr b_size].
  - destruct (Z.leb_spec (Z.max 0 (number_of_pages e * 4096 - 4096)) 4096);
      [by intros ?%elem_of_nil|]. rewrite elem_of_cons, elem_of_nil. intros [->|[]]; cbn. lia.
  - destruct (_ <=? 4096); [by intros ?%elem_of_nil|].
    rewrite elem_of_cons, elem_of_nil. intros [->|[]]; cbn. lia.
Qed.

Lemma free_block_ok e : descriptor_ok e -> Forall block_ok (free_block e).
Proof.
  intros ([q Hq] & H0 & Hn & Hend). unfold free_block, descriptor_range, saturating_sub.
  destruct (Z.eqb_spec (physical_start e) 0); cbn [b_addr b_size].
  - destruct (Z.leb_spec (Z.max 0 (number_of_pages e * 4096 - 4096)) 4096); [constructor|].
    constructor; [|constructor]. unfold block_ok, b_end, HEADER_SIZE; cbn [b_addr b_size].
    split_and!; try lia; [by exists 128|exists (number_of_pages e * 128 - 128); lia].
  - destruct (Z.leb_spec (number_of_pages e * 4096) 4096); [constructor|].
    constructor; [|constructor]. unfold block_ok, b_end, HEADER_SIZE; cbn [b_addr b_size].
    split_and!; try lia; [exists (q * 128); lia|exists (number_of_pages e * 128); lia].
Qed.

Lemma disjoint_free_block b e c :
  disjoint_blocks b (descriptor_range e) -> c ∈ free_block e -> disjoint_blocks b c.
Proof. intros Hd Hc. eapply disjoint_within; [exact Hd|]. by apply free_block_within. Qed.

Lemma add_free_refines e st bs :
  descriptor_ok e -> represents st bs -> Forall (disjoint_blocks (descriptor_range e)) bs ->
  exists st', add_free_from_descriptor e st = (Ok tt, st') /\ represents st' (free_block e ++ bs).
Proof.
  intros He [Hch [Hok Hpw]] Hdis. pose proof (free_block_ok e He) as Hfb.
  destruct He as (_ & H0 & Hn & Hend).
  unfold add_free_from_descriptor. erewrite bind_lift_ok by (apply mul_chk_ok; lia). cbv beta zeta.
  assert (forall c, c ∈ free_block e -> Forall (disjoint_blocks c) bs) as Hdis'.
  { intros c Hc. eapply Forall_impl; [exact Hdis|]. intros d Hd. apply disjoint_blocks_sym.
    eapply disjoint_free_block; [|exact Hc]. by apply disjoint_blocks_sym. }
  set (b := if physical_start e =? 0
            then {| b_addr := 4096; b_size := saturating_sub (number_of_pages e * 4096) 4096;
                    b_alloc := false |}
            else descriptor_range e).
  assert ((if physical_start e =? 0 then (physical_start e + 4096, saturating_sub (number_of_pages e * 4096) 4096)
           else (physical_start e, number_of_pages e * 4096)) = (b_addr b, b_size b)) as ->.
  { unfold b. destruct (Z.eqb_spec (physical_start e) 0) as [->|]; done. }
  assert (free_block e = if b_size b <=? 4096 then [] else [b]) as Hfree by done.
  assert (b_alloc b = false) as Hba by (unfold b; by destruct (_ =? 0)).
  clearbody b. rewrite Hfree in *. destruct (b_size b <=? 4096).
  { exists st. by split. }
  unfold in_memory, zoom, mbind, M_bind, get, put, new_from_addr, write_header, modify,
    mbind, M_bind, mret, M_ret. cbn [memory first_header].
  erewrite !update_header_ok by (cbn [memory]; by rewrite lookup_insert_eq).
  cbn [memory first_header]. eexists. split; [reflexivity|].
  apply Forall_cons_1 in Hfb as [Hb _].
  specialize (Hdis' b (list_elem_of_here _ _)). split; [|split; [by constructor|done]].
  cbn [first_header memory app chain]. split; [done|]. rewrite lookup_insert_eq.
  eexists. split_and!; [done..|by rewrite Hba|]. cbn.
  eapply chain_frame; [exact Hch|]. intros c Hc. rewrite !lookup_insert_ne; [done|..];
  (rewrite Forall_forall in Hdis'; specialize (Hdis' c Hc); rewrite Forall_forall in Hok;
   destruct (Hok c Hc) as (_ & _ & ? & _), Hb as (_ & _ & ? & _);
   unfold disjoint_blocks, b_end, HEADER_SIZE in *; lia).
Qed.

Lemma initial_blocks_cons e es :
  mjoin (free_block <$> rev (e :: es)) = mjoin (free_block <$> rev es) ++ free_block e.
Proof. cbn [rev]. rewrite fmap_app, join_app. f_equal. apply app_nil_r. Qed.

Lemma init_loop_refines map fuel : forall ofs es st bs,
  iter_from fuel map ofs = Some (Ok es) -> mmap_ok es -> represents st bs ->
  Forall (fun e => Forall (disjoint_blocks (descriptor_range e)) bs) (filter conventional es) ->
  exists st', init_loop fuel map ofs st = (Ok tt, st') /\
    represents st' (mjoin (free_block <$> rev (filter conventional es)) ++ bs).
Proof.
  induction fuel as [|fuel IH]; intros ofs es st bs Hit Hmm Hrep Hdis; [done|].
  cbn [iter_from] in Hit. cbn [init_loop].
  destruct (MemoryMapIterator_next map ofs) as [[[e|]| |] ofs']; simplify_eq/=.
  2: { exists st. done. }
  destruct (iter_from fuel map ofs') as [[es'| |]|] eqn:Hit'; simplify_eq/=.
  destruct Hmm as [Hok Hpw]. apply Forall_cons_1 in Hok as [He Hok].
  rewrite filter_cons in Hpw, Hdis |- *. unfold conventional in He at 1.
  destruct (decide (conventional e)) as [Hc|Hc];
    (destruct (decide (memory_type e = CONVENTIONAL_MEMORY)) as [Hc'|Hc']; try done).
  - apply Forall_cons_1 in Hdis as [Hde Hdis]. rewrite fmap_cons in Hpw. destruct Hpw as [Hpe Hpw].
    destruct (add_free_refines e st bs (He Hc) Hrep Hde) as (st1 & Hadd & Hrep1).
    erewrite bind_ok by exact Hadd. cbv beta.
    destruct (IH ofs' es' st1 (free_block e ++ bs) Hit' (conj Hok Hpw) Hrep1) as (st2 & Hrun & Hrep2).
    { rewrite Forall_fmap in Hpe. rewrite Forall_forall in Hpe. rewrite Forall_forall in Hdis.
      apply Forall_forall. intros e' He'. apply Forall_app. split; [|by apply Hdis].
      apply Forall_forall. intros c Hcf. eapply disjoint_free_block; [|exact Hcf].
      apply disjoint_blocks_sym. by apply Hpe. }
    exists st2. split; [done|]. by rewrite initial_blocks_cons, <- app_assoc.
  - mstep. by apply IH.
Qed.

(** ** Clients: every sequence of allocations and deallocations *)

(** A state of the allocator together with the live objects its clients own: an object is
    the pointer [alloc] returned and the layout it was asked for. *)
Inductive reachable (map : MemoryMapHolder) : FirstFitAllocator -> list (Z * Layout) -> Prop :=
  | reach_init st :
      init_with_mmap map ALLOCATOR = (Ok tt, st) -> reachable map st []
  | reach_alloc st live l p st' :
      reachable map st live -> layout_ok l ->
      alloc_with_options l st = (Ok p, st') -> p <> 0 -> reachable map st' ((p, l) :: live)
  | reach_null st live l st' :
      reachable map st live -> layout_ok l ->
      alloc_with_options l st = (Ok 0, st') -> reachable map st' live
  | reach_dealloc st live1 p l live2 st' :
      reachable map st (live1 ++ (p, l) :: live2) ->
      dealloc p l st = (Ok tt, st') -> reachable map st' (live1 ++ live2).

Definition owns (bs : list Block) (o : Z * Layout) : Prop :=
  0 < l_size o.2 /\ (l_align o.2 | o.1) /\ exists b, b ∈ bs /\ holds o.2 o.1 b.

(** The invariant of clients and allocator. *)
Definition client_inv (st : FirstFitAllocator) (live : list (Z * Layout)) (bs : list Block) : Prop :=
  represents st bs /\ Forall (owns bs) live /\ NoDup (live.*1).

Lemma owns_dealloc bs p o :
  wf_blocks bs -> owns bs o -> o.1 <> p -> owns (spec_dealloc bs p) o.
Proof.
  intros Hwf (Hs & Ha & b & Hin & Hb & Hba & Hbs) Hne.
  split; [done|]. split; [done|]. exists b. split; [|by split_and!].
  apply list_elem_of_fmap. exists b. split; [|done].
  destruct (Z.eqb_spec (b_addr b) (p - HEADER_SIZE)); [lia|done].
Qed.

Lemma spec_alloc_pos bs l p bs' :
  wf_blocks bs -> layout_ok l -> spec_alloc bs l = Some (p, bs') -> p <> 0.
Proof.
  intros Hwf Hl Hsp. pose proof (spec_alloc_some _ _ _ _ Hwf Hl Hsp) as (_ & _ & (b & Hin & _ & Hlo & _) & _).
  destruct Hwf as [Hok _]. rewrite Forall_forall in Hok. destruct (Hok b Hin) as (_ & _ & _ & Hpos & _).
  unfold HEADER_SIZE in *. lia.
Qed.

Lemma client_inv_alloc st live bs l p st' :
  client_inv st live bs -> layout_ok l -> alloc_with_options l st = (Ok p, st') -> p <> 0 ->
  exists bs', spec_alloc bs l = Some (p, bs') /\ client_inv st' ((p, l) :: live) bs'.
Proof.
  intros (Hrep & Hown & Hnd) Hl Hrun Hp.
  pose proof (alloc_with_options_refines st bs l Hrep Hl) as Href.
  destruct (spec_alloc bs l) as [[p' bs']|] eqn:Hsp; [|congruence].
  destruct Href as (st1 & Hrun' & Hrep'). rewrite Hrun in Hrun'. simplify_eq.
  pose proof Hrep as [_ Hwf]. pose proof Hrep' as [_ Hwf'].
  pose proof (spec_alloc_some _ _ _ _ Hwf Hl Hsp) as (Hs & Ha & (b & Hb & Hbf & Hlo & Hhi) & (c & Hc & Hch) & Hkeep & _).
  exists bs'. split; [done|]. split; [done|]. split.
  - constructor; [split; [done|]; split; [done|]; by exists c|].
    eapply Forall_impl; [exact Hown|]. intros o (Ho1 & Ho2 & d & Hd & Hdh).
    split; [done|]. split; [done|]. exists d. split; [|done]. apply Hkeep; [done|]. apply Hdh.
  - constructor; [|done]. intros ([q lq] & Heq & Hq)%list_elem_of_fmap. simpl in Heq. subst q.
    rewrite Forall_forall in Hown. destruct (Hown _ Hq) as (_ & _ & d & Hd & Hda & Hdaddr & _).
    simpl in Hdaddr. destruct Hwf as [Hok Hpw].
    destruct (pairwise_cases bs b d Hpw Hb Hd) as [->|Hdis]; [congruence|].
    rewrite Forall_forall in Hok. destruct (Hok d Hd) as (_ & _ & ? & _).
    pose proof (request_size_pow2 (l_size l)) as (ks & ? & Hks).
    pose proof (Z.pow_pos_nonneg 2 ks).
    unfold disjoint_blocks, b_end, HEADER_SIZE in *. lia.
Qed.

Lemma client_inv_dealloc st live1 p l live2 bs :
  client_inv st (live1 ++ (p, l) :: live2) bs ->
  exists st', dealloc p l st = (Ok tt, st') /\
    client_inv st' (live1 ++ live2) (spec_dealloc bs p).
Proof.
  intros (Hrep & Hown & Hnd). pose proof Hown as Hown'.
  apply Forall_app in Hown' as [Ho1 [(_ & _ & b & Hb & _ & Hba & _) Ho2]%Forall_cons_1].
  simpl in Hba. assert (p = b_addr b + HEADER_SIZE) as Hp by lia.
  destruct (dealloc_refines_lemma st bs b l Hrep Hb) as (st' & Hrun & Hrep').
  rewrite <- Hp in *. exists st'. split; [done|]. split; [done|].
  rewrite fmap_app, fmap_cons in Hnd. simpl in Hnd.
  apply NoDup_app in Hnd as (Hnd1 & Hdis & [Hnot Hnd2]%NoDup_cons).
  assert (forall o, o ∈ live1 ++ live2 -> o.1 <> p) as Hne.
  { intros o [Ho|Ho]%elem_of_app Heq.
    - apply (Hdis p); [|by left]. rewrite <- Heq. apply list_elem_of_fmap. by exists o.
    - apply Hnot. rewrite <- Heq. apply list_elem_of_fmap. by exists o. }
  destruct Hrep as [_ Hwf]. split.
  - apply Forall_forall. intros o Ho. apply owns_dealloc; [done| |by apply Hne].
    rewrite Forall_forall in Ho1. rewrite Forall_forall in Ho2.
    apply elem_of_app in Ho as [Ho|Ho]; auto.
  - rewrite fmap_app. apply NoDup_app. split; [done|]. split; [|done].
    intros x Hx Hx2. apply (Hdis x Hx). by right.
Qed.

Lemma spec_alloc_covers bs l p bs' x :
  wf_blocks bs -> layout_ok l -> spec_alloc bs l = Some (p, bs') -> covers bs' x <-> covers bs x.
Proof.
  intros Hwf Hl Hsp. unfold spec_alloc in Hsp. destruct (_ || _); [done|].
  eapply first_fit_covers; [done|apply request_size_pow2| |exact Hsp].
  apply request_align_pow2. by destruct Hl as (_ & ? & _).
Qed.

Lemma spec_dealloc_covers bs p x : covers (spec_dealloc bs p) x <-> covers bs x.
Proof.
  unfold covers, spec_dealloc. rewrite !Exists_exists. setoid_rewrite list_elem_of_fmap.
  split.
  - intros (b & (c & -> & Hc) & Hin). exists c. split; [done|]. revert Hin.
    by destruct (_ =? _).
  - intros (c & Hc & Hin). eexists. split; [by exists c|]. by destruct (_ =? _).
Qed.

Lemma pairwise_initial es :
  mmap_ok es -> wf_blocks [] /\
  Forall (fun e => Forall (disjoint_blocks (descriptor_range e)) []) (filter conventional es).
Proof. intros _. split; [by split|]. apply Forall_forall. constructor. Qed.

(** Every reachable state represents some block list that owns the live objects and tiles
    exactly the memory the allocator started with. *)
Lemma reachable_inv map es st live :
  MemoryMapHolder_iter map = Some (Ok es) -> mmap_ok es -> reachable map st live ->
  exists bs, client_inv st live bs /\ (forall x, covers bs x <-> covers (initial_blocks es) x).
Proof.
  intros Hit Hmm. induction 1 as [st Hinit|st live l p st' _ (bs & Hinv & Hcov) Hl Hrun Hp
    |st live l st' _ (bs & Hinv & Hcov) Hl Hrun|st live1 p l live2 st' _ (bs & Hinv & Hcov) Hrun].
  - destruct (init_loop_refines map _ 0 es ALLOCATOR [] Hit Hmm) as (st1 & Hrun & Hrep).
    { split; [done|]. by apply (pairwise_initial es). }
    { by apply pairwise_initial. }
    unfold init_with_mmap in Hinit. rewrite Hinit in Hrun. simplify_eq.
    rewrite app_nil_r in Hrep. exists (initial_blocks es). split; [|done].
    split; [done|]. split; constructor.
  - destruct (client_inv_alloc st live bs l p st' Hinv Hl Hrun Hp) as (bs' & Hsp & Hinv').
    exists bs'. split; [done|]. intros x. rewrite <- Hcov.
    destruct Hinv as ([_ Hwf] & _). by eapply spec_alloc_covers.
  - exists bs. split; [|done]. destruct Hinv as (Hrep & Hown & Hnd).
    pose proof (alloc_with_options_refines st bs l Hrep Hl) as Href.
    destruct (spec_alloc bs l) as [[p bs']|] eqn:Hsp.
    + destruct Href as (st1 & Hrun' & _). destruct Hrep as [_ Hwf].
      pose proof (spec_alloc_pos _ _ _ _ Hwf Hl Hsp). congruence.
    + rewrite Hrun in Href. simplify_eq. by split_and!.
  - destruct (client_inv_dealloc st live1 p l live2 bs Hinv) as (st1 & Hrun' & Hinv').
    rewrite Hrun in Hrun'. simplify_eq. exists (spec_dealloc bs p). split; [done|].
    intros x. by rewrite spec_dealloc_covers.
Qed.

(** Two owned objects with different pointers do not overlap. *)
Lemma owned_disjoint bs p l q m :
  wf_blocks bs -> owns bs (p, l) -> owns bs (q, m) -> p <> q ->
  p + l_size l <= q \/ q + l_size m <= p.
Proof.
  intros [Hok Hpw] (Hl & _ & b & Hb & _ & Hba & Hbs) (Hm & _ & c & Hc & _ & Hca & Hcs) Hne.
  simpl in *. destruct (pairwise_cases bs b c Hpw Hb Hc) as [->|Hd]; [lia|].
  pose proof (request_size_ge _ Hl). pose proof (request_size_ge _ Hm).
  unfold disjoint_blocks, b_end, HEADER_SIZE in *. lia.
Qed.

(** An owned object does not touch any block's header. *)
Lemma owned_header_disjoint bs p l c :
  wf_blocks bs -> owns bs (p, l) -> c ∈ bs ->
  p + l_size l <= b_addr c \/ b_addr c + HEADER_SIZE <= p.
Proof.
  intros [Hok Hpw] (Hl & _ & b & Hb & _ & Hba & Hbs) Hc. simpl in *.
  pose proof (request_size_ge _ Hl).
  destruct (pairwise_cases bs b c Hpw Hb Hc) as [->|Hd].
  - right. unfold HEADER_SIZE in *. lia.
  - rewrite Forall_forall in Hok. destruct (Hok c Hc) as (_ & _ & ? & _).
    unfold disjoint_blocks, b_end, HEADER_SIZE in *. lia.
Qed.

Lemma initial_covers es x :
  covers (initial_blocks es) x ->
  exists e, e ∈ es /\ conventional e /\
    physical_start e <= x < physical_start e + number_of_pages e * 4096.
Proof.
  unfold covers, initial_blocks. rewrite Exists_exists. intros (c & Hc & Hin).
  apply list_elem_of_join in Hc as (cs & Hcc & (e & -> & He)%list_elem_of_fmap).
  apply list_elem_of_In, in_rev, list_elem_of_In, list_elem_of_filter in He as [Hconv He].
  exists e. split; [done|]. split; [done|]. pose proof (free_block_within e c Hcc) as Hw.
  unfold within, in_block, descriptor_range, b_end in *. cbn in *. lia.
Qed.

(** ** Properties *)

(** C1. Memory safety of the heap, for every client.  Start from the static allocator,
    initialise it from a UEFI memory map whose conventional descriptors are page aligned and
    do not overlap, and let clients allocate and deallocate in any order.  Then in every
    reachable state: two live objects never overlap; a live object is non-null, aligned as
    its layout asks and lies wholly in memory the map calls conventional; no block header
    of the list lies in a live object; and the allocator cannot panic: allocating any valid
    layout returns, and so does freeing any live object. *)
Theorem heap_safety (map : MemoryMapHolder) (es : list EfiMemoryDescriptor)
  (st : FirstFitAllocator) (live : list (Z * Layout))
  (Hiter : MemoryMapHolder_iter map = Some (Ok es)) (Hmap : mmap_ok es)
  (Hreach : reachable map st live) :
  (forall i j p l q m, live !! i = Some (p, l) -> live !! j = Some (q, m) -> i <> j ->
     p + l_size l <= q \/ q + l_size m <= p) /\
  (forall p l, (p, l) ∈ live -> 0 < p /\ (l_align l | p) /\
     (forall x, p <= x < p + l_size l -> exists e, e ∈ es /\ conventional e /\
        physical_start e <= x < physical_start e + number_of_pages e * 4096)) /\
  (exists bs, represents st bs /\
     forall p l c, (p, l) ∈ live -> c ∈ bs ->
       p + l_size l <= b_addr c \/ b_addr c + HEADER_SIZE <= p) /\
  (forall l, layout_ok l -> exists p st', alloc_with_options l st = (Ok p, st')) /\
  (forall p l, (p, l) ∈ live -> exists st', dealloc p l st = (Ok tt, st')).
Proof.
  destruct (reachable_inv _ _ _ _ Hiter Hmap Hreach) as (bs & (Hrep & Hown & Hnd) & Hcov).
  pose proof Hrep as [_ Hwf]. rewrite Forall_forall in Hown. split_and!.
  - intros i j p l q m Hi Hj Hne.
    apply (owned_disjoint bs); [done|by apply Hown, (list_elem_of_lookup_2 _ i)|
      by apply Hown, (list_elem_of_lookup_2 _ j)|].
    intros ->. apply Hne. apply (NoDup_lookup (live.*1) i j q); [done|..];
      rewrite list_lookup_fmap; by rewrite ?Hi, ?Hj.
  - intros p l Hin. destruct (Hown _ Hin) as (Hs & Ha & b & Hb & _ & Hba & Hbs). simpl in *.
    pose proof Hwf as [Hok _]. rewrite Forall_forall in Hok. destruct (Hok b Hb) as (_ & _ & _ & ? & _).
    split; [unfold HEADER_SIZE in *; lia|]. split; [done|]. intros x Hx. apply initial_covers.
    apply Hcov, Exists_exists. exists b. split; [done|].
    pose proof (request_size_ge _ Hs). unfold in_block, b_end, HEADER_SIZE in *. lia.
  - exists bs. split; [done|]. intros p l c Hin Hc. eapply owned_header_disjoint; eauto.
  - intros l Hl. pose proof (alloc_with_options_refines st bs l Hrep Hl) as Href.
    destruct (spec_alloc bs l) as [[p bs']|]; [destruct Href as (st' & ? & _); eauto|eauto].
  - intros p l (i & Hi)%list_elem_of_lookup_1. apply list_elem_of_split_length in Hi as (l1 & l2 & -> & _).
    destruct (client_inv_dealloc st l1 p l l2 bs) as (st' & Hrun & _); [|eauto].
    split_and!; [done|by apply Forall_forall|done].
Qed.

Definition example_layout : Layout := {| l_size := 1234; l_align := 64 |}.
Definition example_state : FirstFitAllocator := (init_with_mmap example_map ALLOCATOR).2.
Definition example_alloc : outcome Z * FirstFitAllocator := alloc_with_options example_layout example_state.

Definition example_blocks : list Block :=
  [{| b_addr := 0x100000; b_size := 0x700000; b_alloc := false |}].

Lemma example_mmap_ok : mmap_ok example_descriptors.
Proof.
  split.
  - constructor; [intros H; discriminate H|constructor; [|constructor]]. intros _.
    split; [by exists 256|]. simpl. lia.
  - assert (descriptor_range <$> filter conventional example_descriptors = example_blocks) as ->
      by (vm_compute; reflexivity).
    by repeat constructor.
Qed.

Lemma heap_safety_witness :
  exists st', dealloc 0x7FF800 example_layout example_alloc.2 = (Ok tt, st').
Proof.
  refine (proj2 (proj2 (proj2 (proj2 (heap_safety example_map example_descriptors example_alloc.2
    [(0x7FF800, example_layout)] _ _ _)))) _ _ _).
  - vm_compute. reflexivity.
  - exact example_mmap_ok.
  - apply (reach_alloc example_map example_state []).
    + apply reach_init. vm_compute. reflexivity.
    + split; [done|]. split; [by exists 6|]. vm_compute. reflexivity.
    + vm_compute. reflexivity.
    + done.
  - by left.
Defined.

(** C2. Functional refinement of [alloc_with_options]: on a list of blocks [bs] the code's
    pointer-linked search and in-place split compute exactly the abstract first-fit
    allocation, including which block is chosen, where the object goes and what the block
    list becomes; it returns null (and changes nothing) exactly when the request is empty
    or no free block fits. *)
Theorem alloc_refines_first_fit (st : FirstFitAllocator) (bs : list Block) (l : Layout)
  (Hrep : represents st bs) (Hl : layout_ok l) :
  match spec_alloc bs l with
  | None => alloc_with_options l st = (Ok 0, st) /\
      (l_size l = 0 \/
       Forall (fun b => fits b (request_size (l_size l)) (request_align (l_align l)) = false) bs)
  | Some (p, bs') => exists st', alloc_with_options l st = (Ok p, st') /\ represents st' bs' /\
      (l_align l | p) /\ (forall x, covers bs' x <-> covers bs x)
  end.
Proof.
  pose proof (alloc_with_options_refines st bs l Hrep Hl) as Href.
  destruct (spec_alloc bs l) as [[p bs']|] eqn:Hsp.
  - destruct Href as (st' & Hrun & Hrep'). destruct Hrep as [_ Hwf]. exists st'.
    split_and!; try done; [by apply (spec_alloc_some bs l p bs')|].
    intros x. by eapply spec_alloc_covers.
  - split; [done|]. unfold spec_alloc in Hsp.
    destruct (Z.eqb_spec (l_size l) 0) as [|Hnz]; [by left|]. right. cbn [orb] in Hsp.
    destruct (layout_bounds l Hl) as [Hmax _]; [destruct Hl; lia|].
    rewrite (proj2 (Z.ltb_ge _ _)) in Hsp by done. by apply first_fit_none.
Qed.

Lemma example_represents : represents example_state example_blocks.
Proof.
  split.
  - vm_compute. split; [done|]. eexists. split; [reflexivity|]. done.
  - split; [|by repeat constructor]. constructor; [|constructor].
    split_and!; [by exists 0x8000|by exists 0x38000|done|done|done].
Qed.

Lemma alloc_refines_first_fit_witness :
  exists st', alloc_with_options example_layout example_state = (Ok 0x7FF800, st') /\
    (64 | 0x7FF800).
Proof.
  pose proof (alloc_refines_first_fit example_state example_blocks example_layout
    example_represents) as H.
  assert (layout_ok example_layout) as Hl
    by (split; [done|]; split; [by exists 6|vm_compute; reflexivity]).
  specialize (H Hl).
  assert (exists bs', spec_alloc example_blocks example_layout = Some (0x7FF800, bs')) as [bs' E]
    by (eexists; vm_compute; reflexivity).
  rewrite E in H. destruct H as (st' & H1 & _ & H2 & _). exists st'. by split.
Defined.

(** Functional refinement of [dealloc]: freeing the object whose data starts at the end
    of a block's header marks exactly that block free, keeps every block's place and size,
    and cannot panic. *)
Theorem dealloc_refines (st : FirstFitAllocator) (bs : list Block) (b : Block) (l : Layout)
  (Hrep : represents st bs) (Hin : b ∈ bs) :
  exists st', dealloc (b_addr b + HEADER_SIZE) l st = (Ok tt, st') /\
    represents st' (spec_dealloc bs (b_addr b + HEADER_SIZE)) /\
    (forall c, c ∈ spec_dealloc bs (b_addr b + HEADER_SIZE) ->
       c ∈ bs \/ (b_addr c = b_addr b /\ b_size c = b_size b /\ b_alloc c = false)).
Proof.
  destruct (dealloc_refines_lemma st bs b l Hrep Hin) as (st' & Hrun & Hrep').
  exists st'. split; [done|]. split; [done|]. intros c (d & -> & Hd)%list_elem_of_fmap.
  destruct (Z.eqb_spec (b_addr d) (b_addr b + HEADER_SIZE - HEADER_SIZE)) as [Heq|]; [|by left].
  right. destruct Hrep as [_ Hwf].
  assert (d = b) as -> by (eapply block_addr_inj; [done|done|done|lia]). done.
Qed.

Lemma dealloc_refines_witness :
  exists st', dealloc (0x100000 + HEADER_SIZE) example_layout example_state = (Ok tt, st').
Proof.
  destruct (dealloc_refines example_state example_blocks
    {| b_addr := 0x100000; b_size := 0x700000; b_alloc := false |} example_layout
    example_represents (list_elem_of_here _ _)) as (st' & H & _).
  by exists st'.
Defined.

(** Initialisation: from a memory map whose conventional descriptors are page aligned and
    disjoint, [init_with_mmap] succeeds and the allocator then represents one free block per
    conventional descriptor of more than a page, page 0 left out. *)
Theorem init_with_mmap_refines (map : MemoryMapHolder) (es : list EfiMemoryDescriptor)
  (Hiter : MemoryMapHolder_iter map = Some (Ok es)) (Hmap : mmap_ok es) :
  exists st, init_with_mmap map ALLOCATOR = (Ok tt, st) /\ represents st (initial_blocks es) /\
    Forall (fun b => b_alloc b = false /\ 4096 <= b_addr b) (initial_blocks es).
Proof.
  destruct (init_loop_refines map _ 0 es ALLOCATOR [] Hiter Hmap) as (st & Hrun & Hrep).
  { split; [done|]. by apply (pairwise_initial es). }
  { by apply pairwise_initial. }
  rewrite app_nil_r in Hrep. exists st. split; [done|]. split; [done|].
  apply Forall_forall. intros c Hc.
  apply list_elem_of_join in Hc as (cs & Hcc & (e & -> & He)%list_elem_of_fmap).
  apply list_elem_of_In, in_rev, list_elem_of_In, list_elem_of_filter in He as [Hconv He].
  destruct Hmap as [Hok _]. rewrite Forall_forall in Hok.
  destruct (Hok e He Hconv) as ([q Hq] & H0 & _ & _).
  revert Hcc. unfold free_block. destruct (Z.eqb_spec (physical_start e) 0);
    (destruct (_ <=? 4096); [by intros ?%elem_of_nil|]);
    rewrite elem_of_cons, elem_of_nil; intros [->|[]]; cbn; (split; [done|lia]).
Qed.

Lemma init_with_mmap_refines_witness :
  exists st, init_with_mmap example_map ALLOCATOR = (Ok tt, st) /\
    represents st (initial_blocks example_descriptors).
Proof.
  destruct (init_with_mmap_refines example_map example_descriptors) as (st & H1 & H2 & _).
  - vm_compute. reflexivity.
  - exact example_mmap_ok.
  - by exists st.
Defined.

(** Freed memory is never reused for the same layout, because a freed block is exactly as
    large as the object and [can_provide] asks for two headers and the alignment more, and
    [dealloc] does not merge neighbours: when the heap cannot satisfy a layout, freeing an
    object that was allocated with it does not help. *)
Theorem freed_block_not_reusable (st st' : FirstFitAllocator) (bs : list Block) (b : Block)
  (l : Layout) (Hrep : represents st bs) (Hl : layout_ok l)
  (Hfull : (alloc_with_options l st).1 = Ok 0)
  (Hin : b ∈ bs) (Hb : holds l (b_addr b + HEADER_SIZE) b)
  (Hfree : dealloc (b_addr b + HEADER_SIZE) l st = (Ok tt, st')) :
  alloc_with_options l st' = (Ok 0, st').
Proof.
  destruct (dealloc_refines_lemma st bs b l Hrep Hin) as (st1 & Hrun & Hrep1).
  rewrite Hfree in Hrun. simplify_eq.
  pose proof (alloc_with_options_refines _ _ l Hrep1 Hl) as Href1.
  pose proof (alloc_with_options_refines _ _ l Hrep Hl) as Href.
  destruct (spec_alloc (spec_dealloc _ _) l) as [[p bs']|] eqn:Hsp; [exfalso|done].
  destruct (spec_alloc bs l) as [[q bs2]|] eqn:Hsp2.
  { destruct Href as (st2 & Hrun2 & _). rewrite Hrun2 in Hfull. simpl in Hfull.
    destruct Hrep as [_ Hwf]. pose proof (spec_alloc_pos _ _ _ _ Hwf Hl Hsp2). congruence. }
  unfold spec_alloc in Hsp, Hsp2. destruct (_ || _); [done|].
  apply first_fit_none in Hsp2. rewrite Forall_forall in Hsp2.
  destruct (first_fit_some _ _ _ _ _ Hsp) as (l1 & c & l2 & Heq & _ & Hfit & _).
  assert (c ∈ spec_dealloc bs (b_addr b + HEADER_SIZE)) as Hc
    by (rewrite Heq, elem_of_app, elem_of_cons; by right; left).
  apply list_elem_of_fmap in Hc as (d & -> & Hd).
  destruct (Z.eqb_spec (b_addr d) (b_addr b + HEADER_SIZE - HEADER_SIZE)) as [He|].
  - destruct Hrep as [_ Hwf].
    assert (d = b) as -> by (eapply block_addr_inj; [done|done|done|lia]).
    destruct Hb as (_ & _ & Hbs). unfold fits in Hfit. cbn [b_size b_alloc] in Hfit.
    apply andb_prop in Hfit as [_ Hle%Z.leb_le]. rewrite Hbs in Hle.
    destruct (request_align_pow2 (l_align l)) as (ka & _ & Hka); [by destruct Hl as (_ & ? & _)|].
    pose proof (Z.pow_pos_nonneg 2 ka). unfold HEADER_SIZE in *.
    destruct (Z.le_gt_cases 0 ka); [lia|]. rewrite Z.pow_neg_r in Hka by lia. lia.
  - rewrite (Hsp2 d Hd) in Hfit. done.
Qed.

(** A heap whose only block is one allocated object. *)
Definition full_block : Block := {| b_addr := 0x1000; b_size := 2080; b_alloc := true |}.
Definition full_state : FirstFitAllocator := {|
  first_header := Some 0x1000;
  memory := {[0x1000 := {| h_next_header := None; h_size := 2080; h_is_allocated := true;
                           h_reserved := 0 |}]} |}.

Lemma full_represents : represents full_state [full_block].
Proof.
  split.
  - simpl. split; [done|]. eexists. rewrite lookup_singleton_eq. by split_and!.
  - split; [|by repeat constructor]. constructor; [|constructor].
    split_and!; [by exists 128|by exists 65|done|done|done].
Qed.

Lemma freed_block_not_reusable_witness :
  alloc_with_options example_layout (dealloc 0x1020 example_layout full_state).2 =
  (Ok 0, (dealloc 0x1020 example_layout full_state).2).
Proof.
  apply (freed_block_not_reusable full_state _ [full_block] full_block example_layout
    full_represents).
  - split; [done|]. split; [by exists 6|]. vm_compute. reflexivity.
  - vm_compute. reflexivity.
  - by left.
  - by split_and!.
  - vm_compute. reflexivity.
Defined.

(** [round_up_to_nearest_pow2] returns the least power of two that is not below [v], and
    [Err] exactly for 0 and for values above 2^63. *)
Theorem round_up_to_nearest_pow2_least (v : Z) (Hv : in_width 64 v) :
  match round_up_to_nearest_pow2 v with
  | Ok r => 0 < v <= 2 ^ 63 /\ is_pow2 r /\ v <= r /\ (forall q, is_pow2 q -> v <= q -> r <= q)
  | Err _ => v = 0 \/ 2 ^ 63 < v
  | Panic _ => False
  end.
Proof.
  rewrite round_up_eq by done. destruct Hv as [Hv0 Hv].
  destruct (Z.eqb_spec v 0); [by left|]. cbn [orb].
  destruct (Z.ltb_spec (2 ^ 63) v); [by right|].
  split; [lia|]. split; [exists (Z.log2_up v); split; [apply Z.log2_up_nonneg|done]|]. split.
  - destruct (Z.eq_dec v 1) as [->|]; [done|]. apply Z.log2_up_spec. lia.
  - intros q (k & Hk & ->) Hle. apply Z.pow_le_mono_r; [lia|]. by apply Z.log2_up_le_pow2; lia.
Qed.

Lemma round_up_to_nearest_pow2_least_witness :
  in_width 64 1234 /\
  match round_up_to_nearest_pow2 1234 with Ok r => 1234 <= r | _ => False end.
Proof.
  assert (in_width 64 1234) as H by (split; lia). split; [done|].
  pose proof (round_up_to_nearest_pow2_least 1234 H) as Hr.
  destruct (round_up_to_nearest_pow2 1234) as [r|e|e] eqn:E; [apply Hr|discriminate E|exact Hr].
Defined.
