(* ===== verification/Heap.v ===== *)
(** [Box] and the global allocator behind it, as its clients see it.

    The class [GlobalAlloc] is the allocator; [GlobalAllocLaws] is what a client that keeps
    its boxes may rely on: live objects are aligned, non-null and apart from each other.
    [FirstFitAllocator] satisfies the laws.  [IoBoxes] is the same for the boxes that are
    shared with a device; [Boot] implements it. *)
From Stdlib Require Import List.
From S2P Require Import Prelude Uefi Allocator.
Import Allocator.Allocator BlockSpec.

(** The global allocator behind [Box] and [ALLOCATOR]; null is 0. *)
Class GlobalAlloc (H : Type) : Type := { galloc : Layout -> M H Z }.
#[export] Instance FirstFit_GlobalAlloc : GlobalAlloc FirstFitAllocator := {
  galloc := alloc_with_options;
}.

(** [Layout::from_size_align]. *)
Definition Layout_from_size_align (size align : Z) : option Layout :=
  if (0 <? align) && (Z.land align (align - 1) =? 0) && (size <=? 2 ^ 63 - align)
  then Some {| l_size := size; l_align := align |} else None.

(** [Box::new] and [Box::from]: a null pointer aborts. *)
Definition box_new {H} {GA : GlobalAlloc H} (l : Layout) : M H Z :=
  p ← galloc l; if p =? 0 then panic msg_oom else mret p.

(** [slice::from_raw_parts] of an allocation that was not checked. *)
Definition raw_alloc {H} {GA : GlobalAlloc H} (size align : Z) (msg : string) : M H Z :=
  l ← lift (ok_or (Layout_from_size_align size align) msg);
  p ← galloc l; if p =? 0 then panic msg_ub else mret p.

(** [IoBox::new], for those who keep shared memory in such boxes: a zeroed object of [size]
    bytes at the start of a page, whose pages the processor does not cache.  It needs the
    page tables as well as the heap: [Boot] has the instance. *)
Class IoBoxes (H : Type) : Type := { io_box : Z -> M H Z }.

(** Two live objects are apart; one object is in range and aligned. *)
Definition apart (o o' : Z * Layout) : Prop :=
  o.1 + l_size o.2 <= o'.1 \/ o'.1 + l_size o'.2 <= o.1.
Definition object_ok (o : Z * Layout) : Prop :=
  0 < o.1 /\ o.1 + l_size o.2 < 2 ^ 64 /\ (l_align o.2 | o.1) /\ (32 | o.1).

Class GlobalAllocLaws (H : Type) {GA : GlobalAlloc H} : Type := {
  (** the invariant of a state and the objects that are live in it; *)
  ga_ok : H -> list (Z * Layout) -> Prop;
  ga_alloc (h : H) live l : ga_ok h live -> layout_ok l ->
    exists p h', galloc l h = (Ok p, h') /\
      (p = 0 /\ ga_ok h' live \/ p <> 0 /\ ga_ok h' ((p, l) :: live));
  ga_objects (h : H) live : ga_ok h live ->
    Forall object_ok live /\ ForallOrdPairs apart live;
}.

(** Boxing either aborts or adds a live object. *)
Lemma box_new_ok {H} `{GlobalAllocLaws H} (h : H) live l :
  ga_ok h live -> layout_ok l ->
  (exists p h', box_new l h = (Ok p, h') /\ ga_ok h' ((p, l) :: live)) \/
  (exists h', box_new l h = (Panic msg_oom, h')).
Proof.
  intros Hok Hl. destruct (ga_alloc h live l Hok Hl) as (p & h' & Hrun & [[-> Hok']|[Hp Hok']]);
    unfold box_new; rewrite (bind_ok _ _ _ _ _ Hrun).
  - right. by exists h'.
  - left. exists p, h'. split; [|done]. by rewrite (proj2 (Z.eqb_neq _ _)) by done.
Qed.

(** ** Computations on the heap *)

(** The computation ends normally in a state that satisfies [Q], or panics with an allowed
    message. *)
Definition ends_or {S A} (allowed : string -> Prop) (r : outcome A * S) (Q : A -> S -> Prop) : Prop :=
  match r with
  | (Ok a, s) => Q a s
  | (Err _, _) => False
  | (Panic e, _) => allowed e
  end.

Lemma ends_allow {S A} (allowed allowed' : string -> Prop) (r : outcome A * S) Q :
  (forall e, allowed e -> allowed' e) -> ends_or allowed r Q -> ends_or allowed' r Q.
Proof. unfold ends_or. destruct r as [[a|e|e] s]; auto. Qed.

Section ends.
Context {S : Type} (allowed : string -> Prop).

Lemma ends_bind {A B} (m : M S A) (k : A -> M S B) s Q R :
  ends_or allowed (m s) Q -> (forall a s', Q a s' -> ends_or allowed (k a s') R) -> ends_or allowed ((m ≫= k) s) R.
Proof using. unfold ends_or, mbind, M_bind. intros Hm Hk. destruct (m s) as [[a|e|e] s']; [by apply Hk|done|done]. Qed.

Lemma ends_weaken {A} (r : outcome A * S) (Q R : A -> S -> Prop) :
  ends_or allowed r Q -> (forall a s, Q a s -> R a s) -> ends_or allowed r R.
Proof using. unfold ends_or. destruct r as [[a|e|e] s]; auto. Qed.

Lemma ends_for_each {A} (f : A -> M S unit) (I : S -> Prop) l :
  (forall a s, a ∈ l -> I s -> ends_or allowed (f a s) (fun _ => I)) -> forall s, I s -> ends_or allowed (for_each l f s) (fun _ => I).
Proof using.
  intros Hf. induction l as [|a l IH]; intros s Hs; [exact Hs|]. cbn [for_each].
  eapply ends_bind; [apply Hf; [by left|exact Hs]|]. intros [] s' Hs'. apply IH; [|exact Hs'].
  intros b t Hb. apply Hf. by right.
Qed.

Lemma ends_mapM {A B} (f : A -> M S B) (I : S -> Prop) l :
  (forall a s, I s -> ends_or allowed (f a s) (fun _ => I)) -> forall s, I s -> ends_or allowed (mapM f l s) (fun _ => I).
Proof using.
  intros Hf. induction l as [|a l IH]; intros s Hs; [exact Hs|]. cbn [mapM].
  eapply ends_bind; [by apply Hf|]. intros b s1 H1. eapply ends_bind; [by apply IH|]. intros bs s2 H2. exact H2.
Qed.
End ends.

(** Memory runs out: a box aborts, and an unchecked allocation is dereferenced. *)
Definition out_of_memory (e : string) : Prop := e = msg_oom \/ e = msg_ub.
Abbreviation memory_or := (ends_or out_of_memory).

Lemma oom_memory {S A} (r : outcome A * S) Q : oom_or r Q -> memory_or r Q.
Proof. unfold oom_or, ends_or. destruct r as [[a|e|e] s]; [done|done|by left]. Qed.

Lemma pow2_layout size p : 0 <= size <= 2 ^ 40 -> 0 <= p <= 40 ->
  layout_ok {| l_size := size; l_align := 2 ^ p |} /\ Layout_from_size_align size (2 ^ p) <> None.
Proof.
  intros Hs Hp. pose proof (Z.pow_pos_nonneg 2 p ltac:(lia) ltac:(lia)). assert (2 ^ p <= 2 ^ 40) by (apply Z.pow_le_mono_r; lia).
  split.
  - split; [exact (proj1 Hs)|]. split; [exists p; cbn; split; [lia|done]|]. cbn. pose proof (Z.mul_div_le (size + (2 ^ p - 1)) (2 ^ p)). lia.
  - unfold Layout_from_size_align. rewrite (proj2 (Z.ltb_lt 0 (2 ^ p))), (proj2 (Z.leb_le _ _)) by lia.
    assert (Z.land (2 ^ p) (2 ^ p - 1) = 0) as ->; [|done].
    replace (2 ^ p - 1) with (Z.ones p) by (rewrite Z.ones_equiv; lia). rewrite Z.land_ones by lia. apply Z_mod_same_full.
Qed.

(** ** The first-fit allocator keeps the laws *)

Lemma owns_object_ok bs o : wf_blocks bs -> owns bs o -> object_ok o.
Proof.
  intros [Hok _] (Hs & Ha & b & Hb & _ & Hba & Hbs). rewrite Forall_forall in Hok.
  destruct (Hok b Hb) as (Hal & Hsz & ? & Hpos & Hend). pose proof (request_size_ge _ Hs).
  unfold object_ok, b_end, HEADER_SIZE in *. split_and!; [lia|lia|done|].
  replace (o.1) with (b_addr b + 1 * 32) by lia. by apply Z.divide_add_r; [|exists 1].
Qed.

Lemma owned_apart bs live :
  wf_blocks bs -> Forall (owns bs) live -> NoDup (live.*1) -> ForallOrdPairs apart live.
Proof.
  intros Hwf. induction live as [|[p l] live IH]; intros Ho Hn; [constructor|].
  apply Forall_cons in Ho as [Hp Ho]. rewrite fmap_cons in Hn. apply NoDup_cons in Hn as [Hnp Hn].
  constructor; [|by apply IH]. apply Forall_forall. intros [q m] Hq.
  apply (owned_disjoint bs); [done|done| |].
  - by apply (proj1 (list.Forall_forall _ _) Ho).
  - intros Hpq. cbn in Hpq. subst q. apply Hnp. apply list_elem_of_fmap. by exists (p, m).
Qed.

#[export] Instance FirstFit_GlobalAllocLaws : GlobalAllocLaws FirstFitAllocator.
Proof.
  refine {| ga_ok st live := exists bs, client_inv st live bs |}.
  - intros st live l (bs & Hinv) Hl. pose proof Hinv as (Hrep & _).
    pose proof (alloc_with_options_refines st bs l Hrep Hl) as Href.
    destruct (spec_alloc bs l) as [[p bs']|] eqn:Hsp.
    + destruct Href as (st' & Hrun & _). exists p, st'. split; [done|]. right.
      assert (p <> 0) as Hp by (eapply spec_alloc_pos; [apply Hrep|..]; done).
      split; [done|]. destruct (client_inv_alloc _ _ _ _ _ _ Hinv Hl Hrun Hp) as (bs2 & _ & ?). by exists bs2.
    + exists 0, st. split; [done|]. left. eauto.
  - intros st live (bs & Hrep & Hown & Hnd). pose proof Hrep as [_ Hwf]. split.
    + apply (Forall_impl _ _ _ Hown). intros o. by apply owns_object_ok.
    + by eapply owned_apart.
Defined.

(** A freshly initialised heap satisfies the invariant. *)
Lemma init_ga_ok map es st :
  MemoryMapHolder_iter map = Some (Ok es) -> mmap_ok es ->
  init_with_mmap map ALLOCATOR = (Ok tt, st) -> ga_ok st [].
Proof.
  intros Hit Hm Hrun. destruct (reachable_inv map es st [] Hit Hm) as (bs & Hinv & _); [by constructor|].
  by exists bs.
Qed.
