(* ===== verification/Paging.v ===== *)
(** * Page tables: the paging half of [src/src/x86.rs].

    [Paging] holds [Entry], [Table] and [PML4::create_mapping]; tables live in a memory that
    maps a table's address to its 512 entries, and new tables come from a [FrameSource], the
    interface the kernel heap implements ([KernelHeap] below).  The specification is the
    walk the processor does ([leaf]): [create_mapping] must change it on exactly the
    requested pages. *)

From S2P Require Import Prelude Uefi Allocator.
Import Allocator.Allocator Allocator.BlockSpec.

(** ** The interface to the heap: page-sized, page-aligned boxes *)

(** [Box::new] of a zeroed table asks the global allocator for 4096 bytes at a 4096-byte
    alignment; a null answer ends in [handle_alloc_error]. *)

Class FrameSource (A : Type) : Type := {
  (** the allocation, *)
  fs_alloc : A -> outcome Z * A;
  (** the allocator's invariant, *)
  fs_ok : A -> Prop;
  (** and the pages that it could still hand out. *)
  fs_avail : A -> Z -> Prop;
}.

(** What the page tables rely on. *)
Class FrameSourceLaws (A : Type) `{FrameSource A} : Prop := {
  fs_alloc_ok (a : A) : fs_ok a ->
    match fs_alloc a with
    | (Ok p, a') => fs_ok a' /\ (4096 | p) /\ 0 < p < 2 ^ 64 /\
        fs_avail a p /\ ~ fs_avail a' p /\ (forall q, fs_avail a' q -> fs_avail a q)
    | (Err _, _) => False
    | (Panic e, _) => e = msg_oom
    end;
}.

Module Paging.

Definition PAGE_SIZE : Z := 4096.
Definition ATTR_MASK : Z := 0xFFF.
Definition ATTR_PRESENT : Z := Z.shiftl 1 0.
Definition ATTR_WRITABLE : Z := Z.shiftl 1 1.
Definition ATTR_WRITE_THROUGH : Z := Z.shiftl 1 3.
Definition ATTR_CACHE_DISABLE : Z := Z.shiftl 1 4.

Inductive PageAttr : Type := NotPresent | ReadWriteKernel | ReadWriteIo.

Definition PageAttr_repr (a : PageAttr) : Z :=
  match a with
  | NotPresent => 0
  | ReadWriteKernel => Z.lor ATTR_PRESENT ATTR_WRITABLE
  | ReadWriteIo =>
      Z.lor (Z.lor (Z.lor ATTR_PRESENT ATTR_WRITABLE) ATTR_WRITE_THROUGH) ATTR_CACHE_DISABLE
  end.

(** An [Entry] is its 64-bit value. *)
Definition is_present (value : Z) : bool := negb (Z.land value (Z.shiftl 1 0) =? 0).
Definition is_writable (value : Z) : bool := negb (Z.land value (Z.shiftl 1 1) =? 0).
Definition is_user (value : Z) : bool := negb (Z.land value (Z.shiftl 1 2) =? 0).

(** [table] and [table_mut]: the address of the next level. *)
Definition table_mut (value : Z) : outcome Z :=
  if is_present value then Ok (Z.land value (wnot 64 ATTR_MASK)) else Err "Page not found".

(** The tables in memory and the allocator that provides new ones. *)
Record PageMemory (A : Type) : Type := { tables : gmap Z (list Z); frames : A }.
Arguments tables {A} _.
Arguments frames {A} _.

Section code.
Context {A : Type} `{FrameSource A}.

Definition read_entry (t : Z) (i : nat) : M (PageMemory A) Z := fun s =>
  match tables s !! t with
  | None => (Panic msg_ub, s)
  | Some es => match es !! i with
               | Some v => (Ok v, s)
               | None => (Panic "index out of bounds", s)
               end
  end.

Definition write_entry (t : Z) (i : nat) (v : Z) : M (PageMemory A) unit :=
  _ ← read_entry t i;
  modify (fun s => {| tables := alter (fun es => <[i := v]> es) t (tables s);
                      frames := frames s |}).

(** [Box::new(zeroed())] of a table, leaked by [Box::into_raw]. *)
Definition new_table : M (PageMemory A) Z := fun s =>
  match fs_alloc (frames s) with
  | (Ok p, a) => (Ok p, {| tables := <[p := replicate 512 0]> (tables s); frames := a |})
  | (Err e, a) => (Err e, {| tables := tables s; frames := a |})
  | (Panic e, a) => (Panic e, {| tables := tables s; frames := a |})
  end.

Definition set_page (t : Z) (i : nat) (phys : Z) (attr : PageAttr) : M (PageMemory A) unit :=
  if negb (Z.land phys ATTR_MASK =? 0) then throw "phys is not aligned"
  else write_entry t i (Z.lor phys (PageAttr_repr attr)).

Definition populate (t : Z) (i : nat) : M (PageMemory A) unit :=
  v ← read_entry t i;
  if is_present v then throw "page is already populated" else
  next ← new_table;
  write_entry t i (Z.lor next (PageAttr_repr ReadWriteKernel)).

Definition ensure_populated (t : Z) (i : nat) : M (PageMemory A) unit :=
  v ← read_entry t i;
  if is_present v then mret tt else populate t i.

Definition index_shift (LEVEL : Z) : Z := (LEVEL - 1) * 9 + 12.
Definition calc_index (LEVEL addr : Z) : nat :=
  Z.to_nat (Z.land (Z.shiftr addr (index_shift LEVEL)) 0x1FF).

(** [PML4::new]. *)
Definition PML4_new : M (PageMemory A) Z := new_table.

Section mapping_args.
Context (virt_start virt_end phys : Z) (attr : PageAttr).

(** [if index + 1 >= (1 << 9) || addr >= virt_end { break; }] *)
Definition loop_ends (index : nat) (addr : Z) : bool :=
  (512 <=? Z.of_nat index + 1) || (virt_end <=? addr).

(** The innermost loop, over the entries of a page table. *)
Fixpoint page_loop (fuel : nat) (table addr : Z) : M (PageMemory A) Z :=
  match fuel with
  | O => panic "out of fuel"
  | S fuel =>
      let index := calc_index 1 addr in
      sum ← lift (add_chk 64 phys addr);
      phys_addr ← lift (sub_chk sum virt_start);
      set_page table index phys_addr attr;;
      let addr := wrapping_add 64 addr PAGE_SIZE in
      if loop_ends index addr then mret addr else page_loop fuel table addr
  end.

(** The three outer loops have the same body, around the next loop. *)
Fixpoint table_loop (LEVEL : Z) (inner : Z -> Z -> M (PageMemory A) Z)
    (fuel : nat) (table addr : Z) : M (PageMemory A) Z :=
  match fuel with
  | O => panic "out of fuel"
  | S fuel =>
      let index := calc_index LEVEL addr in
      ensure_populated table index;;
      v ← read_entry table index;
      next ← lift (table_mut v);
      addr ← inner next addr;
      if loop_ends index addr then mret addr else table_loop LEVEL inner fuel table addr
  end.

(** A table has 512 entries and the index grows in each iteration. *)
Definition create_mapping (self : Z) : M (PageMemory A) unit :=
  table_loop 4 (table_loop 3 (table_loop 2 (page_loop 512) 512) 512) 512 self virt_start;;
  mret tt.
End mapping_args.
End code.
End Paging.

Import Paging.
Arguments tables {A} _.
Arguments frames {A} _.

(** ** The processor's walk *)

(** At depth [d] below the root (0 for the PML4, 3 for a page table), one entry spans
    [esz d] bytes. *)
Definition esz (d : nat) : Z := 2 ^ ((3 - Z.of_nat d) * 9 + 12).
Definition idx (d : nat) (va : Z) : nat := Z.to_nat ((va / esz d) mod 512).

Definition child_of (v : Z) : Z := Z.land v (wnot 64 ATTR_MASK).

(** The present entry of table [t] (at depth [d]) that [va] selects. *)
Definition entry_at (m : gmap Z (list Z)) (d : nat) (t va : Z) : option Z :=
  es ← m !! t; v ← es !! idx d va; if is_present v then Some v else None.

(** The table at depth [d] on the walk of [va] from [root]. *)
Fixpoint path (m : gmap Z (list Z)) (root : Z) (d : nat) (va : Z) : option Z :=
  match d with
  | O => Some root
  | S d => t ← path m root d va; v ← entry_at m d t va; Some (child_of v)
  end.

(** The page-table entry the processor finds for [va], if it is present. *)
Definition leaf (m : gmap Z (list Z)) (root va : Z) : option Z :=
  t ← path m root 3 va; entry_at m 3 t va.

(** What the entries of a mapped page say. *)
Definition mapped (phys : Z) (attr : PageAttr) : option Z :=
  match attr with NotPresent => None | _ => Some (Z.lor phys (PageAttr_repr attr)) end.

(** ** Well-formed page tables *)

(** [dp] gives each table its depth; tables form a tree (an entry's child is the child of no
    other entry) and are not pages the allocator could hand out. *)
Record wf_tables {A} `{FrameSource A} (root : Z) (dp : gmap Z nat) (s : PageMemory A) : Prop := {
  wf_root : dp !! root = Some 0%nat;
  wf_shape t d : dp !! t = Some d -> (d <= 3)%nat /\
    exists es, tables s !! t = Some es /\ length es = 512%nat;
  wf_child t d i es v : dp !! t = Some d -> (d < 3)%nat -> tables s !! t = Some es ->
    es !! i = Some v -> is_present v = true -> dp !! child_of v = Some (S d);
  wf_tree t d i es v t' d' i' es' v' :
    dp !! t = Some d -> (d < 3)%nat -> tables s !! t = Some es -> es !! i = Some v ->
    is_present v = true ->
    dp !! t' = Some d' -> (d' < 3)%nat -> tables s !! t' = Some es' -> es' !! i' = Some v' ->
    is_present v' = true -> child_of v = child_of v' -> t = t' /\ i = i';
  wf_frames : fs_ok (frames s);
  wf_fresh t d : dp !! t = Some d -> ~ fs_avail (frames s) t;
}.

(** ** Entries *)

Lemma calc_index_idx (d : nat) (va : Z) :
  (d <= 3)%nat -> calc_index (4 - Z.of_nat d) va = idx d va.
Proof.
  intros Hd. unfold calc_index, index_shift, idx, esz. change 0x1FF with (Z.ones 9).
  rewrite Z.land_ones by lia. rewrite Z.shiftr_div_pow2 by lia.
  by replace ((4 - Z.of_nat d - 1) * 9 + 12) with ((3 - Z.of_nat d) * 9 + 12) by lia.
Qed.

Lemma idx_lt d va : (idx d va < 512)%nat.
Proof. unfold idx. pose proof (Z.mod_pos_bound (va / esz d) 512). lia. Qed.

(** The low twelve bits of an aligned address are free for attributes. *)
Lemma lor_attr p a : (4096 | p) -> 0 <= p -> 0 <= a < 4096 -> Z.lor p a = p + a.
Proof.
  intros [q ->] Hp Ha. symmetry. rewrite Z.add_nocarry_lxor, Z.lxor_lor; try done;
  (assert (in_width 12 a) by (split; lia); change 4096 with (2 ^ 12);
   rewrite <- Z.shiftl_mul_pow2 by lia; zbits).
Qed.

Lemma kernel_entry p :
  (4096 | p) -> 0 < p < 2 ^ 64 ->
  let v := Z.lor p (PageAttr_repr ReadWriteKernel) in is_present v = true /\ child_of v = p.
Proof.
  intros Hd Hp v. unfold v. change (PageAttr_repr ReadWriteKernel) with 3.
  rewrite lor_attr by (done || lia). destruct Hd as [q Hq]. split.
  - unfold is_present. apply negb_true_iff, Z.eqb_neq. change (Z.shiftl 1 0) with (Z.ones 1).
    rewrite Z.land_ones by lia. change (2 ^ 1) with 2. div_lia.
  - unfold child_of. change ATTR_MASK with (2 ^ 12 - 1).
    rewrite land_align by (lia || (split; lia)). change (2 ^ 12) with 4096. div_lia.
Qed.

Lemma attr_present phys attr :
  Z.land phys ATTR_MASK = 0 ->
  (if is_present (Z.lor phys (PageAttr_repr attr))
   then Some (Z.lor phys (PageAttr_repr attr)) else None) = mapped phys attr.
Proof.
  intros H. unfold is_present. change (Z.shiftl 1 0) with 1.
  rewrite Z.land_lor_distr_l.
  assert (Z.land phys 1 = 0) as ->.
  { change 1 with (Z.land ATTR_MASK 1). by rewrite Z.land_assoc, H. }
  by destruct attr.
Qed.

Lemma aligned_mask phys : (4096 | phys) -> Z.land phys ATTR_MASK = 0.
Proof.
  intros [q ->]. change ATTR_MASK with (Z.ones 12). rewrite Z.land_ones by lia.
  change (2 ^ 12) with 4096. apply Z.mod_mul. lia.
Qed.

(** ** Walks *)

Section walks.
Context {A : Type} `{FrameSource A}.
Context (root : Z) (dp : gmap Z nat) (s : PageMemory A).
Hypothesis Hwf : wf_tables root dp s.

Lemma entry_at_dp d t va v :
  dp !! t = Some d -> (d < 3)%nat -> entry_at (tables s) d t va = Some v ->
  dp !! child_of v = Some (S d).
Proof.
  intros Ht Hd He. unfold entry_at in He.
  destruct (tables s !! t) as [es|] eqn:Hes; [|done]. simpl in He.
  destruct (es !! idx d va) as [w|] eqn:Hw; [|done]. simpl in He.
  destruct (is_present w) eqn:Hp; [|done]. simplify_eq. by eapply wf_child.
Qed.

Lemma path_dp d va t : (d <= 3)%nat -> path (tables s) root d va = Some t -> dp !! t = Some d.
Proof.
  revert t. induction d as [|d IH]; intros t Hd Hp; cbn [path] in Hp.
  - simplify_eq. by apply Hwf.
  - destruct (path (tables s) root d va) as [t'|] eqn:Hp'; [|done]. simpl in Hp.
    destruct (entry_at (tables s) d t' va) as [v|] eqn:He; [|done]. simplify_eq/=.
    eapply entry_at_dp; [by apply IH; [lia|]|lia|done].
Qed.

Lemma path_inj d va va' t :
  (d <= 3)%nat -> path (tables s) root d va = Some t -> path (tables s) root d va' = Some t ->
  forall k, (k < d)%nat -> idx k va = idx k va'.
Proof.
  revert t. induction d as [|d IH]; intros t Hd Hp Hp' k Hk; [lia|]. cbn [path] in Hp, Hp'.
  destruct (path (tables s) root d va) as [t1|] eqn:Hp1; [|done].
  destruct (path (tables s) root d va') as [t2|] eqn:Hp2; [|done]. simpl in Hp, Hp'.
  unfold entry_at in Hp, Hp'.
  destruct (tables s !! t1) as [es1|] eqn:He1; [|done].
  destruct (tables s !! t2) as [es2|] eqn:He2; [|done]. simpl in Hp, Hp'.
  destruct (es1 !! idx d va) as [v1|] eqn:Hv1; [|done].
  destruct (es2 !! idx d va') as [v2|] eqn:Hv2; [|done]. simpl in Hp, Hp'.
  destruct (is_present v1) eqn:Hpr1; [|done]. destruct (is_present v2) eqn:Hpr2; [|done].
  simplify_eq/=.
  assert (dp !! t1 = Some d) by (apply (path_dp d va); [lia|done]).
  assert (dp !! t2 = Some d) by (apply (path_dp d va'); [lia|done]).
  edestruct (wf_tree root dp s Hwf t1 d (idx d va) es1 v1 t2 d (idx d va') es2 v2) as [-> Hi];
    try done; try lia.
  destruct (decide (k = d)) as [->|]; [done|]. eapply (IH t2); [lia|done|done|lia].
Qed.
End walks.

(** Virtual addresses of the lower canonical half are on the same page exactly when the four
    indices agree. *)
Lemma idx_num d va : (d <= 3)%nat -> 0 <= va ->
  Z.of_nat (idx d va) = (va / 4096 / 512 ^ (3 - Z.of_nat d)) mod 512.
Proof.
  intros Hd Hva. unfold idx, esz. rewrite Z2Nat.id by (apply Z.mod_pos_bound; lia).
  rewrite Z.div_div by lia. do 2 f_equal.
  change 512 with (2 ^ 9). change 4096 with (2 ^ 12).
  rewrite <- Z.pow_mul_r, <- Z.pow_add_r by lia. f_equal. lia.
Qed.

Lemma same_page va va' :
  0 <= va < 2 ^ 48 -> 0 <= va' < 2 ^ 48 ->
  (forall k, (k <= 3)%nat -> idx k va = idx k va') <-> va / 4096 = va' / 4096.
Proof.
  intros Hva Hva'. split.
  - intros Hk.
    pose proof (Hk 0%nat ltac:(lia)) as He0. pose proof (Hk 1%nat ltac:(lia)) as H1.
    pose proof (Hk 2%nat ltac:(lia)) as H2. pose proof (Hk 3%nat ltac:(lia)) as H3.
    apply (f_equal Z.of_nat) in He0, H1, H2, H3.
    rewrite !idx_num in He0, H1, H2, H3 by lia. cbn in He0, H1, H2, H3.
    change (Z.pow_pos 512 3) with 134217728 in He0. change (Z.pow_pos 512 2) with 262144 in H1.
    change (Z.pow_pos 512 1) with 512 in H2. rewrite Z.div_1_r in H3.
    assert (va / 4096 < 2 ^ 36) by (apply Z.div_lt_upper_bound; lia).
    assert (va' / 4096 < 2 ^ 36) by (apply Z.div_lt_upper_bound; lia).
    pose proof (Z.div_pos va 4096). pose proof (Z.div_pos va' 4096).
    clear Hk. set (p := va / 4096) in *. set (p' := va' / 4096) in *. clearbody p p'. div_lia.
  - intros Heq k Hk. apply Nat2Z.inj. by rewrite !idx_num, Heq by lia.
Qed.

Section steps.
Context {A : Type} `{FrameSourceLaws A}.
Context (root : Z).

(** What every step keeps: tables stay, and walks that exist stay. *)
Definition extends (s s' : PageMemory A) : Prop :=
  forall d va x, (d <= 3)%nat -> path (tables s) root d va = Some x -> path (tables s') root d va = Some x.

Lemma extends_refl s : extends s s.
Proof. by intros d va x. Qed.

Lemma extends_trans s1 s2 s3 : extends s1 s2 -> extends s2 s3 -> extends s1 s3.
Proof. intros H12 H23 d va x Hd Hp. by apply H23, H12. Qed.

(** The state after an entry is overwritten. *)
Definition poke (s : PageMemory A) (t : Z) (i : nat) (v : Z) : PageMemory A :=
  {| tables := alter (fun es => <[i := v]> es) t (tables s); frames := frames s |}.
Arguments poke : simpl never.

(** Writing the entry of a page table that the walk of [va] ends in. *)
Section write_leaf.
Context (dp : gmap Z nat) (s : PageMemory A) (t va v : Z) (fr : A).
Hypothesis Hwf : wf_tables root dp s.
Hypothesis Hva : 0 <= va < 2 ^ 48.
Hypothesis Hpath : path (tables s) root 3 va = Some t.
Abbreviation s' := (poke s t (idx 3 va) v).

Lemma write_leaf_table x d : dp !! x = Some d -> (d < 3)%nat -> tables s' !! x = tables s !! x.
Proof using Hwf Hpath.
  intros Hx Hd. unfold poke. simpl. rewrite lookup_alter_ne; [done|]. intros <-.
  pose proof (path_dp root dp s Hwf 3 va t ltac:(lia) Hpath). simplify_eq. lia.
Qed.

Lemma write_leaf_path d va' : (d <= 3)%nat -> path (tables s') root d va' = path (tables s) root d va'.
Proof using Hwf Hpath.
  intros Hd. induction d as [|d IH]; [done|]. cbn [path]. rewrite IH by lia.
  destruct (path (tables s) root d va') as [x|] eqn:Hp; [|done]. cbn [mbind option_bind].
  unfold entry_at. rewrite (write_leaf_table x d) by
    ((by apply (path_dp root dp s Hwf d va'); [lia|done]) || lia). done.
Qed.

Lemma write_leaf_wf : wf_tables root dp s'.
Proof using Hwf Hpath.
  pose proof Hwf as [Hroot Hshape Hchild Htree Hfr Hfresh]. constructor; try done.
  - intros x d Hx. destruct (Hshape x d Hx) as (Hd & es & Hes & Hlen). split; [done|].
    unfold poke. simpl. rewrite lookup_alter. case_decide; [subst t|by exists es].
    rewrite Hes. eexists. split; [done|]. by rewrite length_insert.
  - intros x d i es w Hx Hd Hes. rewrite (write_leaf_table x d) in Hes by done.
    by eapply Hchild.
  - intros x d i es w x' d' i' es' w' Hx Hd Hes Hi Hp Hx' Hd' Hes'.
    rewrite (write_leaf_table x d) in Hes by done.
    rewrite (write_leaf_table x' d') in Hes' by done. by eapply Htree.
Qed.

Lemma write_leaf_leaf va' : 0 <= va' < 2 ^ 48 ->
  leaf (tables s') root va' =
    if decide (va / 4096 = va' / 4096) then (if is_present v then Some v else None)
    else leaf (tables s) root va'.
Proof using Hwf Hva Hpath.
  intros Hva'. unfold leaf. rewrite write_leaf_path by lia.
  pose proof (path_dp root dp s Hwf 3 va t ltac:(lia) Hpath) as Ht.
  destruct (wf_shape root dp s Hwf t 3 Ht) as (_ & es & Hes & Hlen).
  case_decide as Heq.
  - assert (forall k, (k <= 3)%nat -> idx k va = idx k va') as Hk by (by apply same_page).
    assert (path (tables s) root 3 va' = Some t) as ->.
    { rewrite <- Hpath. cbn [path]. unfold entry_at. by rewrite <- !Hk by lia. }
    simpl. unfold entry_at. unfold poke. simpl. rewrite lookup_alter_eq, Hes. simpl.
    rewrite <- Hk by lia. rewrite list_lookup_insert_eq; [done|].
    rewrite Hlen. apply idx_lt.
  - destruct (path (tables s) root 3 va') as [t'|] eqn:Hp'; [|done]. simpl.
    unfold entry_at, poke. simpl. destruct (decide (t = t')) as [<-|Hne];
      [|by rewrite lookup_alter_ne].
    rewrite lookup_alter_eq, Hes. simpl. rewrite list_lookup_insert_ne; [done|].
    intros Hidx. apply Heq. apply same_page; [done|done|]. intros k Hk.
    destruct (decide (k = 3%nat)) as [->|]; [done|].
    apply (path_inj root dp s Hwf 3 va va' t); (done || lia).
Qed.
End write_leaf.

(** Filling an empty entry with a new, zeroed table. *)
Section grow.
Context (dp : gmap Z nat) (s : PageMemory A) (t p : Z) (d i : nat) (es : list Z) (fr : A).
Hypothesis Hwf : wf_tables root dp s.
Hypothesis Ht : dp !! t = Some d.
Hypothesis Hd : (d < 3)%nat.
Hypothesis Hes : tables s !! t = Some es.
Hypothesis Hempty : forall w, es !! i = Some w -> is_present w = false.
Hypothesis Hfresh : dp !! p = None.
Hypothesis Hp : (4096 | p) /\ 0 < p < 2 ^ 64.
Hypothesis Hok : fs_ok fr.
Hypothesis Havail : ~ fs_avail fr p /\ forall q, fs_avail fr q -> fs_avail (frames s) q.
Abbreviation e := (Z.lor p (PageAttr_repr ReadWriteKernel)).
Abbreviation s' := (poke {| tables := <[p := replicate 512 0]> (tables s); frames := fr |} t i e).

Lemma grow_other x : is_Some (dp !! x) -> x <> t -> tables s' !! x = tables s !! x.
Proof using All.
  intros [dx Hx] Hne. unfold poke. simpl. rewrite lookup_alter_ne by done.
  rewrite lookup_insert_ne; [done|]. intros <-. congruence.
Qed.

Lemma grow_t : tables s' !! t = Some (<[i := e]> es).
Proof using All.
  unfold poke. simpl. rewrite lookup_alter_eq. rewrite lookup_insert_ne; [by rewrite Hes|].
  intros ->. congruence.
Qed.

Lemma grow_p : tables s' !! p = Some (replicate 512 0).
Proof using All.
  unfold poke. simpl. rewrite lookup_alter_ne by (intros ->; congruence).
  by rewrite lookup_insert_eq.
Qed.

(** Present entries of old tables are as before, but for the new one. *)
Lemma grow_entries x dx es1 k w :
  dp !! x = Some dx -> tables s' !! x = Some es1 -> es1 !! k = Some w -> is_present w = true ->
  (x = t /\ k = i /\ w = e) \/
  (exists es0, tables s !! x = Some es0 /\ es0 !! k = Some w).
Proof using All.
  intros Hx H1 Hk Hw. destruct (decide (x = t)) as [->|Hne].
  - rewrite grow_t in H1. simplify_eq. destruct (decide (k = i)) as [->|Hki].
    + left. apply list_lookup_insert_Some in Hk as [(_ & <- & _)|[? _]]; done.
    + right. exists es. rewrite list_lookup_insert_ne in Hk by done. done.
  - right. exists es1. rewrite grow_other in H1 by (done || by eexists). done.
Qed.

Lemma zeros_not_present k w : (replicate 512 0 : list Z) !! k = Some w -> is_present w = false.
Proof using. intros [-> _]%lookup_replicate. done. Qed.

Lemma grow_wf : (i < 512)%nat -> wf_tables root (<[p := S d]> dp) s'.
Proof using All.
  intros Hi. pose proof Hwf as [Hroot Hshape Hchild Htree Hfr Hfre].
  destruct Hp as [Hpa Hpr]. destruct (kernel_entry p Hpa Hpr) as [Hpres Hchi].
  assert (forall x dx k es1 w, <[p := S d]> dp !! x = Some dx -> tables s' !! x = Some es1 ->
    es1 !! k = Some w -> is_present w = true ->
    dp !! x = Some dx /\ ((x = t /\ k = i /\ w = e /\ dx = d) \/
      exists es0, tables s !! x = Some es0 /\ es0 !! k = Some w)) as Hent.
  { intros x dx k es1 w Hx H1 Hk Hw. destruct (decide (x = p)) as [->|Hne].
    - rewrite grow_p in H1. simplify_eq. by rewrite (zeros_not_present k w Hk) in Hw.
    - rewrite lookup_insert_ne in Hx by done. split; [done|].
      destruct (grow_entries x dx es1 k w Hx H1 Hk Hw) as [(-> & -> & ->)|]; [|by right].
      left. split_and!; congruence. }
  assert (forall x dx k es0 w, dp !! x = Some dx -> (dx < 3)%nat -> tables s !! x = Some es0 ->
    es0 !! k = Some w -> is_present w = true -> child_of w <> p) as Hnew.
  { intros x dx k es0 w Hx Hdx He0 Hk Hw Hc. pose proof (Hchild x dx k es0 w Hx Hdx He0 Hk Hw).
    rewrite Hc in *. congruence. }
  constructor.
  - rewrite lookup_insert_ne; [done|]. intros ->. congruence.
  - intros x dx Hx. destruct (decide (x = p)) as [->|Hne].
    + rewrite lookup_insert_eq in Hx. simplify_eq. split; [lia|]. eexists.
      split; [apply grow_p|]. apply length_replicate.
    + rewrite lookup_insert_ne in Hx by done. destruct (Hshape x dx Hx) as (? & es0 & Hes0 & Hl).
      split; [done|]. destruct (decide (x = t)) as [->|Hnt].
      * eexists. split; [apply grow_t|]. rewrite length_insert. congruence.
      * exists es0. by rewrite grow_other by (done || by eexists).
  - intros x dx k es1 w Hx Hdx H1 Hk Hw.
    destruct (Hent x dx k es1 w Hx H1 Hk Hw) as (Hx' & [(-> & -> & -> & ->)|(es0 & He0 & Hk0)]).
    + by rewrite Hchi, lookup_insert_eq.
    + rewrite lookup_insert_ne; [by eapply Hchild|]. intros Hc. by eapply Hnew.
  - intros x dx k es1 w x' dx' k' es1' w' Hx Hdx H1 Hk Hw Hx2 Hdx' H1' Hk' Hw' Hc.
    destruct (Hent x dx k es1 w Hx H1 Hk Hw) as (Hxd & [(-> & -> & -> & ->)|(es0 & He0 & Hk0)]);
    destruct (Hent x' dx' k' es1' w' Hx2 H1' Hk' Hw')
      as (Hxd' & [(-> & -> & -> & ->)|(es0' & He0' & Hk0')]).
    + done.
    + rewrite Hchi in Hc. by destruct (Hnew x' dx' k' es0' w').
    + rewrite Hchi in Hc. by destruct (Hnew x dx k es0 w).
    + by eapply Htree.
  - done.
  - intros x dx Hx Hav. destruct (decide (x = p)) as [->|Hne]; [by destruct Havail|].
    rewrite lookup_insert_ne in Hx by done. apply (Hfre x dx Hx). by apply Havail.
Qed.

Lemma grow_entry_at x dx va w :
  dp !! x = Some dx -> entry_at (tables s) dx x va = Some w ->
  entry_at (tables s') dx x va = Some w.
Proof using All.
  intros Hx He. unfold entry_at in *. destruct (decide (x = t)) as [->|Hne].
  - rewrite Hes in He. rewrite grow_t. simpl in *.
    destruct (es !! idx dx va) as [w'|] eqn:Hw; [|done]. simpl in He.
    destruct (is_present w') eqn:Hpr; [|done]. simplify_eq.
    rewrite list_lookup_insert_ne; [by rewrite Hw; simpl; rewrite Hpr|].
    intros ->. rewrite (Hempty _ Hw) in Hpr. done.
  - rewrite grow_other by (done || by eexists). done.
Qed.

Lemma grow_path dd va x :
  (dd <= 3)%nat -> path (tables s) root dd va = Some x -> path (tables s') root dd va = Some x.
Proof using All.
  revert x. induction dd as [|dd IH]; intros x Hdd Hpx; [done|]. cbn [path] in *.
  destruct (path (tables s) root dd va) as [y|] eqn:Hy; [|done]. simpl in Hpx.
  rewrite (IH y) by (done || lia). cbn [mbind option_bind].
  destruct (entry_at (tables s) dd y va) as [w|] eqn:Hw; [|done].
  rewrite (grow_entry_at y dd va w) by
    ((by apply (path_dp root dp s Hwf dd va); [lia|done]) || done). done.
Qed.

(** A walk of the new memory is a walk of the old one, or ends in the new table. *)
Lemma grow_path_back dd va x :
  (dd <= 3)%nat -> path (tables s') root dd va = Some x ->
  path (tables s) root dd va = Some x \/ x = p.
Proof using All.
  revert x. induction dd as [|dd IH]; intros x Hdd Hpx; [by left|]. cbn [path] in *.
  destruct (path (tables s') root dd va) as [y|] eqn:Hy; [|done]. cbn [mbind option_bind] in Hpx.
  destruct (IH y ltac:(lia) eq_refl) as [Hy0| ->].
  - rewrite Hy0. cbn [mbind option_bind]. pose proof (path_dp root dp s Hwf dd va y ltac:(lia) Hy0) as Hyd.
    unfold entry_at in *. destruct (tables s' !! y) as [es1|] eqn:H1; [|done]. cbn [mbind option_bind] in Hpx.
    destruct (es1 !! idx dd va) as [w|] eqn:Hw; [|done]. cbn [mbind option_bind] in Hpx.
    destruct (is_present w) eqn:Hpr; [|done]. simplify_eq/=.
    destruct (grow_entries y dd es1 _ w Hyd H1 Hw Hpr) as [(_ & _ & ->)|(es0 & -> & He0)].
    + right. by destruct (kernel_entry p) as [_ ?]; [apply Hp..|].
    + left. cbn [mbind option_bind]. rewrite He0. cbn [mbind option_bind]. by rewrite Hpr.
  - unfold entry_at in Hpx. rewrite grow_p in Hpx. cbn [mbind option_bind] in Hpx.
    destruct ((replicate 512 0 : list Z) !! idx dd va) as [w|] eqn:Hw; [|done]. cbn [mbind option_bind] in Hpx.
    by rewrite (zeros_not_present _ _ Hw) in Hpx.
Qed.

Lemma grow_leaf va : leaf (tables s') root va = leaf (tables s) root va.
Proof using All.
  unfold leaf. destruct (path (tables s) root 3 va) as [x|] eqn:Hx.
  - rewrite (grow_path 3 va x) by (done || lia). cbn [mbind option_bind].
    pose proof (path_dp root dp s Hwf 3 va x ltac:(lia) Hx) as Hxd.
    unfold entry_at. rewrite grow_other; [done|by eexists|]. intros ->. simplify_eq. lia.
  - destruct (path (tables s') root 3 va) as [y|] eqn:Hy; [|done]. cbn [mbind option_bind].
    destruct (grow_path_back 3 va y ltac:(lia) Hy) as [?| ->]; [congruence|].
    unfold entry_at. rewrite grow_p. cbn [mbind option_bind].
    destruct ((replicate 512 0 : list Z) !! idx 3 va) as [w|] eqn:Hw; [|done]. cbn [mbind option_bind].
    by rewrite (zeros_not_present _ _ Hw).
Qed.
End grow.

(** A write to an entry of a table. *)
Lemma write_entry_ok t i v s es :
  tables s !! t = Some es -> (i < length es)%nat -> write_entry t i v s = (Ok tt, poke s t i v).
Proof.
  intros Hes Hi. unfold write_entry. apply lookup_lt_is_Some_2 in Hi as [w Hw].
  rewrite (bind_ok _ _ _ w s); [done|]. unfold read_entry. by rewrite Hes, Hw.
Qed.

(** [ensure_populated] leaves a present entry, whose child is the next table of the walk. *)
Lemma ensure_spec dp s d va t :
  wf_tables root dp s -> (d < 3)%nat -> path (tables s) root d va = Some t ->
  oom_or (ensure_populated t (idx d va) s) (fun _ s' =>
    exists dp' v, wf_tables root dp' s' /\ extends s s' /\
      (forall va', leaf (tables s') root va' = leaf (tables s) root va') /\
      read_entry t (idx d va) s' = (Ok v, s') /\ table_mut v = Ok (child_of v) /\
      path (tables s') root (S d) va = Some (child_of v)).
Proof using Type*.
  intros Hwf Hd Hp. pose proof (path_dp root dp s Hwf d va t ltac:(lia) Hp) as Ht.
  destruct (wf_shape root dp s Hwf t d Ht) as (_ & es & Hes & Hlen).
  destruct (lookup_lt_is_Some_2 es (idx d va)) as [v Hv]; [rewrite Hlen; apply idx_lt|].
  assert (read_entry t (idx d va) s = (Ok v, s)) as Hread
    by (unfold read_entry; by rewrite Hes, Hv).
  unfold ensure_populated. rewrite (bind_ok _ _ _ _ _ Hread).
  destruct (is_present v) eqn:Hpr.
  - exists dp, v. split_and!; try done; [apply extends_refl|..].
    + unfold table_mut. by rewrite Hpr.
    + cbn [path]. rewrite Hp. cbn [mbind option_bind]. unfold entry_at.
      rewrite Hes. simpl. rewrite Hv. simpl. by rewrite Hpr.
  - unfold populate. rewrite (bind_ok _ _ _ _ _ Hread), Hpr.
    unfold new_table, mbind, M_bind.
    pose proof (fs_alloc_ok (frames s) (wf_frames root dp s Hwf)) as Hfs.
    destruct (fs_alloc (frames s)) as [[p|e|e] fr]; [|done|done].
    destruct Hfs as (Hok & Hal & Hrange & Hav & Hnav & Hsub).
    assert (dp !! p = None) as Hfresh.
    { destruct (dp !! p) eqn:Hdp; [|done]. by destruct (wf_fresh root dp s Hwf p n Hdp). }
    assert (forall w, es !! idx d va = Some w -> is_present w = false) as Hempty by congruence.
    destruct (kernel_entry p Hal Hrange) as [Hpres Hchi].
    set (s1 := poke {| tables := <[p := replicate 512 0]> (tables s); frames := fr |} t
      (idx d va) (Z.lor p (PageAttr_repr ReadWriteKernel))).
    assert (write_entry t (idx d va) (Z.lor p (PageAttr_repr ReadWriteKernel))
      {| tables := <[p := replicate 512 0]> (tables s); frames := fr |} = (Ok tt, s1)) as ->.
    { apply (write_entry_ok _ _ _ _ es); [|rewrite Hlen; apply idx_lt].
      cbn [tables]. rewrite lookup_insert_ne by (intros ->; congruence). done. }
    assert (tables s1 !! t = Some (<[idx d va := Z.lor p (PageAttr_repr ReadWriteKernel)]> es)) as Hs1
      by by apply (grow_t dp s t p d (idx d va) es fr).
    assert (path (tables s1) root d va = Some t) as Hp1
      by (eapply (grow_path dp s t p d (idx d va) es fr); (done || lia)).
    exists (<[p := S d]> dp), (Z.lor p (PageAttr_repr ReadWriteKernel)). split_and!.
    + eapply (grow_wf dp s t p d (idx d va) es fr); try done. apply idx_lt.
    + intros dd va' x. by eapply (grow_path dp s t p d (idx d va) es fr).
    + intros va'. by eapply (grow_leaf dp s t p d (idx d va) es fr).
    + unfold read_entry. by rewrite Hs1, list_lookup_insert_eq by (rewrite Hlen; apply idx_lt).
    + unfold table_mut. by rewrite Hpres.
    + cbn [path]. rewrite Hp1. cbn [mbind option_bind]. unfold entry_at. rewrite Hs1.
      cbn [mbind option_bind]. rewrite list_lookup_insert_eq by (rewrite Hlen; apply idx_lt).
      cbn [mbind option_bind]. by rewrite Hpres.
Qed.
End steps.

(** ** How addresses advance *)

(** A table at depth [d] spans [tsz d] bytes; [boundary d a] is the end of the span [a] is in. *)
Definition tsz (d : nat) : Z := 512 * esz d.
Definition boundary (d : nat) (a : Z) : Z := (a / tsz d + 1) * tsz d.

Lemma esz_pos d : (d <= 3)%nat -> 0 < esz d.
Proof. intros. unfold esz. apply Z.pow_pos_nonneg; lia. Qed.

Lemma tsz_S d : (d < 3)%nat -> tsz (S d) = esz d.
Proof.
  intros. unfold tsz, esz. change 512 with (2 ^ 9). rewrite <- Z.pow_add_r by lia. f_equal. lia.
Qed.

Lemma esz_pages d : (d <= 3)%nat -> (4096 | esz d).
Proof.
  intros. exists (2 ^ ((3 - Z.of_nat d) * 9)). unfold esz. change 4096 with (2 ^ 12).
  rewrite <- Z.pow_add_r by lia. done.
Qed.

Lemma idx_mod d a : Z.of_nat (idx d a) = (a / esz d) mod 512.
Proof. unfold idx. rewrite Z2Nat.id; [done|]. apply Z.mod_pos_bound. lia. Qed.

Lemma div_tsz d a : (d <= 3)%nat -> a / tsz d = a / esz d / 512.
Proof.
  intros. unfold tsz. rewrite (Z.mul_comm 512). pose proof (esz_pos d ltac:(done)).
  by rewrite Z.div_div by lia.
Qed.

Section advance.
Context (d : nat) (a : Z) (Hd : (d <= 3)%nat).
Let next : Z := (a / esz d + 1) * esz d.

Lemma boundary_last : 512 <= Z.of_nat (idx d a) + 1 -> next = boundary d a.
Proof using Hd.
  rewrite idx_mod. intros Hi. unfold next, boundary. rewrite div_tsz by done. unfold tsz.
  rewrite Z.mul_assoc. f_equal. generalize dependent (a / esz d). intros q Hi. clear next. div_lia.
Qed.

Lemma next_div : next / esz d = a / esz d + 1.
Proof using Hd. unfold next. pose proof (esz_pos d Hd). by rewrite Z.div_mul by lia. Qed.

Lemma next_idx : Z.of_nat (idx d a) + 1 < 512 -> Z.of_nat (idx d next) = Z.of_nat (idx d a) + 1.
Proof using Hd.
  rewrite !idx_mod, next_div. generalize (a / esz d). intros q Hi. clear next. div_lia.
Qed.

Lemma next_table : Z.of_nat (idx d a) + 1 < 512 -> next / tsz d = a / tsz d.
Proof using Hd.
  rewrite !div_tsz, idx_mod, next_div by done. generalize (a / esz d). intros q Hi. clear next. div_lia.
Qed.

Lemma next_below : next <= boundary d a.
Proof using Hd.
  unfold next, boundary. rewrite div_tsz by done. unfold tsz. pose proof (esz_pos d Hd).
  rewrite Z.mul_assoc. apply Z.mul_le_mono_nonneg_r; [lia|].
  generalize (a / esz d). intros q. clear next. div_lia.
Qed.

Lemma next_above : a < next.
Proof using Hd.
  unfold next. pose proof (esz_pos d Hd). pose proof (Z.mod_pos_bound a (esz d) ltac:(lia)).
  rewrite Z.mul_add_distr_r. pose proof (Z.div_mod a (esz d)). lia.
Qed.
End advance.

(** Within one table's span the walk to the table is the same. *)
Lemma same_table d a a' :
  (d <= 3)%nat -> a / tsz d = a' / tsz d -> forall k, (k < d)%nat -> idx k a = idx k a'.
Proof.
  intros Hd Heq k Hk. apply Nat2Z.inj. rewrite !idx_mod.
  assert (esz k = tsz d * 2 ^ (9 * (Z.of_nat d - 1 - Z.of_nat k))) as ->.
  { unfold tsz, esz. change 512 with (2 ^ 9). rewrite <- !Z.pow_add_r by lia. f_equal. lia. }
  pose proof (esz_pos d Hd). assert (0 < tsz d) by (unfold tsz; lia).
  rewrite <- !Z.div_div by (first [lia | apply Z.pow_pos_nonneg; lia]). by rewrite Heq.
Qed.

Lemma path_cong m root d a a' :
  (forall k, (k < d)%nat -> idx k a = idx k a') -> path m root d a = path m root d a'.
Proof.
  induction d as [|d IH]; intros Hk; [done|]. cbn [path]. rewrite IH by (intros; apply Hk; lia).
  unfold entry_at. by rewrite Hk by lia.
Qed.

(** ** The loops of [create_mapping] *)
Section loops.
Context {A : Type} {HF : FrameSource A} {HL : FrameSourceLaws A}.
Context (root virt_start virt_end phys : Z) (attr : PageAttr) (s0 : PageMemory A).
Hypothesis Hvirt : 0 <= virt_start < virt_end /\ virt_end <= 2 ^ 48.
Hypothesis Hvalign : (4096 | virt_start).
Hypothesis Hphys : 0 <= phys /\ phys + virt_end <= 2 ^ 64.
Hypothesis Hpalign : (4096 | phys).

(** The pages below [addr] are mapped, every other translation is as it was. *)
Definition mapped_upto (s : PageMemory A) (addr : Z) : Prop := forall va, 0 <= va < 2 ^ 48 ->
  leaf (tables s) root va =
    if decide (virt_start <= va < addr)
    then mapped (phys + (va - virt_start) / 4096 * 4096) attr else leaf (tables s0) root va.

(** What every level of loops establishes when it starts at [addr] in a table at depth [d]. *)
Definition loop_post (d : nat) (addr : Z) (s : PageMemory A) (addr' : Z) (s' : PageMemory A) : Prop :=
  exists dp', wf_tables root dp' s' /\ extends root s s' /\ mapped_upto s' addr' /\
    (4096 | addr') /\ addr < addr' <= boundary d addr /\ addr' < virt_end + 4096 /\
    (virt_end <= addr' \/ addr' = boundary d addr).

Definition fills (d : nat) (f : Z -> Z -> M (PageMemory A) Z) : Prop := forall dp s table addr,
  wf_tables root dp s -> path (tables s) root d addr = Some table -> mapped_upto s addr ->
  (4096 | addr) -> virt_start <= addr < virt_end ->
  oom_or (f table addr s) (loop_post d addr s).

Lemma page_step dp s table addr :
  wf_tables root dp s -> path (tables s) root 3 addr = Some table -> mapped_upto s addr ->
  (4096 | addr) -> virt_start <= addr < virt_end ->
  let s' := poke s table (idx 3 addr) (Z.lor (phys + addr - virt_start) (PageAttr_repr attr)) in
  set_page table (idx 3 addr) (phys + addr - virt_start) attr s = (Ok tt, s') /\
  wf_tables root dp s' /\ extends root s s' /\ mapped_upto s' (addr + 4096).
Proof using Hvirt Hvalign Hphys Hpalign.
  intros Hwf Hp Hm Hal Hr s'.
  assert (Z.land (phys + addr - virt_start) ATTR_MASK = 0) as Hland
    by (apply aligned_mask, Z.divide_sub_r; [apply Z.divide_add_r|]; done).
  split_and!.
  - unfold set_page. rewrite Hland. cbn [Z.eqb negb].
    pose proof (path_dp root dp s Hwf 3 addr table ltac:(lia) Hp) as Ht.
    destruct (wf_shape root dp s Hwf table 3%nat Ht) as (_ & es & Hes & Hlen).
    apply (write_entry_ok _ _ _ _ es); [done|]. rewrite Hlen. apply idx_lt.
  - apply (write_leaf_wf root dp s table addr); (done || lia).
  - intros d va x Hd Hx. unfold s'. by rewrite (write_leaf_path root dp s table addr) by (done || lia).
  - intros va Hva. unfold s'. rewrite (write_leaf_leaf root dp s table addr) by (done || lia).
    rewrite attr_present by done. destruct Hal as [q Hq], Hvalign as [w Hw].
    case_decide as Heq.
    + rewrite decide_True by div_lia. f_equal. rewrite Hw.
      assert (va / 4096 = q) as Hvq by div_lia.
      replace (va - w * 4096) with (va + (- w) * 4096) by lia.
      rewrite Z.div_add, Hvq by lia. lia.
    + rewrite Hm by done. case_decide; case_decide; try done; exfalso; div_lia.
Qed.

Lemma idx_3 addr : calc_index 1 addr = idx 3 addr.
Proof. by apply (calc_index_idx 3). Qed.

(** The next page. *)
Lemma next_page addr : (4096 | addr) -> addr + 4096 = (addr / esz 3 + 1) * esz 3.
Proof. intros [q ->]. change (esz 3) with 4096. rewrite Z.div_mul; lia. Qed.

Lemma page_loop_fills fuel : forall dp s table addr,
  wf_tables root dp s -> path (tables s) root 3 addr = Some table -> mapped_upto s addr ->
  (4096 | addr) -> virt_start <= addr < virt_end -> 512 <= Z.of_nat (idx 3 addr) + Z.of_nat fuel ->
  oom_or (page_loop virt_start virt_end phys attr fuel table addr s) (loop_post 3 addr s).
Proof using Hvirt Hvalign Hphys Hpalign.
  induction fuel as [|fuel IH]; intros dp s table addr Hwf Hp Hm Hal Hr Hfuel;
    [pose proof (idx_lt 3 addr); lia|].
  cbn [page_loop]. rewrite idx_3.
  rewrite (bind_ok (lift (add_chk 64 phys addr)) _ s (phys + addr) s)
    by (unfold lift; by rewrite (add_chk_ok 64 phys addr) by lia).
  rewrite (bind_ok (lift (sub_chk (phys + addr) virt_start)) _ s (phys + addr - virt_start) s)
    by (unfold lift; by rewrite (sub_chk_ok (phys + addr) virt_start) by lia).
  destruct (page_step dp s table addr Hwf Hp Hm Hal Hr) as (Hset & Hwf1 & Hext1 & Hm1).
  rewrite (bind_ok _ _ _ _ _ Hset). clear Hset.
  set (s1 := poke _ _ _ _) in *. clearbody s1.
  replace (wrapping_add 64 addr PAGE_SIZE) with (addr + 4096)
    by (unfold wrapping_add, PAGE_SIZE; rewrite wrap_small; unfold in_width; lia).
  pose proof (next_page addr Hal) as Hn.
  pose proof (next_below 3 addr ltac:(lia)) as Hbelow. rewrite <- Hn in Hbelow.
  assert (4096 | addr + 4096) as Hal1 by (apply Z.divide_add_r; [done|apply Z.divide_refl]).
  unfold loop_ends. destruct (_ || _) eqn:Hend.
  - exists dp. split_and!; try done; try lia.
    apply orb_true_iff in Hend as [Hend|Hend]; [right|left; lia].
    rewrite Hn. apply boundary_last; lia.
  - apply orb_false_iff in Hend as [Hend1 Hend2]. apply Z.leb_gt in Hend1, Hend2.
    pose proof (next_idx 3 addr ltac:(lia) Hend1) as Hi.
    pose proof (next_table 3 addr ltac:(lia) Hend1) as Ht. rewrite <- Hn in Hi, Ht.
    eapply oom_weaken; [eapply (IH dp); try done; try lia|].
    + rewrite (path_cong _ _ 3 (addr + 4096) addr); [by apply Hext1; [lia|]|].
      by apply same_table; [lia|].
    + intros a' s' (dp' & Hwf' & Hext' & Hm' & Hal' & Hb & Hv & Hor).
      unfold boundary in *. rewrite Ht in Hb, Hor.
      exists dp'. unfold boundary. split_and!; try done; try lia. by eapply extends_trans.
Qed.

Lemma table_loop_fills d inner fuel :
  (d < 3)%nat -> fills (S d) inner -> forall dp s table addr,
  wf_tables root dp s -> path (tables s) root d addr = Some table -> mapped_upto s addr ->
  (4096 | addr) -> virt_start <= addr < virt_end -> 512 <= Z.of_nat (idx d addr) + Z.of_nat fuel ->
  oom_or (table_loop virt_end (4 - Z.of_nat d) inner fuel table addr s) (loop_post d addr s).
Proof using Hvirt Hvalign Hphys Hpalign HL.
  intros Hd Hinner. induction fuel as [|fuel IH];
    intros dp s table addr Hwf Hp Hm Hal Hr Hfuel; [pose proof (idx_lt d addr); lia|].
  cbn [table_loop]. rewrite calc_index_idx by lia.
  eapply oom_bind; [by eapply ensure_spec|].
  intros [] s1 (dp1 & v & Hwf1 & Hext1 & Hleaf & Hread & Hnext & Hp1).
  rewrite (bind_ok _ _ _ _ _ Hread).
  rewrite (bind_ok (lift (table_mut v)) _ s1 (child_of v) s1) by (unfold lift; by rewrite Hnext).
  assert (mapped_upto s1 addr) as Hm1 by (intros va Hva; by rewrite Hleaf, Hm).
  eapply oom_bind; [by eapply Hinner|].
  intros a1 s2 (dp2 & Hwf2 & Hext2 & Hm2 & Hal2 & Hb2 & Hv2 & Hor2).
  unfold boundary in Hb2, Hor2. rewrite tsz_S in Hb2, Hor2 by lia.
  pose proof (next_below d addr ltac:(lia)) as Hbelow.
  assert (extends root s s2) as Hext by by eapply extends_trans.
  unfold loop_ends. destruct (_ || _) eqn:Hend.
  - exists dp2. split_and!; try done; try lia.
    apply orb_true_iff in Hend as [Hend|Hend]; [|left; lia].
    rewrite <- (boundary_last d addr) by lia. done.
  - apply orb_false_iff in Hend as [Hend1 Hend2]. apply Z.leb_gt in Hend1, Hend2.
    destruct Hor2 as [|Ha1]; [lia|].
    pose proof (next_idx d addr ltac:(lia) Hend1) as Hi.
    pose proof (next_table d addr ltac:(lia) Hend1) as Ht. rewrite <- Ha1 in Hi, Ht.
    eapply oom_weaken; [eapply (IH dp2); try done; try lia|].
    + rewrite (path_cong _ _ d a1 addr); [by apply Hext; [lia|]|].
      by apply same_table; [lia|].
    + intros a' s' (dp' & Hwf' & Hext' & Hm' & Hal' & Hb & Hv & Hor).
      unfold boundary in Hb, Hor. rewrite Ht in Hb, Hor.
      exists dp'. unfold boundary. split_and!; try done; try lia. by eapply extends_trans.
Qed.

Lemma page_loop_full : fills 3 (page_loop virt_start virt_end phys attr 512).
Proof using Hvirt Hvalign Hphys Hpalign.
  intros dp s table addr Hwf Hp Hm Hal Hr. by eapply page_loop_fills; try done; lia.
Qed.

Lemma table_loop_full d inner LEVEL : (d < 3)%nat -> LEVEL = 4 - Z.of_nat d ->
  fills (S d) inner -> fills d (table_loop virt_end LEVEL inner 512).
Proof using Hvirt Hvalign Hphys Hpalign HL.
  intros Hd -> Hi dp s table addr Hwf Hp Hm Hal Hr. by eapply table_loop_fills; try done; lia.
Qed.

(** [create_mapping] maps the pages that overlap [virt_start .. virt_end]. *)
Lemma create_mapping_spec dp :
  wf_tables root dp s0 ->
  oom_or (create_mapping virt_start virt_end phys attr root s0) (fun _ s' =>
    (exists dp', wf_tables root dp' s') /\ forall va, 0 <= va < 2 ^ 48 ->
      leaf (tables s') root va =
        if decide (virt_start <= va /\ va / 4096 * 4096 < virt_end)
        then mapped (phys + (va - virt_start) / 4096 * 4096) attr
        else leaf (tables s0) root va).
Proof using Hvirt Hvalign Hphys Hpalign HL.
  intros Hwf. unfold create_mapping. eapply oom_bind.
  - eapply (table_loop_full 0 _ 4); [lia|done| |by apply Hwf|done| |done|lia].
    + apply (table_loop_full 1 _ 3); [lia|done|]. apply (table_loop_full 2 _ 2); [lia|done|].
      apply page_loop_full.
    + intros va Hva. by rewrite decide_False by lia.
  - intros a' s' (dp' & Hwf' & _ & Hm & [q Hq] & Hb & Hv & Hor). split; [by exists dp'|].
    assert (virt_end <= a') as Hge.
    { destruct Hor as [|Ha]; [done|]. revert Ha. unfold boundary. change (tsz 0) with (2 ^ 48).
      rewrite Z.div_small by lia. lia. }
    intros va Hva. rewrite Hm by done. case_decide; case_decide; try done; exfalso; div_lia.
Qed.
End loops.

(** ** The kernel heap as a source of tables *)

Lemma chain_det hp : forall bs cs o, chain hp o bs -> chain hp o cs -> bs = cs.
Proof.
  induction bs as [|b bs IH]; intros [|c cs] o Hb Hc; simpl in *; try done.
  - destruct Hc as [-> _]. done.
  - destruct Hb as [-> _]. done.
  - destruct Hb as (-> & h & Hh & Hs & Ha & Hb), Hc as (Heq & h' & Hh' & Hs' & Ha' & Hc).
    simplify_eq. assert (h = h') as <- by congruence. rewrite (IH cs (h_next_header h)) by done.
    destruct b, c; simpl in *. congruence.
Qed.

Lemma represents_det st bs cs : represents st bs -> represents st cs -> bs = cs.
Proof. intros [Hb _] [Hc _]. by eapply chain_det. Qed.

(** A free block that splitting leaves is part of a free block that was there. *)
Lemma spec_alloc_free bs l p bs' c :
  wf_blocks bs -> layout_ok l -> spec_alloc bs l = Some (p, bs') -> c ∈ bs' -> b_alloc c = false ->
  exists b, b ∈ bs /\ b_alloc b = false /\ within c b.
Proof.
  intros [Hok _] Hl Hsp Hc Hcf. unfold spec_alloc in Hsp.
  destruct (_ || _); [done|].
  destruct (request_size_pow2 (l_size l)) as (ks & Hks).
  destruct (request_align_pow2 (l_align l)) as (ka & Hka); [by destruct Hl as (_ & ? & _)|].
  destruct (first_fit_some _ _ _ _ _ Hsp) as (l1 & b & l2 & -> & _ & Hfit & -> & ->).
  assert (b_alloc b = false) as Hfree
    by (unfold fits in Hfit; by apply andb_prop in Hfit as [?%negb_true_iff _]).
  apply Forall_app in Hok as [_ [Hb _]%Forall_cons_1].
  assert (forall x : Block, within x x) as Hrefl by (intros x; unfold within; lia).
  rewrite !elem_of_app in Hc. destruct Hc as [Hc|[Hc|Hc]].
  - exists c. rewrite elem_of_app. auto.
  - exists b. rewrite elem_of_app, elem_of_cons. split_and!; auto.
    pose proof (split_within b _ _ ks ka Hb Hks Hka Hfit) as Hw. rewrite Forall_forall in Hw. by apply Hw.
  - exists c. rewrite elem_of_app, elem_of_cons. auto.
Qed.

#[export] Instance KernelHeap : FrameSource FirstFitAllocator := {
  (** [Box::new] of a table: [GlobalAlloc::alloc], then [handle_alloc_error] on null. *)
  fs_alloc st := match alloc_with_options LAYOUT_PAGE_4K st with
                 | (Ok p, st') => (if p =? 0 then Panic msg_oom else Ok p, st')
                 | r => r
                 end;
  fs_ok st := exists bs, represents st bs;
  fs_avail st p := exists bs b, represents st bs /\ b ∈ bs /\ b_alloc b = false /\
    b_addr b < p /\ p + 4096 <= b_end b;
}.

Lemma page_layout_ok : layout_ok LAYOUT_PAGE_4K.
Proof. split; [done|]. split; [by exists 12|]. vm_compute. reflexivity. Qed.

#[export] Instance KernelHeap_laws : FrameSourceLaws FirstFitAllocator.
Proof.
  constructor. intros st [bs Hrep]. simpl.
  pose proof (alloc_with_options_refines st bs LAYOUT_PAGE_4K Hrep page_layout_ok) as Href.
  destruct (spec_alloc bs LAYOUT_PAGE_4K) as [[p bs']|] eqn:Hsp; [|by rewrite Href].
  destruct Href as (st' & -> & Hrep'). pose proof Hrep as [_ Hwf]. pose proof Hrep' as [_ Hwf'].
  pose proof (spec_alloc_pos _ _ _ _ Hwf page_layout_ok Hsp) as Hp0.
  rewrite (proj2 (Z.eqb_neq _ _)) by done.
  pose proof (spec_alloc_some _ _ _ _ Hwf page_layout_ok Hsp)
    as (_ & Hal & (b & Hb & Hbf & Hlo & Hhi) & (c & Hc & Hch) & _).
  destruct Hwf as [Hok _]. rewrite Forall_forall in Hok.
  destruct (Hok b Hb) as (_ & _ & _ & Hpos & Hend).
  change (request_size (l_size LAYOUT_PAGE_4K)) with 4096 in *.
  split_and!; try done; try (unfold HEADER_SIZE in *; lia).
  - by exists bs'.
  - exists bs, b. split_and!; try done; unfold HEADER_SIZE in *; lia.
  - intros (cs & d & Hrepd & Hd & Hdf & Hd1 & Hd2).
    rewrite (represents_det _ _ _ Hrepd Hrep') in Hd. destruct Hwf' as [_ Hpw'].
    destruct Hch as (Hca & Haddr & Hsz).
    destruct (pairwise_cases bs' c d Hpw' Hc Hd) as [->|Hdis]; [congruence|].
    change (request_size (l_size LAYOUT_PAGE_4K)) with 4096 in *.
    unfold disjoint_blocks, b_end, HEADER_SIZE in *. lia.
  - intros q (cs & d & Hrepd & Hd & Hdf & Hd1 & Hd2).
    rewrite (represents_det _ _ _ Hrepd Hrep') in Hd.
    destruct (spec_alloc_free bs _ _ _ d (proj2 Hrep) page_layout_ok Hsp Hd Hdf) as (e & He & Hef & Hw).
    exists bs, e. unfold within in Hw. split_and!; try done; lia.
Qed.

(** ** Computations that end in an error, or run out of memory *)
Definition err_or {S A} (r : outcome A * S) (Q : string -> S -> Prop) : Prop :=
  match r with
  | (Ok _, _) => False
  | (Err e, s') => Q e s'
  | (Panic e, _) => e = msg_oom
  end.

Lemma err_bind {S A B} (m : M S A) (k : A -> M S B) s Q :
  err_or (m s) Q -> err_or ((m ≫= k) s) Q.
Proof. unfold err_or, mbind, M_bind. by destruct (m s) as [[a|e|e] s']. Qed.

Lemma page_loop_err {A} (fuel : nat) (table virt_start virt_end phys : Z) (attr : PageAttr) (s : PageMemory A) :
  fuel <> 0%nat ->
  0 <= virt_start -> phys + virt_start < 2 ^ 64 -> Z.land phys ATTR_MASK <> 0 -> 0 <= phys ->
  page_loop virt_start virt_end phys attr fuel table virt_start s = (Err "phys is not aligned", s).
Proof.
  intros Hf Hv Hsum Hun Hp. destruct fuel as [|fuel]; [done|]. cbn [page_loop].
  rewrite (bind_ok (lift (add_chk 64 phys virt_start)) _ s (phys + virt_start) s)
    by (unfold lift; by rewrite (add_chk_ok 64 phys virt_start) by lia).
  rewrite (bind_ok (lift (sub_chk (phys + virt_start) virt_start)) _ s phys s)
    by (unfold lift; rewrite (sub_chk_ok (phys + virt_start) virt_start) by lia; do 2 f_equal; lia).
  apply bind_err. unfold set_page. by rewrite (proj2 (Z.eqb_neq _ _)) by done.
Qed.

Lemma table_loop_err {A} {HF : FrameSource A} {HL : FrameSourceLaws A}
    (d fuel : nat) LEVEL root dp (s : PageMemory A) virt_end table addr inner Q :
  fuel <> 0%nat ->
  (d < 3)%nat -> LEVEL = 4 - Z.of_nat d ->
  wf_tables root dp s /\ path (tables s) root d addr = Some table ->
  (forall dp' s' t, wf_tables root dp' s' -> path (tables s') root (S d) addr = Some t ->
     (forall va, leaf (tables s') root va = leaf (tables s) root va) ->
     err_or (inner t addr s') Q) ->
  err_or (table_loop virt_end LEVEL inner fuel table addr s) Q.
Proof.
  intros Hf Hd -> [Hwf Hp] Hinner. destruct fuel as [|fuel]; [done|]. cbn [table_loop].
  rewrite calc_index_idx by lia. unfold mbind at 1, M_bind at 1.
  pose proof (ensure_spec root dp s d addr table Hwf Hd Hp) as He. unfold oom_or in He.
  destruct (ensure_populated table (idx d addr) s) as [[[]|e|e] s1]; [|done|done].
  destruct He as (dp1 & v & Hwf1 & _ & Hleaf & Hread & Hnext & Hp1).
  rewrite (bind_ok _ _ _ _ _ Hread).
  rewrite (bind_ok (lift (table_mut v)) _ s1 (child_of v) s1) by (unfold lift; by rewrite Hnext).
  apply err_bind. by eapply Hinner.
Qed.

(** ** A new address space *)

Lemma new_pml4_spec {A} {HF : FrameSource A} {HL : FrameSourceLaws A} (a : A) :
  fs_ok a ->
  oom_or (PML4_new {| tables := ∅; frames := a |}) (fun root s =>
    wf_tables root {[root := 0%nat]} s /\ forall va, leaf (tables s) root va = None).
Proof.
  intros Ha. unfold PML4_new, new_table. pose proof (fs_alloc_ok a Ha) as Hfs.
  cbn [frames tables]. destruct (fs_alloc a) as [[p|e|e] a']; [|done|done].
  destruct Hfs as (Hok & Hal & Hrange & Hav & Hnav & Hsub).
  assert (forall t es, (<[p := replicate 512 0]> ∅ : gmap Z (list Z)) !! t = Some es ->
    es = replicate 512 0) as Hes.
  { intros t es. destruct (decide (t = p)) as [->|]; [rewrite lookup_insert_eq|by rewrite lookup_insert_ne].
    congruence. }
  split.
  - constructor; cbn [frames tables]; try done.
    + by rewrite lookup_singleton_eq.
    + intros t d [-> <-]%lookup_singleton_Some. split; [lia|]. eexists. by rewrite lookup_insert_eq.
    + intros t d i es v _ _ ->%Hes Hi Hpr. by rewrite (zeros_not_present i v Hi) in Hpr.
    + intros t d i es v t' d' i' es' v' _ _ ->%Hes Hi Hpr. by rewrite (zeros_not_present i v Hi) in Hpr.
    + intros t d [-> <-]%lookup_singleton_Some. done.
  - intros va. unfold leaf. cbn [tables].
    assert (forall d t, entry_at (<[p := replicate 512 0]> ∅) d t va = None) as Hnone.
    { intros d t. unfold entry_at. destruct (_ !! t) as [es|] eqn:E; [|done].
      apply Hes in E as ->. cbn [mbind option_bind].
      destruct ((replicate 512 0 : list Z) !! idx d va) as [v|] eqn:Hv; [|done].
      cbn [mbind option_bind]. by rewrite (zeros_not_present _ _ Hv). }
    destruct (path _ p 3 va) as [t|]; [|done]. cbn [mbind option_bind]. apply Hnone.
Qed.

(** ** The theorems *)

(** C3. Functional correctness of [create_mapping], proved against the allocator interface
    [FrameSource]: on well-formed page tables, for page-aligned [virt_start] and [phys], a
    non-empty range in the lower canonical half and no overflow of [phys + virt_end], it
    either runs out of heap or returns [Ok], and then the processor's walk finds, for every
    address whose page meets [virt_start .. virt_end], the physical page at the same offset
    with the requested attributes, and for every other address exactly the translation it
    found before; the tables stay well-formed. *)
Theorem create_mapping_correct {A} {HF : FrameSource A} {HL : FrameSourceLaws A}
  (root virt_start virt_end phys : Z) (attr : PageAttr) (dp : gmap Z nat) (s : PageMemory A)
  (Hwf : wf_tables root dp s)
  (Hvirt : 0 <= virt_start < virt_end /\ virt_end <= 2 ^ 48) (Hvalign : (4096 | virt_start))
  (Hphys : 0 <= phys /\ phys + virt_end <= 2 ^ 64) (Hpalign : (4096 | phys)) :
  match create_mapping virt_start virt_end phys attr root s with
  | (Ok _, s') => (exists dp', wf_tables root dp' s') /\ forall va, 0 <= va < 2 ^ 48 ->
      leaf (tables s') root va =
        if decide (virt_start <= va /\ va / 4096 * 4096 < virt_end)
        then mapped (phys + (va - virt_start) / 4096 * 4096) attr
        else leaf (tables s) root va
  | (Err _, _) => False
  | (Panic e, _) => e = msg_oom
  end.
Proof.
  exact (create_mapping_spec root virt_start virt_end phys attr s Hvirt Hvalign Hphys Hpalign dp Hwf).
Qed.

(** A heap from the example memory map, and a new PML4 in it. *)
Definition example_new : outcome Z * PageMemory FirstFitAllocator :=
  PML4_new {| tables := ∅; frames := example_state |}.
Definition example_root : Z := 0x7FF000.

Lemma example_wf : wf_tables example_root {[example_root := 0%nat]} example_new.2 /\
  forall va, leaf (tables example_new.2) example_root va = None.
Proof.
  pose proof (new_pml4_spec example_state (ex_intro _ _ example_represents)) as H.
  fold example_new in H. assert (example_new.1 = Ok example_root) as E by (vm_compute; reflexivity).
  destruct example_new as [r s]. simpl in E. subst r. exact H.
Qed.

Definition example_mapping : outcome unit * PageMemory FirstFitAllocator :=
  create_mapping 0x1FF000 0x202000 0x40000000 ReadWriteIo example_root example_new.2.

Lemma create_mapping_correct_witness :
  example_mapping.1 = Ok tt /\
  leaf (tables example_mapping.2) example_root 0x200123 = Some 0x4000101B /\
  leaf (tables example_mapping.2) example_root 0x203000 = None.
Proof.
  pose proof (create_mapping_correct example_root 0x1FF000 0x202000 0x40000000 ReadWriteIo
    _ _ (proj1 example_wf) ltac:(lia) ltac:(by exists 511) ltac:(lia) ltac:(by exists 0x40000)) as H.
  fold example_mapping in H.
  assert (example_mapping.1 = Ok tt) as E by (vm_compute; reflexivity).
  destruct example_mapping as [r s]. simpl in E. subst r. destruct H as [_ H].
  split; [done|]. cbn [snd]. rewrite !H by lia. split; [vm_compute; reflexivity|].
  rewrite decide_False by (vm_compute; intros [_ Hlt]; discriminate Hlt).
  apply example_wf.
Defined.

(** Error path of [create_mapping]: a physical address that is not page-aligned is
    refused with the error of [set_page] (unless the heap is exhausted first), and although
    the intermediate tables of the walk may have been created, no translation changes. *)
Theorem create_mapping_unaligned {A} {HF : FrameSource A} {HL : FrameSourceLaws A}
  (root virt_start virt_end phys : Z) (attr : PageAttr) (dp : gmap Z nat) (s : PageMemory A)
  (Hwf : wf_tables root dp s) (Hvirt : 0 <= virt_start) (Hphys : 0 <= phys)
  (Hsum : phys + virt_start < 2 ^ 64) (Hun : Z.land phys ATTR_MASK <> 0) :
  match create_mapping virt_start virt_end phys attr root s with
  | (Ok _, _) => False
  | (Err e, s') => e = "phys is not aligned"%string /\ (exists dp', wf_tables root dp' s') /\
      forall va, leaf (tables s') root va = leaf (tables s) root va
  | (Panic e, _) => e = msg_oom
  end.
Proof.
  change (err_or (create_mapping virt_start virt_end phys attr root s) (fun e s' =>
    e = "phys is not aligned"%string /\ (exists dp', wf_tables root dp' s') /\
      forall va, leaf (tables s') root va = leaf (tables s) root va)).
  unfold create_mapping. apply err_bind.
  eapply (table_loop_err 0 512); [done|lia|done|done|].
  intros dp1 s1 t1 Hwf1 Hp1 Hl1. eapply (table_loop_err 1 512); [done|lia|done|done|].
  intros dp2 s2 t2 Hwf2 Hp2 Hl2. eapply (table_loop_err 2 512); [done|lia|done|done|].
  intros dp3 s3 t3 Hwf3 Hp3 Hl3. rewrite (page_loop_err 512) by done.
  split; [done|]. split; [by exists dp3|]. intros va. by rewrite Hl3, Hl2, Hl1.
Qed.

Definition example_unaligned : outcome unit * PageMemory FirstFitAllocator :=
  create_mapping 0x1FF000 0x202000 0x40000010 ReadWriteIo example_root example_new.2.

Lemma create_mapping_unaligned_witness :
  example_unaligned.1 = Err "phys is not aligned"%string /\
  forall va, leaf (tables example_unaligned.2) example_root va = None.
Proof.
  pose proof (create_mapping_unaligned example_root 0x1FF000 0x202000 0x40000010 ReadWriteIo
    _ _ (proj1 example_wf) ltac:(lia) ltac:(lia) ltac:(lia) ltac:(vm_compute; discriminate)) as H.
  fold example_unaligned in H.
  assert (example_unaligned.1 = Err "phys is not aligned"%string) as E by (vm_compute; reflexivity).
  destruct example_unaligned as [r s]. simpl in E. subst r. destruct H as (_ & _ & H).
  split; [done|]. intros va. cbn [snd]. rewrite H. apply example_wf.
Defined.
