(* ===== verification/Trb.v ===== *)
(** * Transfer request blocks and rings: [src/src/xhci.rs].

    [Trb] holds the 16-byte TRB with its constructors and result checks and the stage TRBs
    that are transmuted into it; [TrbRing] the ring memory, [CommandRing] the producer side
    with its cycle bit and link TRB, whose [push] is the composition of the stores that the
    controller can tell apart.  The specification is the protocol of the xHCI controller:
    what a consumer that follows cycle bits and the link TRB finds on a command ring between
    any two of these stores.  The consumer side of the driver is in [Event]. *)

From S2P Require Import Prelude Bits.
Import Bits.Volatile.

Module Trb.

Inductive TrbType : Type :=
  | Normal | SetupStage | DataStage | StatusStage | Link
  | EnableSlotCommand | AddressDeviceCommand | ConfigureEndpointCommand | EvaluateContextCommand
  | NoOpCommand | TransferEvent | CommandCompletionEvent | PortStatusChangeEvent
  | HostControllerEvent.

(** [t as u32]. *)
Definition TrbType_repr (t : TrbType) : Z :=
  match t with
  | Normal => 1 | SetupStage => 2 | DataStage => 3 | StatusStage => 4 | Link => 6
  | EnableSlotCommand => 9 | AddressDeviceCommand => 11 | ConfigureEndpointCommand => 12
  | EvaluateContextCommand => 13 | NoOpCommand => 23 | TransferEvent => 32
  | CommandCompletionEvent => 33 | PortStatusChangeEvent => 34 | HostControllerEvent => 37
  end.

Record GenericTrbEntry : Type := { t_data : Z; t_option : Z; t_control : Z }.

Definition trb_default : GenericTrbEntry := {| t_data := 0; t_option := 0; t_control := 0 |}.

Definition CTRL_BIT_INTERRUPT_ON_SHORT_PACKET : Z := Z.shiftl 1 2.
Definition CTRL_BIT_INTERRUPT_ON_COMPLETION : Z := Z.shiftl 1 5.
Definition CTRL_BIT_IMMEDIATE_DATA : Z := Z.shiftl 1 6.
Definition CTRL_BIT_DATA_DIR_OUT : Z := Z.shiftl 0 16.
Definition CTRL_BIT_DATA_DIR_IN : Z := Z.shiftl 1 16.

(** The volatile cells of a TRB. *)
Definition on_control {A} (m : M Z A) : M GenericTrbEntry A :=
  zoom t_control (fun c t => {| t_data := t_data t; t_option := t_option t; t_control := c |}) m.
Definition on_data {A} (m : M Z A) : M GenericTrbEntry A :=
  zoom t_data (fun d t => {| t_data := d; t_option := t_option t; t_control := t_control t |}) m.

Definition set_trb_type (ty : TrbType) : M GenericTrbEntry unit :=
  unwrapM (on_control (write_bits 32 10 6 (TrbType_repr ty))).
Definition set_cycle_state (cycle : bool) : M GenericTrbEntry unit :=
  unwrapM (on_control (write_bits 32 0 1 (Z.b2z cycle))).
Definition set_toggle_cycle (value : bool) : M GenericTrbEntry unit :=
  unwrapM (on_control (write_bits 32 1 1 (Z.b2z value))).
Definition set_slot_id (slot : Z) : M GenericTrbEntry unit :=
  unwrapM (on_control (write_bits 32 24 8 slot)).

(** A read of a bit field of a word that is not written to. *)
Definition bits_of (w shift width : Z) : outcome Z := (read_bits 32 shift width w).1.

Definition slot_id (t : GenericTrbEntry) : outcome Z :=
  v ← bits_of (t_control t) 24 8;
  if v <? 2 ^ 8 then Ok v else Panic "TryFromIntError".
Definition trb_type (t : GenericTrbEntry) : outcome Z := bits_of (t_control t) 10 6.
Definition cycle_state (t : GenericTrbEntry) : outcome bool :=
  v ← bits_of (t_control t) 0 1; Ok (negb (v =? 0)).
Definition completion_code (t : GenericTrbEntry) : outcome Z := bits_of (t_option t) 24 8.

(** [let mut trb = Self::default(); ...; trb] *)
Definition build (m : M GenericTrbEntry unit) : outcome GenericTrbEntry :=
  let '(r, t) := m trb_default in _ ← r; Ok t.

Definition trb_link (ring_phys_addr : Z) : outcome GenericTrbEntry := build (
  set_trb_type Link;;
  on_data (Volatile_write ring_phys_addr);;
  set_toggle_cycle true).

Definition cmd_enable_slot : outcome GenericTrbEntry := build (set_trb_type EnableSlotCommand).

Definition cmd_address_device (input_context slot : Z) : outcome GenericTrbEntry := build (
  set_trb_type AddressDeviceCommand;;
  on_data (Volatile_write input_context);;
  set_slot_id slot).

Definition cmd_configure_endpoint (input_context slot : Z) : outcome GenericTrbEntry := build (
  set_trb_type ConfigureEndpointCommand;;
  on_data (Volatile_write input_context);;
  set_slot_id slot).

Definition cmd_result_ok (t : GenericTrbEntry) : outcome unit :=
  ty ← trb_type t;
  if negb (ty =? TrbType_repr CommandCompletionEvent) then Err "Not a Command Completion Event" else
  code ← completion_code t;
  if negb (code =? 1) then Err "Command Completion Event with error code" else Ok tt.

Definition transfer_result_ok (t : GenericTrbEntry) : outcome unit :=
  ty ← trb_type t;
  if negb (ty =? TrbType_repr TransferEvent) then Err "Not a TransferEvent" else
  code ← completion_code t;
  if negb (code =? 1) && negb (code =? 13) then Err "Transfer Event with error code" else Ok tt.

(** *** The stage TRBs *)

Record SetupStageTrb : Type := {
  ss_request_type : Z; ss_request : Z; ss_value : Z; ss_index : Z; ss_length : Z;
  ss_option : Z; ss_control : Z;
}.

Definition REQ_TYPE_DIR_DEVICE_TO_HOST : Z := Z.shiftl 1 7.
Definition REQ_TYPE_DIR_HOST_TO_DEVICE : Z := Z.shiftl 0 7.
Definition REQ_TYPE_TYPE_CLASS : Z := Z.shiftl 1 5.
Definition REQ_TYPE_TO_DEVICE : Z := 0.
Definition REQ_TYPE_TO_INTERFACE : Z := 1.
Definition REQ_TYPE_TO_ENDPOINT : Z := 2.
Definition REQ_GET_REPORT : Z := 1.
Definition REQ_CLEAR_FEATURE : Z := 1.
Definition REQ_GET_DESCRIPTOR : Z := 6.
Definition REQ_SET_CONFIGURATION : Z := 9.
Definition REQ_SET_INTERFACE : Z := 11.
Definition REQ_SET_PROTOCOL : Z := 0x0b.

Definition TRT_NO_DATA_STAGE : Z := 0.
Definition TRT_OUT_DATA_STAGE : Z := 2.
Definition TRT_IN_DATA_STAGE : Z := 3.

Definition SetupStageTrb_new (request_type request value index length : Z) : SetupStageTrb :=
  let transfer_type :=
    if length =? 0 then TRT_NO_DATA_STAGE
    else if negb (Z.land request REQ_TYPE_DIR_DEVICE_TO_HOST =? 0) then TRT_IN_DATA_STAGE
    else TRT_OUT_DATA_STAGE in
  {| ss_request_type := request_type; ss_request := request; ss_value := value;
     ss_index := index; ss_length := length; ss_option := 8;
     ss_control := Z.lor (Z.lor (Z.shiftl transfer_type 16)
       (Z.shiftl (TrbType_repr SetupStage) 10)) CTRL_BIT_IMMEDIATE_DATA |}.

(** [transmute]: the first eight bytes are read as one little-endian word. *)
Definition GenericTrbEntry_from_setup (s : SetupStageTrb) : GenericTrbEntry := {|
  t_data := le_decode (le_encode 1 (ss_request_type s) ++ le_encode 1 (ss_request s) ++
    le_encode 2 (ss_value s) ++ le_encode 2 (ss_index s) ++ le_encode 2 (ss_length s));
  t_option := ss_option s; t_control := ss_control s;
|}.

(** The data, status and normal TRBs have the layout of the generic one; [buf] is the
    address of a slice, [len] its size in bytes. *)
Definition DataStageTrb_new_in (buf len : Z) : GenericTrbEntry := {|
  t_data := buf; t_option := wrap 32 len;
  t_control := Z.lor (Z.lor (Z.lor (Z.shiftl (TrbType_repr DataStage) 10) CTRL_BIT_DATA_DIR_IN)
    CTRL_BIT_INTERRUPT_ON_COMPLETION) CTRL_BIT_INTERRUPT_ON_SHORT_PACKET;
|}.
Definition DataStageTrb_new_out (buf len : Z) : GenericTrbEntry := {|
  t_data := buf; t_option := wrap 32 len;
  t_control := Z.lor (Z.lor (Z.lor (Z.shiftl (TrbType_repr DataStage) 10) CTRL_BIT_DATA_DIR_OUT)
    CTRL_BIT_INTERRUPT_ON_COMPLETION) CTRL_BIT_INTERRUPT_ON_SHORT_PACKET;
|}.
Definition StatusStageTrb_new_out : GenericTrbEntry := {|
  t_data := 0; t_option := 0; t_control := Z.shiftl (TrbType_repr StatusStage) 10;
|}.
Definition StatusStageTrb_new_in : GenericTrbEntry := {|
  t_data := 0; t_option := 0;
  t_control := Z.lor (Z.lor (Z.lor (Z.shiftl (TrbType_repr StatusStage) 10) CTRL_BIT_DATA_DIR_IN)
    CTRL_BIT_INTERRUPT_ON_COMPLETION) CTRL_BIT_INTERRUPT_ON_SHORT_PACKET;
|}.
Definition NormalTrb_new_in (buf len : Z) : GenericTrbEntry := {|
  t_data := buf; t_option := wrap 32 len;
  t_control := Z.lor (Z.lor (Z.lor (Z.shiftl (TrbType_repr Normal) 10) CTRL_BIT_DATA_DIR_IN)
    CTRL_BIT_INTERRUPT_ON_COMPLETION) CTRL_BIT_INTERRUPT_ON_SHORT_PACKET;
|}.
Definition NormalTrb_new_out (buf len : Z) : GenericTrbEntry := {|
  t_data := buf; t_option := wrap 32 len;
  t_control := Z.lor (Z.lor (Z.lor (Z.shiftl (TrbType_repr Normal) 10)
    CTRL_BIT_INTERRUPT_ON_SHORT_PACKET) CTRL_BIT_INTERRUPT_ON_COMPLETION) CTRL_BIT_DATA_DIR_OUT;
|}.
End Trb.
Import Trb.

Module TrbRing.

Definition NUM_TRB : nat := 16.

(** The ring's address in memory, its TRBs and the index the driver is at. *)
Record TrbRing : Type := {
  r_addr : Z; trb : list GenericTrbEntry; current_index : nat;
}.

Definition with_trb (ts : list GenericTrbEntry) (r : TrbRing) : TrbRing :=
  {| r_addr := r_addr r; trb := ts; current_index := current_index r |}.
Definition with_index (i : nat) (r : TrbRing) : TrbRing :=
  {| r_addr := r_addr r; trb := trb r; current_index := i |}.

(** A zeroed [IoBox] at [addr]. *)
Definition TrbRing_new (addr : Z) : TrbRing :=
  {| r_addr := addr; trb := replicate NUM_TRB trb_default; current_index := 0 |}.

Definition TrbRing_write (index : nat) (t : GenericTrbEntry) : M TrbRing unit :=
  r ← get;
  if (index <? length (trb r))%nat then modify (with_trb (<[index := t]> (trb r)))
  else throw "TrbRing out of range".

(** [trb] is the first field of a [repr(C)] structure. *)
Definition phys_addr (r : TrbRing) : Z := r_addr r.

Definition trb_at (index : nat) (r : TrbRing) : outcome GenericTrbEntry :=
  match trb r !! index with Some t => Ok t | None => Panic "index out of bounds" end.
Definition current (r : TrbRing) : outcome GenericTrbEntry := trb_at (current_index r) r.
Definition current_ptr (r : TrbRing) : outcome Z :=
  _ ← trb_at (current_index r) r; Ok (r_addr r + 16 * Z.of_nat (current_index r)).

Definition advance_index_notoggle (cycle_ours : bool) : M TrbRing unit :=
  r ← get;
  t ← lift (current r);
  c ← lift (cycle_state t);
  if negb (eqb c cycle_ours) then throw "cycle state mismatch"
  else modify (with_index ((current_index r + 1) mod length (trb r))).

Definition advance_index (new_cycle : bool) : M TrbRing unit :=
  r ← get;
  t ← lift (current r);
  c ← lift (cycle_state t);
  if eqb c new_cycle then throw "cycle state mismatch" else
  let '(res, t') := set_cycle_state new_cycle t in
  lift res;;
  modify (with_trb (<[current_index r := t']> (trb r)));;
  modify (fun r => with_index ((current_index r + 1) mod length (trb r)) r).

Definition write_current (t : GenericTrbEntry) : M TrbRing unit :=
  r ← get; unwrapM (TrbRing_write (current_index r) t).
End TrbRing.
Import TrbRing.

Module CommandRing.

Record CommandRing : Type := { cr_ring : TrbRing; cr_cycle_state_ours : bool }.

Definition on_ring {A} (m : M TrbRing A) : M CommandRing A :=
  zoom cr_ring (fun r c => {| cr_ring := r; cr_cycle_state_ours := cr_cycle_state_ours c |}) m.
Definition set_cycle_ours (b : bool) : M CommandRing unit :=
  modify (fun c => {| cr_ring := cr_ring c; cr_cycle_state_ours := b |}).

(** [Default::default] with the ring's [IoBox] at [addr]. *)
Definition CommandRing_default (addr : Z) : outcome CommandRing :=
  let this := {| cr_ring := TrbRing_new addr; cr_cycle_state_ours := false |} in
  link ← trb_link (phys_addr (cr_ring this));
  let '(r, this) := unwrapM (on_ring (TrbRing_write (NUM_TRB - 1) link)) this in
  _ ← r; Ok this.

Definition cr_ring_phys_addr (c : CommandRing) : Z := r_addr (cr_ring c).

(** [push] in the parts the controller can look between, each of which changes one TRB in
    memory: the slot is cleared once the ring is found not to be full; the TRB is written
    with the cycle bit the slot had; the bit is flipped, which hands the TRB over; and the
    link TRB is handed over when it comes next. *)
Definition push_clear : M CommandRing Z :=
  this ← get;
  let ring := cr_ring this in
  t ← lift (current ring);
  c ← lift (cycle_state t);
  if negb (eqb c (cr_cycle_state_ours this)) then throw "Command Ring is Full" else
  dst_ptr ← lift (current_ptr ring);
  ofs ← lift (sub_chk dst_ptr (r_addr ring));
  dst_phys_addr ← lift (add_chk 64 (phys_addr ring) ofs);
  on_ring (modify (with_trb (<[current_index ring := trb_default]> (trb ring))));;
  mret dst_phys_addr.

Definition push_write (src : GenericTrbEntry) : M CommandRing unit :=
  this ← get;
  let '(res, src) := set_cycle_state (cr_cycle_state_ours this) src in
  lift res;;
  on_ring (write_current src).

Definition push_hand_over : M CommandRing unit :=
  this ← get; on_ring (advance_index (negb (cr_cycle_state_ours this))).

Definition push_link : M CommandRing unit :=
  this ← get;
  t ← lift (current (cr_ring this));
  ty ← lift (trb_type t);
  if ty =? TrbType_repr Link then
    on_ring (advance_index (negb (cr_cycle_state_ours this)));;
    set_cycle_ours (negb (cr_cycle_state_ours this))
  else mret tt.

Definition push (src : GenericTrbEntry) : M CommandRing Z :=
  dst_phys_addr ← push_clear;
  push_write src;;
  push_hand_over;;
  push_link;;
  mret dst_phys_addr.
End CommandRing.
Import CommandRing.

(** ** TRB fields *)

Definition trb_ok (t : GenericTrbEntry) : Prop := in_width 32 (t_control t).

(** The cycle bit and the type, as the mathematical bit fields. *)
Definition cyc (t : GenericTrbEntry) : bool := negb (get_field (t_control t) 0 1 =? 0).
Definition ty (t : GenericTrbEntry) : Z := get_field (t_control t) 10 6.
Definition with_control (c : Z) (t : GenericTrbEntry) : GenericTrbEntry :=
  {| t_data := t_data t; t_option := t_option t; t_control := c |}.
Definition with_cycle (b : bool) (t : GenericTrbEntry) : GenericTrbEntry :=
  with_control (set_field (t_control t) 0 1 (Z.b2z b)) t.

Lemma b2z_width b : in_width 1 (Z.b2z b).
Proof. destruct b; split; simpl; lia. Qed.

Lemma on_control_write_bits (s w v : Z) (t : GenericTrbEntry) :
  0 <= s < 32 -> 0 <= w < 32 -> s + w <= 32 -> in_width w v -> trb_ok t ->
  unwrapM (on_control (write_bits 32 s w v)) t =
    (Ok tt, with_control (set_field (t_control t) s w v) t).
Proof.
  intros Hs Hw Hsw [Hv0 Hv] Ht. unfold unwrapM, on_control, zoom.
  rewrite write_bits_eq by done. by rewrite (proj2 (Z.ltb_lt _ _)).
Qed.

Lemma set_cycle_state_eq b t : trb_ok t -> set_cycle_state b t = (Ok tt, with_cycle b t).
Proof.
  intros. unfold set_cycle_state. by rewrite on_control_write_bits by (lia || done || apply b2z_width).
Qed.

Lemma bits_of_eq c s w : 0 <= s < 32 -> 0 <= w < 32 -> bits_of c s w = Ok (get_field c s w).
Proof. intros. unfold bits_of. by rewrite read_bits_eq. Qed.

Lemma cycle_state_eq t : cycle_state t = Ok (cyc t).
Proof. unfold cycle_state. by rewrite bits_of_eq by lia. Qed.

Lemma trb_type_eq t : trb_type t = Ok (ty t).
Proof. unfold trb_type. by rewrite bits_of_eq by lia. Qed.

Lemma with_cycle_ok b t : trb_ok t -> trb_ok (with_cycle b t).
Proof. intros. unfold trb_ok. simpl. apply set_field_width; (lia || done || apply b2z_width). Qed.

Lemma cyc_with_cycle b t : cyc (with_cycle b t) = b.
Proof. unfold cyc. simpl. rewrite get_set_same by (lia || apply b2z_width). by destruct b. Qed.

Lemma ty_with_cycle b t : ty (with_cycle b t) = ty t.
Proof. unfold ty. simpl. by rewrite get_set_other by (lia || apply b2z_width). Qed.

Lemma with_cycle_twice b c t : with_cycle b (with_cycle c t) = with_cycle b t.
Proof.
  unfold with_cycle, with_control. simpl. f_equal. by rewrite set_set by (lia || apply b2z_width).
Qed.

(** The link TRB a ring at [addr] ends in. *)
Definition link_trb (addr : Z) : GenericTrbEntry :=
  {| t_data := addr; t_option := 0; t_control := 0x1802 |}.

Lemma trb_link_eq addr : trb_link addr = Ok (link_trb addr).
Proof. vm_compute. reflexivity. Qed.

(** ** The command and transfer rings as the controller sees them *)

(** A TRB the driver may push. *)
Definition cmd_ok (t : GenericTrbEntry) : Prop := trb_ok t /\ ty t <> 6.

(** The cycle bit of the [k]-th TRB pushed. *)
Definition lap_cycle (k : nat) : bool := Nat.even (k / 15).

(** [c] is the state of a ring at [addr] after the TRBs of [sent]. *)
Record cmd_inv (addr : Z) (sent : list GenericTrbEntry) (c : CommandRing) : Prop := {
  ci_addr : r_addr (cr_ring c) = addr;
  ci_len : length (trb (cr_ring c)) = 16%nat;
  ci_index : current_index (cr_ring c) = (length sent mod 15)%nat;
  ci_ours : cr_cycle_state_ours c = negb (lap_cycle (length sent));
  ci_link : trb (cr_ring c) !! 15%nat =
    Some (with_cycle (negb (lap_cycle (length sent))) (link_trb addr));
  ci_fresh i : (length sent <= i < 15)%nat -> trb (cr_ring c) !! i = Some trb_default;
  ci_sent k t : (k < length sent <= k + 15)%nat -> sent !! k = Some t ->
    trb (cr_ring c) !! (k mod 15)%nat = Some (with_cycle (lap_cycle k) t);
}.

Lemma default_inv addr c : CommandRing_default addr = Ok c -> cmd_inv addr [] c.
Proof.
  unfold CommandRing_default. simpl phys_addr. rewrite trb_link_eq. simpl.
  intros [= <-]. constructor; try done.
  intros i [_ Hi]. simpl. do 15 (destruct i as [|i]; [done|]). lia.
Qed.

Lemma lap_cycle_S15 k : lap_cycle (k + 15) = negb (lap_cycle k).
Proof.
  unfold lap_cycle. replace (k + 15)%nat with (k + 1 * 15)%nat by lia.
  rewrite Nat.div_add by lia. rewrite Nat.add_1_r, Nat.even_succ. by rewrite <- Nat.negb_even.
Qed.

Lemma lap_cycle_same k n : (k / 15 = n / 15)%nat -> lap_cycle k = lap_cycle n.
Proof. unfold lap_cycle. by intros ->. Qed.

Lemma lap_last k :
  (k mod 15 = 14)%nat -> (S k mod 15 = 0)%nat /\ lap_cycle (S k) = negb (lap_cycle k).
Proof.
  intros Hm. pose proof (Nat.div_mod_eq k 15). split.
  - symmetry. apply (Nat.mod_unique _ _ (k / 15 + 1)); lia.
  - rewrite <- lap_cycle_S15. apply lap_cycle_same.
    rewrite <- (Nat.div_unique (S k) 15 (k / 15 + 1) 0) by lia.
    by rewrite <- (Nat.div_unique (k + 15) 15 (k / 15 + 1) 14) by lia.
Qed.

Lemma lap_mid k :
  (k mod 15 <> 14)%nat -> (S k mod 15 = S (k mod 15))%nat /\ lap_cycle (S k) = lap_cycle k.
Proof.
  intros Hm. pose proof (Nat.div_mod_eq k 15). pose proof (Nat.mod_upper_bound k 15 ltac:(lia)).
  split; [symmetry; apply (Nat.mod_unique _ _ (k / 15)); lia|].
  apply lap_cycle_same. symmetry. apply (Nat.div_unique _ _ _ (S (k mod 15))); lia.
Qed.

Section push_proof.
Context (addr : Z) (sent : list GenericTrbEntry) (c : CommandRing) (src : GenericTrbEntry).
Hypothesis Hinv : cmd_inv addr sent c.
Hypothesis Hsent : Forall cmd_ok sent.
Hypothesis Hsrc : cmd_ok src.
Hypothesis Haddr : 0 <= addr /\ addr + 256 <= 2 ^ 64.
Let n : nat := length sent.
Let pos : nat := (n mod 15)%nat.
Let ours : bool := negb (lap_cycle n).

Lemma pos_lt : (pos < 15)%nat.
Proof using. unfold pos. pose proof (Nat.mod_upper_bound n 15). lia. Qed.

(** The slot that is about to be written carries the cycle bit [cycle_state_ours]. *)
Lemma slot_cycle : exists t, trb (cr_ring c) !! pos = Some t /\ trb_ok t /\ cyc t = ours /\ ty t <> 6.
Proof using Hinv Hsent.
  destruct (Nat.lt_ge_cases n 15) as [Hlt|Hge].
  - exists trb_default. unfold pos, ours. rewrite Nat.mod_small by done.
    split; [apply Hinv; fold n; lia|]. unfold lap_cycle. rewrite Nat.div_small by done.
    split; [split; simpl; lia|]. by split; vm_compute.
  - destruct (lookup_lt_is_Some_2 sent (n - 15)) as [t Ht]; [fold n; lia|].
    exists (with_cycle (lap_cycle (n - 15)) t).
    assert (((n - 15) mod 15)%nat = pos) as Hpos.
    { unfold pos. replace n with (n - 15 + 1 * 15)%nat at 2 by lia. by rewrite Nat.Div0.mod_add. }
    rewrite <- Hpos. split; [apply Hinv; [fold n; lia|done]|].
    rewrite Forall_lookup in Hsent. destruct (Hsent _ _ Ht) as [Hok Hty].
    split; [by apply with_cycle_ok|]. rewrite cyc_with_cycle, ty_with_cycle. split; [|done].
    unfold ours. replace n with (n - 15 + 15)%nat at 2 by lia. by rewrite lap_cycle_S15, negb_involutive.
Qed.

(** The ring with [t] in the slot, in the hands of the driver. *)
Definition in_slot (t : GenericTrbEntry) : CommandRing :=
  {| cr_ring := with_trb (<[pos := t]> (trb (cr_ring c))) (cr_ring c); cr_cycle_state_ours := ours |}.

(** The ring once the new TRB is in place and handed over, before the link is looked at. *)
Definition handed_over : CommandRing :=
  {| cr_ring := with_index (S pos) (with_trb (<[pos := with_cycle (lap_cycle n) src]> (trb (cr_ring c))) (cr_ring c));
     cr_cycle_state_ours := ours |}.

Lemma advance_push ts :
  ts !! pos = Some (with_cycle ours src) -> length ts = 16%nat ->
  advance_index (negb ours) (with_trb ts (cr_ring c)) =
    (Ok tt, with_index (S pos) (with_trb (<[pos := with_cycle (lap_cycle n) src]> ts) (cr_ring c))).
Proof using Hinv Hsrc.
  intros Hts Hlen. unfold advance_index, mbind, M_bind, get, lift, current, trb_at.
  cbn [with_trb trb current_index].
  rewrite (ci_index _ _ _ Hinv). fold n. fold pos. rewrite Hts. rewrite cycle_state_eq, cyc_with_cycle.
  destruct Hsrc as [Hok _].
  replace (eqb ours (negb ours)) with false by by destruct ours.
  rewrite set_cycle_state_eq, with_cycle_twice by by apply with_cycle_ok.
  unfold ours. rewrite negb_involutive. unfold modify, with_index, with_trb. simpl.
  rewrite length_insert, Hlen. rewrite (ci_index _ _ _ Hinv). fold n. fold pos.
  rewrite Nat.mod_small by (pose proof pos_lt; lia). do 3 f_equal. lia.
Qed.

Lemma push_clear_eq : push_clear c = (Ok (addr + 16 * Z.of_nat pos), in_slot trb_default).
Proof using Hinv Hsent Haddr.
  destruct slot_cycle as (t & Ht & Hok & Hc & _). unfold push_clear. mstep.
  assert (current (cr_ring c) = Ok t) as Hcur.
  { unfold current, trb_at. rewrite (ci_index _ _ _ Hinv). fold n. fold pos. by rewrite Ht. }
  rewrite Hcur. mstep. rewrite cycle_state_eq, Hc, (ci_ours _ _ _ Hinv). fold n. fold ours. mstep.
  rewrite eqb_reflx. cbn [negb].
  assert (current_ptr (cr_ring c) = Ok (addr + 16 * Z.of_nat pos)) as ->.
  { unfold current_ptr. fold (current (cr_ring c)). rewrite Hcur. simpl.
    by rewrite (ci_addr _ _ _ Hinv), (ci_index _ _ _ Hinv). }
  mstep. rewrite (ci_addr _ _ _ Hinv). pose proof pos_lt.
  rewrite (sub_chk_ok (addr + 16 * Z.of_nat pos) addr) by lia. mstep.
  unfold phys_addr. rewrite (ci_addr _ _ _ Hinv).
  rewrite (add_chk_ok 64 addr (addr + 16 * Z.of_nat pos - addr)) by lia. mstep.
  replace (addr + (addr + 16 * Z.of_nat pos - addr)) with (addr + 16 * Z.of_nat pos) by lia.
  unfold on_ring, zoom, in_slot. rewrite (ci_index _ _ _ Hinv). fold n. fold pos.
  unfold mbind, M_bind. by rewrite (ci_ours _ _ _ Hinv).
Qed.

Lemma push_write_eq t : push_write src (in_slot t) = (Ok tt, in_slot (with_cycle ours src)).
Proof using Hinv Hsrc.
  destruct Hsrc as [Hsok _]. unfold push_write. mstep. cbn [cr_cycle_state_ours in_slot].
  rewrite set_cycle_state_eq by done. mstep.
  unfold on_ring, zoom, write_current, unwrapM, TrbRing_write, mbind, M_bind, get, modify, in_slot, with_trb. simpl.
  rewrite (ci_index _ _ _ Hinv). fold n. fold pos. pose proof pos_lt.
  rewrite length_insert, (ci_len _ _ _ Hinv). rewrite (proj2 (Nat.ltb_lt _ _)) by lia.
  simpl. by rewrite list_insert_insert_eq.
Qed.

Lemma push_hand_over_eq : push_hand_over (in_slot (with_cycle ours src)) = (Ok tt, handed_over).
Proof using Hinv Hsrc.
  pose proof pos_lt. unfold push_hand_over. mstep. cbn [cr_cycle_state_ours in_slot].
  unfold on_ring, zoom. cbn [cr_ring in_slot]. rewrite advance_push.
  - rewrite list_insert_insert_eq. done.
  - apply list_lookup_insert_eq. rewrite (ci_len _ _ _ Hinv). lia.
  - by rewrite length_insert, (ci_len _ _ _ Hinv).
Qed.
End push_proof.

Lemma cmd_inv_snoc addr sent src ts ix ours :
  (length ts = 16)%nat ->
  ix = (S (length sent) mod 15)%nat -> ours = negb (lap_cycle (S (length sent))) ->
  ts !! 15%nat = Some (with_cycle ours (link_trb addr)) ->
  (forall i, (length sent < i < 15)%nat -> ts !! i = Some trb_default) ->
  ts !! (length sent mod 15)%nat = Some (with_cycle (lap_cycle (length sent)) src) ->
  (forall k t, (k < length sent < k + 15)%nat -> sent !! k = Some t ->
     ts !! (k mod 15)%nat = Some (with_cycle (lap_cycle k) t)) ->
  cmd_inv addr (sent ++ [src])
    {| cr_ring := {| r_addr := addr; trb := ts; current_index := ix |}; cr_cycle_state_ours := ours |}.
Proof.
  intros Hlen Hix Hours Hlink Hfresh Hnew Hold.
  assert (length (sent ++ [src]) = S (length sent)) as Hl by (rewrite length_app; simpl; lia).
  constructor; rewrite ?Hl; cbn [cr_ring r_addr trb current_index cr_cycle_state_ours]; try done.
  - by rewrite <- Hours.
  - intros k t Hk Hkt. apply lookup_app_Some in Hkt as [Hkt|[Hge Hkt]].
    + pose proof (lookup_lt_Some _ _ _ Hkt). apply Hold; [lia|done].
    + apply list_lookup_singleton_Some in Hkt as [Hz <-].
      by replace k with (length sent) by lia.
Qed.

(** The last part of a push brings the ring to the next slot. *)
Lemma push_link_inv addr sent c src :
  cmd_inv addr sent c -> Forall cmd_ok sent ->
  exists c', push_link (handed_over sent c src) = (Ok tt, c') /\ cmd_inv addr (sent ++ [src]) c' /\
    r_addr (cr_ring c') = r_addr (cr_ring (handed_over sent c src)) /\
    forall i, i <> 15%nat -> trb (cr_ring c') !! i = trb (cr_ring (handed_over sent c src)) !! i.
Proof.
  intros Hinv Hsent.
  set (n := length sent). set (pos := (n mod 15)%nat).
  assert (pos < 15)%nat as Hpos by (pose proof (Nat.mod_upper_bound n 15); lia).
  assert (n = 15 * (n / 15) + pos)%nat as Hn by apply Nat.div_mod_eq.
  set (ts := <[pos := with_cycle (lap_cycle n) src]> (trb (cr_ring c))).
  assert (length ts = 16%nat) as Hlen
    by (unfold ts; by rewrite length_insert, (ci_len _ _ _ Hinv)).
  assert (ts !! 15%nat = Some (with_cycle (negb (lap_cycle n)) (link_trb addr))) as Hlink.
  { unfold ts. rewrite list_lookup_insert_ne by lia. apply Hinv. }
  assert (ts !! pos = Some (with_cycle (lap_cycle n) src)) as Hnew.
  { unfold ts. apply list_lookup_insert_eq. rewrite (ci_len _ _ _ Hinv). lia. }
  assert (forall i, (n < i < 15)%nat -> ts !! i = Some trb_default) as Hfresh.
  { intros i Hi. assert (n / 15 = 0)%nat by (apply Nat.div_small; lia).
    unfold ts. rewrite list_lookup_insert_ne by lia. apply Hinv. fold n. lia. }
  assert (forall k t, (k < n < k + 15)%nat -> sent !! k = Some t ->
    ts !! (k mod 15)%nat = Some (with_cycle (lap_cycle k) t)) as Hold.
  { intros k t Hk Hkt. unfold ts. rewrite list_lookup_insert_ne; [apply Hinv; [fold n; lia|done]|].
    intros Heq. pose proof (Nat.div_mod_eq k 15). lia. }
  unfold push_link, mbind, M_bind, get, lift, handed_over. fold n. fold pos. fold ts.
  cbn [cr_ring with_index with_trb trb current_index cr_cycle_state_ours].
  assert (exists t, ts !! S pos = Some t /\ trb_ok t /\
    (ty t = 6 <-> pos = 14%nat) /\ (pos = 14%nat -> t = with_cycle (negb (lap_cycle n)) (link_trb addr)))
    as (t & Ht & Htok & Hty & Htl).
  { destruct (decide (pos = 14%nat)) as [Heq|Hne].
    - rewrite Heq. eexists. split; [exact Hlink|]. split; [apply with_cycle_ok; split; simpl; lia|].
      split; [|done]. split; [done|]. intros _. by rewrite ty_with_cycle.
    - destruct (Nat.lt_ge_cases n 14) as [Hlt|Hge].
      + exists trb_default. assert (n / 15 = 0)%nat by (apply Nat.div_small; lia).
        split; [apply Hfresh; lia|]. split; [split; simpl; lia|]. split; [|done]. by split.
      + destruct (lookup_lt_is_Some_2 sent (n - 14)) as [t Ht]; [fold n; lia|].
        assert (((n - 14) mod 15)%nat = S pos) as Hm.
        { symmetry. apply (Nat.mod_unique _ _ (n / 15 - 1)); lia. }
        pose proof (Hold (n - 14)%nat t ltac:(lia) Ht) as Ho. rewrite Hm in Ho.
        eexists. split; [exact Ho|]. rewrite Forall_lookup in Hsent.
        destruct (Hsent _ _ Ht) as [Hok Hnl]. split; [by apply with_cycle_ok|].
        rewrite ty_with_cycle. done. }
  unfold current, trb_at. cbn [trb current_index with_trb with_index]. rewrite Ht, trb_type_eq.
  change (TrbType_repr Link) with 6. destruct (Z.eqb_spec (ty t) 6) as [H6|H6].
  - apply Hty in H6. specialize (Htl H6). subst t.
    unfold on_ring, zoom. cbn [cr_ring]. unfold advance_index, mbind, M_bind, get, lift, current, trb_at.
    cbn [trb current_index with_trb with_index]. rewrite Ht, cycle_state_eq, cyc_with_cycle.
    replace (eqb (negb (lap_cycle n)) (negb (negb (lap_cycle n)))) with false
      by by destruct (lap_cycle n).
    rewrite set_cycle_state_eq, with_cycle_twice, negb_involutive
      by (apply with_cycle_ok; split; simpl; lia).
    unfold modify, set_cycle_ours, with_index, with_trb, mret, M_ret. cbn [trb cr_ring r_addr current_index].
    rewrite length_insert, Hlen, H6. eexists. split; [done|]. cbn [cr_ring r_addr trb].
    split; [|split; [done|by intros i Hi; rewrite list_lookup_insert_ne by lia] ].
    rewrite (ci_addr _ _ _ Hinv).
    destruct (lap_last n H6) as [Hm Hflip].
    apply cmd_inv_snoc; fold n; fold pos.
    + by rewrite length_insert.
    + by rewrite Hm.
    + rewrite Hflip. by rewrite negb_involutive.
    + rewrite list_lookup_insert_eq by lia. done.
    + intros i Hi. rewrite list_lookup_insert_ne by lia. by apply Hfresh.
    + rewrite list_lookup_insert_ne by lia. done.
    + intros k t Hk Hkt. rewrite list_lookup_insert_ne; [by apply Hold|].
      pose proof (Nat.mod_upper_bound k 15). lia.
  - eexists. split; [done|]. split; [|done]. unfold with_index, with_trb. cbn [r_addr]. rewrite (ci_addr _ _ _ Hinv).
    assert (pos <> 14%nat) by (intros Heq; by apply H6, Hty).
    destruct (lap_mid n) as [Hm Hsame]; [done|].
    apply cmd_inv_snoc; fold n; fold pos; try done.
    + by rewrite Hsame.
Qed.

(** A push succeeds and keeps the invariant; the TRB's address is that of its slot. *)
Lemma push_inv addr sent c src :
  cmd_inv addr sent c -> Forall cmd_ok sent -> cmd_ok src -> 0 <= addr /\ addr + 256 <= 2 ^ 64 ->
  exists c', push src c = (Ok (addr + 16 * Z.of_nat (length sent mod 15)), c') /\
    cmd_inv addr (sent ++ [src]) c'.
Proof.
  intros Hinv Hsent Hsrc Haddr. destruct (push_link_inv addr sent c src Hinv Hsent) as (c' & Hp & Hinv' & _).
  exists c'. split; [|done]. unfold push.
  rewrite (bind_ok _ _ _ _ _ (push_clear_eq addr sent c Hinv Hsent Haddr)).
  rewrite (bind_ok _ _ _ _ _ (push_write_eq addr sent c src Hinv Hsrc trb_default)).
  rewrite (bind_ok _ _ _ _ _ (push_hand_over_eq addr sent c src Hinv Hsrc)).
  by rewrite (bind_ok _ _ _ _ _ Hp).
Qed.

(** *** The consumer: the controller's rules for a command or transfer ring *)
Module Xhc.

(** The consumer's dequeue index and cycle state. *)
Record Consumer : Type := { deq : nat; ccs : bool }.

Definition toggles (t : GenericTrbEntry) : bool := negb (get_field (t_control t) 1 1 =? 0).

(** The TRB at the dequeue index, when its cycle bit is the consumer's. *)
Definition owned (r : TrbRing) (k : Consumer) : option GenericTrbEntry :=
  t ← trb r !! deq k; if eqb (cyc t) (ccs k) then Some t else None.

(** A valid link TRB is followed to the ring segment it points to. *)
Definition follow_link (r : TrbRing) (k : Consumer) : Consumer :=
  match owned r k with
  | Some t =>
      if (ty t =? TrbType_repr Link) && (t_data t =? r_addr r)
      then {| deq := 0; ccs := xorb (ccs k) (toggles t) |} else k
  | None => k
  end.

Definition fetch (r : TrbRing) (k : Consumer) : option (GenericTrbEntry * Consumer) :=
  let k := follow_link r k in
  t ← owned r k; Some (t, {| deq := S (deq k); ccs := ccs k |}).

(** How far the driver is in the push of a TRB to the address [p]. *)
Inductive PushPhase : Type :=
  | Idle | Cleared (src : GenericTrbEntry) (p : Z) | Written (src : GenericTrbEntry) (p : Z) | HandedOver (p : Z).

(** Driver and controller taking turns: [sent] is what the driver has handed over, [got]
    what the controller took. *)
Record System : Type := {
  ring : CommandRing; consumer : Consumer; sent : list GenericTrbEntry; got : list GenericTrbEntry;
  phase : PushPhase;
}.

(** The slot the controller waits at is cleared, and zero is its cycle bit of that lap. *)
Definition window (s : System) : bool :=
  match phase s with
  | Cleared _ _ => cr_cycle_state_ours (ring s) && (length (got s) =? length (sent s))%nat
  | _ => false
  end.

(** Each part of [push] is a step, and the controller fetches between any two of them: at
    any time but in the window.  At most 14 TRBs are outstanding.  ([write_current] stores
    word by word; until the control word is there the slot has the cycle bit the clearing
    left, so these moments belong to the phase [Cleared].) *)
Inductive step : System -> System -> Prop :=
  | step_clear s src p ring' :
      phase s = Idle -> cmd_ok src -> (length (sent s) < length (got s) + 14)%nat ->
      push_clear (ring s) = (Ok p, ring') ->
      step s {| ring := ring'; consumer := consumer s; sent := sent s; got := got s; phase := Cleared src p |}
  | step_write s src p ring' :
      phase s = Cleared src p -> push_write src (ring s) = (Ok tt, ring') ->
      step s {| ring := ring'; consumer := consumer s; sent := sent s; got := got s; phase := Written src p |}
  | step_hand_over s src p ring' :
      phase s = Written src p -> push_hand_over (ring s) = (Ok tt, ring') ->
      step s {| ring := ring'; consumer := consumer s; sent := sent s ++ [src]; got := got s; phase := HandedOver p |}
  | step_link s p ring' :
      phase s = HandedOver p -> push_link (ring s) = (Ok tt, ring') ->
      step s {| ring := ring'; consumer := consumer s; sent := sent s; got := got s; phase := Idle |}
  | step_fetch s t k' :
      window s = false -> fetch (cr_ring (ring s)) (consumer s) = Some (t, k') ->
      step s {| ring := ring s; consumer := k'; sent := sent s; got := got s ++ [t]; phase := phase s |}.

Inductive ring_reachable (addr : Z) : System -> Prop :=
  | reach_init c :
      CommandRing_default addr = Ok c ->
      ring_reachable addr {| ring := c; consumer := {| deq := 0; ccs := true |}; sent := []; got := []; phase := Idle |}
  | reach_step s s' : ring_reachable addr s -> step s s' -> ring_reachable addr s'.
End Xhc.
Import Xhc.

(** The TRBs the controller takes are the pushed ones with their cycle bit set by the ring. *)
Definition delivered (sent : list GenericTrbEntry) (k : nat) : option GenericTrbEntry :=
  with_cycle (lap_cycle k) <$> sent !! k.

(** Where the consumer stands after [k] TRBs: the slot of the next one, or the link. *)
Definition stands (k : nat) (x : Consumer) : Prop :=
  (deq x = (k mod 15)%nat /\ ccs x = lap_cycle k) \/
  (k <> 0%nat /\ (k mod 15)%nat = 0%nat /\ deq x = 15%nat /\ ccs x = negb (lap_cycle k)).

Lemma toggles_link b addr : toggles (with_cycle b (link_trb addr)) = true.
Proof. unfold toggles. simpl t_control. rewrite get_set_other by (lia || apply b2z_width). done. Qed.

Lemma lap_cycle_link k n :
  (k mod 15)%nat = 0%nat -> (k <= n <= k + 14)%nat -> lap_cycle n = lap_cycle k.
Proof.
  intros Hm Hn. apply lap_cycle_same. pose proof (Nat.div_mod_eq k 15).
  symmetry. apply (Nat.div_unique _ _ _ (n - k)); lia.
Qed.

Lemma stands_S k : stands (S k) {| deq := S (k mod 15); ccs := lap_cycle k |}.
Proof.
  unfold stands. cbn [deq ccs]. destruct (decide (k mod 15 = 14)%nat) as [H14|Hne].
  - right. destruct (lap_last k H14) as [Hm Hc]. rewrite Hm, Hc, negb_involutive. split_and!; lia || done.
  - left. by destruct (lap_mid k Hne) as [-> ->].
Qed.

(** *** What the controller finds *)

(** The controller looks at the TRB it stands at, and at the first one after a link. *)
Lemma fetch_agree (r r' : TrbRing) (x : Consumer) :
  r_addr r = r_addr r' -> trb r !! deq x = trb r' !! deq x ->
  trb r !! deq (follow_link r' x) = trb r' !! deq (follow_link r' x) ->
  fetch r x = fetch r' x.
Proof.
  intros Ha H1 H2. assert (follow_link r x = follow_link r' x) as Hf.
  { unfold follow_link, owned. by rewrite Ha, H1. }
  unfold fetch. rewrite Hf. unfold owned. by rewrite H2.
Qed.

Section found.
Context (addr : Z) (sent : list GenericTrbEntry) (c : CommandRing) (x : Consumer) (k : nat).
Hypothesis Hinv : cmd_inv addr sent c.
Hypothesis Hok : Forall cmd_ok sent.
Hypothesis Hlen : (k <= length sent <= k + 14)%nat.
Hypothesis Hst : stands k x.

(** Following the link brings the consumer to the next slot. *)
Lemma follow_link_stands :
  follow_link (cr_ring c) x = {| deq := (k mod 15)%nat; ccs := lap_cycle k |}.
Proof using Hinv Hok Hlen Hst.
  unfold follow_link, owned. destruct Hst as [[Hd Hc]|(H0 & Hm & Hd & Hc)].
  - assert (forall t, trb (cr_ring c) !! deq x = Some t -> cyc t = ccs x -> ty t <> 6) as Hty.
    { intros t Ht Hcy. rewrite Hd in Ht. destruct (Nat.lt_ge_cases k (length sent)) as [Hlt|Hge].
      - destruct (lookup_lt_is_Some_2 sent k Hlt) as [y Hy].
        rewrite (ci_sent _ _ _ Hinv k y) in Ht by (done || lia). simplify_eq.
        rewrite ty_with_cycle. rewrite Forall_lookup in Hok. by apply (Hok _ _ Hy).
      - assert (k = length sent) as -> by lia.
        destruct (slot_cycle addr sent c Hinv Hok) as (t' & Ht' & _ & Hc' & _).
        rewrite Ht in Ht'. simplify_eq. rewrite Hc, Hc' in Hcy. by destruct (lap_cycle _). }
    destruct (trb (cr_ring c) !! deq x) as [t|] eqn:Ht; [|simpl; destruct x; simpl in *; congruence].
    cbn [mbind option_bind]. destruct (eqb (cyc t) (ccs x)) eqn:He; [|destruct x; simpl in *; congruence].
    apply eqb_prop in He. rewrite (proj2 (Z.eqb_neq _ _)) by (change (TrbType_repr Link) with 6; eauto).
    destruct x; simpl in *; congruence.
  - rewrite Hd, (ci_link _ _ _ Hinv). cbn [mbind option_bind].
    rewrite cyc_with_cycle, Hc. rewrite (lap_cycle_link k (length sent)) by (done || lia).
    rewrite eqb_reflx. rewrite ty_with_cycle. change (ty (link_trb addr) =? TrbType_repr Link) with true.
    simpl t_data. rewrite (ci_addr _ _ _ Hinv), Z.eqb_refl. cbn [andb].
    rewrite toggles_link, Hm. f_equal. by destruct (lap_cycle k).
Qed.

(** The consumer takes the next TRB pushed, and nothing when there is none. *)
Lemma fetch_next :
  fetch (cr_ring c) x = (t ← delivered sent k; Some (t, {| deq := S (k mod 15); ccs := lap_cycle k |})).
Proof using Hinv Hok Hlen Hst.
  unfold fetch. rewrite follow_link_stands. unfold owned, delivered. cbn [deq ccs].
  destruct (Nat.lt_ge_cases k (length sent)) as [Hlt|Hge].
  - destruct (lookup_lt_is_Some_2 sent k Hlt) as [y Hy].
    rewrite (ci_sent _ _ _ Hinv k y) by (done || lia). rewrite Hy. cbn [mbind option_bind fmap option_fmap option_map].
    by rewrite cyc_with_cycle, eqb_reflx.
  - assert (k = length sent) as -> by lia. rewrite (lookup_ge_None_2 sent) by lia.
    destruct (slot_cycle addr sent c Hinv Hok) as (t & Ht & _ & Hc & _).
    rewrite Ht. cbn [mbind option_bind]. rewrite Hc. by destruct (lap_cycle _).
Qed.

(** While the slot of the next TRB holds [u], the TRBs before it are found as ever, and [u]
    itself by its cycle bit. *)
Lemma fetch_in_slot (u : GenericTrbEntry) : ty u <> 6 -> (length sent <= k + 13)%nat ->
  fst <$> fetch (cr_ring (in_slot sent c u)) x =
    (if decide (k = length sent) then if eqb (cyc u) (lap_cycle k) then Some u else None
     else delivered sent k) /\
  (k <> length sent \/ cyc u <> lap_cycle k ->
   fetch (cr_ring (in_slot sent c u)) x = fetch (cr_ring c) x).
Proof using Hinv Hok Hlen Hst.
  intros Hu Hroom. pose proof follow_link_stands as Hf. pose proof fetch_next as Hn.
  set (pos := (length sent mod 15)%nat). set (r' := cr_ring (in_slot sent c u)).
  assert (pos < 15)%nat as Hpos by (pose proof (Nat.mod_upper_bound (length sent) 15); lia).
  assert (forall i, i <> pos -> trb r' !! i = trb (cr_ring c) !! i) as Hne
    by (intros i Hi; unfold r', in_slot, with_trb; cbn [trb cr_ring]; by rewrite list_lookup_insert_ne).
  assert (trb r' !! pos = Some u) as Heq
    by (apply list_lookup_insert_eq; rewrite (ci_len _ _ _ Hinv); lia).
  destruct (decide (k = length sent)) as [Hk|Hk].
  - assert (follow_link r' x = {| deq := pos; ccs := lap_cycle k |}) as Hf'.
    { unfold pos. rewrite <- Hk, <- Hf. unfold follow_link, owned.
      destruct (decide (deq x = pos)) as [Hd|Hd]; [|by rewrite Hne].
      rewrite Hd, Heq.
      destruct (slot_cycle addr sent c Hinv Hok) as (t & Ht & _ & _ & Hty). fold pos in Ht.
      rewrite Ht. cbn [mbind option_bind]. change (TrbType_repr Link) with 6.
pose proof (proj2 (Z.eqb_neq (ty t) 6) Hty) as Et. pose proof (proj2 (Z.eqb_neq (ty u) 6) Hu) as Eu.
      by destruct (eqb (cyc u) _), (eqb (cyc t) _); rewrite ?Et, ?Eu. }
    assert (fetch r' x = if eqb (cyc u) (lap_cycle k) then Some (u, {| deq := S pos; ccs := lap_cycle k |}) else None) as Hr.
    { unfold fetch. rewrite Hf'. unfold owned. cbn [deq ccs]. rewrite Heq. cbn [mbind option_bind].
      by destruct (eqb _ _). }
    rewrite Hr. split; [by destruct (eqb _ _)|]. intros [?|Hcy]; [done|].
    rewrite (proj2 (eqb_false_iff _ _) Hcy), Hn. unfold delivered. rewrite (lookup_ge_None_2 sent) by lia. done.
  - assert (k mod 15 <> pos)%nat as Hm.
    { intros Hm. unfold pos in Hm. pose proof (Nat.div_mod_eq k 15). pose proof (Nat.div_mod_eq (length sent) 15). lia. }
    assert (fetch r' x = fetch (cr_ring c) x) as Hr.
    { apply fetch_agree; [done|..].
      - apply Hne. destruct Hst as [[-> _]|(_ & _ & -> & _)]; [done|lia].
      - rewrite Hf. by apply Hne. }
    split; [|done]. rewrite Hr, Hn. by destruct (delivered _ _).
Qed.
End found.

(** *** The invariant *)

Inductive sys_inv (addr : Z) : System -> Prop :=
  | inv_idle c x sent got :
      cmd_inv addr sent c -> sys_inv addr {| ring := c; consumer := x; sent := sent; got := got; phase := Idle |}
  | inv_cleared c x sent got src :
      cmd_inv addr sent c -> cmd_ok src -> (length sent < length got + 14)%nat ->
      sys_inv addr {| ring := in_slot sent c trb_default; consumer := x; sent := sent; got := got;
        phase := Cleared src (addr + 16 * Z.of_nat (length sent mod 15)) |}
  | inv_written c x sent got src :
      cmd_inv addr sent c -> cmd_ok src -> (length sent < length got + 14)%nat ->
      sys_inv addr {| ring := in_slot sent c (with_cycle (negb (lap_cycle (length sent))) src);
        consumer := x; sent := sent; got := got;
        phase := Written src (addr + 16 * Z.of_nat (length sent mod 15)) |}
  | inv_handed_over c x sent got src :
      cmd_inv addr sent c -> Forall cmd_ok sent -> (length sent < length got + 14)%nat ->
      sys_inv addr {| ring := handed_over sent c src; consumer := x; sent := sent ++ [src]; got := got;
        phase := HandedOver (addr + 16 * Z.of_nat (length sent mod 15)) |}.

(** What holds in every phase: the controller is behind the driver by at most 14 TRBs. *)
Record sys_ok (s : System) : Prop := {
  so_sent : Forall cmd_ok (sent s);
  so_len : (length (got s) <= length (sent s) <= length (got s) + 14)%nat;
  so_stands : stands (length (got s)) (consumer s);
  so_got k : (k < length (got s))%nat -> got s !! k = delivered (sent s) k;
}.

(** In every phase the controller finds the next TRB handed over, and nothing when there is
    none; but in the window it finds the zeros. *)
Lemma sys_fetch addr s : sys_inv addr s -> sys_ok s ->
  fst <$> fetch (cr_ring (ring s)) (consumer s) =
    (if window s then Some trb_default else delivered (sent s) (length (got s))) /\
  (window s = false -> fetch (cr_ring (ring s)) (consumer s) =
    t ← delivered (sent s) (length (got s));
    Some (t, {| deq := S (length (got s) mod 15); ccs := lap_cycle (length (got s)) |})).
Proof.
  intros Hinv [Hs Hlen Hst _].
  destruct Hinv as [c x l g Hc|c x l g src Hc Hsrc Hroom|c x l g src Hc Hsrc Hroom|c x l g src Hc Hl Hroom];
    cbn [ring consumer sent got] in *; unfold window; cbn [phase ring in_slot cr_cycle_state_ours got sent].
  - rewrite (fetch_next addr l c x (length g)) by done. split; [by destruct (delivered _ _)|done].
  - destruct (fetch_in_slot addr l c x (length g) Hc Hs Hlen Hst trb_default ltac:(done) ltac:(lia)) as [H1 H2].
    change (cyc trb_default) with false in H1, H2. destruct (Nat.eqb_spec (length g) (length l)) as [Hk|Hk].
    + rewrite decide_True in H1 by done. rewrite <- Hk. destruct (lap_cycle (length g)) eqn:E; cbn [negb andb eqb] in H1 |- *.
      * rewrite H1, (H2 ltac:(by right)), (fetch_next addr l c x (length g)) by done. split; [|by rewrite E].
        unfold delivered. by rewrite (lookup_ge_None_2 l) by lia.
      * split; [exact H1|done].
    + rewrite decide_False in H1 by done. rewrite andb_false_r. split; [done|]. intros _.
      by rewrite H2, (fetch_next addr l c x (length g)) by (done || by left).
  - destruct (fetch_in_slot addr l c x (length g) Hc Hs Hlen Hst
      (with_cycle (negb (lap_cycle (length l))) src)) as [_ H2]; [by rewrite ty_with_cycle; apply Hsrc|lia|].
    rewrite H2, (fetch_next addr l c x (length g)) by (done ||
      (rewrite cyc_with_cycle; destruct (decide (length g = length l)) as [->|]; [right; by destruct (lap_cycle _)|by left])).
    split; [by destruct (delivered _ _)|done].
  - destruct (push_link_inv addr l c src Hc Hl) as (c' & _ & Hc' & Ha & Hsame).
    pose proof (fetch_next addr (l ++ [src]) c' x (length g) Hc' Hs Hlen Hst) as Hn.
    pose proof (follow_link_stands addr (l ++ [src]) c' x (length g) Hc' Hs Hlen Hst) as Hf.
    rewrite length_app in Hlen. cbn [length] in Hlen.
    assert (length g mod 15 < 15)%nat as Hpos by (pose proof (Nat.mod_upper_bound (length g) 15); lia).
    assert (fetch (cr_ring (handed_over l c src)) x = fetch (cr_ring c') x) as Hr; [|rewrite Hr, Hn; split; [by destruct (delivered _ _)|done] ].
    destruct (decide (deq x = 15%nat)) as [Hd|Hd].
    + assert (trb (cr_ring (handed_over l c src)) !! 15%nat = Some (with_cycle (negb (lap_cycle (length l))) (link_trb addr))) as Hl15.
      { cbn [handed_over cr_ring with_index with_trb trb].
        rewrite list_lookup_insert_ne by (pose proof (Nat.mod_upper_bound (length l) 15); lia). apply Hc. }
      destruct (decide (length l mod 15 = 14)%nat) as [H14|H14].
      * destruct Hst as [[Hd' _]|(H0 & Hm & _ & Hcc)]; [lia|].
        pose proof (Nat.div_mod_eq (length g) 15). pose proof (Nat.div_mod_eq (length l) 15).
        assert (length g = S (length l)) as Hk by lia.
        rewrite Hn. unfold delivered. rewrite (lookup_ge_None_2 (l ++ [src])) by (rewrite length_app; cbn [length]; lia).
        unfold fetch, follow_link, owned. rewrite Hd, Hl15, Hcc, Hk. destruct (lap_last _ H14) as [_ ->].
        cbn [mbind option_bind]. rewrite cyc_with_cycle. rewrite negb_involutive.
        replace (eqb (negb (lap_cycle (length l))) (lap_cycle (length l))) with false by (destruct (lap_cycle (length l)); reflexivity).
        rewrite Hd, Hl15. cbn [mbind option_bind]. rewrite cyc_with_cycle, Hcc, Hk. destruct (lap_last _ H14) as [_ ->].
        by destruct (lap_cycle (length l)).
      * apply fetch_agree; [done|..].
        -- rewrite Hd, Hl15, (ci_link _ _ _ Hc'), length_app, Nat.add_1_r. by destruct (lap_mid _ H14) as [_ ->].
        -- rewrite Hf. symmetry. apply Hsame. cbn [deq]. lia.
    + apply fetch_agree; [done|symmetry; by apply Hsame|]. rewrite Hf. symmetry. apply Hsame. cbn [deq]. lia.
Qed.

Lemma sys_step addr s s' :
  0 <= addr /\ addr + 256 <= 2 ^ 64 -> sys_inv addr s -> sys_ok s -> step s s' -> sys_inv addr s' /\ sys_ok s'.
Proof.
  intros Haddr Hinv Hok Hstep. pose proof (sys_fetch addr s Hinv Hok) as [_ Hfetch].
  destruct Hok as [Hs Hlen Hst Hgot].
  destruct Hstep as [s src p r' Hph Hsrc Hroom Hp|s src p r' Hph Hp|s src p r' Hph Hp|s p r' Hph Hp|s t k' Hw Hf].
  - destruct Hinv as [c x l g Hc| | |]; cbn [phase ring sent got] in *; simplify_eq.
    rewrite (push_clear_eq addr l) in Hp by done. simplify_eq. split; [by constructor|by constructor].
  - destruct Hinv as [|c x l g ? Hc| |]; cbn [phase ring sent got] in *; simplify_eq.
    rewrite (push_write_eq addr l) in Hp by done. simplify_eq. split; [by constructor|by constructor].
  - destruct Hinv as [| |c x l g ? Hc|]; cbn [phase ring sent got] in *; simplify_eq.
    rewrite (push_hand_over_eq addr l) in Hp by done. simplify_eq. split; [by constructor|].
    constructor; cbn [sent got consumer].
    + apply Forall_app. split; [done|]. by constructor.
    + rewrite length_app. cbn [length]. lia.
    + done.
    + intros k Hk. rewrite (Hgot k Hk). unfold delivered. by rewrite lookup_app_l by lia.
  - destruct Hinv as [| | |c x l g src Hc Hl Hroom]; cbn [phase ring sent got] in *; simplify_eq.
    destruct (push_link_inv addr l c src Hc Hl) as (c' & Hp' & Hc' & _).
    rewrite Hp' in Hp. injection Hp as <-. split; [by apply inv_idle|by constructor].
  - rewrite (Hfetch Hw) in Hf.
    destruct (delivered (sent s) (length (got s))) as [y|] eqn:Hd; [|done]. simplify_eq/=.
    assert (length (got s) < length (sent s))%nat as Hlt.
    { unfold delivered in Hd. apply fmap_Some in Hd as (z & Hz & _). by eapply lookup_lt_Some. }
    split.
    + destruct Hinv; cbn [phase ring sent got consumer] in *; constructor; try done; rewrite length_app; cbn [length]; lia.
    + constructor; cbn [sent got consumer]; rewrite ?length_app; cbn [length]; rewrite ?Nat.add_1_r; try done; try lia.
      * apply stands_S.
      * intros k Hk. destruct (decide (k = length (got s))) as [->|]; [by rewrite list_lookup_middle|].
        rewrite lookup_app_l by lia. apply Hgot. lia.
Qed.

Lemma ring_reachable_inv addr s :
  0 <= addr /\ addr + 256 <= 2 ^ 64 -> ring_reachable addr s -> sys_inv addr s /\ sys_ok s.
Proof.
  intros Haddr. induction 1 as [c Hc|s s' _ [IH1 IH2] Hstep]; [|by eapply sys_step].
  split; [constructor; by apply default_inv|].
  constructor; cbn [ring sent got consumer]; try done; try (simpl; lia). by left.
Qed.

(** What the driver does next in a state. *)
Definition driver_succeeds (addr : Z) (src : GenericTrbEntry) (s : System) : Prop :=
  match phase s with
  | Idle => exists r, push_clear (ring s) = (Ok (addr + 16 * Z.of_nat (length (sent s) mod 15)), r)
  | Cleared src' _ => exists r, push_write src' (ring s) = (Ok tt, r)
  | Written _ _ => exists r, push_hand_over (ring s) = (Ok tt, r)
  | HandedOver _ => exists r, push_link (ring s) = (Ok tt, r)
  end.

(** C4. The command/transfer ring protocol, for every interleaving of the stores of the
    driver's pushes with controller fetches, from the default ring, as long as the driver
    keeps at most 14 TRBs outstanding (which [push] does not enforce) and the controller
    does not look at the slot it waits for within the window in which [push] has cleared it
    on every second lap.  The controller has received exactly a prefix of the TRBs handed
    over, in order, each with the cycle bit of its lap and nothing else changed; it finds a
    TRB if and only if one is outstanding, across the wrap-arounds and the link TRB, at any
    point of a push; within the window it would find a TRB of zeros as its next one.  And
    no part of a push reports a full ring, fails or panics; the address returned cycles
    through the 15 slots. *)
Theorem command_ring_delivers (addr : Z) (s : System) (src : GenericTrbEntry)
  (Haddr : 0 <= addr /\ addr + 256 <= 2 ^ 64) (Hreach : ring_reachable addr s) (Hsrc : cmd_ok src) :
  (forall k, (k < length (got s))%nat -> got s !! k = delivered (sent s) k) /\
  fst <$> fetch (cr_ring (ring s)) (consumer s) =
    (if window s then Some trb_default else delivered (sent s) (length (got s))) /\
  driver_succeeds addr src s /\
  (phase s = Idle -> exists r, push src (ring s) = (Ok (addr + 16 * Z.of_nat (length (sent s) mod 15)), r)).
Proof.
  destruct (ring_reachable_inv addr s Haddr Hreach) as [Hinv Hok].
  split; [apply Hok|]. split; [apply (proj1 (sys_fetch addr s Hinv Hok))|].  pose proof (so_sent _ Hok) as Hs. split.
  - destruct Hinv as [| | |c x l g src' Hc Hl Hroom]; unfold driver_succeeds; cbn [phase ring sent] in *.
    + eexists. by apply push_clear_eq.
    + eexists. by apply (push_write_eq addr).
    + eexists. by apply (push_hand_over_eq addr).
    + destruct (push_link_inv addr l c src' Hc Hl) as (c' & Hp & _). by exists c'.
  - intros Hi. destruct Hinv; cbn [phase ring sent] in *; try done.
    destruct (push_inv addr sent0 c src) as (c' & Hp & _); try done. by exists c'.
Qed.

Definition example_setup : GenericTrbEntry :=
  GenericTrbEntry_from_setup (SetupStageTrb_new 0x80 REQ_GET_DESCRIPTOR 0x100 0 18).

(** A push in its parts, the controller looking when it is through; sixteen of them are more
    than a lap. *)
Definition after_push (s : System) (ring' : CommandRing) : System :=
  {| ring := ring'; consumer := consumer s; sent := sent s ++ [example_setup]; got := got s; phase := Idle |}.
Definition ping1 (s : System) : System :=
  let s := after_push s (push example_setup (ring s)).2 in
  match fetch (cr_ring (ring s)) (consumer s) with
  | Some (t, k') => {| ring := ring s; consumer := k'; sent := sent s; got := got s ++ [t]; phase := Idle |}
  | None => s
  end.

Lemma example_setup_ok : cmd_ok example_setup.
Proof. split; [split; vm_compute; done|vm_compute; discriminate]. Qed.

Lemma push_reachable addr s src : 0 <= addr /\ addr + 256 <= 2 ^ 64 ->
  ring_reachable addr s -> phase s = Idle -> cmd_ok src -> (length (sent s) < length (got s) + 14)%nat ->
  ring_reachable addr {| ring := (push src (ring s)).2; consumer := consumer s; sent := sent s ++ [src];
    got := got s; phase := Idle |}.
Proof.
  intros Haddr Hs Hi Hsrc Hroom. destruct (ring_reachable_inv addr s Haddr Hs) as [Hinv [Hok _ _ _] ].
  destruct Hinv as [c x l g Hc| | |]; cbn [phase ring sent got consumer] in *; try done.
  destruct (push_link_inv addr l c src Hc Hok) as (c' & Hp & _ & _).
  unfold push. rewrite (bind_ok _ _ _ _ _ (push_clear_eq addr l c Hc Hok Haddr)).
  rewrite (bind_ok _ _ _ _ _ (push_write_eq addr l c src Hc Hsrc trb_default)).
  rewrite (bind_ok _ _ _ _ _ (push_hand_over_eq addr l c src Hc Hsrc)). rewrite (bind_ok _ _ _ _ _ Hp).
  cbn [mret M_ret snd].
  eapply (reach_step addr _ _ (reach_step addr _ _ (reach_step addr _ _ (reach_step addr _ _ Hs _) _) _) _).
  Unshelve.
  4: { apply (step_clear {| ring := c; consumer := x; sent := l; got := g; phase := Idle |} src); [done..|].
       by apply push_clear_eq. }
  3: { eapply step_write; [done|]. by apply (push_write_eq addr). }
  2: { eapply step_hand_over; [done|]. by apply (push_hand_over_eq addr). }
  eapply step_link; [done|exact Hp].
Qed.

Lemma ping_reachable addr n : 0 <= addr /\ addr + 256 <= 2 ^ 64 -> forall s,
  ring_reachable addr s -> phase s = Idle -> length (got s) = length (sent s) ->
  ring_reachable addr (Nat.iter n ping1 s).
Proof.
  intros Haddr s Hs Hi Hl.
  cut (ring_reachable addr (Nat.iter n ping1 s) /\ phase (Nat.iter n ping1 s) = Idle /\
       length (got (Nat.iter n ping1 s)) = length (sent (Nat.iter n ping1 s))); [by intros [? _]|].
  induction n as [|n (IH & IHi & IHl)]; [done|]. cbn [Nat.iter nat_rect]. set (s0 := Nat.iter n ping1 s) in *.
  change (nat_rect _ _ _ _) with s0.
  assert (ring_reachable addr (after_push s0 (push example_setup (ring s0)).2)) as H1
    by (apply push_reachable; [done..|apply example_setup_ok|lia]).
  destruct (ring_reachable_inv addr _ Haddr H1) as [Hinv Hok]. destruct (sys_fetch addr _ Hinv Hok) as [_ Hf].
  unfold ping1. rewrite (Hf eq_refl). cbn [sent got after_push]. unfold delivered. rewrite IHl.
  rewrite list_lookup_middle by done. cbn [mbind option_bind fmap option_fmap option_map]. split_and!; [|done|].
  - eapply reach_step; [exact H1|]. apply (step_fetch (after_push s0 _)); [done|]. rewrite (Hf eq_refl).
    cbn [sent got after_push]. unfold delivered. rewrite IHl. by rewrite list_lookup_middle.
  - cbn [got sent]. rewrite !length_app. cbn [length]. lia.
Qed.

Definition example_ring : CommandRing :=
  match CommandRing_default 0x10000 with
  | Ok c => c
  | _ => {| cr_ring := TrbRing_new 0; cr_cycle_state_ours := false |}
  end.

Definition example_system : System := Nat.iter 16 ping1
  {| ring := example_ring; consumer := {| deq := 0; ccs := true |}; sent := []; got := []; phase := Idle |}.

(** On the second lap the window is open once the slot has been cleared. *)
Definition example_window : System :=
  {| ring := (push_clear (ring example_system)).2; consumer := consumer example_system;
     sent := sent example_system; got := got example_system; phase := Cleared example_setup 0x10010 |}.

Lemma command_ring_delivers_witness :
  (exists ring', push example_setup (ring example_system) = (Ok 0x10010, ring')) /\
  fst <$> fetch (cr_ring (ring example_window)) (consumer example_window) = Some trb_default.
Proof.
  assert (ring_reachable 0x10000 example_system) as H.
  { apply ping_reachable; [lia| |done..]. apply reach_init. vm_compute. reflexivity. }
  assert (0 <= 0x10000 /\ 0x10000 + 256 <= 2 ^ 64) as Ha by lia. split.
  - destruct (command_ring_delivers 0x10000 example_system example_setup Ha H example_setup_ok) as (_ & _ & _ & Hp).
    apply Hp. vm_compute. reflexivity.
  - assert (ring_reachable 0x10000 example_window) as Hw.
    { eapply reach_step; [exact H|]. apply step_clear; [vm_compute; reflexivity|apply example_setup_ok|vm_compute; lia|].
      vm_compute. reflexivity. }
    destruct (command_ring_delivers 0x10000 example_window example_setup Ha Hw example_setup_ok) as (_ & Hf & _).
    assert (window example_window = true) as E by (vm_compute; reflexivity). rewrite E in Hf. exact Hf.
Defined.

Lemma example_system_got : length (got example_system) = 16%nat.
Proof. vm_compute. reflexivity. Qed.

(** ** Types *)

(** A TRB as the Rust types have it, 64, 32 and 32 bits, with a given type field. *)
Definition trb_words (t : GenericTrbEntry) : Prop :=
  in_width 64 (t_data t) /\ in_width 32 (t_option t) /\ in_width 32 (t_control t).

(** The TRBs the driver builds, with the arguments of their constructors. *)
Inductive TrbRequest : Type :=
  | ReqLink (ring : Z) | ReqEnableSlot | ReqAddressDevice (ctx slot : Z) | ReqConfigureEndpoint (ctx slot : Z)
  | ReqSetup (request_type request value index length : Z)
  | ReqDataIn (buf len : Z) | ReqDataOut (buf len : Z) | ReqStatusIn | ReqStatusOut
  | ReqNormalIn (buf len : Z) | ReqNormalOut (buf len : Z).

Definition construct (q : TrbRequest) : outcome GenericTrbEntry :=
  match q with
  | ReqLink ring => trb_link ring
  | ReqEnableSlot => cmd_enable_slot
  | ReqAddressDevice ctx slot => cmd_address_device ctx slot
  | ReqConfigureEndpoint ctx slot => cmd_configure_endpoint ctx slot
  | ReqSetup rt r v i l => Ok (GenericTrbEntry_from_setup (SetupStageTrb_new rt r v i l))
  | ReqDataIn buf len => Ok (DataStageTrb_new_in buf len)
  | ReqDataOut buf len => Ok (DataStageTrb_new_out buf len)
  | ReqStatusIn => Ok StatusStageTrb_new_in
  | ReqStatusOut => Ok StatusStageTrb_new_out
  | ReqNormalIn buf len => Ok (NormalTrb_new_in buf len)
  | ReqNormalOut buf len => Ok (NormalTrb_new_out buf len)
  end.

(** Arguments of their types. *)
Definition request_typed (q : TrbRequest) : Prop :=
  match q with
  | ReqLink a => in_width 64 a
  | ReqAddressDevice ctx slot | ReqConfigureEndpoint ctx slot => in_width 64 ctx /\ in_width 8 slot
  | ReqSetup rt r v i l => in_width 8 rt /\ in_width 8 r /\ in_width 16 v /\ in_width 16 i /\ in_width 16 l
  | ReqDataIn buf len | ReqDataOut buf len | ReqNormalIn buf len | ReqNormalOut buf len =>
      in_width 64 buf /\ in_width 64 len
  | ReqEnableSlot | ReqStatusIn | ReqStatusOut => True
  end.

Definition request_type (q : TrbRequest) : TrbType :=
  match q with
  | ReqLink _ => Link | ReqEnableSlot => EnableSlotCommand
  | ReqAddressDevice _ _ => AddressDeviceCommand | ReqConfigureEndpoint _ _ => ConfigureEndpointCommand
  | ReqSetup _ _ _ _ _ => SetupStage | ReqDataIn _ _ | ReqDataOut _ _ => DataStage
  | ReqStatusIn | ReqStatusOut => StatusStage | ReqNormalIn _ _ | ReqNormalOut _ _ => Normal
  end.

(** The three words, added up from their fields: the buffer or the setup packet; the length,
    cut to 32 bits; and beside the type in bits 10 to 15 the toggle bit of a link (1),
    interrupt on short packet (2) and on completion (5), immediate data (6), the direction
    or transfer type (16) and the slot (24).  The transfer type of a setup stage with data
    follows bit 7 of [request]. *)
Definition request_data (q : TrbRequest) : Z :=
  match q with
  | ReqLink a => a
  | ReqAddressDevice ctx _ | ReqConfigureEndpoint ctx _ => ctx
  | ReqSetup rt r v i l => rt + r * 2 ^ 8 + v * 2 ^ 16 + i * 2 ^ 32 + l * 2 ^ 48
  | ReqDataIn buf _ | ReqDataOut buf _ | ReqNormalIn buf _ | ReqNormalOut buf _ => buf
  | ReqEnableSlot | ReqStatusIn | ReqStatusOut => 0
  end.
Definition request_option (q : TrbRequest) : Z :=
  match q with
  | ReqSetup _ _ _ _ _ => 8
  | ReqDataIn _ len | ReqDataOut _ len | ReqNormalIn _ len | ReqNormalOut _ len => len mod 2 ^ 32
  | _ => 0
  end.
Definition request_flags (q : TrbRequest) : Z :=
  match q with
  | ReqLink _ => 2 ^ 1
  | ReqEnableSlot | ReqStatusOut => 0
  | ReqAddressDevice _ slot | ReqConfigureEndpoint _ slot => slot * 2 ^ 24
  | ReqSetup _ r _ _ l => 2 ^ 6 + (if l =? 0 then 0 else if Z.testbit r 7 then 3 else 2) * 2 ^ 16
  | ReqDataIn _ _ | ReqStatusIn | ReqNormalIn _ _ => 2 ^ 2 + 2 ^ 5 + 2 ^ 16
  | ReqDataOut _ _ | ReqNormalOut _ _ => 2 ^ 2 + 2 ^ 5
  end.
Definition request_trb (q : TrbRequest) : GenericTrbEntry :=
  {| t_data := request_data q; t_option := request_option q;
     t_control := TrbType_repr (request_type q) * 2 ^ 10 + request_flags q |}.

(** Setting a clear field adds to the word. *)
Lemma set_field_add c s w v : in_width w v -> 0 <= s -> 0 <= w -> get_field c s w = 0 ->
  set_field c s w v = c + v * 2 ^ s.
Proof.
  intros Hv Hs Hw Hg. assert (Z.ldiff c (Z.shiftl (Z.ones w) s) = c) as Hc.
  { pose proof (set_get c s w Hs Hw) as H. rewrite Hg in H. unfold set_field in H.
    by rewrite Z.shiftl_0_l, Z.lor_0_l in H. }
  assert (Z.land (Z.shiftl v s) c = 0) as Hland by (rewrite <- Hc; zbits).
  unfold set_field. rewrite Hc, <- (Z.lxor_lor _ _ Hland), <- (Z.add_nocarry_lxor _ _ Hland), Z.shiftl_mul_pow2 by done. lia.
Qed.

Lemma const_words d o c : in_width 64 d -> in_width 32 o -> (c <? 2 ^ 32) && (0 <=? c) = true ->
  trb_words {| t_data := d; t_option := o; t_control := c |}.
Proof. intros Hd Ho Hc. split_and!; try done. unfold in_width. cbn [t_control]. lia. Qed.

Lemma TrbType_width ty0 : in_width 6 (TrbType_repr ty0).
Proof. destruct ty0; split; simpl; lia. Qed.

(** A command TRB for an input context and a slot. *)
Lemma slot_command ty0 ctx slot : in_width 64 ctx -> in_width 8 slot ->
  build (set_trb_type ty0;; on_data (Volatile_write ctx);; set_slot_id slot) =
    Ok {| t_data := ctx; t_option := 0; t_control := TrbType_repr ty0 * 2 ^ 10 + slot * 2 ^ 24 |}.
Proof.
  intros Hc Hs. pose proof (TrbType_width ty0) as Hty. unfold build, set_trb_type, set_slot_id.
  assert (set_field 0 10 6 (TrbType_repr ty0) = TrbType_repr ty0 * 2 ^ 10) as Hf
    by (rewrite set_field_add by (done || lia); lia).
  assert (in_width 32 (TrbType_repr ty0 * 2 ^ 10)) as H1 by (destruct ty0; split; simpl; lia).
  rewrite (bind_ok _ _ _ tt (with_control (TrbType_repr ty0 * 2 ^ 10) trb_default))
    by (rewrite on_control_write_bits by (done || lia || (split; simpl; lia)); by rewrite <- Hf).
  rewrite (bind_ok _ _ _ tt {| t_data := ctx; t_option := 0; t_control := TrbType_repr ty0 * 2 ^ 10 |}) by reflexivity.
  rewrite on_control_write_bits by (done || lia). cbn [mbind outcome_bind t_control].
  rewrite set_field_add by (done || lia || (destruct ty0; reflexivity)). reflexivity.
Qed.

Lemma setup_request_bytes rt r v i l :
  in_width 8 rt -> in_width 8 r -> in_width 16 v -> in_width 16 i -> in_width 16 l ->
  le_decode (le_encode 1 rt ++ le_encode 1 r ++ le_encode 2 v ++ le_encode 2 i ++ le_encode 2 l) =
    rt + r * 2 ^ 8 + v * 2 ^ 16 + i * 2 ^ 32 + l * 2 ^ 48 /\
  in_width 64 (rt + r * 2 ^ 8 + v * 2 ^ 16 + i * 2 ^ 32 + l * 2 ^ 48).
Proof.
  unfold in_width. intros Hrt Hr Hv Hi Hl. split; [|lia].
  rewrite !le_decode_app, !length_le_encode, !le_decode_encode_id by done. lia.
Qed.

(** Every constructor builds the TRB of its request. *)
Lemma construct_request q : request_typed q -> construct q = Ok (request_trb q) /\ trb_words (request_trb q).
Proof.
  assert (forall x, in_width 32 (wrap 32 x)) as Hwrap by (intros; by apply wrap_width).
  assert (forall x, in_width 32 (x mod 2 ^ 32)) as Hmod by (intros x; apply Z.mod_pos_bound; lia).
  destruct q as [a| |ctx slot|ctx slot|rt r v i l|buf len|buf len| | |buf len|buf len]; cbn [request_typed construct].
  - intros Ha. split; [by rewrite trb_link_eq|]. by apply const_words; [|split; simpl; lia|].
  - intros _. split; [reflexivity|]. apply const_words; [split; simpl; lia..|reflexivity].
  - intros [Hc Hs]. split; [by apply slot_command|]. split_and!; [done|split; simpl; lia|].
    unfold in_width in *. simpl. lia.
  - intros [Hc Hs]. split; [by apply slot_command|]. split_and!; [done|split; simpl; lia|].
    unfold in_width in *. simpl. lia.
  - intros (Hrt & Hr & Hv & Hi & Hl). destruct (setup_request_bytes rt r v i l) as [Hp Hw]; try done.
    unfold request_trb, GenericTrbEntry_from_setup, SetupStageTrb_new. cbn [ss_request_type ss_request ss_value
      ss_index ss_length ss_option ss_control request_data request_option request_flags request_type].
    change REQ_TYPE_DIR_DEVICE_TO_HOST with (2 ^ 7). rewrite Hp, land_pow2_testbit by done. split.
    + by destruct (l =? 0), (Z.testbit r 7).
    + apply const_words; [done|split; simpl; lia|]. by destruct (l =? 0), (Z.testbit r 7).
  - intros [Hb Hl]. split; [reflexivity|]. apply const_words; [done|apply Hmod|done].
  - intros [Hb Hl]. split; [reflexivity|]. apply const_words; [done|apply Hmod|done].
  - intros _. split; [reflexivity|]. apply const_words; [split; simpl; lia..|reflexivity].
  - intros _. split; [reflexivity|]. apply const_words; [split; simpl; lia..|reflexivity].
  - intros [Hb Hl]. split; [reflexivity|]. apply const_words; [done|apply Hmod|done].
  - intros [Hb Hl]. split; [reflexivity|]. apply const_words; [done|apply Hmod|done].
Qed.

(** The type and cycle bit that the accessors read off it. *)
Lemma request_fields q : request_typed q ->
  ty (request_trb q) = TrbType_repr (request_type q) /\ cyc (request_trb q) = false.
Proof.
  unfold ty, cyc. rewrite !get_field_div by lia. unfold request_trb. cbn [t_control].
  destruct q as [a| |ctx slot|ctx slot|rt r v i l|buf len|buf len| | |buf len|buf len];
    cbn [request_typed request_type request_flags]; intros H; try by split.
  - destruct H as [_ [H0 H1] ]. change (2 ^ 8) with 256 in H1. cbn [TrbType_repr].
    replace (11 * 2 ^ 10 + slot * 2 ^ 24) with (11 * 2 ^ 10 + (slot * 2 ^ 14) * 2 ^ 10) by lia.
    split; [rewrite <- Z.mul_add_distr_r, Z.div_mul by lia|].
    + replace (11 + slot * 2 ^ 14) with (11 + (slot * 2 ^ 8) * 2 ^ 6) by lia. by rewrite Z.mod_add by lia.
    + replace (11 * 2 ^ 10 + slot * 2 ^ 14 * 2 ^ 10) with ((11 * 2 ^ 9 + slot * 2 ^ 23) * 2 ^ 1) by lia.
      rewrite Z.div_1_r. by rewrite Z.mod_mul by lia.
  - destruct H as [_ [H0 H1] ]. change (2 ^ 8) with 256 in H1. cbn [TrbType_repr].
    replace (12 * 2 ^ 10 + slot * 2 ^ 24) with (12 * 2 ^ 10 + (slot * 2 ^ 14) * 2 ^ 10) by lia.
    split; [rewrite <- Z.mul_add_distr_r, Z.div_mul by lia|].
    + replace (12 + slot * 2 ^ 14) with (12 + (slot * 2 ^ 8) * 2 ^ 6) by lia. by rewrite Z.mod_add by lia.
    + replace (12 * 2 ^ 10 + slot * 2 ^ 14 * 2 ^ 10) with ((12 * 2 ^ 9 + slot * 2 ^ 23) * 2 ^ 1) by lia.
      rewrite Z.div_1_r. by rewrite Z.mod_mul by lia.
  - by destruct (l =? 0), (Z.testbit r 7).
Qed.

(** Setting the clear cycle bit adds it to the control word. *)
Lemma with_cycle_add b t : cyc t = false ->
  with_cycle b t = {| t_data := t_data t; t_option := t_option t; t_control := t_control t + Z.b2z b |}.
Proof.
  unfold cyc. intros Hc. apply negb_false_iff, Z.eqb_eq in Hc. unfold with_cycle, with_control.
  rewrite set_field_add by (done || lia || apply b2z_width). by rewrite Z.mul_1_r.
Qed.

Definition ring_words (r : TrbRing) : Prop := Forall trb_words (trb r).
Definition command_ring_words (c : CommandRing) : Prop := ring_words (cr_ring c).

Lemma default_words : trb_words trb_default.
Proof. split_and!; split; simpl; lia. Qed.
Lemma with_cycle_words b t : trb_words t -> trb_words (with_cycle b t).
Proof. intros (Hd & Ho & Hc). split_and!; [done|done|]. by apply with_cycle_ok. Qed.

(** *** A push changes its slot and cycle bits *)

(** All but bit 0 of the control words is the same. *)
Definition same_but_cycle (t t' : GenericTrbEntry) : Prop :=
  t_data t = t_data t' /\ t_option t = t_option t' /\ t_control t / 2 = t_control t' / 2.
#[global] Instance same_but_cycle_equiv : Equivalence same_but_cycle.
Proof.
  split.
  - by intros t.
  - by intros t t' (H1 & H2 & H3).
  - intros t t' t'' (H1 & H2 & H3) (H4 & H5 & H6). split_and!; congruence.
Qed.

Lemma with_cycle_same b t : same_but_cycle t (with_cycle b t).
Proof.
  split_and!; try done. cbn [with_cycle with_control t_control].
  rewrite <- !(Z.shiftr_div_pow2 _ 1) by lia. unfold set_field. pose proof (b2z_width b). zbits.
Qed.

(** The TRBs of a ring, pairwise the same but for their cycle bits. *)
Definition ring_same (ts ts' : list GenericTrbEntry) : Prop := Forall2 same_but_cycle ts ts'.

Lemma ring_same_insert ts i t b : ts !! i = Some t -> ring_same ts (<[i := with_cycle b t]> ts).
Proof.
  intros Ht. unfold ring_same. rewrite <- (list_insert_id ts i t Ht) at 1.
  apply Forall2_insert; [reflexivity|apply with_cycle_same].
Qed.

Lemma advance_same b r r' : ring_words r -> advance_index b r = (Ok tt, r') ->
  ring_words r' /\ ring_same (trb r) (trb r').
Proof.
  intros Hr. unfold advance_index, current, trb_at. mstep.
  destruct (trb r !! current_index r) as [t|] eqn:Ht; [|done]. mstep. rewrite cycle_state_eq. mstep.
  destruct (eqb (cyc t) b); [done|].
  assert (trb_words t) as Hw by (unfold ring_words in Hr; rewrite Forall_lookup in Hr; by eapply Hr).
  rewrite set_cycle_state_eq by apply Hw. mstep. intros [= <-]. cbn [trb with_index with_trb].
  split; [apply Forall_insert; [done|by apply with_cycle_words]|by apply ring_same_insert].
Qed.
Lemma keeps_on_ring {A} (m : M TrbRing A) : keeps ring_words m -> keeps command_ring_words (on_ring m).
Proof. intros Hm c Hc. specialize (Hm _ Hc). unfold on_ring, zoom. by destruct (m (cr_ring c)). Qed.

Lemma keeps_write t i : trb_words t -> keeps ring_words (TrbRing_write i t).
Proof.
  intros Ht r Hr. unfold TrbRing_write. mstep. destruct (i <? length (trb r))%nat; [|exact Hr]. by apply Forall_insert.
Qed.

Lemma keeps_advance b : keeps ring_words (advance_index b).
Proof.
  intros r Hr. unfold advance_index, current, trb_at. mstep.
  destruct (trb r !! current_index r) as [t|] eqn:Ht; [|exact Hr]. mstep. rewrite cycle_state_eq. mstep.
  destruct (eqb (cyc t) b); [exact Hr|].
  assert (trb_words t) as Hw by (unfold ring_words in Hr; rewrite Forall_lookup in Hr; by eapply Hr).
  rewrite set_cycle_state_eq by apply Hw. mstep. apply Forall_insert; [done|by apply with_cycle_words].
Qed.

Lemma keeps_push src : trb_words src -> keeps command_ring_words (push src).
Proof.
  intros Hsrc. apply keeps_bind; [|intros p; apply keeps_bind; [|intros []; apply keeps_bind; [|intros []; apply keeps_bind; [|intros _; apply keeps_ret] ] ] ];
    apply keeps_get; intros c Hc;
    assert (forall A (m : M CommandRing A), keeps command_ring_words m -> command_ring_words (m c).2) as Happ
      by (intros A m Hm; by apply Hm); apply Happ.
  - apply keeps_bind; [apply keeps_lift|intros t]. apply keeps_bind; [apply keeps_lift|intros b].
    destruct (negb _); [by intros s Hs|]. do 3 (apply keeps_bind; [apply keeps_lift|intros ?]).
    apply keeps_bind; [|intros []; apply keeps_ret]. intros s Hs. apply Forall_insert; [exact Hc|apply default_words].
  - rewrite set_cycle_state_eq by apply Hsrc. apply keeps_bind; [apply keeps_lift|intros []].
    apply keeps_on_ring, keeps_get. intros r Hr. apply keeps_unwrap; [|done]. apply keeps_write. by apply with_cycle_words.
  - apply keeps_on_ring, keeps_advance.
  - do 2 (apply keeps_bind; [apply keeps_lift|intros ?]). destruct (_ =? _); [|apply keeps_ret].
    apply keeps_bind; [apply keeps_on_ring, keeps_advance|intros []]. by intros s Hs.
Qed.

Lemma push_clear_ok c p c' : push_clear c = (Ok p, c') ->
  c' = {| cr_ring := with_trb (<[current_index (cr_ring c) := trb_default]> (trb (cr_ring c))) (cr_ring c);
          cr_cycle_state_ours := cr_cycle_state_ours c |}.
Proof.
  unfold push_clear. mstep. intros (t & c1 & [= _ <-] & H)%bind_ok_inv. apply bind_ok_inv in H as (b & c2 & [= _ <-] & H).
  destruct (negb _); [done|].
  do 3 (apply bind_ok_inv in H as (? & ? & [= _ <-] & H)). by injection H as _ <-.
Qed.

Lemma push_write_ok src c c' : trb_ok src -> push_write src c = (Ok tt, c') ->
  c' = {| cr_ring := with_trb (<[current_index (cr_ring c) := with_cycle (cr_cycle_state_ours c) src]> (trb (cr_ring c))) (cr_ring c);
          cr_cycle_state_ours := cr_cycle_state_ours c |}.
Proof.
  intros Hsrc. unfold push_write. mstep. rewrite set_cycle_state_eq by done. mstep.
  unfold on_ring, zoom, write_current, unwrapM, TrbRing_write, mbind, M_bind, get, modify, throw. simpl.
  destruct (_ <? _)%nat; simpl; [by intros [= <-]|done].
Qed.

(** A push that returns has put [src] in the slot the ring was at and changed nothing else
    but cycle bits. *)
Lemma push_same src c p c' : trb_words src -> command_ring_words c -> push src c = (Ok p, c') ->
  ring_same (<[current_index (cr_ring c) := src]> (trb (cr_ring c))) (trb (cr_ring c')).
Proof.
  intros Hsrc Hc H. unfold push in H.
  apply bind_ok_inv in H as (p1 & c1 & H1%push_clear_ok & H). subst c1.
  apply bind_ok_inv in H as ([] & c2 & H2 & H). apply push_write_ok in H2; [|apply Hsrc].
  cbn [cr_ring cr_cycle_state_ours with_trb trb current_index] in H2. rewrite list_insert_insert_eq in H2.
  apply bind_ok_inv in H as ([] & c3 & H3 & H). apply bind_ok_inv in H as ([] & c4 & H4 & [= _ <-]).
  assert (forall b c c', command_ring_words c -> on_ring (advance_index b) c = (Ok tt, c') ->
    command_ring_words c' /\ ring_same (trb (cr_ring c)) (trb (cr_ring c'))) as Hadv.
  { intros b d d' Hd. unfold on_ring, zoom. pose proof (advance_same b (cr_ring d)) as Ha.
    destruct (advance_index b (cr_ring d)) as [[[]| |] r']; try done. intros [= <-]. by apply Ha. }
  assert (command_ring_words c2) as Hw2 by (subst c2; apply Forall_insert; [done|by apply with_cycle_words]).
  destruct (Hadv _ _ _ Hw2 H3) as [Hw3 Hs3]. clear H3.
  assert (ring_same (trb (cr_ring c3)) (trb (cr_ring c4))) as Hs4.
  { unfold push_link in H4. revert H4. mstep. intros (t & d & [= _ <-] & H4)%bind_ok_inv.
    apply bind_ok_inv in H4 as (b & d & [= _ <-] & H4). destruct (_ =? _).
    - apply bind_ok_inv in H4 as ([] & d & H4 & [= <-]). by apply (Hadv _ _ _ Hw3 H4).
    - injection H4 as <-. unfold ring_same. reflexivity. }
  assert (ring_same (<[current_index (cr_ring c) := src]> (trb (cr_ring c))) (trb (cr_ring c2))) as Hs2.
  { subst c2. cbn [cr_ring with_trb trb]. apply Forall2_insert; [reflexivity|apply with_cycle_same]. }
  unfold ring_same in *. by do 2 (etransitivity; [eassumption|]).
Qed.

(** C11. TRBs are well typed and well laid out.  From arguments of their types every
    constructor builds exactly the TRB of the request, of 64, 32 and 32 bits, each field in
    its place with the cycle bit clear; handing it over with either cycle bit adds that bit
    to the control word and changes nothing else.  A command ring of such TRBs stays one
    under [push], in any state and however the push ends; a push that returns leaves the TRB
    in the slot the ring was at and every other TRB as it was, up to cycle bits. *)
Theorem trbs_well_typed (q : TrbRequest) (b : bool) (c : CommandRing)
  (Hargs : request_typed q) (Hring : Forall trb_words (trb (cr_ring c))) :
  construct q = Ok (request_trb q) /\ trb_words (request_trb q) /\
  trb_type (request_trb q) = Ok (TrbType_repr (request_type q)) /\ cycle_state (request_trb q) = Ok false /\
  (exists t', set_cycle_state b (request_trb q) = (Ok tt, t') /\ trb_words t' /\ cycle_state t' = Ok b /\
     t_data t' = request_data q /\ t_option t' = request_option q /\
     t_control t' = t_control (request_trb q) + Z.b2z b) /\
  Forall trb_words (trb (cr_ring (push (request_trb q) c).2)) /\
  forall p c', push (request_trb q) c = (Ok p, c') ->
    ring_same (<[current_index (cr_ring c) := request_trb q]> (trb (cr_ring c))) (trb (cr_ring c')).
Proof.
  destruct (construct_request q Hargs) as [Hq Hw]. destruct (request_fields q Hargs) as [Hty Hc].
  rewrite trb_type_eq, cycle_state_eq, Hty, Hc. do 4 (split; [done|]). split; [|split].
  - exists (with_cycle b (request_trb q)). rewrite set_cycle_state_eq by apply Hw.
    rewrite cycle_state_eq, cyc_with_cycle. split; [done|]. split; [by apply with_cycle_words|].
    by rewrite with_cycle_add.
  - by apply keeps_push.
  - intros p c'. by apply push_same.
Qed.

Lemma trbs_well_typed_witness :
  construct (ReqAddressDevice 0x12340 3) =
    Ok {| t_data := 0x12340; t_option := 0; t_control := 0x03002C00 |} /\
  exists c', push (request_trb (ReqAddressDevice 0x12340 3)) example_ring = (Ok 0x10000, c') /\
    ring_same (request_trb (ReqAddressDevice 0x12340 3) :: replicate 14 trb_default ++ [link_trb 0x10000])
      (trb (cr_ring c')).
Proof.
  assert (Forall trb_words (replicate 15 trb_default ++ [link_trb 0x10000])) as H.
  { apply Forall_app. split.
    + apply Forall_replicate. split_and!; split; simpl; lia.
    + apply Forall_cons_2; [|apply Forall_nil_2]. split_and!; split; simpl; lia. }
  destruct (trbs_well_typed (ReqAddressDevice 0x12340 3) true example_ring) as (H1 & _ & _ & _ & _ & _ & H2).
  - split; split; simpl; lia.
  - exact H.
  - split; [exact H1|]. eexists. split; [|eapply H2]; vm_compute; reflexivity.
Defined.
