(* ===== verification/Event.v ===== *)
(** * Event rings and waiters: [EventRing], [EventWaitInfo], [EventFuture] of
    [src/src/xhci.rs].

    The event ring is the consumer of the TRBs the controller writes; popped events are
    dispatched to the first live waiter whose condition matches, and a future takes them
    from its waiter.  Waiters are shared ([Rc]) between the future and, weakly, the ring:
    the store [infos] holds the live ones by identity. *)

From S2P Require Import Prelude Bits Trb.
Import Trb.Trb Trb.TrbRing.

Module Event.

(** [EventWaitCond]. *)
Record EventWaitCond : Type := {
  wc_trb_type : option TrbType; wc_trb_addr : option Z; wc_slot : option Z;
}.

(** [EventWaitInfo]: the condition, and the queue of matched events. *)
Record EventWaitInfo : Type := { cond : EventWaitCond; trbs : list GenericTrbEntry }.

Definition EventWaitInfo_matches (w : EventWaitInfo) (t : GenericTrbEntry) : outcome bool :=
  addr_ok ← match wc_trb_addr (cond w) with
    | Some trb_addr => Ok (t_data t =? trb_addr)
    | None => Ok true
    end;
  if negb addr_ok then Ok false else
  type_ok ← match wc_trb_type (cond w) with
    | Some ty => v ← trb_type t; Ok (v =? TrbType_repr ty)
    | None => Ok true
    end;
  if negb type_ok then Ok false else
  match wc_slot (cond w) with
  | Some slot => v ← slot_id t; Ok (v =? slot)
  | None => Ok true
  end.

Definition EventWaitInfo_resolve (t : GenericTrbEntry) (w : EventWaitInfo) : EventWaitInfo :=
  {| cond := cond w; trbs := trbs w ++ [t] |}.

(** The segment table: one entry. *)
Record EventRingSegmentTableEntry : Type := {
  ring_segment_base_address : Z; ring_segment_size : Z;
}.

Definition EventRingSegmentTableEntry_new (r : TrbRing) : outcome EventRingSegmentTableEntry :=
  let n := Z.of_nat NUM_TRB in
  if n <? 2 ^ 16 then Ok {| ring_segment_base_address := r_addr r; ring_segment_size := n |}
  else Err "Too large num trbs".

(** The ring; the cells its waiters live in; and the [ERDP] register that [erdp] points to. *)
Record EventRing : Type := {
  er_ring : TrbRing; erst : EventRingSegmentTableEntry; cycle_state_ours : bool;
  erdp : option Z; wait_list : list nat;
  erdp_reg : Z; infos : gmap nat EventWaitInfo;
}.

Definition with_ring (r : TrbRing) (e : EventRing) : EventRing :=
  {| er_ring := r; erst := erst e; cycle_state_ours := cycle_state_ours e; erdp := erdp e;
     wait_list := wait_list e; erdp_reg := erdp_reg e; infos := infos e |}.
Definition with_cycle_ours (b : bool) (e : EventRing) : EventRing :=
  {| er_ring := er_ring e; erst := erst e; cycle_state_ours := b; erdp := erdp e;
     wait_list := wait_list e; erdp_reg := erdp_reg e; infos := infos e |}.
Definition with_erdp (p : option Z) (v : Z) (e : EventRing) : EventRing :=
  {| er_ring := er_ring e; erst := erst e; cycle_state_ours := cycle_state_ours e; erdp := p;
     wait_list := wait_list e; erdp_reg := v; infos := infos e |}.
Definition with_waiters (ws : list nat) (m : gmap nat EventWaitInfo) (e : EventRing) : EventRing :=
  {| er_ring := er_ring e; erst := erst e; cycle_state_ours := cycle_state_ours e; erdp := erdp e;
     wait_list := ws; erdp_reg := erdp_reg e; infos := m |}.

(** [EventRing::new] with the ring's [IoBox] at [addr]. *)
Definition EventRing_new (addr : Z) : outcome EventRing :=
  link ← trb_link addr;
  let '(r, ring) := TrbRing_write (NUM_TRB - 1) link (TrbRing_new addr) in
  _ ← r;
  erst ← EventRingSegmentTableEntry_new ring;
  Ok {| er_ring := ring; erst := erst; cycle_state_ours := true; erdp := None; wait_list := [];
        erdp_reg := 0; infos := ∅ |}.

Definition set_erdp (p : Z) : M EventRing unit := modify (fun e => with_erdp (Some p) (erdp_reg e) e).

Definition has_next_event (e : EventRing) : outcome bool :=
  t ← current (er_ring e); c ← cycle_state t; Ok (eqb c (cycle_state_ours e)).

Definition pop : M EventRing (option GenericTrbEntry) :=
  self ← get;
  next ← lift (has_next_event self);
  if negb next then mret None else
  e ← lift (current (er_ring self));
  eptr ← lift (current_ptr (er_ring self));
  zoom er_ring with_ring (advance_index_notoggle (cycle_state_ours self));;
  (match erdp self with
   | None => panic "EventRing erdp is not set"
   | Some p => modify (fun s => with_erdp (Some p) (Z.lor eptr (Z.land (erdp_reg s) 15)) s)
   end);;
  self ← get;
  (if (current_index (er_ring self) =? 0)%nat
   then modify (with_cycle_ours (negb (cycle_state_ours self))) else mret tt);;
  mret (Some e).

(** The loop over the waiters: the first live one that matches gets the event. *)
Fixpoint dispatch (ws : list nat) (t : GenericTrbEntry) : M EventRing unit :=
  match ws with
  | [] => mret tt
  | w :: ws =>
      self ← get;
      match infos self !! w with
      | None => dispatch ws t
      | Some i =>
          m ← lift (EventWaitInfo_matches i t);
          if (m : bool)
          then modify (with_waiters (wait_list self) (<[w := EventWaitInfo_resolve t i]> (infos self)))
          else dispatch ws t
      end
  end.

(** The indices of the waiters that are gone, from the last to the first. *)
Definition stale_waiter_indices (e : EventRing) : list nat :=
  omap (fun '(i, w) => match infos e !! w with None => Some i | Some _ => None end)
    (reverse (imap pair (wait_list e))).

(** [EventRing::poll]. *)
Definition EventRing_poll : M EventRing unit :=
  r ← pop;
  match r with
  | None => mret tt
  | Some e =>
      self ← get;
      dispatch (wait_list self) e;;
      modify (fun s => with_waiters
        (foldl (fun ws k => delete k ws) (wait_list s) (stale_waiter_indices s)) (infos s) s)
  end.

Definition register_waiter (w : nat) : M EventRing unit :=
  modify (fun e => with_waiters (wait_list e ++ [w]) (infos e) e).

(** [EventFuture::new]: a new waiter, registered. *)
Definition EventFuture_new (c : EventWaitCond) : M EventRing nat :=
  self ← get;
  let w := fresh (dom (infos self) ∪ list_to_set (wait_list self)) in
  modify (fun e => with_waiters (wait_list e) (<[w := {| cond := c; trbs := [] |}]> (infos e)) e);;
  register_waiter w;;
  mret w.
Definition EventFuture_new_for_trb (trb_addr : Z) : M EventRing nat :=
  EventFuture_new {| wc_trb_type := Some TransferEvent; wc_trb_addr := Some trb_addr; wc_slot := None |}.
Definition EventFuture_new_for_command (trb_addr : Z) : M EventRing nat :=
  EventFuture_new {| wc_trb_type := Some CommandCompletionEvent; wc_trb_addr := Some trb_addr;
                     wc_slot := None |}.

(** [EventFuture::poll]: [None] is [Poll::Pending]. *)
Definition EventFuture_poll (w : nat) : M EventRing (option GenericTrbEntry) :=
  self ← get;
  match infos self !! w with
  | None => panic msg_ub
  | Some i =>
      match trbs i with
      | [] => mret None
      | t :: ts =>
          modify (fun e => with_waiters (wait_list e) (<[w := {| cond := cond i; trbs := ts |}]> (infos e)) e);;
          mret (Some t)
      end
  end.

(** The future's last [Rc] is dropped. *)
Definition EventFuture_drop (w : nat) : M EventRing unit :=
  modify (fun e => with_waiters (wait_list e) (delete w (infos e)) e).
End Event.
Import Event.

(** ** Dispatching *)

Definition live (m : gmap nat EventWaitInfo) (w : nat) : bool :=
  match m !! w with Some _ => true | None => false end.

(** What a waiter's condition says of an event. *)
Definition accepts (c : EventWaitCond) (t : GenericTrbEntry) : bool :=
  match wc_trb_addr c with Some a => t_data t =? a | None => true end &&
  match wc_trb_type c with Some y => ty t =? TrbType_repr y | None => true end &&
  match wc_slot c with Some s => get_field (t_control t) 24 8 =? s | None => true end.

Lemma matches_eq w t : EventWaitInfo_matches w t = Ok (accepts (cond w) t).
Proof.
  unfold EventWaitInfo_matches, accepts.
  assert (slot_id t = Ok (get_field (t_control t) 24 8)) as Hslot.
  { unfold slot_id. rewrite bits_of_eq by lia. cbn [mbind outcome_bind].
    pose proof (get_field_width (t_control t) 24 8 ltac:(lia) ltac:(lia)) as [_ Hw].
    by rewrite (proj2 (Z.ltb_lt _ _)). }
  rewrite trb_type_eq, Hslot.
  generalize (get_field (t_control t) 24 8). intros g. clear Hslot.
  destruct (cond w) as [[y|] [a|] [s|]]; cbn [wc_trb_addr wc_trb_type wc_slot mbind outcome_bind];
    try (destruct (t_data t =? a)); cbn [negb andb mbind outcome_bind];
    try (destruct (ty t =? TrbType_repr y)); cbn [negb andb mbind outcome_bind];
    rewrite ?andb_true_r; reflexivity.
Qed.

(** The first of [ws] that is live and accepts [t]. *)
Definition accepting (m : gmap nat EventWaitInfo) (t : GenericTrbEntry) (w : nat) : bool :=
  match m !! w with Some i => accepts (cond i) t | None => false end.

(** The event goes to that waiter only. *)
Definition deliver (ws : list nat) (t : GenericTrbEntry) (m : gmap nat EventWaitInfo) :
    gmap nat EventWaitInfo :=
  match List.find (accepting m t) ws with
  | Some w => alter (EventWaitInfo_resolve t) w m
  | None => m
  end.

Lemma with_waiters_id e : with_waiters (wait_list e) (infos e) e = e.
Proof. by destruct e. Qed.

Lemma dispatch_eq ws t e :
  dispatch ws t e = (Ok tt, with_waiters (wait_list e) (deliver ws t (infos e)) e).
Proof.
  unfold deliver. induction ws as [|w ws IH]; cbn [dispatch List.find];
    [by rewrite with_waiters_id|].
  unfold accepting at 1. mstep. destruct (infos e !! w) as [i|] eqn:Hi; [|exact IH].
  rewrite matches_eq. mstep. destruct (accepts (cond i) t); [|exact IH].
  unfold modify. do 3 f_equal. apply map_eq. intros k. destruct (decide (k = w)) as [->|].
  - by rewrite lookup_insert_eq, lookup_alter_eq, Hi.
  - by rewrite lookup_insert_ne, lookup_alter_ne.
Qed.

(** Removing by index, last index first, keeps the live waiters in order. *)
Lemma remove_stale m (l r : list nat) :
  foldl (fun ws k => delete k ws) (l ++ r)
    (omap (fun '(i, w) => match m !! w with None => Some i | Some _ => None end)
      (reverse (imap pair l))) = List.filter (live m) l ++ r.
Proof.
  revert r. induction l as [|x l IH] using rev_ind; intros r; [done|].
  rewrite imap_app. cbn [imap]. rewrite reverse_snoc. cbn [omap list_omap].
  rewrite List.filter_app. cbn [List.filter]. unfold live at 2. rewrite Nat.add_0_r.
  destruct (m !! x) as [i|] eqn:Hx.
  - rewrite <- (assoc_L (++)). cbn [app]. rewrite IH. by rewrite <- (assoc_L (++)).
  - cbn [foldl]. rewrite <- (assoc_L (++)). cbn [app]. rewrite app_nil_r.
    rewrite <- IH. f_equal. rewrite delete_middle. done.
Qed.

(** What polling does with an event, given what popping does. *)
Lemma poll_eq e t e1 :
  pop e = (Ok (Some t), e1) ->
  let m := deliver (wait_list e1) t (infos e1) in
  EventRing_poll e = (Ok tt, with_waiters (List.filter (live m) (wait_list e1)) m e1).
Proof.
  intros Hpop m. unfold EventRing_poll. rewrite (bind_ok _ _ _ _ _ Hpop). mstep.
  rewrite (bind_ok _ _ _ _ _ (dispatch_eq _ _ _)). fold m.
  unfold modify, stale_waiter_indices. cbn [wait_list infos with_waiters].
  pose proof (remove_stale m (wait_list e1) []) as Hr. rewrite !app_nil_r in Hr. by rewrite Hr.
Qed.

(** ** The ring, from the controller's writes to the driver's pops *)
Module EventProtocol.

(** [produced] is what the controller wrote, with its enqueue index and cycle state;
    [popped] is what the driver took. *)
Record EventSystem : Type := {
  ev : EventRing; enq : nat; pcs : bool;
  produced : list GenericTrbEntry; popped : list GenericTrbEntry;
}.

(** The controller writes an event with its cycle bit, and toggles it at the segment's end. *)
Definition controller_writes (t : GenericTrbEntry) (s : EventSystem) : EventSystem := {|
  ev := with_ring (with_trb (<[enq s := with_cycle (pcs s) t]> (trb (er_ring (ev s)))) (er_ring (ev s))) (ev s);
  enq := if decide (enq s = 15%nat) then 0%nat else S (enq s);
  pcs := if decide (enq s = 15%nat) then negb (pcs s) else pcs s;
  produced := produced s ++ [t]; popped := popped s;
|}.

(** The controller leaves one entry free; the driver pops, and changes the waiters at any
    time. *)
Inductive ev_step : EventSystem -> EventSystem -> Prop :=
  | ev_produce s t :
      trb_ok t -> (length (produced s) < length (popped s) + 15)%nat ->
      ev_step s (controller_writes t s)
  | ev_pop s t e' :
      pop (ev s) = (Ok (Some t), e') ->
      ev_step s {| ev := e'; enq := enq s; pcs := pcs s; produced := produced s;
                   popped := popped s ++ [t] |}
  | ev_waiters s ws m :
      ev_step s {| ev := with_waiters ws m (ev s); enq := enq s; pcs := pcs s;
                   produced := produced s; popped := popped s |}.

Inductive ev_reachable (addr erdp_addr : Z) : EventSystem -> Prop :=
  | ev_init e :
      EventRing_new addr = Ok e ->
      ev_reachable addr erdp_addr
        {| ev := (set_erdp erdp_addr e).2; enq := 0; pcs := true; produced := []; popped := [] |}
  | ev_more s s' : ev_reachable addr erdp_addr s -> ev_step s s' -> ev_reachable addr erdp_addr s'.
End EventProtocol.
Import EventProtocol.

(** The cycle bit of the [k]-th event. *)
Definition lap16 (k : nat) : bool := Nat.even (k / 16).

Lemma lap16_add k : lap16 (k + 16) = negb (lap16 k).
Proof.
  unfold lap16. replace (k + 16)%nat with (k + 1 * 16)%nat by lia.
  rewrite Nat.div_add by lia. rewrite Nat.add_1_r, Nat.even_succ. by rewrite <- Nat.negb_even.
Qed.

Lemma mod16_add k : ((k + 16) mod 16 = k mod 16)%nat.
Proof. replace (k + 16)%nat with (k + 1 * 16)%nat by lia. by rewrite Nat.Div0.mod_add. Qed.

Lemma lap16_S k :
  (S k mod 16)%nat = (if decide (k mod 16 = 15)%nat then 0%nat else S (k mod 16)) /\
  lap16 (S k) = (if decide (k mod 16 = 15)%nat then negb (lap16 k) else lap16 k).
Proof.
  pose proof (Nat.div_mod_eq k 16). pose proof (Nat.mod_upper_bound k 16 ltac:(lia)).
  case_decide as Hm.
  - split; [symmetry; apply (Nat.mod_unique _ _ (k / 16 + 1)); lia|].
    rewrite <- lap16_add. unfold lap16. f_equal.
    rewrite <- (Nat.div_unique (S k) 16 (k / 16 + 1) 0) by lia.
    by rewrite <- (Nat.div_unique (k + 16) 16 (k / 16 + 1) 15) by lia.
  - split; [symmetry; apply (Nat.mod_unique _ _ (k / 16)); lia|].
    unfold lap16. f_equal. symmetry. apply (Nat.div_unique _ _ _ (S (k mod 16))); lia.
Qed.

(** The [k]-th event as the driver gets it. *)
Definition nth_event (s : EventSystem) (k : nat) : option GenericTrbEntry :=
  with_cycle (lap16 k) <$> produced s !! k.

Record ev_inv (addr erdp_addr : Z) (s : EventSystem) : Prop := {
  ei_addr : r_addr (er_ring (ev s)) = addr;
  ei_len : length (trb (er_ring (ev s))) = 16%nat;
  ei_index : current_index (er_ring (ev s)) = (length (popped s) mod 16)%nat;
  ei_ours : cycle_state_ours (ev s) = lap16 (length (popped s));
  ei_erdp : erdp (ev s) = Some erdp_addr;
  ei_enq : enq s = (length (produced s) mod 16)%nat;
  ei_pcs : pcs s = lap16 (length (produced s));
  ei_room : (length (popped s) <= length (produced s) <= length (popped s) + 15)%nat;
  ei_fresh i : (length (produced s) <= i < 16)%nat ->
    exists t, trb (er_ring (ev s)) !! i = Some t /\ cyc t = false;
  ei_written k : (k < length (produced s) <= k + 16)%nat ->
    trb (er_ring (ev s)) !! (k mod 16)%nat = nth_event s k;
  ei_popped k : (k < length (popped s))%nat -> popped s !! k = nth_event s k;
}.

(** The slot after the last event does not carry the controller's cycle bit. *)
Lemma empty_slot addr p s :
  ev_inv addr p s ->
  exists t, trb (er_ring (ev s)) !! (length (produced s) mod 16)%nat = Some t /\
    cyc t = negb (lap16 (length (produced s))).
Proof.
  intros Hinv. set (n := length (produced s)). destruct (Nat.lt_ge_cases n 16) as [Hlt|Hge].
  - destruct (ei_fresh _ _ _ Hinv n) as (t & Ht & Hc); [fold n; lia|]. exists t.
    rewrite Nat.mod_small by done. split; [done|]. unfold lap16. by rewrite Nat.div_small.
  - replace n with (n - 16 + 16)%nat by lia. rewrite mod16_add, lap16_add, negb_involutive.
    rewrite (ei_written _ _ _ Hinv) by (fold n; lia). unfold nth_event.
    destruct (lookup_lt_is_Some_2 (produced s) (n - 16)) as [x Hx]; [fold n; lia|].
    rewrite Hx. eexists. split; [done|]. apply cyc_with_cycle.
Qed.

(** The driver's side after one more pop. *)
Definition after_pop (s : EventSystem) : EventRing :=
  let c := length (popped s) in
  with_cycle_ours (lap16 (S c)) (with_erdp (erdp (ev s))
    (Z.lor (r_addr (er_ring (ev s)) + 16 * Z.of_nat (c mod 16)) (Z.land (erdp_reg (ev s)) 15))
    (with_ring (with_index (S c mod 16) (er_ring (ev s))) (ev s))).

(** A pop takes the oldest event the driver has not seen, or finds none. *)
Lemma pop_spec addr p s :
  ev_inv addr p s ->
  pop (ev s) = match nth_event s (length (popped s)) with
               | None => (Ok None, ev s)
               | Some t => (Ok (Some t), after_pop s)
               end.
Proof.
  intros Hinv. set (c := length (popped s)). pose proof (ei_room _ _ _ Hinv) as Hroom.
  assert (exists t, trb (er_ring (ev s)) !! (c mod 16)%nat = Some t /\
    match nth_event s c with Some t' => t' = t /\ cyc t = lap16 c | None => cyc t = negb (lap16 c) end)
    as (t & Ht & Hcase).
  { destruct (Nat.lt_ge_cases c (length (produced s))) as [Hlt|Hge].
    - rewrite (ei_written _ _ _ Hinv) by (fold c in Hroom; lia). unfold nth_event.
      destruct (lookup_lt_is_Some_2 (produced s) c Hlt) as [x Hx]. rewrite Hx.
      eexists. split; [done|]. split; [done|]. apply cyc_with_cycle.
    - assert (c = length (produced s)) as -> by (fold c in Hroom; lia).
      destruct (empty_slot addr p s Hinv) as (t & Ht & Hc). exists t. split; [done|].
      unfold nth_event. by rewrite lookup_ge_None_2. }
  assert (current (er_ring (ev s)) = Ok t) as Hcur.
  { unfold current, trb_at. rewrite (ei_index _ _ _ Hinv). fold c. by rewrite Ht. }
  unfold pop, has_next_event. mstep. rewrite Hcur. cbn [mbind outcome_bind].
  rewrite cycle_state_eq. cbn [mbind outcome_bind]. rewrite (ei_ours _ _ _ Hinv). fold c.
  destruct (nth_event s c) as [t'|].
  - destruct Hcase as [-> Hc]. mstep. rewrite Hc, eqb_reflx. cbn [negb].
    mstep. unfold current_ptr. fold (current (er_ring (ev s))). rewrite Hcur. cbn [mbind outcome_bind].
    mstep. rewrite (ei_index _ _ _ Hinv), (ei_erdp _ _ _ Hinv). fold c.
    rewrite (bind_ok (zoom er_ring with_ring (advance_index_notoggle (lap16 c))) _ (ev s) tt
      (with_ring (with_index (S c mod 16) (er_ring (ev s))) (ev s))).
    + do 2 mstep. cbn [er_ring with_erdp with_ring with_index current_index].
      unfold after_pop. fold c. rewrite (ei_erdp _ _ _ Hinv).
      destruct (lap16_S c) as [Hi Hl]. rewrite Hi, Hl.
      case_decide; cbn [Nat.eqb].
      * mstep. cbn [cycle_state_ours with_erdp with_ring]. by rewrite (ei_ours _ _ _ Hinv).
      * mstep. do 2 f_equal. pose proof (ei_ours _ _ _ Hinv) as Ho. fold c in Ho. rewrite <- Ho.
        by destruct (ev s).
    + unfold zoom, advance_index_notoggle. mstep. rewrite Hcur. mstep. rewrite cycle_state_eq. mstep.
      rewrite Hc, eqb_reflx. cbn [negb]. unfold modify.
      rewrite (ei_index _ _ _ Hinv), (ei_len _ _ _ Hinv). fold c.
      do 3 f_equal. rewrite Nat.add_1_r. destruct (lap16_S c) as [-> _].
      case_decide as Hm; [by rewrite Hm|]. rewrite Nat.mod_small; [done|].
      pose proof (Nat.mod_upper_bound c 16). lia.
  - mstep. rewrite Hcase. by destruct (lap16 c).
Qed.

Lemma ev_inv_init addr p e : EventRing_new addr = Ok e ->
  ev_inv addr p {| ev := (set_erdp p e).2; enq := 0; pcs := true; produced := []; popped := [] |}.
Proof.
  unfold EventRing_new. rewrite trb_link_eq. simpl. intros [= <-].
  constructor; try done; simpl.
  - lia.
  - intros i [_ Hi]. do 15 (destruct i as [|i]; [by exists trb_default|]).
    exists (link_trb addr). by replace i with 0%nat by lia.
  - intros k Hk. lia.
Qed.

Lemma ev_inv_produce addr p s t :
  ev_inv addr p s -> (length (produced s) < length (popped s) + 15)%nat ->
  ev_inv addr p (controller_writes t s).
Proof.
  intros Hinv Hroom. pose proof (ei_room _ _ _ Hinv) as Hr. destruct (lap16_S (length (produced s))) as [Hi Hl].
  pose proof (Nat.mod_upper_bound (length (produced s)) 16 ltac:(lia)).
  assert (length (produced s ++ [t]) = S (length (produced s))) as Hlen by (rewrite length_app; simpl; lia).
  constructor; cbn [controller_writes ev er_ring with_ring with_trb r_addr trb current_index
      cycle_state_ours erdp enq pcs produced popped]; rewrite ?Hlen; try apply Hinv.
  - rewrite length_insert. apply Hinv.
  - by rewrite (ei_enq _ _ _ Hinv), Hi.
  - by rewrite (ei_enq _ _ _ Hinv), (ei_pcs _ _ _ Hinv), Hl.
  - lia.
  - intros i Hge. rewrite (ei_enq _ _ _ Hinv), Nat.mod_small by lia.
    rewrite list_lookup_insert_ne by lia. apply Hinv. lia.
  - intros k Hk. unfold nth_event. cbn [produced controller_writes]. rewrite (ei_enq _ _ _ Hinv).
    destruct (decide (k = length (produced s))) as [->|Hne].
    + rewrite list_lookup_insert_eq by (rewrite (ei_len _ _ _ Hinv); lia).
      rewrite list_lookup_middle by done. by rewrite (ei_pcs _ _ _ Hinv).
    + rewrite list_lookup_insert_ne.
      * rewrite lookup_app_l by lia. apply Hinv. lia.
      * intros Heq. pose proof (Nat.div_mod_eq k 16). pose proof (Nat.div_mod_eq (length (produced s)) 16). lia.
  - intros k Hk. unfold nth_event. cbn [produced controller_writes].
    rewrite lookup_app_l by lia. by apply (ei_popped _ _ _ Hinv).
Qed.

Lemma ev_inv_step addr p s s' : ev_inv addr p s -> ev_step s s' -> ev_inv addr p s'.
Proof.
  intros Hinv Hstep. destruct Hstep as [s t Ht Hroom|s t e' Hpop|s ws m].
  - by apply ev_inv_produce.
  - rewrite (pop_spec addr p s Hinv) in Hpop.
    destruct (nth_event s (length (popped s))) as [x|] eqn:Hx; [|done]. simplify_eq.
    assert (length (popped s) < length (produced s))%nat as Hlt.
    { unfold nth_event in Hx. apply fmap_Some in Hx as (y & Hy & _). by eapply lookup_lt_Some. }
    assert (length (popped s ++ [t]) = S (length (popped s))) as Hlen by (rewrite length_app; simpl; lia).
    pose proof (ei_room _ _ _ Hinv).
    constructor; cbn [after_pop ev er_ring with_ring with_cycle_ours with_erdp with_index r_addr trb
      current_index cycle_state_ours erdp enq pcs produced popped]; rewrite ?Hlen;
      try apply Hinv; try done; try lia.
    intros k Hk. destruct (decide (k = length (popped s))) as [->|].
    + rewrite list_lookup_middle by done. by rewrite <- Hx.
    + rewrite lookup_app_l by lia. apply (ei_popped _ _ _ Hinv). lia.
  - by destruct Hinv.
Qed.

Lemma ev_reachable_inv addr p s : ev_reachable addr p s -> ev_inv addr p s.
Proof. induction 1; [by apply ev_inv_init|by eapply ev_inv_step]. Qed.

(** Delivering does not change which waiters are live. *)
Lemma deliver_live ws t m w : live (deliver ws t m) w = live m w.
Proof.
  unfold deliver, live. destruct (List.find _ ws) as [x|]; [|done].
  rewrite lookup_alter. case_decide as He; [subst|done]. by destruct (m !! w).
Qed.

(** C12. The event ring is a FIFO from the controller to the driver: in every interleaving of
    controller writes (which leave one entry free), pops and changes of the waiters, what the
    driver popped is a prefix of what the controller wrote, in order, whatever the number of
    laps; a pop never fails, returns the oldest unseen event, or [None] exactly when
    everything was seen (the link TRB the driver wrote into the last entry is never taken
    for an event), and acknowledges the event by writing its address to [ERDP] with the low
    four bits kept. *)
Theorem event_ring_fifo (addr p : Z) (s : EventSystem) (Hreach : ev_reachable addr p s) :
  (forall k, (k < length (popped s))%nat -> popped s !! k = nth_event s k) /\
  (length (popped s) <= length (produced s))%nat /\
  exists e', pop (ev s) = (Ok (nth_event s (length (popped s))), e') /\
    (nth_event s (length (popped s)) = None -> e' = ev s) /\
    (nth_event s (length (popped s)) <> None ->
       erdp_reg e' = Z.lor (addr + 16 * Z.of_nat (length (popped s) mod 16)) (Z.land (erdp_reg (ev s)) 15)).
Proof.
  pose proof (ev_reachable_inv addr p s Hreach) as Hinv.
  split; [apply Hinv|]. split; [apply Hinv|]. rewrite (pop_spec addr p s Hinv).
  destruct (nth_event s (length (popped s))) as [t|].
  - eexists. split; [done|]. split; [done|]. intros _. simpl. by rewrite (ei_addr _ _ _ Hinv).
  - eexists. split; [done|]. by split.
Qed.

(** C29. Event dispatch: in every reachable state, polling the ring hands the oldest unseen
    event to the first live waiter whose address, type and slot conditions it meets, and to
    no other; waiters whose future is gone are unregistered (removal by decreasing index
    removes exactly those) and the others keep their order; without an event nothing
    changes; and the poll never fails. *)
Theorem event_poll_dispatches (addr p : Z) (s : EventSystem) (Hreach : ev_reachable addr p s) :
  exists e', EventRing_poll (ev s) = (Ok tt, e') /\
    match nth_event s (length (popped s)) with
    | None => e' = ev s
    | Some t =>
        infos e' = match List.find (accepting (infos (ev s)) t) (wait_list (ev s)) with
                   | Some w => alter (EventWaitInfo_resolve t) w (infos (ev s))
                   | None => infos (ev s)
                   end /\
        wait_list e' = List.filter (live (infos (ev s))) (wait_list (ev s))
    end.
Proof.
  pose proof (ev_reachable_inv addr p s Hreach) as Hinv. pose proof (pop_spec addr p s Hinv) as Hpop.
  destruct (nth_event s (length (popped s))) as [t|].
  - rewrite (poll_eq _ _ _ Hpop). eexists. split; [done|]. cbn [after_pop infos wait_list with_waiters
      with_cycle_ours with_erdp with_ring]. split; [done|]. apply filter_ext. apply deliver_live.
  - eexists. split; [|reflexivity]. unfold EventRing_poll. by rewrite (bind_ok _ _ _ _ _ Hpop).
Qed.

(** A command completion for the TRB at 0x10000, found by the second of two waiters. *)
Definition example_event : GenericTrbEntry :=
  {| t_data := 0x10000; t_option := 0x01000000; t_control := 0x01008400 |}.

Definition example_start : EventSystem := {|
  ev := match EventRing_new 0x20000 with Ok e => (set_erdp 0xFEE00038 e).2 | _ =>
    {| er_ring := TrbRing_new 0; erst := {| ring_segment_base_address := 0; ring_segment_size := 0 |};
       cycle_state_ours := true; erdp := None; wait_list := []; erdp_reg := 0; infos := ∅ |} end;
  enq := 0; pcs := true; produced := []; popped := [];
|}.

Definition example_infos : gmap nat EventWaitInfo := {[
  1%nat := {| cond := {| wc_trb_type := Some TransferEvent; wc_trb_addr := Some 0x10000; wc_slot := None |}; trbs := [] |};
  3%nat := {| cond := {| wc_trb_type := Some CommandCompletionEvent; wc_trb_addr := Some 0x10000; wc_slot := None |}; trbs := [] |}
]}.

Definition example_waiting : EventSystem := {|
  ev := with_waiters [1; 2; 3]%nat example_infos (ev (controller_writes example_event example_start));
  enq := 1; pcs := true; produced := [example_event]; popped := [];
|}.

Lemma example_waiting_reachable : ev_reachable 0x20000 0xFEE00038 example_waiting.
Proof.
  apply (ev_more _ _ (controller_writes example_event example_start)).
  - apply (ev_more _ _ example_start).
    + apply (ev_init 0x20000 0xFEE00038). vm_compute. reflexivity.
    + apply ev_produce; [split; vm_compute; done|simpl; lia].
  - exact (ev_waiters (controller_writes example_event example_start) [1; 2; 3]%nat example_infos).
Qed.

Lemma event_ring_fifo_witness :
  exists e', pop (ev example_waiting) = (Ok (Some (with_cycle true example_event)), e') /\
    erdp_reg e' = 0x20000.
Proof.
  destruct (event_ring_fifo _ _ _ example_waiting_reachable) as (_ & _ & e' & Hpop & _ & Hreg).
  exists e'. split; [exact Hpop|]. rewrite Hreg by done. vm_compute. reflexivity.
Defined.

Lemma event_poll_dispatches_witness :
  exists e', EventRing_poll (ev example_waiting) = (Ok tt, e') /\
    wait_list e' = [1; 3]%nat /\
    (trbs <$> infos e' !! 3%nat) = Some [with_cycle true example_event].
Proof.
  destruct (event_poll_dispatches _ _ _ example_waiting_reachable) as (e' & Hpoll & H).
  exists e'. split; [exact Hpoll|]. destruct H as [Hinfos Hws].
  rewrite Hinfos, Hws. split; vm_compute; reflexivity.
Defined.
