(* ===== verification/Contexts.v ===== *)
(** * Device, endpoint and input contexts: [src/src/xhci.rs].

    [UsbTypes] holds the enumerations the USB code shares, [Contexts] the structures the
    driver hands to the controller in an Address Device or Configure Endpoint command, with
    one definition per setter, and the two places that fill them in.  The theorems read the
    structures back through the bit positions of the xHCI specification. *)

From S2P Require Import Prelude Bits Trb.
Import Bits.Volatile.

Module UsbTypes.

Inductive EndpointType : Type :=
  | IsochOut | BulkOut | InterruptOut | Control | IsochIn | BulkIn | InterruptIn.

(** [ep_type as u32]. *)
Definition EndpointType_repr (t : EndpointType) : Z :=
  match t with
  | IsochOut => 1 | BulkOut => 2 | InterruptOut => 3 | Control => 4
  | IsochIn => 5 | BulkIn => 6 | InterruptIn => 7
  end.

Inductive UsbMode : Type := Unknown (psi : Z) | FullSpeed | LowSpeed | HighSpeed | SuperSpeed.

Definition UsbMode_psi (m : UsbMode) : Z :=
  match m with
  | FullSpeed => 1 | LowSpeed => 2 | HighSpeed => 3 | SuperSpeed => 4 | Unknown psi => psi
  end.

(** [PortScEntry::port_speed] of the protocol speed ID, and [max_packet_size]. *)
Definition UsbMode_of (v : Z) : UsbMode :=
  if v =? 1 then FullSpeed else if v =? 2 then LowSpeed
  else if v =? 3 then HighSpeed else if v =? 4 then SuperSpeed else Unknown v.

Definition max_packet_size_of (m : UsbMode) : outcome Z :=
  match m with
  | FullSpeed | LowSpeed => Ok 8
  | HighSpeed => Ok 64
  | SuperSpeed => Ok 512
  | Unknown _ => Err "unknown Protocol Speed ID"
  end.

End UsbTypes.
Import UsbTypes.

Module Contexts.

(** [v << s] on a [u32], and [x & !m]. *)
Definition shl32 (v s : Z) : Z := wrap 32 (Z.shiftl v s).
Definition clear32 (x m : Z) : Z := Z.land x (wnot 32 m).

(** Run the setters of a constructor on its initial value. *)
Definition construct {S} (s : S) (m : M S unit) : outcome S :=
  let '(r, s) := m s in _ ← r; Ok s.

Record EndpointContext : Type := {
  ep_data0 : Z; ep_data1 : Z; tr_deque_ptr : Z;
  average_trb_length : Z; max_esit_payload_low : Z;
}.

Definition with_data0 (v : Z) (e : EndpointContext) : EndpointContext :=
  {| ep_data0 := v; ep_data1 := ep_data1 e; tr_deque_ptr := tr_deque_ptr e;
     average_trb_length := average_trb_length e; max_esit_payload_low := max_esit_payload_low e |}.
Definition with_data1 (v : Z) (e : EndpointContext) : EndpointContext :=
  {| ep_data0 := ep_data0 e; ep_data1 := v; tr_deque_ptr := tr_deque_ptr e;
     average_trb_length := average_trb_length e; max_esit_payload_low := max_esit_payload_low e |}.
Definition with_deque (v : Z) (e : EndpointContext) : EndpointContext :=
  {| ep_data0 := ep_data0 e; ep_data1 := ep_data1 e; tr_deque_ptr := v;
     average_trb_length := average_trb_length e; max_esit_payload_low := max_esit_payload_low e |}.
Definition with_average (v : Z) (e : EndpointContext) : EndpointContext :=
  {| ep_data0 := ep_data0 e; ep_data1 := ep_data1 e; tr_deque_ptr := tr_deque_ptr e;
     average_trb_length := v; max_esit_payload_low := max_esit_payload_low e |}.

Definition EndpointContext_new : EndpointContext :=
  {| ep_data0 := 0; ep_data1 := 0; tr_deque_ptr := 0; average_trb_length := 0;
     max_esit_payload_low := 0 |}.

Definition set_max_burst_size (burst_size : Z) : M EndpointContext unit :=
  if burst_size <=? 15 then
    modify (fun e => with_data1 (clear32 (ep_data1 e) (shl32 0xF 8)) e);;
    modify (fun e => with_data1 (Z.lor (ep_data1 e) (shl32 burst_size 8)) e)
  else throw "Invalid max burst size".

Definition set_ring_deque_pointer (ptr : Z) : M EndpointContext unit :=
  zoom tr_deque_ptr with_deque (write_bits 64 4 60 (Z.shiftr ptr 4)).

Definition set_max_packet_size (max_packet_size : Z) : M EndpointContext unit :=
  modify (fun e => with_data1 (clear32 (ep_data1 e) (shl32 0xffff 16)) e);;
  modify (fun e => with_data1 (Z.lor (ep_data1 e) (shl32 max_packet_size 16)) e).

Definition set_error_count (error_count : Z) : M EndpointContext unit :=
  if clear32 error_count 3 =? 0 then
    modify (fun e => with_data1 (clear32 (ep_data1 e) (shl32 3 1)) e);;
    modify (fun e => with_data1 (Z.lor (ep_data1 e) (shl32 error_count 1)) e)
  else throw "Invalid error count".

Definition set_dequeue_cycle_state (dcs : bool) : M EndpointContext unit :=
  zoom tr_deque_ptr with_deque (write_bits 64 0 1 (Z.b2z dcs)).

Definition set_ep_type (ep_type : EndpointType) : M EndpointContext unit :=
  let raw_ep_type := EndpointType_repr ep_type in
  if raw_ep_type <? 8 then
    modify (fun e => with_data1 (clear32 (ep_data1 e) (shl32 7 3)) e);;
    modify (fun e => with_data1 (Z.lor (ep_data1 e) (shl32 raw_ep_type 3)) e)
  else throw "Invalid endpoint type".

Definition new_control_endpoint (max_packet_size ptr : Z) : outcome EndpointContext :=
  construct EndpointContext_new (
    set_ep_type Control;;
    set_dequeue_cycle_state true;;
    set_error_count 3;;
    set_max_packet_size max_packet_size;;
    set_ring_deque_pointer ptr;;
    modify (with_average 8)).

Definition new_bulk_endpoint (max_packet_size ptr : Z) (ep_type : EndpointType) :
    outcome EndpointContext :=
  construct EndpointContext_new (
    set_ep_type ep_type;;
    set_dequeue_cycle_state true;;
    set_error_count 3;;
    set_max_packet_size max_packet_size;;
    set_ring_deque_pointer ptr;;
    modify (with_average max_packet_size);;
    set_max_burst_size 0;;
    modify (fun e => with_data0 (clear32 (ep_data0 e) (shl32 3 0)) e);;
    modify (fun e => with_data0 (Z.lor (ep_data0 e) (shl32 0 0)) e)).

(** [slot_ctx] has 8 words and [ep_ctx] 31 contexts. *)
Record DeviceContext : Type := { slot_ctx : list Z; ep_ctx : list EndpointContext }.

Definition DeviceContext_default : DeviceContext :=
  {| slot_ctx := replicate 8 0; ep_ctx := replicate 31 EndpointContext_new |}.

(** [self.slot_ctx[i] &= !mask; self.slot_ctx[i] |= v]. *)
Definition update_slot (i : nat) (mask v : Z) : M DeviceContext unit :=
  modify (fun d => {| slot_ctx := alter (fun w => clear32 w mask) i (slot_ctx d); ep_ctx := ep_ctx d |});;
  modify (fun d => {| slot_ctx := alter (fun w => Z.lor w v) i (slot_ctx d); ep_ctx := ep_ctx d |}).

Definition set_port_speed (mode : UsbMode) : M DeviceContext unit :=
  if UsbMode_psi mode <? 16 then update_slot 0 (shl32 0xF 20) (shl32 (UsbMode_psi mode) 20)
  else throw "Invalid port speed".

Definition set_last_valid_dci (dci : Z) : M DeviceContext unit :=
  if dci <=? 31 then update_slot 0 (shl32 0x1f 27) (shl32 dci 27)
  else throw "num_ep_ctx out of range".

Definition set_root_hub_port_number (port : Z) : M DeviceContext unit :=
  if (0 <? port) && (port <? 256) then update_slot 1 (shl32 0xff 16) (shl32 port 16)
  else throw "Port out of range".

Record InputControlContext : Type := { drop_context_bitmap : Z; add_context_bitmap : Z }.

Definition InputControlContext_default : InputControlContext :=
  {| drop_context_bitmap := 0; add_context_bitmap := 0 |}.

Definition add_context (ici : Z) : M InputControlContext unit :=
  if ici <? 32 then
    modify (fun c => {| drop_context_bitmap := drop_context_bitmap c;
                        add_context_bitmap := Z.lor (add_context_bitmap c) (shl32 1 ici) |})
  else throw "Input context index out of range".

Record InputContext : Type := { input_ctrl_ctx : InputControlContext; device_ctx : DeviceContext }.

Definition InputContext_default : InputContext :=
  {| input_ctrl_ctx := InputControlContext_default; device_ctx := DeviceContext_default |}.

Definition on_device_ctx {A} (m : M DeviceContext A) : M InputContext A :=
  zoom device_ctx (fun d i => {| input_ctrl_ctx := input_ctrl_ctx i; device_ctx := d |}) m.

Definition set_ep_ctx (dci : Z) (e : EndpointContext) : M InputContext unit :=
  on_device_ctx (
    i ← lift (sub_chk dci 1);
    d ← get;
    if i <? Z.of_nat (length (ep_ctx d)) then
      put {| slot_ctx := slot_ctx d; ep_ctx := <[Z.to_nat i := e]> (ep_ctx d) |}
    else panic "index out of bounds").

Definition set_input_ctrl_ctx (c : InputControlContext) : M InputContext unit :=
  modify (fun i => {| input_ctrl_ctx := c; device_ctx := device_ctx i |}).

(** The input context of [PciXhciDriver::address_device] in its three stages: the flags
    and the port, the speed read from PORTSC, and the control endpoint with its ring. *)
Definition address_context_port (port : Z) : outcome InputContext :=
  ctrl ← construct InputControlContext_default (add_context 0;; add_context 1);
  construct InputContext_default (
    set_input_ctrl_ctx ctrl;;
    on_device_ctx (set_root_hub_port_number port);;
    on_device_ctx (set_last_valid_dci 1)).
Definition address_context_speed (speed : UsbMode) : M InputContext unit :=
  on_device_ctx (set_port_speed speed).
Definition address_context_endpoint (size ring : Z) : M InputContext unit :=
  ep ← lift (new_control_endpoint size ring);
  set_ep_ctx 1 ep.

(** The stages in order, when both reads of PORTSC give [speed]. *)
Definition address_device_context (port : Z) (speed : UsbMode) (ring : Z) : outcome InputContext :=
  ctx ← address_context_port port;
  construct ctx (
    address_context_speed speed;;
    size ← lift (max_packet_size_of speed);
    address_context_endpoint size ring).

(** The input context of [PciXhciDriver::configure_bulk_endpoint], for an endpoint
    descriptor with these two fields and an endpoint ring at [ring]. *)
Definition bulk_endpoint_context (endpoint_address max_packet_size dci ring : Z) : outcome InputContext :=
  ctrl ← construct InputControlContext_default (add_context 0;; add_context dci);
  let ep_type := if negb (Z.land endpoint_address 0x80 =? 0) then BulkIn else BulkOut in
  construct InputContext_default (
    set_input_ctrl_ctx ctrl;;
    ep ← lift (new_bulk_endpoint max_packet_size ring ep_type);
    set_ep_ctx dci ep;;
    let current_max_dci := if 1 <? dci then dci else 1 in
    on_device_ctx (set_last_valid_dci (Z.max dci current_max_dci))).

End Contexts.
Import Contexts.

(** ** What the controller reads: the fields of the contexts at the specification's positions *)

Record EndpointView : Type := {
  v_type : Z; v_error_count : Z; v_max_burst : Z; v_max_packet : Z; v_reserved : list Z;
  v_cycle : Z; v_deque : Z; v_average : Z; v_word0 : Z;
}.

Definition view_endpoint (e : EndpointContext) : EndpointView := {|
  v_type := get_field (ep_data1 e) 3 3;
  v_error_count := get_field (ep_data1 e) 1 2;
  v_max_burst := get_field (ep_data1 e) 8 8;
  v_max_packet := get_field (ep_data1 e) 16 16;
  v_reserved := [get_field (ep_data1 e) 0 1; get_field (ep_data1 e) 6 2; get_field (tr_deque_ptr e) 1 3;
                 max_esit_payload_low e];
  v_cycle := get_field (tr_deque_ptr e) 0 1;
  v_deque := 16 * get_field (tr_deque_ptr e) 4 60;
  v_average := average_trb_length e;
  v_word0 := ep_data0 e;
|}.

Record SlotView : Type := { v_speed : Z; v_entries : Z; v_port : Z; v_others : list Z }.

(** Every other bit of the slot context. *)
Definition view_slot (d : DeviceContext) : SlotView :=
  let w i := default 0 (slot_ctx d !! i) in {|
  v_speed := get_field (w 0%nat) 20 4;
  v_entries := get_field (w 0%nat) 27 5;
  v_port := get_field (w 1%nat) 16 8;
  v_others := [get_field (w 0%nat) 0 20; get_field (w 0%nat) 24 3; get_field (w 1%nat) 0 16;
               get_field (w 1%nat) 24 8; w 2%nat; w 3%nat; w 4%nat; w 5%nat; w 6%nat; w 7%nat];
|}.

(** The endpoint contexts the driver asks for. *)
Definition control_view (max_packet ring : Z) : EndpointView := {|
  v_type := 4; v_error_count := 3; v_max_burst := 0; v_max_packet := max_packet;
  v_reserved := [0; 0; 0; 0]; v_cycle := 1; v_deque := ring / 16 * 16; v_average := 8; v_word0 := 0;
|}.
Definition bulk_view (t : EndpointType) (max_packet ring : Z) : EndpointView := {|
  v_type := EndpointType_repr t; v_error_count := 3; v_max_burst := 0; v_max_packet := max_packet;
  v_reserved := [0; 0; 0; 0]; v_cycle := 1; v_deque := ring / 16 * 16; v_average := max_packet; v_word0 := 0;
|}.

(** ** Lemmas *)

Lemma clear_or32 (x s w v : Z) :
  in_width 32 x -> 0 <= s -> 0 <= w -> s + w <= 32 -> in_width w v ->
  Z.lor (clear32 x (shl32 (Z.ones w) s)) (shl32 v s) = set_field x s w v.
Proof.
  intros. unfold clear32, shl32.
  rewrite !(wrap_shiftl_field 32 s w) by (done || lia || (apply ones_in_width; lia)).
  by apply clear_or_is_set_field.
Qed.

Lemma modify2 {S} (f g : S -> S) (s : S) : (modify f;; modify g) s = (Ok tt, g (f s)).
Proof. reflexivity. Qed.

Section endpoint_setters.
Context (e : EndpointContext) (H1 : in_width 32 (ep_data1 e)) (Hd : in_width 64 (tr_deque_ptr e)).

Lemma set_max_burst_size_eq b :
  0 <= b <= 15 -> set_max_burst_size b e = (Ok tt, with_data1 (set_field (ep_data1 e) 8 4 b) e).
Proof using H1.
  intros. unfold set_max_burst_size. rewrite (proj2 (Z.leb_le _ _)), modify2 by lia.
  cbn [ep_data1 with_data1]. change 0xF with (Z.ones 4).
  by rewrite clear_or32 by (done || lia || (split; lia)).
Qed.

Lemma set_max_packet_size_eq p :
  in_width 16 p -> set_max_packet_size p e = (Ok tt, with_data1 (set_field (ep_data1 e) 16 16 p) e).
Proof using H1.
  intros. unfold set_max_packet_size. rewrite modify2. cbn [ep_data1 with_data1].
  change 0xffff with (Z.ones 16). by rewrite clear_or32 by (done || lia).
Qed.

Lemma set_error_count_three :
  set_error_count 3 e = (Ok tt, with_data1 (set_field (ep_data1 e) 1 2 3) e).
Proof using H1.
  unfold set_error_count. change (clear32 3 3 =? 0) with true. cbv iota. rewrite modify2.
  cbn [ep_data1 with_data1]. change (shl32 3 1) with (shl32 (Z.ones 2) 1) at 1.
  by rewrite clear_or32 by (done || lia).
Qed.

Lemma repr_width t : in_width 3 (EndpointType_repr t).
Proof. destruct t; split; simpl; lia. Qed.

Lemma set_ep_type_eq t :
  set_ep_type t e = (Ok tt, with_data1 (set_field (ep_data1 e) 3 3 (EndpointType_repr t)) e).
Proof using H1.
  pose proof (repr_width t) as [Ht0 Ht]. unfold set_ep_type. rewrite (proj2 (Z.ltb_lt _ _)) by lia.
  rewrite modify2. cbn [ep_data1 with_data1]. change 7 with (Z.ones 3) at 1.
  by rewrite clear_or32 by (done || lia).
Qed.

Lemma set_dequeue_cycle_state_true :
  set_dequeue_cycle_state true e = (Ok tt, with_deque (set_field (tr_deque_ptr e) 0 1 1) e).
Proof using Hd. unfold set_dequeue_cycle_state, zoom. by rewrite write_bits_eq by (lia || done). Qed.

Lemma set_ring_deque_pointer_eq p : in_width 64 p ->
  set_ring_deque_pointer p e = (Ok tt, with_deque (set_field (tr_deque_ptr e) 4 60 (Z.shiftr p 4)) e).
Proof using Hd.
  intros [Hp0 Hp]. unfold set_ring_deque_pointer, zoom.
  assert (0 <= Z.shiftr p 4 < 2 ^ 60) as Hs
    by (rewrite Z.shiftr_div_pow2 by lia; change (2 ^ 64) with (2 ^ 60 * 2 ^ 4) in Hp; div_lia).
  rewrite write_bits_eq by (lia || done). by rewrite (proj2 (Z.ltb_lt _ _)) by lia.
Qed.
End endpoint_setters.

Lemma shiftr4_width p : in_width 64 p -> in_width 60 (Z.shiftr p 4).
Proof. intros [H0 H]. unfold in_width. rewrite Z.shiftr_div_pow2 by lia. change (2 ^ 64) with (2 ^ 60 * 2 ^ 4) in H. div_lia. Qed.

(** The words of an endpoint context after the setters of both constructors. *)
Definition endpoint_words (t : EndpointType) (max_packet ring : Z) : Z * Z :=
  (set_field (set_field (set_field 0 3 3 (EndpointType_repr t)) 1 2 3) 16 16 max_packet,
   set_field (set_field 0 0 1 1) 4 60 (Z.shiftr ring 4)).

Ltac field_width :=
  cbn [ep_data1 tr_deque_ptr with_data0 with_data1 with_deque with_average EndpointContext_new]; first
  [ done | lia | apply repr_width | by apply shiftr4_width
  | apply set_field_width; field_width | split; lia ].

(** Step over a setter whose equation is known. *)
Ltac setter eqn := erewrite bind_ok; [|apply eqn; field_width]; cbv beta.

Ltac fields := repeat first
  [ rewrite get_set_same by field_width
  | rewrite get_set_other by field_width ].

Lemma new_control_endpoint_eq p r : in_width 16 p -> in_width 64 r ->
  new_control_endpoint p r = Ok {|
    ep_data0 := 0; ep_data1 := (endpoint_words Control p r).1;
    tr_deque_ptr := (endpoint_words Control p r).2; average_trb_length := 8; max_esit_payload_low := 0 |}.
Proof.
  intros Hp Hr. unfold new_control_endpoint, construct.
  setter set_ep_type_eq.
  setter set_dequeue_cycle_state_true.
  setter set_error_count_three.
  setter set_max_packet_size_eq.
  setter set_ring_deque_pointer_eq.
  reflexivity.
Qed.

Lemma new_bulk_endpoint_eq p r t : in_width 16 p -> in_width 64 r ->
  new_bulk_endpoint p r t = Ok {|
    ep_data0 := 0; ep_data1 := (endpoint_words t p r).1;
    tr_deque_ptr := (endpoint_words t p r).2; average_trb_length := p; max_esit_payload_low := 0 |}.
Proof.
  intros Hp Hr. unfold new_bulk_endpoint, construct.
  setter set_ep_type_eq.
  setter set_dequeue_cycle_state_true.
  setter set_error_count_three.
  setter set_max_packet_size_eq.
  setter set_ring_deque_pointer_eq.
  mstep.
  erewrite bind_ok; [|apply set_max_burst_size_eq; [field_width|lia]].
  cbn [ep_data1 with_deque with_data1 with_average].
  match goal with |- context [set_field ?x 8 4 0] => assert (get_field x 8 4 = 0) as H0 by by fields end.
  rewrite <- H0 at 1. rewrite set_get by lia. reflexivity.
Qed.

Lemma shiftr4_mul p : 16 * Z.shiftr p 4 = p / 16 * 16.
Proof. rewrite Z.shiftr_div_pow2 by lia. change (2 ^ 4) with 16. lia. Qed.

Lemma new_control_endpoint_view p r : in_width 16 p -> in_width 64 r ->
  exists e, new_control_endpoint p r = Ok e /\ view_endpoint e = control_view p r.
Proof.
  intros Hp Hr. eexists. split; [by apply new_control_endpoint_eq|].
  unfold view_endpoint, control_view, endpoint_words.
  cbn [ep_data0 ep_data1 tr_deque_ptr average_trb_length max_esit_payload_low fst snd].
  fields. rewrite shiftr4_mul. reflexivity.
Qed.

Lemma new_bulk_endpoint_view p r t : in_width 16 p -> in_width 64 r ->
  exists e, new_bulk_endpoint p r t = Ok e /\ view_endpoint e = bulk_view t p r.
Proof.
  intros Hp Hr. eexists. split; [by apply new_bulk_endpoint_eq|].
  unfold view_endpoint, bulk_view, endpoint_words.
  cbn [ep_data0 ep_data1 tr_deque_ptr average_trb_length max_esit_payload_low fst snd].
  fields. rewrite shiftr4_mul. reflexivity.
Qed.

(** *** The slot context *)

Lemma update_slot_eq (i : nat) (s w v : Z) (d : DeviceContext) (x : Z) :
  slot_ctx d !! i = Some x -> in_width 32 x -> 0 <= s -> 0 <= w -> s + w <= 32 -> in_width w v ->
  update_slot i (shl32 (Z.ones w) s) (shl32 v s) d =
    (Ok tt, {| slot_ctx := <[i := set_field x s w v]> (slot_ctx d); ep_ctx := ep_ctx d |}).
Proof.
  intros Hi Hx Hs Hw Hsw Hv. unfold update_slot. rewrite modify2. cbn [slot_ctx ep_ctx].
  do 2 f_equal.
  rewrite <- (clear_or32 x s w v) by done.
  apply list_eq. intros j. destruct (decide (i = j)) as [->|Hne].
  - rewrite !list_lookup_alter_eq, list_lookup_insert_eq, Hi by by eapply lookup_lt_Some. done.
  - by rewrite !list_lookup_alter_ne, list_lookup_insert_ne.
Qed.

Lemma set_last_valid_dci_eq (d : DeviceContext) (x n : Z) :
  slot_ctx d !! 0%nat = Some x -> in_width 32 x -> 0 <= n <= 31 ->
  set_last_valid_dci n d =
    (Ok tt, {| slot_ctx := <[0%nat := set_field x 27 5 n]> (slot_ctx d); ep_ctx := ep_ctx d |}).
Proof.
  intros. unfold set_last_valid_dci. rewrite (proj2 (Z.leb_le _ _)) by lia.
  change 0x1f with (Z.ones 5). apply update_slot_eq; field_width.
Qed.

Lemma set_port_speed_eq (d : DeviceContext) (x : Z) (m : UsbMode) :
  slot_ctx d !! 0%nat = Some x -> in_width 32 x -> 0 <= UsbMode_psi m < 16 ->
  set_port_speed m d =
    (Ok tt, {| slot_ctx := <[0%nat := set_field x 20 4 (UsbMode_psi m)]> (slot_ctx d); ep_ctx := ep_ctx d |}).
Proof.
  intros. unfold set_port_speed. rewrite (proj2 (Z.ltb_lt _ _)) by lia.
  change 0xF with (Z.ones 4). apply update_slot_eq; field_width.
Qed.

Lemma set_root_hub_port_number_eq (d : DeviceContext) (x port : Z) :
  slot_ctx d !! 1%nat = Some x -> in_width 32 x -> 0 < port < 256 ->
  set_root_hub_port_number port d =
    (Ok tt, {| slot_ctx := <[1%nat := set_field x 16 8 port]> (slot_ctx d); ep_ctx := ep_ctx d |}).
Proof.
  intros. unfold set_root_hub_port_number.
  rewrite (proj2 (Z.ltb_lt 0 port)), (proj2 (Z.ltb_lt port 256)) by lia. cbn [andb].
  change 0xff with (Z.ones 8). apply update_slot_eq; field_width.
Qed.

Lemma on_device_ctx_ok (m : M DeviceContext unit) (i : InputContext) (d : DeviceContext) :
  m (device_ctx i) = (Ok tt, d) ->
  on_device_ctx m i = (Ok tt, {| input_ctrl_ctx := input_ctrl_ctx i; device_ctx := d |}).
Proof. intros H. unfold on_device_ctx, zoom. by rewrite H. Qed.

Lemma set_ep_ctx_ok (dci : Z) (e : EndpointContext) (i : InputContext) :
  1 <= dci <= Z.of_nat (length (ep_ctx (device_ctx i))) ->
  set_ep_ctx dci e i = (Ok tt, {| input_ctrl_ctx := input_ctrl_ctx i; device_ctx :=
    {| slot_ctx := slot_ctx (device_ctx i); ep_ctx := <[Z.to_nat (dci - 1) := e]> (ep_ctx (device_ctx i)) |} |}).
Proof.
  intros. unfold set_ep_ctx. apply on_device_ctx_ok. rewrite sub_chk_ok by lia. mstep.
  rewrite (bind_ok get _ _ _ _ eq_refl). by rewrite (proj2 (Z.ltb_lt _ _)) by lia.
Qed.


(** The add flags of the slot context and of context [dci]. *)
Definition add_flags (dci : Z) : InputControlContext :=
  {| drop_context_bitmap := 0; add_context_bitmap := Z.lor 1 (2 ^ dci) |}.

Lemma add_context_flags dci : 0 <= dci < 32 ->
  construct InputControlContext_default (add_context 0;; add_context dci) = Ok (add_flags dci).
Proof.
  intros. unfold construct, add_context. rewrite (proj2 (Z.ltb_lt dci 32)) by lia.
  unfold add_flags, shl32. rewrite wrap_shiftl_one by lia. reflexivity.
Qed.

Ltac dev_setter eqn := erewrite bind_ok; [|apply on_device_ctx_ok; apply eqn; field_width]; cbv beta.

Lemma address_context_port_refuses port : ~ 0 < port < 256 -> address_context_port port = Err "Port out of range".
Proof.
  intros Hport. unfold address_context_port. rewrite (add_context_flags 1) by lia. cbn [mbind outcome_bind].
  unfold construct. mstep. unfold set_root_hub_port_number at 1.
  replace ((0 <? port) && (port <? 256)) with false by lia. reflexivity.
Qed.

(** ** Properties *)

(** The input context of an Address Device command, for a root port 1 .. 255 whose speed
    ID is known: the controller reads, at the specification's bit positions, add flags for
    the slot and endpoint 0 only, the port's speed and number and one context entry in the
    slot context with every other bit zero, and in endpoint context 1 a control endpoint
    with the speed's packet size, three retries, the ring's address and cycle state 1; all
    other endpoint contexts are untouched.  Another port number, or an unknown speed ID, is
    refused. *)
Theorem address_device_context_correct (port : Z) (speed : UsbMode) (ring size : Z)
  (Hring : in_width 64 ring) :
  (0 < port < 256 -> max_packet_size_of speed = Ok size ->
   exists ctx ep, address_device_context port speed ring = Ok ctx /\
     input_ctrl_ctx ctx = {| drop_context_bitmap := 0; add_context_bitmap := 3 |} /\
     view_slot (device_ctx ctx) = {| v_speed := UsbMode_psi speed; v_entries := 1; v_port := port;
                                     v_others := replicate 10 0 |} /\
     ep_ctx (device_ctx ctx) = ep :: replicate 30 EndpointContext_new /\
     view_endpoint ep = control_view size ring) /\
  (~ 0 < port < 256 -> address_device_context port speed ring = Err "Port out of range") /\
  (forall v, 0 < port < 256 -> speed = Unknown v -> v < 16 ->
   address_device_context port speed ring = Err "unknown Protocol Speed ID").
Proof.
  split; [|split].
  - intros Hport Hsize.
    assert (0 <= UsbMode_psi speed < 16 /\ in_width 16 size) as [Hpsi Hsz].
    { destruct speed; simplify_eq/=; unfold in_width; lia. }
    destruct (new_control_endpoint_view size ring Hsz Hring) as (ep & Hep & Hview).
    eexists _, ep. split; [|split; [|split; [|split; [|exact Hview]]]].
    + unfold address_device_context, address_context_port. rewrite (add_context_flags 1) by lia.
      cbn [mbind outcome_bind]. unfold construct. mstep. dev_setter set_root_hub_port_number_eq.
      erewrite on_device_ctx_ok; [|apply set_last_valid_dci_eq; field_width].
      cbn [mbind outcome_bind]. unfold address_context_speed, address_context_endpoint.
      dev_setter set_port_speed_eq. rewrite Hsize. mstep. rewrite Hep. mstep.
      by rewrite set_ep_ctx_ok by (simpl; lia).
    + reflexivity.
    + unfold view_slot. cbn [device_ctx slot_ctx]. cbn -[get_field set_field UsbMode_psi]. fields. reflexivity.
    + reflexivity.
  - intros Hport. unfold address_device_context. by rewrite address_context_port_refuses.
  - intros v Hport -> Hv. unfold address_device_context, address_context_port.
    rewrite (add_context_flags 1) by lia. cbn [mbind outcome_bind]. unfold construct. mstep.
    dev_setter set_root_hub_port_number_eq.
    erewrite on_device_ctx_ok; [|apply set_last_valid_dci_eq; field_width].
    cbn [mbind outcome_bind]. unfold address_context_speed, set_port_speed. cbn [UsbMode_psi].
    rewrite (proj2 (Z.ltb_lt _ _)) by lia. reflexivity.
Qed.

Lemma address_device_context_correct_witness :
  exists ctx ep, address_device_context 5 SuperSpeed 0x10000 = Ok ctx /\
    ep_ctx (device_ctx ctx) = ep :: replicate 30 EndpointContext_new /\
    view_endpoint ep = control_view 512 0x10000.
Proof.
  destruct (proj1 (address_device_context_correct 5 SuperSpeed 0x10000 512 ltac:(split; lia)))
    as (ctx & ep & H1 & _ & _ & H2 & H3); [lia|reflexivity|]. by exists ctx, ep.
Defined.

(** The input context of a Configure Endpoint command for a bulk endpoint at context
    index [dci] = 1 .. 31: the add flags name exactly the slot and [dci], the slot context
    counts [dci] entries, and only endpoint context [dci] is written, with the direction of
    the descriptor's address, its packet size, three retries, no bursts and the ring's
    address.  [dci] = 0 (an endpoint number of zero) panics on the array index and an index
    of 32 or more is refused before anything is written. *)
Theorem bulk_endpoint_context_correct (address packet dci ring : Z)
  (Hpacket : in_width 16 packet) (Hring : in_width 64 ring) (Hdci : 0 <= dci) :
  let t := if Z.testbit address 7 then BulkIn else BulkOut in
  (1 <= dci <= 31 -> exists ctx ep, bulk_endpoint_context address packet dci ring = Ok ctx /\
     drop_context_bitmap (input_ctrl_ctx ctx) = 0 /\
     (forall i, 0 <= i -> Z.testbit (add_context_bitmap (input_ctrl_ctx ctx)) i = (i =? 0) || (i =? dci)) /\
     v_entries (view_slot (device_ctx ctx)) = dci /\
     ep_ctx (device_ctx ctx) = <[Z.to_nat (dci - 1) := ep]> (replicate 31 EndpointContext_new) /\
     view_endpoint ep = bulk_view t packet ring) /\
  (dci = 0 -> bulk_endpoint_context address packet dci ring = Panic msg_sub) /\
  (32 <= dci -> bulk_endpoint_context address packet dci ring = Err "Input context index out of range").
Proof.
  intros t.
  assert ((if negb (Z.land address 0x80 =? 0) then BulkIn else BulkOut) = t) as Ht.
  { pose proof (land_pow2_testbit address 7 ltac:(lia)) as H. change (2 ^ 7) with 0x80 in H.
    by rewrite H. }
  split; [|split].
  - intros Hd. destruct (new_bulk_endpoint_view packet ring t Hpacket Hring) as (ep & Hep & Hview).
    eexists _, ep. split; [|split; [|split; [|split; [|split; [|exact Hview]]]]].
    + unfold bulk_endpoint_context. rewrite (add_context_flags dci), Ht by lia. cbn [mbind outcome_bind].
      unfold construct. mstep. rewrite Hep. mstep.
      erewrite bind_ok; [|apply set_ep_ctx_ok; simpl; lia]. cbv beta zeta.
      replace (Z.max dci (if 1 <? dci then dci else 1)) with dci by (destruct (Z.ltb_spec 1 dci); lia).
      erewrite on_device_ctx_ok; [done|]. apply set_last_valid_dci_eq; [reflexivity|field_width|lia].
    + reflexivity.
    + intros i Hi. cbn [input_ctrl_ctx add_context_bitmap add_flags].
      rewrite Z.lor_spec, Z.pow2_bits_eqb by lia. change 1 with (2 ^ 0).
      rewrite Z.pow2_bits_eqb by lia. by rewrite !(Z.eqb_sym i).
    + unfold view_slot. cbn -[get_field set_field]. by fields.
    + reflexivity.
  - intros ->. unfold bulk_endpoint_context. rewrite (add_context_flags 0), Ht by lia. cbn [mbind outcome_bind].
    unfold construct. mstep.
    destruct (new_bulk_endpoint_view packet ring t Hpacket Hring) as (ep & -> & _). reflexivity.
  - intros H. unfold bulk_endpoint_context, construct, add_context.
    rewrite (proj2 (Z.ltb_ge dci 32)) by lia. reflexivity.
Qed.

Lemma bulk_endpoint_context_correct_witness :
  exists ctx ep, bulk_endpoint_context 0x81 512 3 0x10000 = Ok ctx /\
    v_entries (view_slot (device_ctx ctx)) = 3 /\
    ep_ctx (device_ctx ctx) !! 2%nat = Some ep /\ view_endpoint ep = bulk_view BulkIn 512 0x10000.
Proof.
  destruct (proj1 (bulk_endpoint_context_correct 0x81 512 3 0x10000 ltac:(split; lia) ltac:(split; lia)
    ltac:(lia))) as (ctx & ep & H1 & _ & _ & H2 & H3 & H4); [lia|].
  exists ctx, ep. rewrite H3. split_and!; done.
Defined.
