(* ===== verification/Graphics.v ===== *)
(** * Drawing: [src/src/graphics.rs].

    The [Bitmap] trait is a class; a bitmap's pixels are 32-bit cells of memory, by byte
    address.  Coordinates are [i64] and every arithmetic operation on them is checked.  The
    glyphs come from the text of [src/src/font.txt], which [lookup_font] parses. *)

From S2P Require Import Prelude.

Module Graphics.

(** The trait's required methods; [buf_mut] is the address of the first pixel. *)
Class Bitmap (T : Type) : Type := {
  bytes_per_pixel : T -> Z;
  pixel_per_line : T -> Z;
  width : T -> Z;
  height : T -> Z;
  buf_mut : T -> Z;
}.

(** [VramBufferInfo]. *)
Record VramBufferInfo : Type := {
  v_buf : Z; v_width : Z; v_height : Z; v_pixels_per_line : Z;
}.
#[export] Instance VramBufferInfo_Bitmap : Bitmap VramBufferInfo := {
  bytes_per_pixel _ := 4;
  pixel_per_line := v_pixels_per_line;
  width := v_width;
  height := v_height;
  buf_mut := v_buf;
}.

(** Video memory: the [u32] at each address. *)
Abbreviation vram := (gmap Z Z).

Section bitmap.
Context {T : Type} {BT : Bitmap T} (buf : T).

Definition unchecked_pixel_at_mut (x y : Z) : outcome Z :=
  row ← mul64 y (pixel_per_line buf);
  ofs ← add64 row x;
  ofs ← mul64 ofs (bytes_per_pixel buf);
  Ok (buf_mut buf + wrap 64 ofs).

Definition is_in_x_range (px : Z) : bool :=
  (0 <=? px) && (px <? Z.min (width buf) (pixel_per_line buf)).
Definition is_in_y_range (py : Z) : bool := (0 <=? py) && (py <? height buf).

Definition pixel_at_mut (x y : Z) : outcome (option Z) :=
  if is_in_x_range x && is_in_y_range y
  then p ← unchecked_pixel_at_mut x y; Ok (Some p) else Ok None.

Definition unchecked_draw_point (color x y : Z) : M vram unit :=
  p ← lift (unchecked_pixel_at_mut x y); modify <[p := color]>.

Definition draw_point (color x y : Z) : M vram unit :=
  o ← lift (pixel_at_mut x y);
  p ← lift (ok_or o "out of range");
  modify <[p := color]>.

Definition fill_rect (color px py w h : Z) : M vram unit :=
  let err := throw "out of range" in
  if negb (is_in_x_range px) || negb (is_in_y_range py) then err else
  x_end ← lift (add64 px w); x_last ← lift (sub64 x_end 1);
  if negb (is_in_x_range x_last) then err else
  y_end ← lift (add64 py h); y_last ← lift (sub64 y_end 1);
  if negb (is_in_y_range y_last) then err else
  for_each (range py y_end) (fun y =>
    for_each (range px x_end) (fun x => unchecked_draw_point color x y)).

Definition calc_slope_point (da db ia : Z) : outcome (option Z) :=
  if da <? db then Ok None
  else if da =? 0 then Ok (Some 0)
  else if (0 <=? ia) && (ia <=? da) then
    t ← mul64 2 db; t ← mul64 t ia; t ← add64 t da; Ok (Some (Z.quot (Z.quot t da) 2))
  else Ok None.

(** One point of a line; [plot] says where it goes. *)
Definition line_point (color da db : Z) (plot : Z -> Z -> outcome (Z * Z)) (ia : Z) : M vram unit :=
  o ← lift (calc_slope_point da db ia);
  match o with
  | None => mret tt
  | Some ib => '(x, y) ← lift (plot ia ib); draw_point color x y
  end.

Definition draw_line (color x0 y0 x1 y1 : Z) : M vram unit :=
  if negb (is_in_x_range x0) || negb (is_in_x_range x1)
     || negb (is_in_y_range y0) || negb (is_in_y_range y1) then throw "out of range" else
  xd ← lift (sub64 x1 x0); yd ← lift (sub64 y1 y0);
  dx ← lift (i64_chk "attempt to negate with overflow" (Z.abs xd));
  dy ← lift (i64_chk "attempt to negate with overflow" (Z.abs yd));
  let sx := Z.sgn xd in let sy := Z.sgn yd in
  let plot rx ry :=
    ox ← mul64 rx sx; x ← add64 x0 ox; oy ← mul64 ry sy; y ← add64 y0 oy; Ok (x, y) in
  if dy <=? dx
  then for_each (range 0 dx) (line_point color dx dy plot)
  else for_each (range 0 dy) (line_point color dy dx (fun ry rx => plot rx ry)).
End bitmap.
End Graphics.
Import Graphics.

(** ** Geometry *)

(** A bitmap whose pixels have distinct addresses and fit the address arithmetic. *)
Record bitmap_ok {T} {BT : Bitmap T} (b : T) : Prop := {
  bo_bpp : 0 < bytes_per_pixel b;
  bo_ppl : 0 <= pixel_per_line b;
  bo_height : 0 <= height b;
  bo_size : (height b * pixel_per_line b + pixel_per_line b) * bytes_per_pixel b < 2 ^ 62;
}.

Definition in_bitmap {T} {BT : Bitmap T} (b : T) (p : Z * Z) : Prop :=
  0 <= p.1 < Z.min (width b) (pixel_per_line b) /\ 0 <= p.2 < height b.
Definition pixel_addr {T} {BT : Bitmap T} (b : T) (p : Z * Z) : Z :=
  buf_mut b + (p.2 * pixel_per_line b + p.1) * bytes_per_pixel b.

(** Painting a list of points. *)
Definition paint {T} {BT : Bitmap T} (b : T) (color : Z) (ps : list (Z * Z)) (m : vram) : vram :=
  foldl (fun m p => <[pixel_addr b p := color]> m) m ps.

Section geometry.
Context {T : Type} {BT : Bitmap T} (b : T) (Hb : bitmap_ok b).

Lemma x_range_iff x : is_in_x_range b x = true <-> 0 <= x < Z.min (width b) (pixel_per_line b).
Proof using. unfold is_in_x_range. lia. Qed.
Lemma y_range_iff y : is_in_y_range b y = true <-> 0 <= y < height b.
Proof using. unfold is_in_y_range. lia. Qed.

(** No address computation on a pixel overflows. *)
Lemma pixel_bounds p : in_bitmap b p ->
  0 <= p.2 * pixel_per_line b <= height b * pixel_per_line b /\
  0 <= (p.2 * pixel_per_line b + p.1) * bytes_per_pixel b < 2 ^ 62 /\
  height b * pixel_per_line b + pixel_per_line b < 2 ^ 62.
Proof using Hb.
  intros [Hx Hy]. pose proof Hb as [H1 H2 H3 H4].
  assert (0 <= p.2 * pixel_per_line b <= height b * pixel_per_line b) by nia.
  split; [done|]. split; [|nia].
  split; [nia|]. eapply Z.le_lt_trans; [|exact H4]. apply Z.mul_le_mono_nonneg_r; lia.
Qed.

Lemma unchecked_pixel_eq x y : in_bitmap b (x, y) ->
  unchecked_pixel_at_mut b x y = Ok (pixel_addr b (x, y)).
Proof using Hb.
  intros Hp. pose proof (pixel_bounds _ Hp) as (H1 & H2 & H3). destruct Hp as [Hx Hy]. simpl in *.
  unfold unchecked_pixel_at_mut, mul64, add64.
  rewrite (i64_chk_ok msg_mul (y * pixel_per_line b)) by lia. cbn [mbind outcome_bind].
  rewrite (i64_chk_ok msg_add) by lia. cbn [mbind outcome_bind].
  rewrite (i64_chk_ok msg_mul) by lia. cbn [mbind outcome_bind].
  rewrite wrap_small by (split; lia). done.
Qed.

Lemma pixel_addr_inj p q : in_bitmap b p -> in_bitmap b q -> pixel_addr b p = pixel_addr b q -> p = q.
Proof using Hb.
  destruct p as [x y], q as [x' y']. intros [Hx Hy] [Hx' Hy'] Heq. unfold pixel_addr in Heq. simpl in *.
  pose proof Hb as [H1 H2 _ _].
  assert (y * pixel_per_line b + x = y' * pixel_per_line b + x') as He by nia.
  assert (y = y') as -> by nia. f_equal. lia.
Qed.

Lemma draw_point_in color x y m : in_bitmap b (x, y) ->
  draw_point b color x y m = (Ok tt, <[pixel_addr b (x, y) := color]> m).
Proof using Hb.
  intros Hp. unfold draw_point, pixel_at_mut.
  rewrite (proj2 (x_range_iff x)), (proj2 (y_range_iff y)) by apply Hp. cbn [andb].
  by rewrite unchecked_pixel_eq.
Qed.

Lemma draw_point_out color x y m : ~ in_bitmap b (x, y) ->
  draw_point b color x y m = (Err "out of range", m).
Proof using.
  intros Hp. unfold draw_point, pixel_at_mut.
  destruct (is_in_x_range b x && is_in_y_range b y) eqn:E; [|done].
  apply andb_true_iff in E as [Hx%x_range_iff Hy%y_range_iff]. by destruct Hp.
Qed.

Lemma unchecked_draw_in color x y m : in_bitmap b (x, y) ->
  unchecked_draw_point b color x y m = (Ok tt, <[pixel_addr b (x, y) := color]> m).
Proof using Hb. intros. unfold unchecked_draw_point. by rewrite unchecked_pixel_eq. Qed.

(** Painting changes the painted pixels and nothing else. *)
Lemma paint_app color ps qs m : paint b color (ps ++ qs) m = paint b color qs (paint b color ps m).
Proof using. unfold paint. by rewrite foldl_app. Qed.

Lemma paint_other color ps a m :
  (forall p, p ∈ ps -> pixel_addr b p <> a) -> paint b color ps m !! a = m !! a.
Proof using.
  revert m. induction ps as [|p ps IH]; intros m Hps; [done|]. cbn [paint foldl].
  unfold paint in IH. rewrite IH by (intros q Hq; apply Hps; by right).
  rewrite lookup_insert_ne; [done|]. apply Hps. by left.
Qed.

Lemma paint_hit color ps p m : p ∈ ps -> paint b color ps m !! pixel_addr b p = Some color.
Proof using.
  revert m. induction ps as [|q ps IH] using rev_ind; intros m Hp; [by apply elem_of_nil in Hp|].
  rewrite paint_app. cbn [paint foldl].
  destruct (decide (pixel_addr b q = pixel_addr b p)) as [->|Hne]; [by rewrite lookup_insert_eq|].
  rewrite lookup_insert_ne by done. apply IH.
  apply elem_of_app in Hp as [|Hp]; [done|]. apply elem_of_cons in Hp as [->|Hp]; [done|].
  by apply elem_of_nil in Hp.
Qed.

(** The picture after painting. *)
Lemma paint_pixel color ps p m :
  (forall q, q ∈ ps -> in_bitmap b q) -> in_bitmap b p ->
  paint b color ps m !! pixel_addr b p =
    if decide (p ∈ ps) then Some color else m !! pixel_addr b p.
Proof using Hb.
  intros Hps Hp. case_decide as Hin; [by apply paint_hit|]. apply paint_other.
  intros q Hq Heq. apply Hin. apply pixel_addr_inj in Heq; [by subst|by apply Hps|done].
Qed.
End geometry.

(** ** Loops that paint *)

(** A loop whose every step paints the points [g x] paints them all. *)
Lemma for_each_paint {T} {BT : Bitmap T} (b : T) {A} color (g : A -> list (Z * Z)) (f : A -> M vram unit) l m :
  (forall x m, x ∈ l -> f x m = (Ok tt, paint b color (g x) m)) ->
  for_each l f m = (Ok tt, paint b color (l ≫= g) m).
Proof.
  revert m. induction l as [|x l IH]; intros m Hf; [done|]. cbn [for_each].
  rewrite (bind_ok _ _ _ _ _ (Hf x m (list_elem_of_here x l))).
  rewrite IH by (intros; apply Hf; by right). rewrite bind_cons.
  by rewrite paint_app.
Qed.

(** ** Rectangles *)

Definition in_rect (px py w h : Z) (p : Z * Z) : Prop := px <= p.1 < px + w /\ py <= p.2 < py + h.
#[export] Instance in_rect_dec px py w h p : Decision (in_rect px py w h p) := _.

Definition rect_points (px py w h : Z) : list (Z * Z) :=
  range py (py + h) ≫= fun y => (fun x => (x, y)) <$> range px (px + w).

Lemma elem_of_rect_points px py w h p : p ∈ rect_points px py w h <-> in_rect px py w h p.
Proof.
  destruct p as [x y]. unfold rect_points, in_rect. rewrite list_elem_of_bind. simpl. split.
  - intros (y' & (x' & [= -> ->] & Hx)%list_elem_of_fmap & Hy).
    apply elem_of_range in Hx, Hy. done.
  - intros [Hx Hy]. exists y. split; [|by apply elem_of_range].
    apply list_elem_of_fmap. exists x. split; [done|]. by apply elem_of_range.
Qed.

Lemma rect_in_bitmap {T} {BT : Bitmap T} (b : T) px py w h p :
  in_bitmap b (px, py) -> in_bitmap b (px + w - 1, py + h - 1) -> in_rect px py w h p -> in_bitmap b p.
Proof. unfold in_bitmap, in_rect. simpl. lia. Qed.

Lemma fill_rect_eq {T} {BT : Bitmap T} (b : T) color px py w h m :
  bitmap_ok b -> in_bitmap b (px, py) -> in_bitmap b (px + w - 1, py + h - 1) ->
  - 2 ^ 62 < w < 2 ^ 62 -> - 2 ^ 62 < h < 2 ^ 62 -> width b < 2 ^ 62 -> height b < 2 ^ 62 ->
  fill_rect b color px py w h m = (Ok tt, paint b color (rect_points px py w h) m).
Proof.
  intros Hb H0 H1 Hw Hh Hbw Hbh. pose proof H0 as [Hx0 Hy0]. pose proof H1 as [Hx1 Hy1]. simpl in *.
  unfold fill_rect.
  rewrite (proj2 (x_range_iff b px)), (proj2 (y_range_iff b py)) by done. cbn [negb orb].
  unfold add64, sub64.
  rewrite (i64_chk_ok msg_add (px + w)) by lia. mstep.
  rewrite (i64_chk_ok msg_sub (px + w - 1)) by lia. mstep.
  rewrite (proj2 (x_range_iff b (px + w - 1))) by done. cbn [negb].
  rewrite (i64_chk_ok msg_add (py + h)) by lia. mstep.
  rewrite (i64_chk_ok msg_sub (py + h - 1)) by lia. mstep.
  rewrite (proj2 (y_range_iff b (py + h - 1))) by done. cbn [negb].
  apply for_each_paint. intros y m' Hy%elem_of_range.
  rewrite (for_each_paint b color (fun x => [(x, y)])).
  - assert (forall l : list Z, l ≫= (fun x => [(x, y)]) = (fun x => (x, y)) <$> l) as -> by (by induction l as [|z l IH]; [|simpl; f_equal]). done.
  - intros x m'' Hx%elem_of_range. rewrite unchecked_draw_in; [done|done|].
    eapply rect_in_bitmap; [exact H0|exact H1|]. done.
Qed.

(** ** Lines *)

(** [a / n] rounded to the nearest integer, halves up. *)
Definition rnd (a n : Z) : Z := (2 * a + n) / (2 * n).

(** The [i]-th of the [n] points from [(x0, y0)] towards [(x1, y1)]. *)
Definition line_at (x0 y0 x1 y1 n i : Z) : Z * Z :=
  (x0 + rnd (Z.abs (x1 - x0) * i) n * Z.sgn (x1 - x0),
   y0 + rnd (Z.abs (y1 - y0) * i) n * Z.sgn (y1 - y0)).
Definition line_points (x0 y0 x1 y1 : Z) : list (Z * Z) :=
  let n := Z.max (Z.abs (x1 - x0)) (Z.abs (y1 - y0)) in
  line_at x0 y0 x1 y1 n <$> range 0 n.

Lemma rnd_bounds d n i : 0 < n -> 0 <= d -> 0 <= i <= n -> 0 <= rnd (d * i) n <= d.
Proof.
  intros Hn Hd Hi. unfold rnd. split.
  - apply Z.div_pos; nia.
  - apply Z.lt_succ_r, Z.div_lt_upper_bound; nia.
Qed.

Lemma rnd_major n i : 0 < n -> rnd (n * i) n = i.
Proof.
  intros Hn. unfold rnd. replace (2 * (n * i) + n) with (n + i * (2 * n)) by lia.
  rewrite Z.div_add by lia. rewrite Z.div_small; lia.
Qed.

Section line.
Context {T : Type} {BT : Bitmap T} (b : T) (Hb : bitmap_ok b).

Lemma slope_eq da db ia :
  0 < da -> 0 <= db <= da -> 0 <= ia <= da -> 2 * (db * da) + da < 2 ^ 63 ->
  calc_slope_point da db ia = Ok (Some (rnd (db * ia) da)).
Proof using.
  intros Ha Hdb Hi Hov. unfold calc_slope_point.
  rewrite (proj2 (Z.ltb_ge _ _)) by lia. rewrite (proj2 (Z.eqb_neq _ _)) by lia.
  rewrite !(proj2 (Z.leb_le _ _)) by lia. cbn [andb].
  assert (0 <= db * ia <= db * da) by nia. unfold mul64, add64.
  rewrite (i64_chk_ok msg_mul (2 * db)) by nia. cbn [mbind outcome_bind].
  rewrite (i64_chk_ok msg_mul (2 * db * ia)) by lia. cbn [mbind outcome_bind].
  rewrite (i64_chk_ok msg_add) by lia. cbn [mbind outcome_bind]. do 2 f_equal.
  rewrite !Z.quot_div_nonneg by (try apply Z.quot_pos; lia). unfold rnd.
  rewrite Z.div_div by lia. f_equal; ring.
Qed.

(** A line's loop paints its points, when they are on the bitmap. *)
Lemma line_loop_eq color da db plot g m :
  0 < da -> 0 <= db <= da -> 2 * (db * da) + da < 2 ^ 63 ->
  (forall i, 0 <= i < da -> in_bitmap b (g i) /\ plot i (rnd (db * i) da) = Ok (g i)) ->
  for_each (range 0 da) (line_point b color da db plot) m =
    (Ok tt, paint b color (g <$> range 0 da) m).
Proof using Hb.
  intros Ha Hdb Hov Hg.
  assert (g <$> range 0 da = range 0 da ≫= (fun i => [g i])) as ->
    by by (induction (range 0 da) as [|z l IH]; [|simpl; f_equal]).
  apply for_each_paint. intros i m' Hi%elem_of_range. destruct (Hg i Hi) as [Hin Hplot].
  unfold line_point. rewrite slope_eq by lia. mstep. cbv beta iota. rewrite Hplot. mstep.
  destruct (g i) as [x y]. by rewrite (draw_point_in b Hb).
Qed.

Lemma line_in_bitmap x0 y0 x1 y1 i :
  let n := Z.max (Z.abs (x1 - x0)) (Z.abs (y1 - y0)) in
  in_bitmap b (x0, y0) -> in_bitmap b (x1, y1) -> 0 <= i < n ->
  in_bitmap b (line_at x0 y0 x1 y1 n i).
Proof using.
  intros n [Hx0 Hy0] [Hx1 Hy1] Hi. simpl in *. unfold line_at, in_bitmap. cbn [fst snd].
  pose proof (rnd_bounds (Z.abs (x1 - x0)) n i ltac:(lia) ltac:(lia) ltac:(lia)).
  pose proof (rnd_bounds (Z.abs (y1 - y0)) n i ltac:(lia) ltac:(lia) ltac:(lia)).
  split; [destruct (Z.sgn_spec (x1 - x0)) as [[? ->]|[[? ->]|[? ->]]]|
          destruct (Z.sgn_spec (y1 - y0)) as [[? ->]|[[? ->]|[? ->]]]]; lia.
Qed.

Lemma plot_eq x0 y0 sx sy rx ry x y :
  x = x0 + rx * sx -> y = y0 + ry * sy ->
  - 2 ^ 62 < rx * sx < 2 ^ 62 -> - 2 ^ 62 < ry * sy < 2 ^ 62 ->
  - 2 ^ 62 < x < 2 ^ 62 -> - 2 ^ 62 < y < 2 ^ 62 ->
  (ox ← mul64 rx sx; x ← add64 x0 ox; oy ← mul64 ry sy; y ← add64 y0 oy; Ok (x, y)) = Ok (x, y).
Proof using.
  intros -> -> Hx Hy Hx' Hy'. unfold mul64, add64.
  rewrite (i64_chk_ok msg_mul (rx * sx)) by lia. cbn [mbind outcome_bind].
  rewrite (i64_chk_ok msg_add (x0 + rx * sx)) by lia. cbn [mbind outcome_bind].
  rewrite (i64_chk_ok msg_mul (ry * sy)) by lia. cbn [mbind outcome_bind].
  by rewrite (i64_chk_ok msg_add (y0 + ry * sy)) by lia.
Qed.

Lemma draw_line_eq color x0 y0 x1 y1 m :
  in_bitmap b (x0, y0) -> in_bitmap b (x1, y1) -> width b < 2 ^ 61 -> height b < 2 ^ 61 ->
  draw_line b color x0 y0 x1 y1 m = (Ok tt, paint b color (line_points x0 y0 x1 y1) m).
Proof using Hb.
  intros H0 H1 Hw Hh. pose proof H0 as [Hx0 Hy0]. pose proof H1 as [Hx1 Hy1]. simpl in *.
  unfold draw_line. rewrite !(proj2 (x_range_iff b _)), !(proj2 (y_range_iff b _)) by done.
  cbn [negb orb]. unfold sub64.
  rewrite (i64_chk_ok msg_sub (x1 - x0)) by lia. mstep.
  rewrite (i64_chk_ok msg_sub (y1 - y0)) by lia. mstep.
  rewrite (i64_chk_ok _ (Z.abs (x1 - x0))) by lia. mstep.
  rewrite (i64_chk_ok _ (Z.abs (y1 - y0))) by lia. mstep.
  assert (2 * (Z.abs (x1 - x0) * Z.abs (y1 - y0)) + Z.abs (x1 - x0) + Z.abs (y1 - y0) < 2 ^ 63) as Hov.
  { pose proof Hb as [Hbpp Hppl Hhb Hsz].
    assert (Z.abs (x1 - x0) * Z.abs (y1 - y0) <= (pixel_per_line b - 1) * (height b - 1))
      by (apply Z.mul_le_mono_nonneg; lia).
    assert (height b * pixel_per_line b + pixel_per_line b < 2 ^ 62).
    { eapply Z.le_lt_trans; [|exact Hsz]. rewrite <- (Z.mul_1_r (_ + _)) at 1. apply Z.mul_le_mono_nonneg_l; [|lia].
      apply Z.add_nonneg_nonneg; [by apply Z.mul_nonneg_nonneg|done]. }
    lia. }
  assert (forall i, let n := Z.max (Z.abs (x1 - x0)) (Z.abs (y1 - y0)) in 0 <= i < n ->
    in_bitmap b (line_at x0 y0 x1 y1 n i)) as Hin by (intros i n Hi; by apply line_in_bitmap).
  unfold line_points.
  destruct (Z.leb_spec (Z.abs (y1 - y0)) (Z.abs (x1 - x0))) as [Hle|Hgt].
  - rewrite Z.max_l in * by lia. destruct (Z.eq_dec (Z.abs (x1 - x0)) 0) as [->|Hne]; [done|].
    apply line_loop_eq; [lia|lia|lia|]. intros i Hi. split; [by apply Hin|].
    pose proof (Hin i Hi) as [Hx Hy]. unfold line_at in *. cbn [fst snd] in Hx, Hy.
    rewrite rnd_major in * by lia. apply plot_eq; lia.
  - rewrite Z.max_r in * by lia.
    apply line_loop_eq; [lia|lia|lia|]. intros i Hi. split; [by apply Hin|].
    pose proof (Hin i Hi) as [Hx Hy]. unfold line_at in *. cbn [fst snd] in Hx, Hy.
    rewrite rnd_major in * by lia. apply plot_eq; lia.
Qed.
End line.

(** ** Text *)

Module Text.

(** Characters are code points; a string is a list of them. *)
Abbreviation chars := (list Z).
Definition NEWLINE : Z := 10.
Definition STAR : Z := 42.

(** [[[char; 8]; 16]]. *)
Abbreviation glyph := (list (list Z)).
Definition blank_glyph : glyph := replicate 16 (replicate 8 STAR).

(** [str::split('\n')]: always at least one piece. *)
Fixpoint split_lines (s : chars) : list chars :=
  match s with
  | [] => [[]]
  | c :: s =>
      if c =? NEWLINE then [] :: split_lines s
      else match split_lines s with [] => [[c]] | l :: ls => (c :: l) :: ls end
  end.

(** [strip_prefix("0x")]. *)
Definition strip_0x (line : chars) : option chars :=
  match line with 48 :: 120 :: rest => Some rest | _ => None end.

Definition hex_digit (c : Z) : option Z :=
  if (48 <=? c) && (c <=? 57) then Some (c - 48)
  else if (97 <=? c) && (c <=? 102) then Some (c - 87)
  else if (65 <=? c) && (c <=? 70) then Some (c - 55)
  else None.

(** [u8::from_str_radix(s, 16)]: an optional [+], then at least one digit, no overflow. *)
Fixpoint hex_digits (acc : Z) (s : chars) : option Z :=
  match s with
  | [] => Some acc
  | c :: s => d ← hex_digit c; if acc * 16 + d <? 256 then hex_digits (acc * 16 + d) s else None
  end.
Definition from_str_radix_16 (s : chars) : option Z :=
  match s with
  | [] => None
  | [43] => None
  | [45] => None
  | 43 :: s => hex_digits 0 s
  | _ => hex_digits 0 s
  end.

(** [if let Some(e) = glyph[y].get_mut(x) { *e = c; }] for each character of the line. *)
Definition glyph_row (line : chars) (row : list Z) : list Z :=
  foldl (fun row '(x, c) => <[x := c]> row) row (imap pair line).

Definition read_glyph (ls : list chars) : glyph :=
  foldl (fun g '(y, line) => alter (glyph_row line) y g) blank_glyph (imap pair (take 16 ls)).

(** The loop over the lines of the font file; a glyph's lines are looked at again as
    lines of the file. *)
Fixpoint read_font (fi : list chars) (font : list glyph) : list glyph :=
  match fi with
  | [] => font
  | line :: fi =>
      read_font fi
        match strip_0x line with
        | Some rest =>
            match from_str_radix_16 rest with
            | Some idx => <[Z.to_nat idx := read_glyph fi]> font
            | None => font
            end
        | None => font
        end
  end.

(** [FONT_SOURCE] is the text of [font.txt]. *)
Definition font_cache (FONT_SOURCE : chars) : list glyph :=
  read_font (split_lines FONT_SOURCE) (replicate 256 blank_glyph).

Definition lookup_font (FONT_SOURCE : chars) (c : Z) : option glyph :=
  if c <? 256 then font_cache FONT_SOURCE !! Z.to_nat c else None.

Section draw.
Context {T : Type} {BT : Bitmap T} (FONT_SOURCE : chars).

Definition draw_font_fg (buf : T) (x y color c : Z) : M vram unit :=
  match lookup_font FONT_SOURCE c with
  | None => mret tt
  | Some font =>
      for_each (imap pair font) (fun '(dy, row) =>
        for_each (imap pair row) (fun '(dx, pixel) =>
          if pixel =? STAR then
            px ← lift (add64 x (Z.of_nat dx));
            py ← lift (add64 y (Z.of_nat dy));
            ignore_err (draw_point buf color px py)
          else mret tt))
  end.

Definition draw_str_fg (buf : T) (x y color : Z) (s : chars) : M vram unit :=
  for_each (imap pair s) (fun '(i, c) =>
    w ← lift (mul64 (Z.of_nat i) 8);
    px ← lift (add64 x w);
    draw_font_fg buf px y color c).

(** [draw_test_pattern]. *)
Definition draw_test_pattern (buf : T) : M vram unit :=
  let w := 128 in
  left ← lift (sub64 (width buf) w); left ← lift (sub64 left 1);
  let colors := [0x000000; 0xff0000; 0x00ff00; 0x0000ff] in
  let h := 64 in
  for_each (imap pair colors) (fun '(i, c) =>
    y ← lift (mul64 (Z.of_nat i) h);
    unwrapM (fill_rect buf c left y h h);;
    lh ← lift (add64 left h);
    unwrapM (fill_rect buf (wnot 32 c) lh y h h));;
  let points := [(0, 0); (w, 0); (0, w); (w, w)] in
  for_each points (fun '(x0, y0) =>
    for_each points (fun '(x1, y1) =>
      ax ← lift (add64 left x0); bx ← lift (add64 left x1);
      ignore_err (draw_line buf 0xffffff ax y0 bx y1)));;
  ty ← lift (mul64 h (Z.of_nat (length colors)));
  draw_str_fg buf left ty 0x00ff00 [48; 49; 50; 51; 52; 53; 54; 55; 56; 57];;
  ty ← lift (add64 ty 16);
  draw_str_fg buf left ty 0x00ff00 [65; 66; 67; 68; 69; 70].

(** [BitmapTextWriter]: the video memory and the cursor. *)
Record BitmapTextWriter : Type := { cursor_x : Z; cursor_y : Z; screen : vram }.

Definition BitmapTextWriter_new (m : vram) : BitmapTextWriter :=
  {| cursor_x := 0; cursor_y := 0; screen := m |}.
Definition set_cursor (x y : Z) : M BitmapTextWriter unit :=
  modify (fun w => {| cursor_x := x; cursor_y := y; screen := screen w |}).
Definition on_screen {A} (m : M vram A) : M BitmapTextWriter A :=
  zoom screen (fun v w => {| cursor_x := cursor_x w; cursor_y := cursor_y w; screen := v |}) m.

Definition write_str (buf : T) (s : chars) : M BitmapTextWriter unit :=
  for_each s (fun c =>
    self ← get;
    if c =? NEWLINE then
      y ← lift (add64 (cursor_y self) 16); set_cursor 0 y
    else
      on_screen (draw_font_fg buf (cursor_x self) (cursor_y self) 0xffffff c);;
      x ← lift (add64 (cursor_x self) 8);
      set_cursor x (cursor_y self)).
End draw.
End Text.
Import Text.

(** ** The parsed font *)

Lemma glyph_row_length line row : length (glyph_row line row) = length row.
Proof.
  unfold glyph_row. generalize (imap pair line). intros l. revert row.
  induction l as [|[x c] l IH]; intros row; [done|]. cbn [foldl]. by rewrite IH, length_insert.
Qed.

Lemma glyph_row_lookup line row i :
  glyph_row line row !! i =
    match line !! i with Some c => if decide (i < length row)%nat then Some c else None | None => row !! i end.
Proof.
  induction line as [|c line IH] using rev_ind; [done|].
  unfold glyph_row in *. rewrite imap_app, foldl_app. cbn [foldl imap]. rewrite Nat.add_0_r.
  assert (length (foldl (fun row '(x, c) => <[x:=c]> row) row (imap pair line)) = length row) as Hlen
    by apply glyph_row_length.
  destruct (decide (i = length line)) as [->|Hne].
  - rewrite list_lookup_middle by done. case_decide as Hlt.
    + by rewrite list_lookup_insert_eq by lia.
    + apply lookup_ge_None_2. rewrite length_insert. lia.
  - rewrite list_lookup_insert_ne by done. rewrite IH. destruct (decide (i < length line)%nat).
    + by rewrite lookup_app_l by done.
    + rewrite (lookup_ge_None_2 line i), (lookup_ge_None_2 (line ++ [c]) i); [done| |lia].
      rewrite length_app. simpl. lia.
Qed.

Lemma read_glyph_lookup ls i :
  read_glyph ls !! i = match take 16 ls !! i with
                       | Some line => glyph_row line <$> blank_glyph !! i
                       | None => blank_glyph !! i
                       end.
Proof.
  unfold read_glyph. generalize blank_glyph as g. generalize (take 16 ls) as l. intros l g.
  induction l as [|line l IH] using rev_ind; [done|].
  rewrite imap_app, foldl_app. cbn [foldl imap]. rewrite Nat.add_0_r.
  destruct (decide (i = length l)) as [->|Hne].
  - rewrite list_lookup_middle, list_lookup_alter_eq, IH by done. by rewrite lookup_ge_None_2.
  - rewrite list_lookup_alter_ne by done. rewrite IH. destruct (decide (i < length l)%nat).
    + by rewrite lookup_app_l by done.
    + rewrite (lookup_ge_None_2 l i), (lookup_ge_None_2 (l ++ [line]) i); [done| |lia].
      rewrite length_app. simpl. lia.
Qed.

(** Every glyph is 16 rows of 8 cells, whatever the file says. *)
Definition glyph_shape (g : glyph) : Prop := length g = 16%nat /\ Forall (fun row => length row = 8%nat) g.

Lemma read_glyph_shape ls : glyph_shape (read_glyph ls).
Proof.
  split.
  - unfold read_glyph. generalize (imap pair (take 16 ls)) as l. intros l.
    assert (forall g : glyph, length (foldl (fun g '(y, line) => alter (glyph_row line) y g) g l) = length g) as H.
    { induction l as [|[y line] l IH]; intros g; [done|]. cbn [foldl]. by rewrite IH, length_alter. }
    by rewrite H.
  - apply Forall_lookup. intros i row. rewrite read_glyph_lookup.
    assert (forall r, blank_glyph !! i = Some r -> length r = 8%nat) as Hb
      by (intros r [-> _]%lookup_replicate; apply length_replicate).
    destruct (take 16 ls !! i); [|apply Hb]. intros (r & Hr & ->)%fmap_Some.
    rewrite glyph_row_length. by apply Hb.
Qed.

Lemma read_font_shape fi : forall font, Forall glyph_shape font -> Forall glyph_shape (read_font fi font).
Proof.
  induction fi as [|line fi IH]; intros font Hf; [done|]. cbn [read_font]. apply IH.
  destruct (strip_0x line) as [rest|]; [|done].
  destruct (from_str_radix_16 rest) as [k|]; [|done].
  apply Forall_insert; [done|apply read_glyph_shape].
Qed.

Lemma lookup_font_shape src c g : lookup_font src c = Some g -> glyph_shape g.
Proof.
  unfold lookup_font. destruct (c <? 256); [|done]. intros Hg.
  assert (Forall glyph_shape (font_cache src)) as Hf.
  { apply read_font_shape. apply Forall_replicate. split; [done|]. by apply Forall_replicate. }
  rewrite Forall_lookup in Hf. by eapply Hf.
Qed.

(** *** Printing a font file *)

Definition hex_char (d : Z) : Z := if d <? 10 then 48 + d else 55 + d.
Definition DOT : Z := 46.

Definition print_entry (e : Z * glyph) : list chars :=
  [48; 120; hex_char (e.1 / 16); hex_char (e.1 mod 16)] :: e.2 ++ [[]].
Definition print_font (es : list (Z * glyph)) : chars :=
  (es ≫= print_entry) ≫= fun line => line ++ [NEWLINE].

Definition entry_ok (e : Z * glyph) : Prop :=
  0 <= e.1 < 256 /\ glyph_shape e.2 /\ Forall (Forall (fun c => c = STAR \/ c = DOT)) e.2.

Lemma split_lines_line l s :
  Forall (fun c => c <> NEWLINE) l -> split_lines (l ++ NEWLINE :: s) = l :: split_lines s.
Proof.
  induction 1 as [|c l Hc Hl IH]; [done|]. cbn [app split_lines].
  rewrite (proj2 (Z.eqb_neq _ _)) by done. by rewrite IH.
Qed.

Lemma split_lines_print ls :
  Forall (Forall (fun c => c <> NEWLINE)) ls ->
  split_lines (ls ≫= fun line => line ++ [NEWLINE]) = ls ++ [[]].
Proof.
  induction 1 as [|l ls Hl Hls IH]; [done|]. rewrite bind_cons, <- (assoc_L (++)). cbn [app].
  by rewrite split_lines_line, IH.
Qed.

Lemma hex_digit_char d : 0 <= d < 16 -> hex_digit (hex_char d) = Some d.
Proof.
  intros Hd. unfold hex_char. destruct (Z.ltb_spec d 10); unfold hex_digit.
  - rewrite (proj2 (andb_true_iff _ _)) by lia. f_equal. lia.
  - rewrite (proj2 (andb_false_iff (48 <=? 55 + d) (55 + d <=? 57))) by lia.
    rewrite (proj2 (andb_false_iff (97 <=? 55 + d) (55 + d <=? 102))) by lia.
    rewrite (proj2 (andb_true_iff _ _)) by lia. f_equal. lia.
Qed.

Lemma hex_header k : 0 <= k < 256 ->
  from_str_radix_16 [hex_char (k / 16); hex_char (k mod 16)] = Some k.
Proof.
  intros Hk. assert (0 <= k / 16 < 16) by div_lia. assert (0 <= k mod 16 < 16) by div_lia.
  assert (from_str_radix_16 [hex_char (k / 16); hex_char (k mod 16)] =
          hex_digits 0 [hex_char (k / 16); hex_char (k mod 16)]) as ->.
  { assert (48 <= hex_char (k / 16)) by (unfold hex_char; destruct (_ <? _) eqn:?; lia).
    unfold from_str_radix_16. do 6 (destruct (hex_char (k / 16)) as [|p|p]; try lia; try done;
      repeat (destruct p as [p|p|]; try lia; try done)). }
  cbn [hex_digits]. rewrite !hex_digit_char by done. cbn [mbind option_bind].
  rewrite !(proj2 (Z.ltb_lt _ _)) by lia. f_equal. div_lia.
Qed.

Lemma read_glyph_print g rest : glyph_shape g -> read_glyph (g ++ rest) = g.
Proof.
  intros [Hlen Hrows]. apply list_eq. intros i. rewrite read_glyph_lookup.
  rewrite take_app_length' by done. destruct (g !! i) as [row|] eqn:Hrow.
  - pose proof (lookup_lt_Some _ _ _ Hrow). unfold blank_glyph.
    rewrite lookup_replicate_2 by lia. cbn [fmap option_fmap option_map]. f_equal.
    rewrite Forall_lookup in Hrows. pose proof (Hrows _ _ Hrow) as H8.
    apply list_eq. intros x. rewrite glyph_row_lookup, length_replicate.
    destruct (row !! x) as [c|] eqn:Hc.
    + pose proof (lookup_lt_Some _ _ _ Hc). by rewrite decide_True by lia.
    + apply lookup_ge_None in Hc. apply lookup_ge_None_2. rewrite length_replicate. lia.
  - apply lookup_ge_None in Hrow. apply lookup_ge_None_2. unfold blank_glyph.
    rewrite length_replicate. lia.
Qed.

Lemma read_font_skip rows rest font :
  Forall (fun l => strip_0x l = None) rows -> read_font (rows ++ rest) font = read_font rest font.
Proof.
  induction 1 as [|l rows Hl Hrows IH]; [done|]. cbn [app read_font]. by rewrite Hl.
Qed.

Lemma glyph_rows_skipped (g : glyph) :
  Forall (Forall (fun c => c = STAR \/ c = DOT)) g -> Forall (fun l => strip_0x l = None) g.
Proof.
  intros H. eapply Forall_impl; [exact H|]. intros [|c row] Hrow; [done|].
  apply Forall_cons_1 in Hrow as [[->| ->] _]; done.
Qed.

Lemma read_font_print es : forall rest font,
  Forall entry_ok es ->
  read_font ((es ≫= print_entry) ++ rest) font =
    read_font rest (foldl (fun font e => <[Z.to_nat e.1 := e.2]> font) font es).
Proof.
  induction es as [|[k g] es IH]; intros rest font Hes; [done|].
  apply Forall_cons_1 in Hes as [(Hk & Hshape & Hchars) Hes]. cbn [fst snd] in Hk, Hshape, Hchars.
  rewrite bind_cons. unfold print_entry at 1. cbn [fst snd app read_font strip_0x].
  rewrite hex_header by done. rewrite <- !(assoc_L (++)), read_glyph_print by done.
  rewrite read_font_skip by by apply glyph_rows_skipped.
  cbn [app read_font strip_0x]. by rewrite IH.
Qed.

Lemma print_lines_ok es : Forall entry_ok es -> Forall (Forall (fun c => c <> NEWLINE)) (es ≫= print_entry).
Proof.
  intros Hes. apply Forall_bind. eapply Forall_impl; [exact Hes|].
  intros [k g] (Hk & _ & Hchars). unfold print_entry. cbn [fst snd] in *.
  assert (forall d, 0 <= d -> hex_char d <> NEWLINE) as Hh
    by (intros d Hd; unfold hex_char, NEWLINE; destruct (_ <? _); lia).
  constructor; [|apply Forall_app; split; [|by apply Forall_cons_2; [apply Forall_nil_2|apply Forall_nil_2]]].
  - rewrite !Forall_cons. split_and!; try done; apply Hh; cbn [fst]; div_lia.
  - eapply Forall_impl; [exact Hchars|]. intros row Hrow. eapply Forall_impl; [exact Hrow|].
    by intros c [->| ->].
Qed.

Lemma glyph_foldl_lookup (es : list (Z * glyph)) : forall font i, length font = 256%nat ->
  Forall (fun e => 0 <= e.1 < 256) es -> (i < 256)%nat ->
  foldl (fun font e => <[Z.to_nat e.1 := e.2]> font) font es !! i =
    match List.find (fun e => e.1 =? Z.of_nat i) (rev es) with
    | Some e => Some e.2 | None => font !! i end.
Proof.
  induction es as [|e es IH] using rev_ind; intros font i Hlen Hes Hi; [done|].
  apply Forall_app in Hes as [Hes [He _]%Forall_cons_1].
  rewrite foldl_app, rev_app_distr. cbn [foldl rev app List.find].
  assert (length (foldl (fun font e => <[Z.to_nat e.1:=e.2]> font) font es) = 256%nat) as Hl.
  { rewrite <- Hlen. clear. revert font. induction es as [|e es IH]; intros font; [done|].
    cbn [foldl]. by rewrite IH, length_insert. }
  destruct (Z.eqb_spec e.1 (Z.of_nat i)) as [Heq|Hne].
  - rewrite Heq, Nat2Z.id. by rewrite list_lookup_insert_eq by lia.
  - rewrite list_lookup_insert_ne by lia. by apply IH.
Qed.

(** ** Properties *)

(** C35. [fill_rect] paints exactly the rectangle: when both corners are on the bitmap it
    succeeds and a pixel of the bitmap has the colour if and only if it is in the rectangle
    (others are as before, and no other memory is written); when a corner is off the bitmap
    it reports an error and writes nothing; and no arithmetic overflows. *)
Theorem fill_rect_correct {T} {BT : Bitmap T} (b : T) (color px py w h : Z) (m : vram)
  (Hb : bitmap_ok b) (Hw : - 2 ^ 62 < w < 2 ^ 62) (Hh : - 2 ^ 62 < h < 2 ^ 62)
  (Hbw : width b < 2 ^ 62) (Hbh : height b < 2 ^ 62) :
  (in_bitmap b (px, py) /\ in_bitmap b (px + w - 1, py + h - 1) ->
   exists m', fill_rect b color px py w h m = (Ok tt, m') /\
     (forall p, in_bitmap b p -> m' !! pixel_addr b p =
        if decide (in_rect px py w h p) then Some color else m !! pixel_addr b p) /\
     (forall a, (forall p, in_bitmap b p -> pixel_addr b p <> a) -> m' !! a = m !! a)) /\
  (~ (in_bitmap b (px, py) /\ in_bitmap b (px + w - 1, py + h - 1)) ->
   fill_rect b color px py w h m = (Err "out of range", m)).
Proof.
  split.
  - intros [H0 H1]. rewrite fill_rect_eq by done. eexists. split; [done|].
    assert (forall q, q ∈ rect_points px py w h -> in_bitmap b q) as Hin.
    { intros q Hq%elem_of_rect_points. by apply (rect_in_bitmap b px py w h). }
    split.
    + intros p Hp. rewrite paint_pixel by done.
      apply decide_ext, elem_of_rect_points.
    + intros a Ha. apply paint_other. intros p Hp. by apply Ha, Hin.
  - intros Hout. unfold fill_rect.
    destruct (is_in_x_range b px) eqn:E1; [|done]. destruct (is_in_y_range b py) eqn:E2; [|done].
    apply x_range_iff in E1. apply y_range_iff in E2. cbn [negb orb]. unfold add64, sub64.
    rewrite (i64_chk_ok msg_add (px + w)) by lia. mstep.
    rewrite (i64_chk_ok msg_sub (px + w - 1)) by lia. mstep.
    destruct (is_in_x_range b (px + w - 1)) eqn:E3; [|done]. apply x_range_iff in E3. cbn [negb].
    rewrite (i64_chk_ok msg_add (py + h)) by lia. mstep.
    rewrite (i64_chk_ok msg_sub (py + h - 1)) by lia. mstep.
    destruct (is_in_y_range b (py + h - 1)) eqn:E4; [|done]. apply y_range_iff in E4.
    exfalso. apply Hout. done.
Qed.

Definition example_vram : VramBufferInfo :=
  {| v_buf := 0x80000000; v_width := 1024; v_height := 768; v_pixels_per_line := 1024 |}.

Lemma example_vram_ok : bitmap_ok example_vram.
Proof. constructor; simpl; lia. Qed.

Lemma fill_rect_correct_witness :
  (exists m', fill_rect example_vram 0xff 10 20 2 3 ∅ = (Ok tt, m') /\
    m' !! pixel_addr example_vram (11, 22) = Some 0xff /\
    m' !! pixel_addr example_vram (12, 22) = None) /\
  fill_rect example_vram 0xff 1023 20 2 3 ∅ = (Err "out of range", ∅).
Proof.
  split.
  - destruct (proj1 (fill_rect_correct example_vram 0xff 10 20 2 3 ∅ example_vram_ok
      ltac:(lia) ltac:(lia) ltac:(simpl; lia) ltac:(simpl; lia))) as (m' & Hrun & Hpix & _).
    { unfold in_bitmap; simpl; lia. }
    exists m'. split; [exact Hrun|]. split.
    + rewrite Hpix by (unfold in_bitmap; simpl; lia). by rewrite decide_True by (unfold in_rect; simpl; lia).
    + rewrite Hpix by (unfold in_bitmap; simpl; lia). by rewrite decide_False by (unfold in_rect; simpl; lia).
  - apply (fill_rect_correct example_vram 0xff 1023 20 2 3 ∅ example_vram_ok); try (simpl; lia).
    unfold in_bitmap; simpl; lia.
Defined.

(** C36. [draw_line] paints exactly the points of the line, each rounded to the nearest pixel
    in both coordinates, all on the bitmap, without overflow; the start point is painted
    (when it is not the end point) and the end point never is.  An end point off the bitmap
    is an error that writes nothing. *)
Theorem draw_line_correct {T} {BT : Bitmap T} (b : T) (color x0 y0 x1 y1 : Z) (m : vram)
  (Hb : bitmap_ok b) (Hbw : width b < 2 ^ 61) (Hbh : height b < 2 ^ 61) :
  (in_bitmap b (x0, y0) /\ in_bitmap b (x1, y1) ->
   exists m', draw_line b color x0 y0 x1 y1 m = (Ok tt, m') /\
     (forall p, in_bitmap b p -> m' !! pixel_addr b p =
        if decide (p ∈ line_points x0 y0 x1 y1) then Some color else m !! pixel_addr b p) /\
     ((x0, y0) <> (x1, y1) -> (x0, y0) ∈ line_points x0 y0 x1 y1) /\
     (x1, y1) ∉ line_points x0 y0 x1 y1) /\
  (~ (in_bitmap b (x0, y0) /\ in_bitmap b (x1, y1)) ->
   draw_line b color x0 y0 x1 y1 m = (Err "out of range", m)).
Proof.
  split.
  - intros [H0 H1]. rewrite draw_line_eq by done. eexists. split; [done|]. split; [|split].
    + intros p Hp. apply paint_pixel; [done| |done]. intros q (i & -> & Hi)%list_elem_of_fmap.
      apply elem_of_range in Hi. by apply line_in_bitmap.
    + intros Hne. apply list_elem_of_fmap. exists 0. split; [|].
      * unfold line_at. rewrite !Z.mul_0_r. unfold rnd.
        assert (x0 <> x1 \/ y0 <> y1) by (destruct (Z.eq_dec x0 x1); [right|left]; congruence).
        rewrite !(Z.div_small (2 * 0 + _)) by lia. f_equal; lia.
      * apply elem_of_range. assert (x0 <> x1 \/ y0 <> y1) by (destruct (Z.eq_dec x0 x1); [right|left]; congruence). lia.
    + intros (i & Heq & Hi%elem_of_range)%list_elem_of_fmap. unfold line_at in Heq. simplify_eq.
      destruct (Z.le_ge_cases (Z.abs (y1 - y0)) (Z.abs (x1 - x0))) as [Hle|Hle].
      * rewrite Z.max_l, rnd_major in * by lia. nia.
      * rewrite Z.max_r, rnd_major in * by lia. nia.
  - intros Hout. unfold draw_line.
    destruct (is_in_x_range b x0) eqn:E1; [|done]. destruct (is_in_x_range b x1) eqn:E2; [|done].
    destruct (is_in_y_range b y0) eqn:E3; [|done]. destruct (is_in_y_range b y1) eqn:E4; [|done].
    apply x_range_iff in E1, E2. apply y_range_iff in E3, E4. exfalso. by apply Hout.
Qed.

Lemma draw_line_correct_witness :
  exists m', draw_line example_vram 0xff 10 10 13 12 ∅ = (Ok tt, m') /\
    m' !! pixel_addr example_vram (11, 11) = Some 0xff /\
    m' !! pixel_addr example_vram (13, 12) = None.
Proof.
  destruct (proj1 (draw_line_correct example_vram 0xff 10 10 13 12 ∅ example_vram_ok
    ltac:(simpl; lia) ltac:(simpl; lia))) as (m' & Hrun & Hpix & _ & Hend).
  { unfold in_bitmap; simpl; lia. }
  exists m'. split; [exact Hrun|]. split.
  - rewrite Hpix by (unfold in_bitmap; simpl; lia). by rewrite decide_True by (vm_compute; repeat constructor).
  - rewrite Hpix by (unfold in_bitmap; simpl; lia). by rewrite decide_False by done.
Defined.

(** The cells of a glyph that are drawn. *)
Definition glyph_points (g : glyph) (x y : Z) : list (Z * Z) :=
  imap pair g ≫= fun '(dy, row) => imap pair row ≫= fun '(dx, pixel) =>
    if pixel =? STAR then [(x + Z.of_nat dx, y + Z.of_nat dy)] else [].

Lemma elem_of_imap_pair {A} (l : list A) i x : (i, x) ∈ imap pair l <-> l !! i = Some x.
Proof.
  rewrite list_elem_of_lookup. setoid_rewrite list_lookup_imap. split.
  - intros (j & Hj). destruct (l !! j) as [y|] eqn:E; [|done]. simpl in Hj. by simplify_eq.
  - intros H. exists i. by rewrite H.
Qed.

Lemma elem_of_glyph_points g x y p :
  p ∈ glyph_points g x y <->
  exists dx dy row, g !! dy = Some row /\ row !! dx = Some STAR /\
    p = (x + Z.of_nat dx, y + Z.of_nat dy).
Proof.
  unfold glyph_points. rewrite list_elem_of_bind. split.
  - intros ([dy row] & Hp & Hrow%elem_of_imap_pair). apply list_elem_of_bind in Hp as ([dx c] & Hp & Hc%elem_of_imap_pair).
    destruct (Z.eqb_spec c STAR) as [Hs|]; [rewrite Hs in Hc|by apply elem_of_nil in Hp].
    apply elem_of_cons in Hp as [Hp|Hp]; [|by apply elem_of_nil in Hp]. by exists dx, dy, row.
  - intros (dx & dy & row & Hrow & Hc & ->). exists (dy, row). split; [|by apply elem_of_imap_pair].
    apply list_elem_of_bind. exists (dx, STAR). split; [by left|by apply elem_of_imap_pair].
Qed.

Lemma in_bitmap_dec {T} {BT : Bitmap T} (b : T) p : Decision (in_bitmap b p).
Proof. unfold in_bitmap. apply _. Defined.
#[export] Existing Instance in_bitmap_dec.

Lemma draw_font_eq {T} {BT : Bitmap T} (b : T) src x y color c g m :
  bitmap_ok b -> - 2 ^ 62 < x < 2 ^ 62 -> - 2 ^ 62 < y < 2 ^ 62 -> lookup_font src c = Some g ->
  draw_font_fg src b x y color c m = (Ok tt, paint b color (filter (in_bitmap b) (glyph_points g x y)) m).
Proof.
  intros Hb Hx Hy Hg. destruct (lookup_font_shape _ _ _ Hg) as [H16 H8]. rewrite Forall_lookup in H8.
  unfold draw_font_fg. rewrite Hg.
  assert (forall {B} (f : B -> list (Z * Z)) l,
    filter (in_bitmap b) (l ≫= f) = l ≫= fun z => filter (in_bitmap b) (f z)) as Hfb.
  { intros B f l. induction l as [|z l IH]; [done|]. by rewrite !bind_cons, filter_app, IH. }
  unfold glyph_points. rewrite Hfb. apply for_each_paint.
  intros [dy row] m' Hrow%elem_of_imap_pair. rewrite Hfb. apply for_each_paint.
  intros [dx pixel] m'' Hpix%elem_of_imap_pair.
  pose proof (lookup_lt_Some _ _ _ Hrow). pose proof (H8 _ _ Hrow) as Hl8.
  pose proof (lookup_lt_Some _ _ _ Hpix).
  destruct (pixel =? STAR); [|done]. unfold add64.
  rewrite (i64_chk_ok msg_add (x + Z.of_nat dx)) by lia. mstep.
  rewrite (i64_chk_ok msg_add (y + Z.of_nat dy)) by lia. mstep.
  unfold ignore_err. destruct (decide (in_bitmap b (x + Z.of_nat dx, y + Z.of_nat dy))) as [Hin|Hout].
  - rewrite draw_point_in by done. by rewrite filter_cons_True.
  - rewrite draw_point_out by done. by rewrite filter_cons_False.
Qed.

(** Drawing a character paints exactly the starred cells of its glyph that fall on the
    bitmap: it never fails or overflows, clips silently at the edges, and leaves every other
    pixel and all other memory as it was. *)
Theorem draw_font_correct {T} {BT : Bitmap T} (b : T) (src : chars) (x y color c : Z) (g : glyph) (m : vram)
  (Hb : bitmap_ok b) (Hx : - 2 ^ 62 < x < 2 ^ 62) (Hy : - 2 ^ 62 < y < 2 ^ 62)
  (Hg : lookup_font src c = Some g) :
  exists m', draw_font_fg src b x y color c m = (Ok tt, m') /\
    (forall p, in_bitmap b p -> m' !! pixel_addr b p =
       if decide (p ∈ glyph_points g x y) then Some color else m !! pixel_addr b p) /\
    (forall a, (forall p, in_bitmap b p -> pixel_addr b p <> a) -> m' !! a = m !! a) /\
    (forall p, p ∈ glyph_points g x y <->
       exists dx dy row, g !! dy = Some row /\ row !! dx = Some STAR /\
         p = (x + Z.of_nat dx, y + Z.of_nat dy)).
Proof.
  rewrite (draw_font_eq b src x y color c g) by done. eexists. split; [done|]. split_and!.
  - intros p Hp. rewrite paint_pixel; [|done|by intros q [? _]%list_elem_of_filter|done].
    apply decide_ext. rewrite list_elem_of_filter. naive_solver.
  - intros a Ha. apply paint_other. intros p [Hp _]%list_elem_of_filter. by apply Ha.
  - intros p. apply elem_of_glyph_points.
Qed.

(** A font file with one glyph: a star in its top left corner. *)
Definition example_glyph : glyph :=
  (STAR :: replicate 7 DOT) :: replicate 15 (replicate 8 DOT).
Definition example_font : chars := print_font [(65, example_glyph)].

Lemma draw_font_correct_witness :
  exists m', draw_font_fg example_font example_vram 1023 767 0xff 65 ∅ = (Ok tt, m') /\
    m' !! pixel_addr example_vram (1023, 767) = Some 0xff /\
    m' !! pixel_addr example_vram (1022, 767) = None.
Proof.
  destruct (draw_font_correct example_vram example_font 1023 767 0xff 65 example_glyph ∅ example_vram_ok
    ltac:(lia) ltac:(lia) ltac:(vm_compute; reflexivity)) as (m' & Hrun & Hpix & _ & _).
  exists m'. split; [exact Hrun|]. split.
  - rewrite Hpix by (unfold in_bitmap; simpl; lia). vm_compute. reflexivity.
  - rewrite Hpix by (unfold in_bitmap; simpl; lia). vm_compute. reflexivity.
Defined.

(** The font parser inverts the font file's format: for a file of glyph blocks (a line
    [0xHH], then 16 lines of 8 cells, then a blank line) in any order, [lookup_font] gives
    every character the last glyph listed for its code, and the all-star glyph when there is
    none; a character above 255 has no glyph. *)
Theorem lookup_font_roundtrip (es : list (Z * glyph)) (c : Z) (Hes : Forall entry_ok es) (Hc : 0 <= c) :
  lookup_font (print_font es) c =
    if c <? 256 then
      match List.find (fun e => e.1 =? c) (rev es) with
      | Some e => Some e.2
      | None => Some blank_glyph
      end
    else None.
Proof.
  unfold lookup_font, font_cache, print_font. destruct (Z.ltb_spec c 256); [|done].
  rewrite split_lines_print by by apply print_lines_ok. rewrite read_font_print by done.
  cbn [read_font strip_0x]. rewrite glyph_foldl_lookup.
  - rewrite Z2Nat.id by done. destruct (List.find _ _); [done|]. by rewrite lookup_replicate_2 by lia.
  - apply length_replicate.
  - eapply Forall_impl; [exact Hes|]. by intros e [? _].
  - lia.
Qed.

Lemma example_entry_ok : entry_ok (65, example_glyph).
Proof.
  split; [simpl; lia|]. split; [split; [done|repeat constructor]|].
  repeat (constructor; [repeat (constructor; [first [by left|by right]|]); constructor|]). constructor.
Qed.

Lemma lookup_font_roundtrip_witness :
  lookup_font example_font 65 = Some example_glyph /\ lookup_font example_font 66 = Some blank_glyph.
Proof.
  unfold example_font.
  split; rewrite lookup_font_roundtrip; [reflexivity| |lia|reflexivity| |lia];
    (apply Forall_cons_2; [exact example_entry_ok|apply Forall_nil_2]).
Defined.
