(* ===== verification/Display.v ===== *)
(** The display at start-up: [init_display] of [init.rs] on the drawing functions of
    [Graphics].  Drawing that succeeds within some pixels, and drawing that panics, compose. *)
From S2P Require Import Prelude Graphics.
Import Graphics.Graphics Graphics.Text.

(** ** [init_display] *)

Definition init_display {T} {BT : Bitmap T} (FONT_SOURCE : chars) (buf : T) : M vram unit :=
  unwrapM (fill_rect buf 0x000000 0 0 (width buf) (height buf));;
  draw_test_pattern FONT_SOURCE buf.

(** Drawing confined to the pixels [R] of a bitmap: it succeeds, gives every pixel that has a
    colour some colour, and changes no other pixel and no other memory. *)
Section confined.
Context {T : Type} {BT : Bitmap T} (b : T) (R : Z * Z -> Prop).

Record confined (m m' : vram) : Prop := {
  cf_pixel p : in_bitmap b p -> ~ R p -> m' !! pixel_addr b p = m !! pixel_addr b p;
  cf_other a : (forall p, in_bitmap b p -> pixel_addr b p <> a) -> m' !! a = m !! a;
  cf_some a : is_Some (m !! a) -> is_Some (m' !! a) }.
Definition draws (f : M vram unit) : Prop := forall m, exists m', f m = (Ok tt, m') /\ confined m m'.

#[export] Instance confined_preorder : PreOrder confined.
Proof using.
  split; [by split|]. intros m1 m2 m3 [P1 O1 S1] [P2 O2 S2]. split.
  - intros p Hp Hr. by rewrite P2, P1.
  - intros a Ha. by rewrite O2, O1.
  - auto.
Qed.

Lemma draws_ret : draws (mret tt).
Proof using. intros m. by exists m. Qed.

Lemma draws_bind f g : draws f -> draws g -> draws (f;; g).
Proof using.
  intros Hf Hg m. destruct (Hf m) as (m1 & Hm1 & C1), (Hg m1) as (m2 & Hm2 & C2).
  exists m2. split; [by rewrite (bind_ok _ _ _ _ _ Hm1)|by etrans].
Qed.

Lemma draws_lift {A} (r : outcome A) a k : r = Ok a -> draws (k a) -> draws (lift r ≫= k).
Proof using. intros -> Hk m. apply Hk. Qed.

Lemma draws_for_each {A} (l : list A) f : (forall x, x ∈ l -> draws (f x)) -> draws (for_each l f).
Proof using.
  induction l as [|x l IH]; intros Hf; [apply draws_ret|]. cbn [for_each].
  apply draws_bind; [apply Hf; by left|apply IH; intros; apply Hf; by right].
Qed.

Lemma draws_paint color ps f : bitmap_ok b -> (forall p, p ∈ ps -> in_bitmap b p /\ R p) ->
  (forall m, f m = (Ok tt, paint b color ps m)) -> draws f.
Proof using.
  intros Hb Hps Hf m. exists (paint b color ps m). split; [by apply Hf|]. split.
  - intros p Hp Hr. rewrite paint_pixel; [|done|intros q Hq; by apply Hps|done].
    rewrite decide_False; [done|]. intros Hin. by apply Hr, Hps.
  - intros a Ha. apply paint_other. intros p Hp. by apply Ha, Hps.
  - intros a Ha. clear Hf Hps. revert m Ha. unfold paint. induction ps as [|p ps IH]; intros m Ha; [done|].
    cbn [foldl]. apply IH. rewrite lookup_insert_is_Some'. by right.
Qed.

Lemma draws_unwrap f : draws f -> draws (unwrapM f).
Proof using. intros Hf m. destruct (Hf m) as (m' & H & C). exists m'. unfold unwrapM. by rewrite H. Qed.
Lemma draws_ignore f : draws f -> draws (ignore_err f).
Proof using. intros Hf m. destruct (Hf m) as (m' & H & C). exists m'. unfold ignore_err. by rewrite H. Qed.
End confined.

(** A rectangle that does not fit is refused. *)
Lemma fill_rect_out {T} {BT : Bitmap T} (b : T) color px py w h m :
  ~ (in_bitmap b (px, py) /\ in_bitmap b (px + w - 1, py + h - 1)) ->
  - 2 ^ 62 < px < 2 ^ 62 -> - 2 ^ 62 < py < 2 ^ 62 -> - 2 ^ 62 < w < 2 ^ 62 -> - 2 ^ 62 < h < 2 ^ 62 ->
  fill_rect b color px py w h m = (Err "out of range", m).
Proof.
  intros Hout Hx Hy Hw Hh. unfold fill_rect, in_bitmap in *. cbn [fst snd] in Hout.
  destruct (is_in_x_range b px) eqn:E1, (is_in_y_range b py) eqn:E2; cbn [negb orb]; try reflexivity.
  unfold add64, sub64. rewrite (i64_chk_ok msg_add (px + w)) by lia. mstep.
  rewrite (i64_chk_ok msg_sub (px + w - 1)) by lia. mstep.
  destruct (is_in_x_range b (px + w - 1)) eqn:E3; cbn [negb]; [|reflexivity].
  rewrite (i64_chk_ok msg_add (py + h)) by lia. mstep.
  rewrite (i64_chk_ok msg_sub (py + h - 1)) by lia. mstep.
  destruct (is_in_y_range b (py + h - 1)) eqn:E4; cbn [negb]; [|reflexivity].
  apply x_range_iff in E1, E3. apply y_range_iff in E2, E4. exfalso. apply Hout. lia.
Qed.

Section display.
Context {T : Type} {BT : Bitmap T} (FONT_SOURCE : chars) (b : T).
Context (Hb : bitmap_ok b) (Hw : width b < 2 ^ 61) (Hh : height b < 2 ^ 61).

(** The columns the test pattern may touch. *)
Definition panel (p : Z * Z) : Prop := width b - 129 <= p.1.

Lemma draws_rect color px py w h :
  in_bitmap b (px, py) -> in_bitmap b (px + w - 1, py + h - 1) -> width b - 129 <= px ->
  - 2 ^ 62 < w < 2 ^ 62 -> - 2 ^ 62 < h < 2 ^ 62 -> draws b panel (fill_rect b color px py w h).
Proof using Hb Hw Hh.
  intros H0 H1 Hp Hbw Hbh. eapply draws_paint; [done| |intros m; apply fill_rect_eq; [done|done|done|lia..]].
  intros p Hin%elem_of_rect_points. split; [by eapply (rect_in_bitmap b px py w h)|].
  unfold panel. destruct Hin. lia.
Qed.

Lemma draws_line color x0 y0 x1 y1 :
  in_bitmap b (x0, y0) -> in_bitmap b (x1, y1) -> width b - 129 <= x0 -> width b - 129 <= x1 ->
  draws b panel (draw_line b color x0 y0 x1 y1).
Proof using Hb Hw Hh.
  intros H0 H1 Hp0 Hp1. eapply draws_paint; [done| |intros m; by apply draw_line_eq].
  intros p Hin. unfold line_points in Hin. apply list_elem_of_fmap in Hin as (i & -> & Hi%elem_of_range).
  split; [by apply line_in_bitmap|]. unfold panel, line_at. cbn [fst].
  pose proof (rnd_bounds (Z.abs (x1 - x0)) (Z.max (Z.abs (x1 - x0)) (Z.abs (y1 - y0))) i
    ltac:(lia) ltac:(lia) ltac:(lia)).
  destruct (Z.sgn_spec (x1 - x0)) as [[? ->]|[[? ->]|[? ->]]]; lia.
Qed.

Lemma draws_char x y color c :
  width b - 129 <= x < 2 ^ 62 -> - 2 ^ 62 < x -> - 2 ^ 62 < y < 2 ^ 62 ->
  draws b panel (draw_font_fg FONT_SOURCE b x y color c).
Proof using Hb Hw Hh.
  intros Hx Hx' Hy. destruct (lookup_font FONT_SOURCE c) as [g|] eqn:Hg.
  - eapply draws_paint; [done| |intros m; apply draw_font_eq; [done|lia|lia|done]].
    intros p [Hin Hp]%list_elem_of_filter. split; [done|].
    apply elem_of_glyph_points in Hp as (dx & dy & row & _ & _ & ->). unfold panel. cbn [fst]. lia.
  - unfold draw_font_fg. rewrite Hg. apply draws_ret.
Qed.

Lemma draws_str x y color s :
  width b - 129 <= x -> - 2 ^ 61 < x < 2 ^ 61 -> - 2 ^ 62 < y < 2 ^ 62 -> 8 * Z.of_nat (length s) < 2 ^ 61 ->
  draws b panel (draw_str_fg FONT_SOURCE b x y color s).
Proof using Hb Hw Hh.
  intros Hx Hx' Hy Hl. unfold draw_str_fg. apply draws_for_each.
  intros [i c] Hin%elem_of_imap_pair. pose proof (lookup_lt_Some _ _ _ Hin).
  unfold mul64, add64. eapply draws_lift; [apply i64_chk_ok; lia|].
  eapply draws_lift; [apply i64_chk_ok; lia|]. apply draws_char; lia.
Qed.

(** The test pattern fits a bitmap of at least 129 by 256 pixels. *)
Lemma draws_test_pattern :
  129 <= width b <= pixel_per_line b -> 256 <= height b -> draws b panel (draw_test_pattern FONT_SOURCE b).
Proof using Hb Hw Hh.
  intros Hbw Hbh. unfold draw_test_pattern, sub64, mul64, add64.
  eapply draws_lift; [apply i64_chk_ok; lia|]. eapply draws_lift; [apply i64_chk_ok; lia|].
  assert (forall x y, width b - 129 <= x < width b -> 0 <= y < height b -> in_bitmap b (x, y)) as Hin
    by (intros x y ? ?; unfold in_bitmap; cbn [fst snd]; lia).
  apply draws_bind; [|apply draws_bind; [|]].
  - apply draws_for_each. intros [i c] Hi%elem_of_imap_pair.
    apply lookup_lt_Some in Hi. cbn [length] in Hi.
    eapply draws_lift; [apply i64_chk_ok; lia|].
    apply draws_bind; [apply draws_unwrap, draws_rect; try apply Hin; lia|].
    eapply draws_lift; [apply i64_chk_ok; lia|].
    apply draws_unwrap, draws_rect; try apply Hin; lia.
  - assert (forall p, p ∈ [(0, 0); (128, 0); (0, 128); (128, 128)] -> 0 <= p.1 <= 128 /\ 0 <= p.2 <= 128) as Hpts.
    { intros p Hp. repeat (apply elem_of_cons in Hp as [->|Hp]; [cbn; lia|]). by apply elem_of_nil in Hp. }
    apply draws_for_each. intros [x0 y0] H0%Hpts. apply draws_for_each. intros [x1 y1] H1%Hpts.
    cbn [fst snd] in H0, H1.
    eapply draws_lift; [apply i64_chk_ok; lia|]. eapply draws_lift; [apply i64_chk_ok; lia|].
    apply draws_ignore, draws_line; try apply Hin; lia.
  - eapply draws_lift; [apply i64_chk_ok; cbn [length]; lia|].
    apply draws_bind; [apply draws_str; cbn [length]; lia|].
    eapply draws_lift; [apply i64_chk_ok; cbn [length]; lia|]. apply draws_str; cbn [length]; lia.
Qed.
End display.

(** Screens on which start-up can draw. *)
Definition screen_fits {T} {BT : Bitmap T} (b : T) : Prop :=
  129 <= width b <= pixel_per_line b /\ 256 <= height b.

(** Drawing that panics. *)
Definition refuses (f : M vram unit) : Prop := forall m, exists m', f m = (Panic "out of range", m').

Lemma refuses_l f (g : unit -> M vram unit) : refuses f -> refuses (f ≫= g).
Proof. intros Hf m. destruct (Hf m) as (m' & H). exists m'. by apply bind_panic. Qed.
Lemma refuses_lift {A} (r : outcome A) a k : r = Ok a -> refuses (k a) -> refuses (lift r ≫= k).
Proof. intros -> Hk m. apply Hk. Qed.
Lemma refuses_r {T} {BT : Bitmap T} (b : T) R f g : draws b R f -> refuses g -> refuses (f;; g).
Proof.
  intros Hf Hg m. destruct (Hf m) as (m1 & H1 & _), (Hg m1) as (m2 & H2). exists m2.
  by rewrite (bind_ok _ _ _ _ _ H1).
Qed.
Lemma refuses_for_each {T} {BT : Bitmap T} (b : T) R {A} (l : list A) f :
  (forall x, x ∈ l -> draws b R (f x) \/ refuses (f x)) -> (exists x, x ∈ l /\ refuses (f x)) ->
  refuses (for_each l f).
Proof.
  induction l as [|x l IH]; intros Hf (y & Hy & Hr); [by apply elem_of_nil in Hy|]. cbn [for_each].
  destruct (Hf x (list_elem_of_here x l)) as [Hd|Hx]; [|by apply refuses_l].
  apply elem_of_cons in Hy as [->|Hy]; [by apply refuses_l|].
  eapply refuses_r; [exact Hd|]. apply IH; [intros z Hz; apply Hf; by right|by exists y].
Qed.

Section too_small.
Context {T : Type} {BT : Bitmap T} (FONT_SOURCE : chars) (b : T).
Context (Hb : bitmap_ok b) (Hw : - 2 ^ 61 < width b < 2 ^ 61) (Hh : height b < 2 ^ 61).

Lemma refuses_rect color px py w h :
  ~ (in_bitmap b (px, py) /\ in_bitmap b (px + w - 1, py + h - 1)) ->
  - 2 ^ 62 < px < 2 ^ 62 -> - 2 ^ 62 < py < 2 ^ 62 -> - 2 ^ 62 < w < 2 ^ 62 -> - 2 ^ 62 < h < 2 ^ 62 ->
  refuses (unwrapM (fill_rect b color px py w h)).
Proof using. intros H Hx Hy Hbw Hbh m. exists m. unfold unwrapM. by rewrite fill_rect_out. Qed.

Lemma test_pattern_refused :
  width b <= pixel_per_line b -> ~ screen_fits b -> refuses (draw_test_pattern FONT_SOURCE b).
Proof using Hb Hw Hh.
  intros Hppl Hfit. unfold screen_fits in Hfit. unfold draw_test_pattern, sub64, mul64, add64.
  eapply refuses_lift; [apply i64_chk_ok; lia|]. eapply refuses_lift; [apply i64_chk_ok; lia|].
  apply refuses_l, (refuses_for_each b (panel b)).
  - intros [i c] Hi%elem_of_imap_pair. apply lookup_lt_Some in Hi. cbn [length] in Hi.
    destruct (decide (129 <= width b /\ 64 * Z.of_nat i + 64 <= height b)) as [Hin|Hout].
    + left. assert (forall x y, width b - 129 <= x < width b -> 0 <= y < 64 * Z.of_nat i + 64 -> in_bitmap b (x, y)) as Hpt
        by (intros x y ? ?; unfold in_bitmap; cbn [fst snd]; lia).
      eapply draws_lift; [apply i64_chk_ok; lia|].
      apply draws_bind; [apply draws_unwrap, draws_rect; try apply Hpt; done || lia|].
      eapply draws_lift; [apply i64_chk_ok; lia|].
      apply draws_unwrap, draws_rect; try apply Hpt; done || lia.
    + right. eapply refuses_lift; [apply i64_chk_ok; lia|].
      apply refuses_l, refuses_rect; [|lia..]. unfold in_bitmap. cbn [fst snd]. lia.
  - exists (3%nat, 0x0000ff). split; [by apply elem_of_imap_pair|].
    eapply refuses_lift; [apply i64_chk_ok; lia|].
    apply refuses_l, refuses_rect; [|lia..]. unfold in_bitmap. cbn [fst snd]. lia.
Qed.
End too_small.

(** On a screen that is large enough: black, then the test pattern. *)
Lemma init_display_draws {T} {BT : Bitmap T} (font : chars) (b : T) (m : vram) :
  bitmap_ok b -> width b < 2 ^ 61 -> height b < 2 ^ 61 -> screen_fits b -> exists m',
  init_display font b m = (Ok tt, m') /\
  confined b (panel b) (paint b 0 (rect_points 0 0 (width b) (height b)) m) m'.
Proof.
  intros Hb Hw Hh [Hbw Hbh]. unfold init_display.
  destruct (draws_test_pattern font b Hb Hw Hh Hbw Hbh (paint b 0 (rect_points 0 0 (width b) (height b)) m))
    as (m2 & Hrun & C). exists m2. split; [|done].
  rewrite (bind_ok _ _ _ tt (paint b 0 (rect_points 0 0 (width b) (height b)) m)); [exact Hrun|].
  unfold unwrapM. rewrite fill_rect_eq; [done|done| | |lia..]; unfold in_bitmap; cbn [fst snd]; lia.
Qed.

(** C34. Start-up's picture.  On a screen of at least 129 by 256 pixels [init_display] succeeds:
    afterwards every pixel of the frame buffer has been written, those left of the test
    pattern's 129 columns are black, and no memory outside the frame buffer has changed.
    On any smaller screen, or one with shorter lines than its width, it panics. *)
Theorem init_display_picture {T} {BT : Bitmap T} (font : chars) (b : T) (m : vram)
  (Hb : bitmap_ok b) (Hw : 0 <= width b < 2 ^ 61) (Hh : height b < 2 ^ 61) :
  (screen_fits b -> exists m', init_display font b m = (Ok tt, m') /\
    (forall p, in_bitmap b p -> is_Some (m' !! pixel_addr b p)) /\
    (forall p, in_bitmap b p -> p.1 < width b - 129 -> m' !! pixel_addr b p = Some 0) /\
    (forall a, (forall p, in_bitmap b p -> pixel_addr b p <> a) -> m' !! a = m !! a)) /\
  (~ screen_fits b -> exists m', init_display font b m = (Panic "out of range", m')).
Proof.
  pose proof (bo_height _ Hb) as Hh0. split; intros Hfit.
  - destruct (init_display_draws font b m Hb ltac:(lia) Hh Hfit) as (m2 & Hrun & [C1 C2 C3]).
    destruct Hfit as [Hbw Hbh]. set (m1 := paint b 0 (rect_points 0 0 (width b) (height b)) m) in *.
    assert (forall p, p ∈ rect_points 0 0 (width b) (height b) <-> in_bitmap b p) as Hall
      by (intros p; rewrite elem_of_rect_points; unfold in_rect, in_bitmap; lia).
    assert (forall p, in_bitmap b p -> m1 !! pixel_addr b p = Some 0) as Hblack
      by (intros p Hp; by apply paint_hit, Hall).
    exists m2. split; [done|]. split_and!.
    + intros p Hp. apply C3. by rewrite Hblack.
    + intros p Hp Hleft. rewrite C1; [by apply Hblack|done|unfold panel; lia].
    + intros a Ha. rewrite C2 by done. apply paint_other. intros p Hp%Hall. by apply Ha.
  - unfold init_display. destruct (decide (in_bitmap b (0, 0) /\ in_bitmap b (0 + width b - 1, 0 + height b - 1))) as [[H0 H1]|Hout].
    + eapply (refuses_r b (fun _ => True)); [apply draws_unwrap; eapply draws_paint; [done| |intros m'; apply fill_rect_eq; done || lia]|].
      * intros p Hp%elem_of_rect_points. split; [|done]. by eapply (rect_in_bitmap b 0 0 (width b) (height b)).
      * apply test_pattern_refused; [done|lia|done| |done]. unfold in_bitmap in H1. cbn [fst snd] in H1. lia.
    + apply refuses_l, refuses_rect; [done|lia..].
Qed.

(** A screen of 640 by 480 is large enough; one of 100 by 100 is not. *)
Definition example_screen (w h : Z) : VramBufferInfo :=
  {| v_buf := 0x80000000; v_width := w; v_height := h; v_pixels_per_line := w |}.

Lemma init_display_picture_witness :
  (exists m', init_display [] (example_screen 640 480) ∅ = (Ok tt, m') /\ m' !! 0x80000000 = Some 0) /\
  (exists m', init_display [] (example_screen 100 100) ∅ = (Panic "out of range", m')).
Proof.
  assert (forall w h, 0 <= w <= 1000 -> 0 <= h <= 1000 -> bitmap_ok (example_screen w h)) as Hok
    by (intros w h Hw Hh; split; cbn; nia).
  split.
  - destruct (init_display_picture [] (example_screen 640 480) ∅) as [(m' & H & _ & Hl & _) _];
      [apply Hok; lia|cbn; lia|cbn; lia|split; cbn; lia|].
    exists m'. split; [exact H|]. apply (Hl (0, 0)); [split; cbn; lia|cbn; lia].
  - apply (init_display_picture [] (example_screen 100 100) ∅);
      [apply Hok; lia|cbn; lia|cbn; lia|intros [H _]; cbn in H; lia].
Defined.
