(* ===== verification/Acpi.v ===== *)
(** * ACPI tables: [src/src/acpi.rs].

    Tables lie in physical memory, a partial map from addresses to bytes; reading a byte that
    is not mapped is undefined in the program and panics in the model.  Structures are packed
    and little-endian; a reference to a table is its address. *)

From S2P Require Import Prelude.

Module Acpi.

(** Physical memory, by byte. *)
Abbreviation phys_mem := (gmap Z Z).

Fixpoint read_bytes (mem : phys_mem) (addr : Z) (n : nat) : outcome (list Z) :=
  match n with
  | O => Ok []
  | S n =>
      match mem !! addr with
      | None => Panic msg_ub
      | Some b => bs ← read_bytes mem (addr + 1) n; Ok (b :: bs)
      end
  end.
Definition read_le (mem : phys_mem) (addr : Z) (n : nat) : outcome Z :=
  bs ← read_bytes mem addr n; Ok (le_decode bs).

Section tables.
Context (mem : phys_mem).

(** [SystemDescriptionTableHeader]: 4 bytes of signature, 4 of length, 36 in all. *)
Definition SDT_HEADER_SIZE : Z := 36.
Definition signature (header : Z) : outcome (list Z) := read_bytes mem header 4.
Definition sdt_length (header : Z) : outcome Z := read_le mem (header + 4) 4.

Definition expect_signature (header : Z) (sig : list Z) : outcome unit :=
  s ← signature header;
  if decide (s = sig) then Ok tt else Panic "assertion failed".

(** [Xsdt]: the header, then pointers to tables. *)
Definition xsdt_num_of_entries (xsdt : Z) : outcome Z :=
  len ← sdt_length xsdt; body ← sub_chk len SDT_HEADER_SIZE; Ok (body / 8).
Definition xsdt_entry (xsdt index : Z) : outcome Z :=
  read_le mem (xsdt + SDT_HEADER_SIZE + 8 * index) 8.

(** [XsdtIterator::next] at [index]. *)
Definition XsdtIterator_next (table index : Z) : outcome (option (Z * Z)) :=
  n ← xsdt_num_of_entries table;
  if n <=? index then Ok None else e ← xsdt_entry table index; Ok (Some (e, index + 1)).

(** [self.iter().find(|&e| e.signature() == sig)]. *)
Fixpoint find_from (fuel : nat) (table : Z) (sig : list Z) (index : Z) : outcome (option Z) :=
  match fuel with
  | O => Panic "out of fuel"
  | S fuel =>
      r ← XsdtIterator_next table index;
      match r with
      | None => Ok None
      | Some (e, index) =>
          s ← signature e;
          if decide (s = sig) then Ok (Some e) else find_from fuel table sig index
      end
  end.

(** At most [num_of_entries] steps, and one to see the end. *)
Definition find_table (xsdt : Z) (sig : list Z) : outcome (option Z) :=
  n ← xsdt_num_of_entries xsdt; find_from (S (Z.to_nat n)) xsdt sig 0.

(** [AcpiTable::new]. *)
Definition AcpiTable_new (SIGNATURE : list Z) (header : Z) : outcome Z :=
  expect_signature header SIGNATURE;; Ok header.

Definition HPET_SIGNATURE : list Z := [72; 80; 69; 84].
Definition MCFG_SIGNATURE : list Z := [77; 67; 70; 71].

Definition map_table (sig : list Z) (o : option Z) : outcome (option Z) :=
  match o with None => Ok None | Some h => t ← AcpiTable_new sig h; Ok (Some t) end.

(** [AcpiRsdpStruct]: the XSDT's address is at offset 24. *)
Definition rsdp_xsdt (rsdp : Z) : outcome Z := read_le mem (rsdp + 24) 8.
Definition rsdp_hpet (rsdp : Z) : outcome (option Z) :=
  xsdt ← rsdp_xsdt rsdp; o ← find_table xsdt HPET_SIGNATURE; map_table HPET_SIGNATURE o.
Definition rsdp_mcfg (rsdp : Z) : outcome (option Z) :=
  xsdt ← rsdp_xsdt rsdp; o ← find_table xsdt MCFG_SIGNATURE; map_table MCFG_SIGNATURE o.

(** [GenericAddress]: an address space id, and the address at offset 4. *)
Definition adddress_in_memory_space (a : Z) : outcome Z :=
  id ← read_le mem a 1;
  if id =? 0 then read_le mem (a + 4) 8
  else Err "ACPI Generic address is not in system memory space".

(** [AcpiHpetDescriptor::base_address]: the address structure is at offset 40. *)
Definition hpet_base_address (hpet : Z) : outcome Z := adddress_in_memory_space (hpet + 40).

(** [AcpiMcfgDescriptor]: 44 bytes, then the ECAM entries. *)
Definition MCFG_HEADER_SIZE : Z := 44.
Definition ECAM_ENTRY_SIZE : Z := 16.
Definition mcfg_num_of_entries (mcfg : Z) : outcome Z :=
  len ← sdt_length mcfg; body ← sub_chk len MCFG_HEADER_SIZE; Ok (body / ECAM_ENTRY_SIZE).
Definition mcfg_entry (mcfg index : Z) : outcome (option Z) :=
  n ← mcfg_num_of_entries mcfg;
  if n <=? index then Ok None else Ok (Some (mcfg + MCFG_HEADER_SIZE + ECAM_ENTRY_SIZE * index)).
(** [EcamEntry::base_address]. *)
Definition ecam_base_address (entry : Z) : outcome Z := read_le mem entry 8.
End tables.
End Acpi.
Import Acpi.

(** ** Tables laid out in memory *)

(** The bytes [bs] are at [addr]. *)
Definition bytes_at (mem : phys_mem) (addr : Z) (bs : list Z) : Prop :=
  forall i b, bs !! i = Some b -> mem !! (addr + Z.of_nat i) = Some b.

Lemma bytes_at_app mem addr bs cs :
  bytes_at mem addr (bs ++ cs) <-> bytes_at mem addr bs /\ bytes_at mem (addr + Z.of_nat (length bs)) cs.
Proof.
  unfold bytes_at. split.
  - intros H. split; intros i b Hi.
    + apply H. by apply lookup_app_l_Some.
    + replace (addr + Z.of_nat (length bs) + Z.of_nat i) with (addr + Z.of_nat (length bs + i)) by lia.
      apply H. rewrite lookup_app_r by lia. by replace (length bs + i - length bs)%nat with i by lia.
  - intros [H1 H2] i b [Hi|[Hge Hi]]%lookup_app_Some; [by apply H1|].
    replace (addr + Z.of_nat i) with (addr + Z.of_nat (length bs) + Z.of_nat (i - length bs)) by lia.
    by apply H2.
Qed.

Lemma read_bytes_at mem bs : forall addr, bytes_at mem addr bs -> read_bytes mem addr (length bs) = Ok bs.
Proof.
  induction bs as [|b bs IH]; intros addr H; [done|]. cbn [length read_bytes].
  pose proof (H 0%nat b eq_refl) as H0. rewrite Z.add_0_r in H0. rewrite H0.
  rewrite IH; [done|]. intros i c Hi. replace (addr + 1 + Z.of_nat i) with (addr + Z.of_nat (S i)) by lia.
  by apply (H (S i)).
Qed.

Lemma read_le_at mem addr n v :
  in_width (8 * Z.of_nat n) v -> bytes_at mem addr (le_encode n v) -> read_le mem addr n = Ok v.
Proof.
  intros Hv H. unfold read_le. pose proof (read_bytes_at _ _ _ H) as Hr.
  rewrite length_le_encode in Hr. rewrite Hr. cbn [mbind outcome_bind]. by rewrite le_decode_encode_id.
Qed.

(** A table header with signature [sig] and length [len]. *)
Definition header_at (mem : phys_mem) (addr : Z) (sig : list Z) (len : Z) : Prop :=
  length sig = 4%nat /\ in_width 32 len /\ bytes_at mem addr (sig ++ le_encode 4 len).

(** An XSDT that lists the tables [ts], each with its address and signature. *)
Definition xsdt_at (mem : phys_mem) (addr : Z) (ts : list (Z * list Z)) : Prop :=
  header_at mem addr [88; 83; 68; 84] (36 + 8 * Z.of_nat (length ts)) /\
  bytes_at mem (addr + 36) (ts ≫= fun t => le_encode 8 t.1) /\
  Forall (fun t => in_width 64 t.1 /\ exists len, header_at mem t.1 t.2 len) ts.

Lemma header_signature mem addr sig len : header_at mem addr sig len -> signature mem addr = Ok sig.
Proof.
  intros (H4 & _ & [H _]%bytes_at_app). unfold signature. rewrite <- H4. by apply read_bytes_at.
Qed.

Lemma header_length mem addr sig len : header_at mem addr sig len -> sdt_length mem addr = Ok len.
Proof.
  intros (H4 & Hw & [_ H]%bytes_at_app). unfold sdt_length. apply read_le_at; [done|]. by rewrite H4 in H.
Qed.

Lemma xsdt_entries_num mem addr ts : xsdt_at mem addr ts ->
  xsdt_num_of_entries mem addr = Ok (Z.of_nat (length ts)).
Proof.
  intros (Hh & _ & _). unfold xsdt_num_of_entries. rewrite (header_length _ _ _ _ Hh).
  cbn [mbind outcome_bind]. unfold SDT_HEADER_SIZE. rewrite (sub_chk_ok (36 + 8 * Z.of_nat (length ts)) 36) by lia.
  cbn [mbind outcome_bind]. f_equal.
  replace (36 + 8 * Z.of_nat (length ts) - 36) with (Z.of_nat (length ts) * 8) by lia. by apply Z.div_mul.
Qed.

Lemma xsdt_entry_at mem addr ts1 t ts2 : xsdt_at mem addr (ts1 ++ t :: ts2) ->
  xsdt_entry mem addr (Z.of_nat (length ts1)) = Ok t.1.
Proof.
  intros (_ & Hb & Hf). apply Forall_app in Hf as [_ [[Hw _] _]%Forall_cons_1].
  unfold xsdt_entry. apply read_le_at; [done|]. rewrite bind_app, bind_cons in Hb.
  apply bytes_at_app in Hb as [_ [Hb _]%bytes_at_app].
  assert (length (ts1 ≫= fun t => le_encode 8 t.1) = (8 * length ts1)%nat) as Hl.
  { clear. induction ts1 as [|x ts1 IH]; [done|].
    rewrite bind_cons, length_app, length_le_encode, IH. simpl. lia. }
  rewrite Hl in Hb. unfold SDT_HEADER_SIZE.
  by replace (addr + 36 + 8 * Z.of_nat (length ts1)) with (addr + 36 + Z.of_nat (8 * length ts1)) by lia.
Qed.

(** The first table with a signature. *)
Definition first_table (ts : list (Z * list Z)) (sig : list Z) : option Z :=
  fst <$> List.find (fun t => bool_decide (t.2 = sig)) ts.

Lemma find_from_spec mem addr sig ts2 : forall ts1 fuel,
  xsdt_at mem addr (ts1 ++ ts2) -> (length ts2 < fuel)%nat ->
  find_from mem fuel addr sig (Z.of_nat (length ts1)) = Ok (first_table ts2 sig).
Proof.
  induction ts2 as [|t ts2 IH]; intros ts1 fuel Hx Hfuel; (destruct fuel as [|fuel]; [lia|]);
    cbn [find_from]; unfold XsdtIterator_next; rewrite (xsdt_entries_num _ _ _ Hx), length_app;
    cbn [mbind outcome_bind length] in *.
  - by rewrite (proj2 (Z.leb_le _ _)) by lia.
  - rewrite (proj2 (Z.leb_gt _ _)) by lia. rewrite (xsdt_entry_at _ _ _ _ _ Hx). cbn [mbind outcome_bind].
    pose proof Hx as (_ & _ & Hf). apply Forall_app in Hf as [_ [[_ (len & Hh)] _]%Forall_cons_1].
    rewrite (header_signature _ _ _ _ Hh). cbn [mbind outcome_bind].
    unfold first_table. cbn [List.find]. case_decide as Hs.
    + by rewrite bool_decide_true by done.
    + rewrite bool_decide_false by done.
      replace (Z.of_nat (length ts1) + 1) with (Z.of_nat (length (ts1 ++ [t])))
        by (rewrite length_app; simpl; lia).
      apply IH; [by rewrite <- (assoc_L (++))|lia].
Qed.

Lemma find_table_spec mem addr sig ts :
  xsdt_at mem addr ts -> find_table mem addr sig = Ok (first_table ts sig).
Proof.
  intros Hx. unfold find_table. rewrite (xsdt_entries_num _ _ _ Hx). cbn [mbind outcome_bind].
  apply (find_from_spec mem addr sig ts []); [done|lia].
Qed.

Lemma first_table_signature mem addr ts sig t :
  xsdt_at mem addr ts -> first_table ts sig = Some t -> signature mem t = Ok sig.
Proof.
  intros (_ & _ & Hf). unfold first_table. intros ([x s] & Hfind & ->)%fmap_Some.
  apply List.find_some in Hfind as [Hin Hs]. apply bool_decide_eq_true in Hs.
  rewrite Forall_forall in Hf. destruct (Hf (x, s)) as (_ & len & Hh); [by apply list_elem_of_In|].
  simpl in *. subst s. by eapply header_signature.
Qed.

Lemma map_table_spec mem addr ts sig :
  xsdt_at mem addr ts -> map_table mem sig (first_table ts sig) = Ok (first_table ts sig).
Proof.
  intros Hx. destruct (first_table ts sig) as [t|] eqn:Ht; [|done]. unfold map_table, AcpiTable_new, expect_signature.
  rewrite (first_table_signature _ _ _ _ _ Hx Ht). cbn [mbind outcome_bind]. by rewrite decide_True.
Qed.

(** ** Properties *)

(** A byte string in memory. *)
Definition mem_of (base : Z) (bs : list Z) : phys_mem :=
  list_to_map (imap (fun i b => (base + Z.of_nat i, b)) bs).

Lemma mem_of_at base bs : bytes_at (mem_of base bs) base bs.
Proof.
  intros i b Hi. unfold mem_of. apply elem_of_list_to_map_1.
  - apply NoDup_fmap_fst.
    + intros k x y Hx Hy. apply list_elem_of_lookup in Hx as (j & Hx), Hy as (l & Hy).
      rewrite list_lookup_imap in Hx, Hy.
      destruct (bs !! j) eqn:Ej; [|done]. destruct (bs !! l) eqn:El; [|done]. simplify_eq/=.
      assert (j = l) as <- by lia. congruence.
    + apply NoDup_alt. intros j l x Hx Hy. rewrite list_lookup_imap in Hx, Hy.
      destruct (bs !! j) eqn:Ej; [|done]. destruct (bs !! l) eqn:El; [|done]. simplify_eq/=. lia.
  - apply list_elem_of_lookup. exists i. by rewrite list_lookup_imap, Hi.
Qed.

(** C38. Finding an ACPI table: from an RSDP that points to a well-formed XSDT, [hpet] and
    [mcfg] visit the listed tables in order, terminate, never trip the signature assertion,
    and return the first table with the wanted signature, or [None] when there is none. *)
Theorem rsdp_tables_found (mem : phys_mem) (rsdp xsdt : Z) (ts : list (Z * list Z))
  (Hw : in_width 64 xsdt) (Hp : bytes_at mem (rsdp + 24) (le_encode 8 xsdt)) (Hx : xsdt_at mem xsdt ts) :
  rsdp_mcfg mem rsdp = Ok (first_table ts MCFG_SIGNATURE) /\
  rsdp_hpet mem rsdp = Ok (first_table ts HPET_SIGNATURE).
Proof.
  assert (rsdp_xsdt mem rsdp = Ok xsdt) as Hr by by apply read_le_at.
  unfold rsdp_mcfg, rsdp_hpet. rewrite Hr. cbn [mbind outcome_bind].
  rewrite !(find_table_spec _ _ _ _ Hx). cbn [mbind outcome_bind]. by rewrite !(map_table_spec _ _ _ _ Hx).
Qed.

(** Two tables, an XSDT listing them, and an RSDP, one after the other from 0x1000. *)
Definition example_hpet : list Z := HPET_SIGNATURE ++ le_encode 4 56 ++ replicate 48 0.
Definition example_mcfg : list Z :=
  MCFG_SIGNATURE ++ le_encode 4 60 ++ replicate 36 0 ++ le_encode 8 0xB0000000 ++ replicate 8 0.
Definition example_xsdt : list Z :=
  ([88; 83; 68; 84] ++ le_encode 4 52) ++ replicate 28 0 ++ (le_encode 8 0x1000 ++ le_encode 8 0x1038).
Definition example_rsdp : list Z := replicate 24 0 ++ le_encode 8 0x1074.
Definition example_mem : phys_mem :=
  mem_of 0x1000 (example_hpet ++ example_mcfg ++ example_xsdt ++ example_rsdp).
Definition example_tables : list (Z * list Z) := [(0x1000, HPET_SIGNATURE); (0x1038, MCFG_SIGNATURE)].

Lemma example_mem_parts :
  bytes_at example_mem 0x1000 example_hpet /\ bytes_at example_mem 0x1038 example_mcfg /\
  bytes_at example_mem 0x1074 example_xsdt /\ bytes_at example_mem 0x10A8 example_rsdp.
Proof.
  pose proof (mem_of_at 0x1000 (example_hpet ++ example_mcfg ++ example_xsdt ++ example_rsdp)) as H.
  apply bytes_at_app in H as [H1 H]. apply bytes_at_app in H as [H2 H]. apply bytes_at_app in H as [H3 H4].
  split_and!; assumption.
Qed.

Lemma example_xsdt_at : xsdt_at example_mem 0x1074 example_tables.
Proof.
  destruct example_mem_parts as (H1 & H2 & H3 & _). apply bytes_at_app in H3 as [H3 H4].
  apply bytes_at_app in H4 as [_ H4]. split; [|split].
  - split; [done|]. split; [split; simpl; lia|]. exact H3.
  - exact H4.
  - apply Forall_cons_2; [|apply Forall_cons_2; [|apply Forall_nil_2]];
      (split; [split; simpl; lia|]).
    + exists 56. split; [done|]. split; [split; lia|].
      unfold example_hpet in H1. rewrite (assoc_L (++)) in H1. by apply bytes_at_app in H1 as [H1 _].
    + exists 60. split; [done|]. split; [split; lia|].
      unfold example_mcfg in H2. rewrite (assoc_L (++)) in H2. by apply bytes_at_app in H2 as [H2 _].
Qed.

Lemma rsdp_tables_found_witness :
  rsdp_mcfg example_mem 0x10A8 = Ok (Some 0x1038) /\ rsdp_hpet example_mem 0x10A8 = Ok (Some 0x1000).
Proof.
  apply (rsdp_tables_found example_mem 0x10A8 0x1074 example_tables); [split; lia| |exact example_xsdt_at].
  destruct example_mem_parts as (_ & _ & _ & H4). unfold example_rsdp in H4.
  apply bytes_at_app in H4 as [_ H4]. exact H4.
Defined.
