(* ===== verification/Pci.v ===== *)
(** * PCI: [src/src/pci.rs].

    Bus/device/function numbers, the iterator over them, the memory-mapped configuration
    registers, BAR sizing and the device probe.  The configuration space is a device: the
    class [ConfigSpace] gives its volatile reads and writes by width (in bytes) and address,
    and each may change the device's state. *)

From S2P Require Import Prelude Acpi Graphics.
Import Acpi.Acpi.

(** The bus behind the volatile accesses. *)
Class ConfigSpace (D : Type) : Type := {
  cs_read : Z -> Z -> D -> Z * D;
  cs_write : Z -> Z -> Z -> D -> D;
}.

Module Pci.

Record VendorDeviceId : Type := { vendor : Z; device : Z }.
#[export] Instance VendorDeviceId_eq_dec : EqDecision VendorDeviceId.
Proof. solve_decision. Defined.

(** A [BusDeviceFunction] is its 16-bit [id]. *)
Definition MASK_BUS : Z := 0xFF00.
Definition SHIFT_BUS : Z := 8.
Definition MASK_DEVICE : Z := 0xF8.
Definition SHIFT_DEVICE : Z := 3.
Definition MASK_FUNCTION : Z := 7.
Definition SHIFT_FUNCTION : Z := 0.

Definition BusDeviceFunction_new (bus device function : Z) : outcome Z :=
  if negb ((0 <=? bus) && (bus <? 256)) || negb ((0 <=? device) && (device <? 32))
     || negb ((0 <=? function) && (function <? 8))
  then Err "PCI bus device functikon out of range"
  else Ok (wrap 16 (Z.lor (Z.lor (Z.shiftl bus SHIFT_BUS) (Z.shiftl device SHIFT_DEVICE))
                          (Z.shiftl function SHIFT_FUNCTION))).

Definition bdf_bus (id : Z) : Z := Z.shiftr (Z.land id MASK_BUS) SHIFT_BUS.
Definition bdf_device (id : Z) : Z := Z.shiftr (Z.land id MASK_DEVICE) SHIFT_DEVICE.
Definition bdf_function (id : Z) : Z := Z.shiftr (Z.land id MASK_FUNCTION) SHIFT_FUNCTION.

(** [BusDeviceFunctionIterator], from [next_id]. *)
Definition BusDeviceFunctionIterator_next (next_id : Z) : option Z * Z :=
  if 0xffff <? next_id then (None, next_id) else (Some (wrap 16 next_id), next_id + 1).

Fixpoint bdf_collect (fuel : nat) (next_id : Z) : option (list Z) :=
  match fuel with
  | O => None
  | S fuel =>
      match BusDeviceFunctionIterator_next next_id with
      | (None, _) => Some []
      | (Some id, next_id) => ids ← bdf_collect fuel next_id; Some (id :: ids)
      end
  end.
(** [BusDeviceFunction::iter] collected; 65536 items and the end. *)
Definition BusDeviceFunction_iter : option (list Z) := bdf_collect (Z.to_nat 65537) 0.

Record Pci : Type := { ecm_start : Z; ecm_end : Z }.

Definition Pci_new (mem : phys_mem) (mcfg : Z) : outcome Pci :=
  n ← mcfg_num_of_entries mem mcfg;
  if negb (n =? 1) then Panic "assertion failed" else
  o ← mcfg_entry mem mcfg 0;
  e ← unwrap (ok_or o "out of range");
  base ← ecam_base_address mem e;
  stop ← add_chk 64 base (Z.shiftl 1 24);
  Ok {| ecm_start := base; ecm_end := stop |}.

Record BarMem64 : Type := { bar_addr : Z; bar_size : Z }.

Section registers.
Context {D : Type} {CS : ConfigSpace D}.

Definition volatile_read (size addr : Z) : M D Z := fun d =>
  let '(v, d) := cs_read size addr d in (Ok v, d).
Definition volatile_write (size addr v : Z) : M D unit := modify (cs_write size addr v).

(** [ConfigRegisters<T>] for a [T] of [size] bytes. *)
Definition ConfigRegisters_read (size ecm_base byte_offset : Z) : M D Z :=
  if negb ((0 <=? byte_offset) && (byte_offset <? 256)) || negb (byte_offset mod size =? 0)
  then throw "PCI config register read out of range"
  else volatile_read size (ecm_base + byte_offset / size * size).
Definition ConfigRegisters_write (size ecm_base byte_offset data : Z) : M D unit :=
  if negb ((0 <=? byte_offset) && (byte_offset <? 256)) || negb (byte_offset mod size =? 0)
  then throw "PCI config register write out of range"
  else volatile_write size (ecm_base + byte_offset / size * size) data.

Context (self : Pci).

Definition ecm_base (id : Z) : outcome Z := add_chk 64 (ecm_start self) (Z.shiftl id 12).

Definition read_register_u16 (bdf byte_offset : Z) : M D Z :=
  b ← lift (ecm_base bdf); ConfigRegisters_read 2 b byte_offset.
Definition read_register_u32 (bdf byte_offset : Z) : M D Z :=
  b ← lift (ecm_base bdf); ConfigRegisters_read 4 b byte_offset.
Definition write_register_u32 (bdf byte_offset data : Z) : M D unit :=
  b ← lift (ecm_base bdf); ConfigRegisters_write 4 b byte_offset data.
Definition read_register_u64 (bdf byte_offset : Z) : M D Z :=
  lo ← read_register_u32 bdf byte_offset;
  ofs ← lift (add_chk 64 byte_offset 4);
  hi ← read_register_u32 bdf ofs;
  mret (Z.lor (Z.shiftl hi 32) lo).
Definition write_register_u64 (bdf byte_offset data : Z) : M D unit :=
  let lo := wrap 32 data in
  let hi := wrap 32 (Z.shiftr data 32) in
  write_register_u32 bdf byte_offset lo;;
  ofs ← lift (add_chk 64 byte_offset 4);
  write_register_u32 bdf ofs hi.

(** [.ok()?] on a read. *)
Definition ok_read {A} (m : M D Z) (k : Z -> M D (option A)) : M D (option A) := fun d =>
  match m d with
  | (Ok v, d) => k v d
  | (Err _, d) => (Ok None, d)
  | (Panic e, d) => (Panic e, d)
  end.

Definition read_vendor_id_and_device_id (id : Z) : M D (option VendorDeviceId) :=
  ok_read (read_register_u16 id 0) (fun vendor =>
  ok_read (read_register_u16 id 2) (fun device =>
  if (vendor =? 0xffff) || (device =? 0xffff) then mret None
  else if (vendor =? 0x0000) || (device =? 0x0000) then mret None
  else mret (Some {| vendor := vendor; device := device |}))).

Definition try_bar0_mem64 (bdf : Z) : M D BarMem64 :=
  bar0 ← read_register_u64 bdf 0x10;
  if Z.land bar0 7 =? 4 then
    let addr := Z.land bar0 (wnot 64 7) in
    write_register_u64 bdf 0x10 (Z.ones 64);;
    v ← read_register_u64 bdf 0x10;
    size ← lift (add_chk 64 1 (wnot 64 (Z.land v (wnot 64 7))));
    write_register_u64 bdf 0x10 bar0;;
    mret {| bar_addr := addr; bar_size := size |}
  else throw "BAR0 is not a memory-mapped I/O region".

Definition set_command_and_status_flags (bdf flags : Z) : M D unit :=
  cmd_and_status ← read_register_u32 bdf 0x04;
  write_register_u32 bdf 0x04 (Z.lor cmd_and_status flags).
Definition enable_bus_mastering (bdf : Z) : M D unit :=
  set_command_and_status_flags bdf (Z.shiftl 1 2).
Definition disable_interrupt (bdf : Z) : M D unit :=
  set_command_and_status_flags bdf (Z.shiftl 1 10).

(** [PciXhciDriver::supports]. *)
Definition VDI_LIST : list VendorDeviceId := [
  {| vendor := 0x1b36; device := 0x000d |};
  {| vendor := 0x8086; device := 0x31a8 |};
  {| vendor := 0x8086; device := 0x02ed |};
  {| vendor := 0x8086; device := 0x9d2f |}
].
Definition supports (vd : VendorDeviceId) : bool := bool_decide (vd ∈ VDI_LIST).

(** The body of the probe loop; the driver's [attach] is the argument [attach], whose
    error is only logged. *)
Definition probe_one (attach : Z -> M D unit) (bus device function : Z) : M D unit :=
  match BusDeviceFunction_new bus device function with
  | Ok bdf =>
      o ← read_vendor_id_and_device_id bdf;
      match o with
      | Some vd => if supports vd then ignore_err (attach bdf) else mret tt
      | None => mret tt
      end
  | Err _ => mret tt
  | Panic e => panic e
  end.

Definition probe_devices (attach : Z -> M D unit) : M D unit :=
  for_each (range 0 32) (fun bus =>
  for_each (range 0 32) (fun device =>
  for_each (range 0 8) (fun function => probe_one attach bus device function))).
End registers.
End Pci.
Import Pci.

(** ** Bus, device and function numbers *)

Lemma bdf_new_eq b d f :
  0 <= b < 256 -> 0 <= d < 32 -> 0 <= f < 8 ->
  BusDeviceFunction_new b d f = Ok (b * 256 + d * 8 + f).
Proof.
  intros Hb Hd Hf. unfold BusDeviceFunction_new.
  rewrite !(proj2 (Z.leb_le _ _)), !(proj2 (Z.ltb_lt _ _)) by lia. cbn [andb negb orb]. f_equal.
  unfold SHIFT_BUS, SHIFT_DEVICE, SHIFT_FUNCTION. rewrite Z.shiftl_0_r.
  assert (Z.lor (Z.lor (Z.shiftl b 8) (Z.shiftl d 3)) f = b * 256 + d * 8 + f) as ->.
  { assert (in_width 5 d) by (split; lia). assert (in_width 3 f) by (split; lia).
    change 256 with (2 ^ 8). change (d * 8) with (d * 2 ^ 3). rewrite <- !Z.shiftl_mul_pow2 by lia.
    rewrite Z.add_nocarry_lxor; [rewrite Z.lxor_lor|]; [f_equal| |].
    - symmetry. rewrite Z.add_nocarry_lxor; [rewrite Z.lxor_lor|]; [done|..]; zbits.
    - rewrite Z.add_nocarry_lxor; [rewrite Z.lxor_lor|]; zbits.
    - rewrite Z.add_nocarry_lxor; [rewrite Z.lxor_lor|]; zbits. }
  apply wrap_small. split; lia.
Qed.

Lemma bdf_fields id : 0 <= id ->
  bdf_bus id = (id / 256) mod 256 /\ bdf_device id = (id / 8) mod 32 /\ bdf_function id = id mod 8.
Proof.
  intros Hid. unfold bdf_bus, bdf_device, bdf_function, SHIFT_BUS, SHIFT_DEVICE, SHIFT_FUNCTION.
  assert (forall s w, 0 <= s -> 0 <= w ->
    Z.shiftr (Z.land id (Z.shiftl (Z.ones w) s)) s = (id / 2 ^ s) mod 2 ^ w) as H.
  { intros s w Hs Hw. rewrite <- get_field_div by done. unfold get_field. zbits. }
  split; [exact (H 8 8 ltac:(lia) ltac:(lia))|]. split; [exact (H 3 5 ltac:(lia) ltac:(lia))|].
  pose proof (H 0 3 ltac:(lia) ltac:(lia)) as H0. rewrite Z.div_1_r in H0. exact H0.
Qed.

(** Packing of bus/device/function numbers: in-range triples are packed into 16 bits and
    read back exactly, every 16-bit id is the packing of its own fields (so the packing is a
    bijection between the 65536 ids and the in-range triples), and any number out of range
    is refused. *)
Theorem bdf_roundtrip (b d f id : Z) :
  (0 <= b < 256 -> 0 <= d < 32 -> 0 <= f < 8 ->
   exists i, BusDeviceFunction_new b d f = Ok i /\ in_width 16 i /\
     bdf_bus i = b /\ bdf_device i = d /\ bdf_function i = f) /\
  (in_width 16 id -> BusDeviceFunction_new (bdf_bus id) (bdf_device id) (bdf_function id) = Ok id) /\
  (~ (0 <= b < 256 /\ 0 <= d < 32 /\ 0 <= f < 8) ->
   BusDeviceFunction_new b d f = Err "PCI bus device functikon out of range").
Proof.
  split; [|split].
  - intros Hb Hd Hf. rewrite bdf_new_eq by done. eexists. split; [done|]. split; [split; lia|].
    destruct (bdf_fields (b * 256 + d * 8 + f)) as (-> & -> & ->); [lia|]. div_lia.
  - intros [H0 H1]. destruct (bdf_fields id H0) as (-> & -> & ->).
    rewrite bdf_new_eq by (apply Z.mod_pos_bound; lia). f_equal.
    change (2 ^ 16) with 65536 in H1. div_lia.
  - intros Hout. unfold BusDeviceFunction_new.
    destruct (Z.leb_spec 0 b), (Z.ltb_spec b 256); cbn [andb negb orb]; try done;
    destruct (Z.leb_spec 0 d), (Z.ltb_spec d 32); cbn [andb negb orb]; try done;
    destruct (Z.leb_spec 0 f), (Z.ltb_spec f 8); cbn [andb negb orb]; try done.
    exfalso. apply Hout. lia.
Qed.

Lemma bdf_roundtrip_witness :
  exists i, BusDeviceFunction_new 3 31 7 = Ok i /\ in_width 16 i /\
    bdf_bus i = 3 /\ bdf_device i = 31 /\ bdf_function i = 7.
Proof. apply (proj1 (bdf_roundtrip 3 31 7 0)); lia. Defined.

(** ** The probe *)

Lemma for_each_bind {S A B} (l : list A) (g : A -> list B) (f : B -> M S unit) s :
  for_each (l ≫= g) f s = for_each l (fun x => for_each (g x) f) s.
Proof.
  revert s. induction l as [|x l IH]; intros s; [done|]. rewrite bind_cons. cbn [for_each].
  generalize (g x) as ys. intros ys. revert s. induction ys as [|y ys IHy]; intros s; cbn [for_each app].
  - rewrite IH. done.
  - unfold mbind, M_bind in *. destruct (f y s) as [[[]|e|e] s']; [apply IHy|done|done].
Qed.

Lemma for_each_fmap {S A B} (l : list A) (g : A -> B) (f : B -> M S unit) s :
  for_each (g <$> l) f s = for_each l (fun x => f (g x)) s.
Proof.
  revert s. induction l as [|x l IH]; intros s; [done|]. cbn [fmap list_fmap for_each].
  unfold mbind, M_bind. destruct (f (g x) s) as [[[]|e|e] s']; [apply IH|done|done].
Qed.

Lemma for_each_ext {S A} (l : list A) (f g : A -> M S unit) s :
  (forall x s, x ∈ l -> f x s = g x s) -> for_each l f s = for_each l g s.
Proof.
  revert s. induction l as [|x l IH]; intros s H; [done|]. cbn [for_each].
  unfold mbind, M_bind. rewrite (H x s (list_elem_of_here _ _)).
  destruct (g x s) as [[[]|e|e] s']; [|done|done]. apply IH. intros y s1 Hy. apply H. by right.
Qed.

Definition probe_triples : list (Z * Z * Z) :=
  range 0 32 ≫= fun b => range 0 32 ≫= fun d => (fun f => (b, d, f)) <$> range 0 8.

Definition triple_id (t : Z * Z * Z) : Z := t.1.1 * 256 + t.1.2 * 8 + t.2.

Lemma probe_triples_ids : triple_id <$> probe_triples = range 0 8192.
Proof. vm_compute. reflexivity. Qed.

(** What the probe does for one id. *)
Definition probe_id {D} {CS : ConfigSpace D} (self : Pci) (attach : Z -> M D unit) (id : Z) : M D unit :=
  o ← read_vendor_id_and_device_id self id;
  match o with
  | Some vd => if supports vd then ignore_err (attach id) else mret tt
  | None => mret tt
  end.

(** The probe visits the functions of buses 0 to 31, each exactly once and in order of
    their id, and no function of a bus above 31 (although the id space has 256 buses): it is
    the loop that reads the ids of the function and attaches the driver to the supported
    ones, ignoring the driver's errors. *)
Theorem probe_devices_order {D} {CS : ConfigSpace D} (self : Pci) (attach : Z -> M D unit) (d : D) :
  probe_devices self attach d = for_each (range 0 8192) (probe_id self attach) d.
Proof.
  rewrite <- probe_triples_ids, for_each_fmap. unfold probe_devices, probe_triples.
  rewrite for_each_bind. apply for_each_ext. intros b s Hb%elem_of_range.
  rewrite for_each_bind. apply for_each_ext. intros dv s1 Hd%elem_of_range.
  rewrite for_each_fmap. apply for_each_ext. intros f s2 Hf%elem_of_range.
  unfold probe_one. by rewrite bdf_new_eq by lia.
Qed.

(** ** BAR sizing *)

Section bar.
Context {D : Type} {CS : ConfigSpace D} (self : Pci) (bdf : Z).
(** The 64-bit BAR 0 of the function, of [2^k] bytes, whose low four bits are fixed: the
    PCI rules for a memory BAR, as the device implements them. *)
Context (bar : D -> Z) (k flags : Z).
Definition bar_put (x : Z) : Z := Z.lor (Z.ldiff x (Z.ones k)) flags.
Hypothesis Hk : 4 <= k < 64.
Hypothesis Hflags : in_width 4 flags.
Hypothesis Hbase : 0 <= ecm_start self /\ 0 <= bdf < 2 ^ 16 /\ ecm_start self + 2 ^ 28 + 0x18 < 2 ^ 64.
Let a : Z := ecm_start self + Z.shiftl bdf 12 + 0x10.
Hypothesis Hread_lo : forall d, cs_read 4 a d = (get_field (bar d) 0 32, d).
Hypothesis Hread_hi : forall d, cs_read 4 (a + 4) d = (get_field (bar d) 32 32, d).
Hypothesis Hwrite_lo : forall d v, in_width 32 v ->
  bar (cs_write 4 a v d) = bar_put (set_field (bar d) 0 32 v).
Hypothesis Hwrite_hi : forall d v, in_width 32 v ->
  bar (cs_write 4 (a + 4) v d) = bar_put (set_field (bar d) 32 32 v).

Lemma bdf_shift : 0 <= Z.shiftl bdf 12 < 2 ^ 28.
Proof using Hbase. rewrite Z.shiftl_mul_pow2 by lia. lia. Qed.

Lemma ecm_base_eq : ecm_base self bdf = Ok (ecm_start self + Z.shiftl bdf 12).
Proof using Hbase. pose proof bdf_shift. unfold ecm_base. apply add_chk_ok. lia. Qed.

Lemma read32_lo d : read_register_u32 self bdf 0x10 d = (Ok (get_field (bar d) 0 32), d).
Proof using Hbase Hread_lo.
  unfold read_register_u32. rewrite ecm_base_eq. mstep. unfold ConfigRegisters_read.
  change (negb ((0 <=? 16) && (16 <? 256)) || negb (16 mod 4 =? 0)) with false. cbv iota.
  unfold volatile_read. change (16 / 4 * 4) with 16. fold a. by rewrite Hread_lo.
Qed.

Lemma read32_hi d : read_register_u32 self bdf 0x14 d = (Ok (get_field (bar d) 32 32), d).
Proof using Hbase Hread_hi.
  unfold read_register_u32. rewrite ecm_base_eq. mstep. unfold ConfigRegisters_read.
  change (negb ((0 <=? 20) && (20 <? 256)) || negb (20 mod 4 =? 0)) with false. cbv iota.
  unfold volatile_read. change (20 / 4 * 4) with 20.
  replace (ecm_start self + Z.shiftl bdf 12 + 20) with (a + 4) by (unfold a; lia). by rewrite Hread_hi.
Qed.

Lemma read64 d : in_width 64 (bar d) -> read_register_u64 self bdf 0x10 d = (Ok (bar d), d).
Proof using Hbase Hread_lo Hread_hi.
  intros Hw. unfold read_register_u64. rewrite (bind_ok _ _ _ _ _ (read32_lo d)). mstep.
  change (0x10 + 4) with 0x14. rewrite (bind_ok _ _ _ _ _ (read32_hi d)).
  unfold mret, M_ret. do 2 f_equal. unfold get_field. zbits.
Qed.

Lemma write64 d v : in_width 64 v -> in_width 64 (bar d) -> exists d',
  write_register_u64 self bdf 0x10 v d = (Ok tt, d') /\ bar d' = bar_put v.
Proof using Hbase Hwrite_lo Hwrite_hi Hk Hflags.
  intros Hv Hd. unfold write_register_u64, write_register_u32. rewrite ecm_base_eq.
  unfold ConfigRegisters_write.
  change (negb ((0 <=? 16) && (16 <? 256)) || negb (16 mod 4 =? 0)) with false. cbv iota.
  eexists. split.
  - rewrite (bind_ok _ _ d tt (cs_write 4 a (wrap 32 v) d)) by reflexivity.
    mstep. rewrite (bind_ok _ _ _ (ecm_start self + Z.shiftl bdf 12) (cs_write 4 a (wrap 32 v) d)) by reflexivity.
    change (0x10 + 4) with 20.
    change (negb ((0 <=? 20) && (20 <? 256)) || negb (20 mod 4 =? 0)) with false. cbv iota.
    unfold volatile_write, modify. change (20 / 4 * 4) with 20.
    replace (ecm_start self + Z.shiftl bdf 12 + 20) with (a + 4) by (unfold a; lia). reflexivity.
  - rewrite Hwrite_hi by (apply wrap_width; lia). rewrite Hwrite_lo by (apply wrap_width; lia).
    unfold bar_put, set_field, wrap. zbits.
Qed.
End bar.

(** The documented behaviour of a 64-bit memory BAR 0 of [2^k] bytes, with the type bits
    [flags], seen through the configuration space. *)
Record bar0_device {D} {CS : ConfigSpace D} (self : Pci) (bdf : Z) (bar : D -> Z) (k flags : Z) : Prop := {
  bd_size : 4 <= k < 64;
  bd_flags : in_width 4 flags;
  bd_base : 0 <= ecm_start self /\ 0 <= bdf < 2 ^ 16 /\ ecm_start self + 2 ^ 28 + 0x18 < 2 ^ 64;
  bd_width d : in_width 64 (bar d);
  bd_read_lo d : cs_read 4 (ecm_start self + Z.shiftl bdf 12 + 0x10) d = (get_field (bar d) 0 32, d);
  bd_read_hi d : cs_read 4 (ecm_start self + Z.shiftl bdf 12 + 0x10 + 4) d = (get_field (bar d) 32 32, d);
  bd_write_lo d v : in_width 32 v ->
    bar (cs_write 4 (ecm_start self + Z.shiftl bdf 12 + 0x10) v d) = bar_put k flags (set_field (bar d) 0 32 v);
  bd_write_hi d v : in_width 32 v ->
    bar (cs_write 4 (ecm_start self + Z.shiftl bdf 12 + 0x10 + 4) v d) = bar_put k flags (set_field (bar d) 32 32 v);
}.

Section bar_theorems.
Context {D : Type} {CS : ConfigSpace D} (self : Pci) (bdf : Z) (bar : D -> Z) (k flags : Z).
Hypothesis Hdev : bar0_device self bdf bar k flags.

Lemma bar_read d : read_register_u64 self bdf 0x10 d = (Ok (bar d), d).
Proof using Hdev. destruct Hdev. eapply read64; eauto. Qed.

Lemma bar_write d v : in_width 64 v -> exists d',
  write_register_u64 self bdf 0x10 v d = (Ok tt, d') /\ bar d' = bar_put k flags v.
Proof using Hdev. intros Hv. destruct Hdev. eapply write64; eauto. Qed.

(** A BAR value: the base, aligned to the size, and the flags. *)
Lemma bar_put_idem base : bar_put k flags (bar_put k flags base) = bar_put k flags base.
Proof using Hdev. destruct Hdev as [Hk Hf _ _ _ _ _ _]. unfold bar_put. zbits. Qed.

Lemma bar_put_split base :
  in_width 64 base -> bar_put k flags base = base / 2 ^ k * 2 ^ k + flags.
Proof using Hdev.
  intros Hb. destruct Hdev as [Hk Hf _ _ _ _ _ _]. unfold bar_put.
  rewrite Z.ldiff_ones_r by lia. rewrite <- Z.shiftr_div_pow2, <- Z.shiftl_mul_pow2 by lia.
  symmetry. rewrite Z.add_nocarry_lxor; [rewrite Z.lxor_lor; [done|]|]; zbits.
Qed.

Lemma bar_put_width base : in_width 64 base -> in_width 64 (bar_put k flags base).
Proof using Hdev.
  intros Hb. destruct Hdev as [Hk Hf _ _ _ _ _ _]. apply in_width_testbit; [lia| |].
  - unfold bar_put. apply Z.lor_nonneg. destruct Hb, Hf. split; [|done]. apply Z.ldiff_nonneg. by left.
  - intros i Hi. unfold bar_put. autorewrite with zbits.
    by rewrite (testbit_high 64 base), (testbit_high 4 flags) by (done || lia).
Qed.

Lemma mask_type_bits base : in_width 64 base -> Z.land flags 7 = 4 ->
  Z.land (bar_put k flags base) (wnot 64 7) = base / 2 ^ k * 2 ^ k + (flags - 4).
Proof using Hdev.
  intros Hb Hty. rewrite bar_put_split by done. destruct Hdev as [Hk Hf _ _ _ _ _ _].
  change 7 with (2 ^ 3 - 1). rewrite land_align; [|..|lia].
  - change (2 ^ 3) with 8. change (Z.land flags 7) with (Z.land flags (Z.ones 3)) in Hty.
    rewrite Z.land_ones in Hty by lia. change (2 ^ 3) with 8 in Hty.
    assert (2 ^ k = 8 * 2 ^ (k - 3)) as -> by (change 8 with (2 ^ 3); rewrite <- Z.pow_add_r by lia; f_equal; lia).
    replace (base / (8 * 2 ^ (k - 3)) * (8 * 2 ^ (k - 3)) + flags)
      with (flags + base / (8 * 2 ^ (k - 3)) * 2 ^ (k - 3) * 8) by lia.
    rewrite Z.div_add by lia. div_lia.
  - rewrite <- bar_put_split by done. by apply bar_put_width.
Qed.

(** Sizing and restoring, for a BAR whose low three bits say "64-bit memory". *)
Lemma try_bar0_eq d base :
  Z.land flags 7 = 4 -> in_width 64 base -> (2 ^ k | base) -> bar d = base + flags ->
  exists d', try_bar0_mem64 self bdf d =
    (Ok {| bar_addr := base + (flags - 4); bar_size := 2 ^ k - (flags - 4) |}, d') /\ bar d' = bar d.
Proof using Hdev.
  intros Hty Hb [q Hq] Hbar. pose proof Hdev as [Hk Hf _ Hw _ _ _ _].
  assert (forall b, in_width 64 b -> bar_put k flags b = b / 2 ^ k * 2 ^ k + flags) as Hput
    by (intros; by apply bar_put_split).
  assert (base / 2 ^ k * 2 ^ k = base) as Hbb by (rewrite Hq, Z.div_mul by (pose proof (Z.pow_pos_nonneg 2 k); lia); done).
  assert (bar d = bar_put k flags base) as Hbd by (rewrite Hput, Hbb by done; done).
  assert (in_width 64 (Z.ones 64)) as Hones by (split; vm_compute; done).
  assert (Z.ones 64 / 2 ^ k * 2 ^ k = 2 ^ 64 - 2 ^ k) as Hmax.
  { replace (2 ^ 64) with (2 ^ (64 - k) * 2 ^ k) by (rewrite <- Z.pow_add_r by lia; f_equal; lia).
    pose proof (Z.pow_pos_nonneg 2 k). rewrite <- Z.mul_pred_l. f_equal. symmetry.
    apply (Z.div_unique_pos _ _ _ (2 ^ k - 1)); [lia|]. change (Z.ones 64) with (2 ^ 64 - 1).
    replace (2 ^ 64) with (2 ^ (64 - k) * 2 ^ k) by (rewrite <- Z.pow_add_r by lia; f_equal; lia). lia. }
  unfold try_bar0_mem64. rewrite (bind_ok _ _ _ _ _ (bar_read d)).
  assert ((Z.land (bar d) 7 =? 4) = true) as ->.
  { apply Z.eqb_eq. rewrite <- Hty, Hbd. unfold bar_put. change 7 with (Z.ones 3). zbits. }
  destruct (bar_write d (Z.ones 64) Hones) as (d1 & Hw1 & Hb1). rewrite (bind_ok _ _ _ _ _ Hw1).
  rewrite (bind_ok _ _ _ _ _ (bar_read d1)). rewrite Hb1, (mask_type_bits (Z.ones 64)), Hmax by done.
  assert (0 <= flags - 4 < 16) as Hfl.
  { destruct Hf. split; [|lia]. change (Z.land flags 7) with (Z.land flags (Z.ones 3)) in Hty.
    rewrite Z.land_ones in Hty by lia. change (2 ^ 3) with 8 in Hty. div_lia. }
  assert (2 ^ 4 <= 2 ^ k) by (apply Z.pow_le_mono_r; lia).
  assert (2 ^ k < 2 ^ 64) by (apply Z.pow_lt_mono_r; lia).
  rewrite (wnot_sub 64 (2 ^ 64 - 2 ^ k + (flags - 4))) by (lia || (split; lia)).
  replace (2 ^ 64 - 1 - (2 ^ 64 - 2 ^ k + (flags - 4))) with (2 ^ k - 1 - (flags - 4)) by lia.
  rewrite (add_chk_ok 64 1 (2 ^ k - 1 - (flags - 4))) by lia.
  rewrite (bind_ok _ _ d1 (1 + (2 ^ k - 1 - (flags - 4))) d1) by reflexivity.
  replace (1 + (2 ^ k - 1 - (flags - 4))) with (2 ^ k - (flags - 4)) by lia.
  destruct (bar_write d1 (bar d) (Hw d)) as (d2 & Hw2 & Hb2). rewrite (bind_ok _ _ _ _ _ Hw2).
  exists d2. split.
  - unfold mret, M_ret. rewrite Hbd, mask_type_bits, Hbb by done. done.
  - by rewrite Hb2, Hbd, bar_put_idem.
Qed.
End bar_theorems.

(** C37. BAR sizing: on a device whose BAR 0 is a 64-bit non-prefetchable memory BAR of [2^k]
    bytes at [base] (type bits 0100), [try_bar0_mem64] reports exactly the base and the
    size, and leaves the BAR as it was; on a prefetchable one (type bits 1100), which it
    accepts too, it reports a base 8 too high and a size 8 too small, because it masks three
    of the four type bits. *)
Theorem try_bar0_mem64_sizes {D} {CS : ConfigSpace D} (self : Pci) (bdf : Z) (bar : D -> Z)
  (k flags base : Z) (d : D)
  (Hdev : bar0_device self bdf bar k flags) (Hbase : in_width 64 base) (Hal : (2 ^ k | base))
  (Hbar : bar d = base + flags) :
  (flags = 4 -> exists d', try_bar0_mem64 self bdf d =
     (Ok {| bar_addr := base; bar_size := 2 ^ k |}, d') /\ bar d' = bar d) /\
  (flags = 12 -> exists d', try_bar0_mem64 self bdf d =
     (Ok {| bar_addr := base + 8; bar_size := 2 ^ k - 8 |}, d') /\ bar d' = bar d).
Proof.
  split; intros Hf; destruct (try_bar0_eq self bdf bar k flags Hdev d base) as (d' & Hrun & Hbar');
    try done; try (by rewrite Hf); exists d'; (split; [|done]); rewrite Hrun, Hf; do 3 f_equal; lia.
Qed.

(** A device that is one BAR of [2^14] bytes, of the function with id 8. *)
Record OneBar : Type := { ob_bar : Z }.
Definition one_bar (d : OneBar) : Z := wrap 64 (ob_bar d).
Definition one_bar_addr : Z := 0xB0008010.
#[export] Instance OneBar_ConfigSpace : ConfigSpace OneBar := {
  cs_read _ a d :=
    ((if a =? one_bar_addr then get_field (one_bar d) 0 32
      else if a =? one_bar_addr + 4 then get_field (one_bar d) 32 32 else 0), d);
  cs_write _ a v d :=
    if a =? one_bar_addr then {| ob_bar := bar_put 14 4 (set_field (one_bar d) 0 32 v) |}
    else if a =? one_bar_addr + 4 then {| ob_bar := bar_put 14 4 (set_field (one_bar d) 32 32 v) |}
    else d;
}.
Definition example_pci : Pci := {| ecm_start := 0xB0000000; ecm_end := 0xB1000000 |}.
Definition example_bar : OneBar := {| ob_bar := 0xFE800004 |}.

Lemma one_bar_device : bar0_device example_pci 8 one_bar 14 4.
Proof.
  assert (forall x, in_width 64 x -> wrap 64 (bar_put 14 4 x) = bar_put 14 4 x) as Hput.
  { intros x Hx. apply wrap_small, in_width_testbit; [lia| |].
    - apply Z.lor_nonneg. split; [|lia]. apply Z.ldiff_nonneg. left. by destruct Hx.
    - intros i Hi. unfold bar_put. autorewrite with zbits.
      by rewrite (testbit_high 64 x), (testbit_high 4 4) by (done || lia || (split; lia)). }
  assert (forall d, in_width 64 (one_bar d)) as Hw by (intros d; apply wrap_width; lia).
  constructor; try done; try (split; lia); try (simpl; lia).
  - intros d v Hv. unfold one_bar at 1. cbn [cs_write OneBar_ConfigSpace].
    change (_ =? one_bar_addr) with true. cbv iota. cbn [ob_bar]. apply Hput.
    by apply set_field_width; try lia.
  - intros d v Hv. unfold one_bar at 1. cbn [cs_write OneBar_ConfigSpace].
    change (_ =? one_bar_addr) with false. cbv iota.
    change (_ =? one_bar_addr + 4) with true. cbv iota. cbn [ob_bar]. apply Hput.
    by apply set_field_width; try lia.
Qed.

Lemma try_bar0_mem64_sizes_witness :
  exists d', try_bar0_mem64 example_pci 8 example_bar =
    (Ok {| bar_addr := 0xFE800000; bar_size := 0x4000 |}, d') /\ one_bar d' = one_bar example_bar.
Proof.
  apply (proj1 (try_bar0_mem64_sizes example_pci 8 one_bar 14 4 0xFE800000 example_bar
    one_bar_device ltac:(split; lia) ltac:(by exists 0x3FA00) ltac:(reflexivity))). reflexivity.
Defined.
