(* ===== verification/Mutex.v ===== *)
(** * The spin lock: [src/src/mutex.rs].

    [Mutex] gives the lock's atomic operations and the bounded spinning of [lock]; several
    threads (or an interrupt handler and the code it interrupts) take their atomic steps in
    any order. *)

From S2P Require Import Prelude.

Module Mutex.

(** The data and the flag; the recorded locations are only for messages. *)
Record Mutex (T : Type) : Type := { data : T; is_taken : bool }.
Arguments data {T} _.
Arguments is_taken {T} _.

Section operations.
Context {T : Type}.

Definition Mutex_new (d : T) : Mutex T := {| data := d; is_taken := false |}.

Definition set_taken (b : bool) (m : Mutex T) : Mutex T := {| data := data m; is_taken := b |}.
Definition set_data (d : T) (m : Mutex T) : Mutex T := {| data := d; is_taken := is_taken m |}.

(** One [compare_exchange] from [false] to [true]; success is the guard. *)
Definition try_lock : M (Mutex T) unit := fun m =>
  if is_taken m then (Err "Lock faiilsd", m) else (Ok tt, set_taken true m).

(** [MutexGuard::drop]. *)
Definition MutexGuard_drop : M (Mutex T) unit := modify (set_taken false).

(** [lock] alone on the processor: [attempts] times [try_lock], then a panic. *)
Fixpoint lock_attempts (attempts : nat) : M (Mutex T) unit :=
  match attempts with
  | O => panic "Failed to lock mutecx"
  | S attempts => fun m =>
      match try_lock m with
      | (Ok _, m) => (Ok tt, m)
      | (_, m) => lock_attempts attempts m
      end
  end.
Definition LOCK_ATTEMPTS : nat := Z.to_nat 10000.
Definition lock : M (Mutex T) unit := lock_attempts LOCK_ATTEMPTS.

(** [under_locked]: the guard is dropped whatever [f] returns; a panic does not unwind, so
    it leaves the mutex taken. *)
Definition under_locked {R} (f : M T R) : M (Mutex T) R := fun m =>
  match lock m with
  | (Ok _, m) =>
      match f (data m) with
      | (Panic e, d) => (Panic e, set_data d m)
      | (r, d) => (r, set_taken false (set_data d m))
      end
  | (Err e, m) => (Err e, m)
  | (Panic e, m) => (Panic e, m)
  end.
End operations.
End Mutex.
Import Mutex.
Arguments data {T} _.
Arguments is_taken {T} _.

(** ** Threads *)
Module Threads.

(** A thread is outside, spinning with some attempts left, holding the guard, or dead. *)
Inductive Thread : Type := Outside | Spinning (left : nat) | Holding | Panicked.

Record World (T : Type) : Type := { mutex : Mutex T; threads : list Thread }.
Arguments mutex {T} _.
Arguments threads {T} _.

(** The atomic steps of [lock], of the holder's use of the data, and of the guard's drop. *)
Inductive thread_step {T : Type} : World T -> World T -> Prop :=
  | st_lock w i :
      threads w !! i = Some Outside ->
      thread_step w {| mutex := mutex w; threads := <[i := Spinning LOCK_ATTEMPTS]> (threads w) |}
  | st_acquire w i n m' :
      threads w !! i = Some (Spinning (S n)) -> try_lock (mutex w) = (Ok tt, m') ->
      thread_step w {| mutex := m'; threads := <[i := Holding]> (threads w) |}
  | st_spin w i n e m' :
      threads w !! i = Some (Spinning (S n)) -> try_lock (mutex w) = (Err e, m') ->
      thread_step w {| mutex := m'; threads := <[i := Spinning n]> (threads w) |}
  | st_give_up w i :
      threads w !! i = Some (Spinning 0) ->
      thread_step w {| mutex := mutex w; threads := <[i := Panicked]> (threads w) |}
  | st_write w i d :
      threads w !! i = Some Holding ->
      thread_step w {| mutex := set_data d (mutex w); threads := threads w |}
  | st_drop w i m' :
      threads w !! i = Some Holding -> MutexGuard_drop (mutex w) = (Ok tt, m') ->
      thread_step w {| mutex := m'; threads := <[i := Outside]> (threads w) |}.

Inductive threads_reach {T : Type} (n : nat) (d : T) : World T -> Prop :=
  | tr_init : threads_reach n d {| mutex := Mutex_new d; threads := replicate n Outside |}
  | tr_step w w' : threads_reach n d w -> thread_step w w' -> threads_reach n d w'.
End Threads.
Import Threads.
Arguments mutex {T} _.
Arguments threads {T} _.

(** The flag is set exactly when some thread holds the guard, and only one does. *)
Definition mutex_inv {T} (w : World T) : Prop :=
  (is_taken (mutex w) = true <-> exists i, threads w !! i = Some Holding) /\
  (forall i j, threads w !! i = Some Holding -> threads w !! j = Some Holding -> i = j).

Lemma insert_thread (ts : list Thread) i j old new t :
  ts !! i = Some old -> <[i := new]> ts !! j = Some t <->
    (j = i /\ t = new) \/ (j <> i /\ ts !! j = Some t).
Proof.
  intros Hi. pose proof (lookup_lt_Some _ _ _ Hi). destruct (decide (j = i)) as [->|Hne].
  - rewrite list_lookup_insert_eq by done. naive_solver.
  - rewrite list_lookup_insert_ne by done. naive_solver.
Qed.

(** A step of thread [i] that neither takes nor gives up the guard. *)
Lemma mutex_inv_other {T} (m : Mutex T) ts i old new :
  ts !! i = Some old -> old <> Holding -> new <> Holding ->
  mutex_inv {| mutex := m; threads := ts |} -> mutex_inv {| mutex := m; threads := <[i := new]> ts |}.
Proof.
  intros Hi Hold Hnew [Hflag Huniq]. unfold mutex_inv in *. cbn [mutex threads] in *.
  assert (forall j, <[i := new]> ts !! j = Some Holding <-> ts !! j = Some Holding) as Hj.
  { intros j. rewrite (insert_thread ts i j old new) by done. naive_solver. }
  setoid_rewrite Hj. done.
Qed.

Lemma mutex_inv_step {T} (w w' : World T) : mutex_inv w -> thread_step w w' -> mutex_inv w'.
Proof.
  intros Hinv Hstep. destruct Hstep as [[m ts] i Hi|[m ts] i n m' Hi Hl|[m ts] i n e m' Hi Hl|
    [m ts] i Hi|[m ts] i d Hi|[m ts] i m' Hi Hd]; cbn [mutex threads] in *.
  - by eapply mutex_inv_other.
  - unfold try_lock in Hl. destruct (is_taken m) eqn:Hm; [done|]. simplify_eq.
    destruct Hinv as [Hflag Huniq]. cbn [mutex threads] in *.
    assert (forall j, ts !! j <> Some Holding) as Hnone by (intros j Hj; rewrite (proj2 Hflag) in Hm; [done|by exists j]).
    split; cbn [mutex threads set_taken is_taken].
    + split; [|done]. intros _. exists i. apply list_lookup_insert_eq. by eapply lookup_lt_Some.
    + intros j k. rewrite !(insert_thread ts i _ _ Holding) by done. naive_solver.
  - unfold try_lock in Hl. destruct (is_taken m) eqn:Hm; [|done]. simplify_eq. by eapply mutex_inv_other.
  - by eapply mutex_inv_other.
  - done.
  - injection Hd as <-. destruct Hinv as [Hflag Huniq]. cbn [mutex threads] in *.
    assert (forall j, <[i := Outside]> ts !! j <> Some Holding) as Hnone.
    { intros j. rewrite (insert_thread ts i j Holding) by done. intros [[_ ?]|[Hne Hj]]; [done|].
      by apply Hne, Huniq. }
    split; cbn [mutex threads set_taken is_taken].
    + split; [done|]. intros [j Hj]. by apply Hnone in Hj.
    + intros j k Hj. by apply Hnone in Hj.
Qed.

Lemma mutex_reach_inv {T} n (d : T) w : threads_reach n d w -> mutex_inv w.
Proof.
  induction 1 as [|w w' _ IH Hstep]; [|by eapply mutex_inv_step].
  assert (forall j, (replicate n Outside) !! j <> Some Holding) as Hnone
    by (intros j [? _]%lookup_replicate; done).
  split; cbn [mutex threads]; [split; [done|intros [j Hj]; by apply Hnone in Hj]|intros j k Hj; by apply Hnone in Hj].
Qed.

(** C14. Mutual exclusion: in every interleaving of any number of threads that lock, spin (at
    most 10000 times), use the data and drop their guards, at most one thread holds a guard;
    while one does, every [try_lock] fails and changes nothing; and once it is dropped the
    next attempt succeeds. *)
Theorem mutex_exclusion {T} (n : nat) (d : T) (w : World T) (Hreach : threads_reach n d w) :
  (forall i j, threads w !! i = Some Holding -> threads w !! j = Some Holding -> i = j) /\
  ((exists i, threads w !! i = Some Holding) -> try_lock (mutex w) = (Err "Lock faiilsd", mutex w)) /\
  (~ (exists i, threads w !! i = Some Holding) -> (try_lock (mutex w)).1 = Ok tt).
Proof.
  destruct (mutex_reach_inv n d w Hreach) as [Hflag Huniq]. split; [done|].
  unfold try_lock. destruct (is_taken (mutex w)) eqn:Hm.
  - split; [done|]. intros Hno. exfalso. by apply Hno, Hflag.
  - split; [|done]. intros Hex. apply Hflag in Hex. congruence.
Qed.

(** Two threads, the first holding the guard. *)
Definition example_world : World Z :=
  {| mutex := {| data := 7; is_taken := true |}; threads := [Holding; Outside] |}.

Lemma mutex_exclusion_witness : try_lock (mutex example_world) = (Err "Lock faiilsd", mutex example_world).
Proof.
  refine (proj1 (proj2 (mutex_exclusion 2 7 example_world _)) (ex_intro _ 0%nat eq_refl)).
  apply (tr_step 2 7 {| mutex := Mutex_new 7; threads := [Spinning LOCK_ATTEMPTS; Outside] |}).
  - apply (tr_step 2 7 {| mutex := Mutex_new 7; threads := [Outside; Outside] |}); [apply tr_init|].
    by apply (st_lock {| mutex := Mutex_new 7; threads := [Outside; Outside] |} 0).
  - by apply (st_acquire {| mutex := Mutex_new 7; threads := [Spinning LOCK_ATTEMPTS; Outside] |}
      0 (Nat.pred LOCK_ATTEMPTS)).
Defined.

Lemma lock_attempts_taken {T} n (m : Mutex T) :
  is_taken m = true -> lock_attempts n m = (Panic "Failed to lock mutecx", m).
Proof.
  intros Hm. induction n as [|n IH]; [done|]. cbn [lock_attempts]. unfold try_lock. by rewrite Hm.
Qed.

Lemma lock_free {T} (m : Mutex T) : is_taken m = false -> lock m = (Ok tt, set_taken true m).
Proof.
  intros Hm. unfold lock, LOCK_ATTEMPTS. destruct (Z.to_nat 10000) eqn:E; [done|].
  cbn [lock_attempts]. unfold try_lock. by rewrite Hm.
Qed.

(** [lock] terminates: on a free mutex it takes the guard at once, and on one that stays
    taken (the caller itself holds it, on a single processor) it panics instead of
    spinning for ever; [under_locked] runs its closure on the data and leaves the mutex
    free whether the closure succeeds or fails. *)
Theorem lock_terminates {T R} (m : Mutex T) (f : M T R) :
  lock m = (if is_taken m then (Panic "Failed to lock mutecx", m) else (Ok tt, set_taken true m)) /\
  (is_taken m = false -> (forall e, (f (data m)).1 <> Panic e) ->
   under_locked f m = ((f (data m)).1, Mutex_new (f (data m)).2)).
Proof.
  split.
  - destruct (is_taken m) eqn:Hm; [by apply lock_attempts_taken|by apply lock_free].
  - intros Hm. unfold under_locked. rewrite lock_free by done. cbn [set_taken data].
    intros Hnp. destruct (f (data m)) as [[r|e|e] d']; [done|done|]. by destruct (Hnp e).
Qed.

Lemma lock_terminates_witness :
  under_locked (modify (Z.add 1)) (Mutex_new 41) = (Ok tt, Mutex_new 42).
Proof. exact (proj2 (lock_terminates (Mutex_new 41) (modify (Z.add 1))) eq_refl ltac:(done)). Defined.
