(* ===== verification/Executor.v ===== *)
(** * The clock and the scheduler: [src/src/hpet.rs], [src/src/executor.rs].

    [Hpet] is the high precision event timer: its set-up and the timestamp.  [Executor] is
    the cooperative scheduler: a queue of futures polled in turn.  What a future is, is the
    caller's business: [Future] gives the effect of one poll on the world, and the tasks it
    spawns; [TaskLog] is the line the executor prints for a task that is over. *)

From S2P Require Import Prelude.

Module Hpet.

Definition TIMER_CONFIG_LEVEL_TRIGGER : Z := Z.shiftl 1 1.
Definition TIMER_CONFIG_INT_ENABLE : Z := Z.shiftl 1 2.
Definition TIMER_CONFIG_USE_PERIODIC_MODE : Z := Z.shiftl 1 3.

(** [HpetRegisters]; a timer is its configuration register. *)
Record HpetRegisters : Type := {
  capabilities_and_id : Z; configuration : Z; main_counter_value : Z; timers : list Z;
}.
Definition set_configuration (c : Z) (r : HpetRegisters) : HpetRegisters :=
  {| capabilities_and_id := capabilities_and_id r; configuration := c;
     main_counter_value := main_counter_value r; timers := timers r |}.
Definition set_main_counter (v : Z) (r : HpetRegisters) : HpetRegisters :=
  {| capabilities_and_id := capabilities_and_id r; configuration := configuration r;
     main_counter_value := v; timers := timers r |}.
Definition set_timers (ts : list Z) (r : HpetRegisters) : HpetRegisters :=
  {| capabilities_and_id := capabilities_and_id r; configuration := configuration r;
     main_counter_value := main_counter_value r; timers := ts |}.

Record Hpet : Type := { num_of_timers : Z; freq : Z }.

Definition div_chk (x y : Z) : outcome Z :=
  if y =? 0 then Panic "attempt to divide by zero" else Ok (x / y).

Definition globally_disable : M HpetRegisters unit :=
  modify (fun r => set_configuration (Z.land (configuration r) (wnot 64 1)) r).
Definition globally_enable : M HpetRegisters unit :=
  modify (fun r => set_configuration (Z.lor (configuration r) 1) r).

(** [!(TIMER_CONFIG_INT_ENABLE | ... | (0b11111 << 9))] *)
Definition timer_mask : Z :=
  wnot 64 (Z.lor (Z.lor (Z.lor TIMER_CONFIG_INT_ENABLE TIMER_CONFIG_USE_PERIODIC_MODE)
    TIMER_CONFIG_LEVEL_TRIGGER) (Z.shiftl 31 9)).

Definition reset_timer (i : Z) : M HpetRegisters unit :=
  r ← get;
  match timers r !! Z.to_nat i with
  | None => panic "index out of bounds"
  | Some config => modify (set_timers (<[Z.to_nat i := Z.land config timer_mask]> (timers r)))
  end.

Definition Hpet_new : M HpetRegisters Hpet :=
  r ← get;
  let fs_per_count := Z.shiftr (capabilities_and_id r) 32 in
  let num_of_timers := Z.land (Z.shiftr (capabilities_and_id r) 8) 31 + 1 in
  freq ← lift (div_chk 1000000000000000 fs_per_count);
  globally_disable;;
  for_each (range 0 num_of_timers) reset_timer;;
  modify (set_main_counter 0);;
  globally_enable;;
  mret {| num_of_timers := num_of_timers; freq := freq |}.

(** The [static HPET], before it is set. *)
Definition HPET : option Hpet := None.
Definition set_global_hpet (h : Hpet) : M (option Hpet) unit :=
  g ← get;
  match g with Some _ => panic "assertion failed" | None => put (Some h) end.

(** [global_timestamp], as nanoseconds; [main_counter] is what the counter register reads. *)
Definition global_timestamp (hpet : option Hpet) (main_counter : Z) : outcome Z :=
  match hpet with
  | None => Ok 0
  | Some h =>
      t ← mul_chk 128 main_counter 1000000000;
      ns ← div_chk t (freq h);
      Ok (wrap 64 ns)
  end.
End Hpet.
Import Hpet.

Module Executor.

Inductive Poll (A : Type) : Type := Ready (a : A) | Pending.
Arguments Ready {A} a.
Arguments Pending {A}.

(** A [dyn Future<Output = Result<T>>] over the world [W]: one poll gives the answer, the
    future's new state, the tasks that [spawn_global] was called with, and the world. *)
Class Future (W F T : Type) : Type := {
  poll : F -> W -> Poll (outcome T) * F * list F * W;
}.

(** [info!("Task completed: {:?}: {:?}", task, result)]: what the executor logs of a task
    that is over goes to the world's console. *)
Class TaskLog (W F : Type) : Type := { log_completed : F -> outcome unit -> M W unit }.

(** The executor: its queue, which is made on first use. *)
Record Executor (F : Type) : Type := { task_queue : option (list F) }.
Arguments task_queue {F} _.
Arguments Build_Executor {F} _.

Section executor.
Context {W F : Type} {Fut : Future W F unit} {Log : TaskLog W F}.

Definition Executor_new : Executor F := {| task_queue := None |}.
Definition queue (e : Executor F) : list F :=
  match task_queue e with None => [] | Some q => q end.
Definition enqueue (task : F) (e : Executor F) : Executor F :=
  {| task_queue := Some (queue e ++ [task]) |}.

(** The [static GLOBAL_EXECUTOR] is [None] until something is spawned. *)
Definition spawn_global (task : F) (g : option (Executor F)) : option (Executor F) :=
  Some (enqueue task (default Executor_new g)).

(** One iteration of [Executor::run]'s loop.  A poll that panics never comes back: the
    kernel is in its panic handler, and no other task is polled. *)
Definition run_once : M (option (Executor F) * W) unit := fun '(g, w) =>
  match g with
  | None => (Ok tt, (g, w))
  | Some e =>
      match queue e with
      | [] => (Ok tt, (Some {| task_queue := Some [] |}, w))
      | task :: rest =>
          let g := Some {| task_queue := Some rest |} in
          let '(r, task, spawned, w) := poll task w in
          let g := foldl (fun g t => spawn_global t g) g spawned in
          match r with
          | Ready (Panic m) => (Panic m, (g, w))
          | Ready result => let '(o, w) := log_completed task result w in (o, (g, w))
          | Pending =>
              (Ok tt, (match g with Some e => Some (enqueue task e) | None => None end, w))
          end
      end
  end.

(** The loop, cut off after [n] iterations. *)
Fixpoint run (n : nat) : M (option (Executor F) * W) unit :=
  match n with O => mret tt | S n => run_once;; run n end.
End executor.

(** [block_on]: poll until ready. *)
Fixpoint block_on {W F T} {Fut : Future W F T} (fuel : nat) (f : F) (w : W) : option (outcome T * W) :=
  match fuel with
  | O => None
  | S fuel =>
      match poll f w with
      | (Ready r, _, _, w) => Some (r, w)
      | (Pending, f, _, w) => block_on fuel f w
      end
  end.

(** [Yield]: pending once. *)
Record Yield : Type := { polled : bool }.
Definition Yield_default : Yield := {| polled := false |}.
Definition Yield_poll (y : Yield) : Poll unit * Yield :=
  (if polled y then Ready tt else Pending, {| polled := true |}).

(** [TimeoutFuture], in nanoseconds of [global_timestamp]; [Duration]s do not wrap. *)
Record TimeoutFuture : Type := { time_out : Z }.
Definition TimeoutFuture_new (now duration : Z) : TimeoutFuture := {| time_out := now + duration |}.
Definition TimeoutFuture_poll (f : TimeoutFuture) (now : Z) : Poll unit :=
  if time_out f <? now then Ready tt else Pending.
End Executor.
Import Executor.
Arguments Ready {A} a.
Arguments Pending {A}.
Arguments task_queue {F} _.

(** ** The timer *)

Lemma reset_timers_eq n : forall r,
  (n <= length (timers r))%nat ->
  for_each (range 0 (Z.of_nat n)) reset_timer r =
    (Ok tt, set_timers (((fun c => Z.land c timer_mask) <$> take n (timers r)) ++ drop n (timers r)) r).
Proof.
  assert (forall m r, (m <= length (timers r))%nat -> forall k, (k <= m)%nat ->
    for_each ((fun i => 0 + Z.of_nat i) <$> seq (m - k) k) reset_timer
      (set_timers (((fun c => Z.land c timer_mask) <$> take (m - k) (timers r)) ++ drop (m - k) (timers r)) r) =
    (Ok tt, set_timers (((fun c => Z.land c timer_mask) <$> take m (timers r)) ++ drop m (timers r)) r)) as H.
  { intros m r Hm. induction k as [|k IH]; intros Hk.
    - by rewrite Nat.sub_0_r.
    - specialize (IH ltac:(lia)). cbn [seq fmap list_fmap for_each].
      set (j := (m - S k)%nat) in *. replace (m - k)%nat with (S j) in IH by (unfold j; lia).
      destruct (lookup_lt_is_Some_2 (timers r) j) as [c Hc]; [unfold j; lia|].
      rewrite (bind_ok _ _ _ tt (set_timers (((fun c => Z.land c timer_mask) <$> take (S j) (timers r)) ++ drop (S j) (timers r)) r)); [exact IH|].
      unfold reset_timer. mstep. cbn [set_timers timers].
      replace (Z.to_nat (0 + Z.of_nat j)) with j by lia.
      assert (length ((fun c => Z.land c timer_mask) <$> take j (timers r)) = j) as Hl
        by (rewrite length_fmap, length_take; lia).
      rewrite lookup_app_r by lia. rewrite Hl, Nat.sub_diag, lookup_drop, Nat.add_0_r, Hc.
      unfold modify, set_timers. do 3 f_equal. cbn [timers]. rewrite insert_app_r_alt by lia.
      rewrite Hl, Nat.sub_diag. rewrite (drop_S _ _ _ Hc). cbn [insert list_insert].
      rewrite (take_S_r _ _ _ Hc), fmap_app, <- (assoc_L (++)). done. }
  intros r Hr. specialize (H n r Hr n ltac:(lia)). rewrite Nat.sub_diag in H. cbn [take drop fmap list_fmap app] in H.
  unfold range. rewrite Z.sub_0_r, Nat2Z.id. destruct r; exact H.
Qed.

Lemma num_timers_bound c : 1 <= Z.land (Z.shiftr c 8) 31 + 1 <= 32.
Proof.
  change 31 with (Z.ones 5). rewrite Z.land_ones by lia. pose proof (Z.mod_pos_bound (Z.shiftr c 8) (2 ^ 5)). lia.
Qed.

(** Timer set-up: [Hpet::new] divides by the period without fault exactly when the
    capability register's period is not 0, never indexes beyond the 32 timers, and leaves
    the timer enabled (bit 0 of the configuration set, its other bits kept) with a counter
    of 0 and the interrupt, periodic, level and routing bits of exactly the implemented
    timers cleared. *)
Theorem hpet_new_correct (r : HpetRegisters)
  (Hlen : length (timers r) = 32%nat) (Hw : in_width 64 (configuration r)) :
  (Z.shiftr (capabilities_and_id r) 32 = 0 ->
   Hpet_new r = (Panic "attempt to divide by zero", r)) /\
  (Z.shiftr (capabilities_and_id r) 32 <> 0 -> exists h r',
   Hpet_new r = (Ok h, r') /\
   1 <= num_of_timers h <= 32 /\
   freq h = 1000000000000000 / Z.shiftr (capabilities_and_id r) 32 /\
   main_counter_value r' = 0 /\
   configuration r' = set_field (configuration r) 0 1 1 /\
   length (timers r') = 32%nat /\
   (forall i c, timers r !! i = Some c ->
      timers r' !! i = Some (if decide (Z.of_nat i < num_of_timers h)
                             then Z.land c timer_mask else c))).
Proof.
  unfold Hpet_new. split; intros Hp.
  - mstep. rewrite Hp. reflexivity.
  - pose proof (num_timers_bound (capabilities_and_id r)) as Hn.
    set (n := Z.land (Z.shiftr (capabilities_and_id r) 8) 31 + 1) in *.
    mstep. fold n. unfold div_chk. rewrite (proj2 (Z.eqb_neq _ _)) by done. do 2 mstep.
    pose proof (reset_timers_eq (Z.to_nat n)
      (set_configuration (Z.land (configuration r) (wnot 64 1)) r)
      ltac:(cbn [set_configuration timers]; lia)) as Hr. rewrite Z2Nat.id in Hr by lia.
    rewrite (bind_ok _ _ _ _ _ Hr).
    do 2 mstep. eexists _, _. split; [reflexivity|].
    cbn [num_of_timers freq set_configuration set_main_counter set_timers timers configuration main_counter_value].
    split_and!; try done; try lia.
    + rewrite <- (clear_or_is_set_field 64 (configuration r) 0 1 1) by (done || lia). done.
    + rewrite length_app, length_fmap, length_take, length_drop. lia.
    + intros i c Hi. case_decide as Hlt.
      * rewrite lookup_app_l by (rewrite length_fmap, length_take; apply lookup_lt_Some in Hi; lia).
        rewrite list_lookup_fmap, lookup_take_lt by lia. by rewrite Hi.
      * rewrite lookup_app_r by (rewrite length_fmap, length_take; lia).
        rewrite length_fmap, length_take, lookup_drop.
        replace (Z.to_nat n + (i - Z.to_nat n `min` length (timers r)))%nat with i by lia. done.
Qed.

Definition example_hpet_registers : HpetRegisters :=
  {| capabilities_and_id := 0x989680_8086A201; configuration := 3; main_counter_value := 99;
     timers := replicate 32 0xF0FF |}.

Lemma hpet_new_correct_witness :
  exists h r', Hpet_new example_hpet_registers = (Ok h, r') /\ freq h = 100000000 /\
    main_counter_value r' = 0 /\ timers r' !! 0%nat = Some 0xC0F1.
Proof.
  destruct (proj2 (hpet_new_correct example_hpet_registers eq_refl ltac:(split; vm_compute; done)) ltac:(vm_compute; discriminate))
    as (h & r' & Hrun & Hn & Hf & Hc & _ & _ & Ht).
  exists h, r'. split; [exact Hrun|]. split; [rewrite Hf; reflexivity|]. split; [exact Hc|].
  rewrite (Ht 0%nat 0xF0FF eq_refl). rewrite decide_True by (simpl; lia). reflexivity.
Defined.

(** The clock: the timestamp is the counter converted to nanoseconds, rounded down; the
    128-bit product cannot overflow; and as long as the time since the counter's start fits
    64 bits of nanoseconds (584 years), a later counter gives a later or equal time. *)
Theorem timestamp_monotone (h : Hpet) (c c' : Z)
  (Hc : 0 <= c <= c') (Hc' : c' < 2 ^ 64) (Hf : 0 < freq h) (Hns : c' * 1000000000 / freq h < 2 ^ 64) :
  exists t t', global_timestamp (Some h) c = Ok t /\ global_timestamp (Some h) c' = Ok t' /\
    t = c * 1000000000 / freq h /\ t <= t' /\ in_width 64 t'.
Proof.
  unfold global_timestamp.
  rewrite (mul_chk_ok 128 c), (mul_chk_ok 128 c') by nia. cbn [mbind outcome_bind].
  unfold div_chk. rewrite (proj2 (Z.eqb_neq _ _)) by lia. cbn [mbind outcome_bind].
  assert (c * 1000000000 / freq h <= c' * 1000000000 / freq h) by (apply Z.div_le_mono; lia).
  assert (0 <= c * 1000000000 / freq h) by (apply Z.div_pos; lia).
  rewrite !wrap_small by (split; lia). eexists _, _. unfold in_width. split_and!; done || lia.
Qed.

Lemma timestamp_monotone_witness :
  exists t t', global_timestamp (Some {| num_of_timers := 3; freq := 100000000 |}) 150 = Ok t /\
    global_timestamp (Some {| num_of_timers := 3; freq := 100000000 |}) 250 = Ok t' /\
    t = 1500 /\ t <= t' /\ in_width 64 t'.
Proof. apply timestamp_monotone; vm_compute; intuition discriminate. Defined.

(** ** The scheduler *)

Section scheduler.
Context {W F : Type} {Fut : Future W F unit} {Log : TaskLog W F}.

Lemma spawn_foldl (ts : list F) : forall e : Executor F,
  foldl (fun g t => spawn_global t g) (Some e) ts =
    Some (if decide (ts = []) then e else {| task_queue := Some (queue e ++ ts) |}).
Proof.
  induction ts as [|t ts IH]; intros e; [done|]. cbn [foldl].
  change (spawn_global t (Some e)) with (Some (enqueue t e)). rewrite IH. destruct (decide (t :: ts = [])) as [|_]; [done|]. case_decide as Hts.
  - by subst.
  - unfold enqueue. cbn [queue task_queue]. by rewrite <- (assoc_L (++)).
Qed.

(** One turn of a task: what it spawned and, if it is pending, what is left of it, to go to
    the end of the queue; an error is one the loop does not come back from. *)
Definition take_turn (t : F) (w : W) : outcome (list F) * W :=
  let '(r, t', spawned, w) := poll t w in
  match r with
  | Pending => (Ok (spawned ++ [t']), w)
  | Ready (Panic m) => (Panic m, w)
  | Ready result => let '(o, w) := log_completed t' result w in (_ ← o; Ok spawned, w)
  end.

(** One round: the tasks of [ts] in order, up to one that does not come back; which tasks
    had a turn, and what goes back to the queue. *)
Fixpoint poll_all (ts : list F) (w : W) : list F * outcome (list F) * W :=
  match ts with
  | [] => ([], Ok [], w)
  | t :: ts =>
      let '(back, w) := take_turn t w in
      match back with
      | Ok back => let '(had, q, w) := poll_all ts w in (t :: had, q ← q; Ok (back ++ q), w)
      | _ => ([t], back, w)
      end
  end.

(** The tasks that [n] iterations poll. *)
Fixpoint polled_tasks (n : nat) (s : option (Executor F) * W) : list F :=
  match n with
  | O => []
  | S n =>
      match s.1 with Some e => take 1 (queue e) | None => [] end ++
      match run_once s with (Ok _, s) => polled_tasks n s | _ => [] end
  end.

Lemma run_once_turn t rest (w : W) : exists g,
  run_once (Some {| task_queue := Some (t :: rest) |}, w) =
    (let '(back, w') := take_turn t w in (_ ← back; Ok tt, (g, w'))) /\
  match (take_turn t w).1 with Ok back => exists e, g = Some e /\ queue e = rest ++ back | _ => True end.
Proof.
  unfold run_once, take_turn. cbn [queue task_queue]. destruct (poll t w) as [[[r t'] sp] w']. rewrite spawn_foldl.
  assert (forall e, queue e = rest ++ sp -> Some (if decide (sp = []) then {| task_queue := Some rest |}
      else {| task_queue := Some (queue {| task_queue := Some rest |} ++ sp) |}) = Some e ->
    queue (enqueue t' e) = rest ++ sp ++ [t']) as Henq.
  { intros e He _. unfold enqueue. cbn [queue task_queue]. by rewrite He, <- (assoc_L (++)). }
  set (e := if decide (sp = []) then _ else _) in *.
  assert (queue e = rest ++ sp) as He.
  { unfold e. case_decide as Hs; [subst; by rewrite app_nil_r|done]. }
  destruct r as [[a|m|m]|].
  - exists (Some e). destruct (log_completed t' (Ok a) w') as [[[]|m|m] w2]; split; try done. by exists e.
  - exists (Some e). destruct (log_completed t' (Err m) w') as [[[]|m'|m'] w2]; split; try done. by exists e.
  - by exists (Some e).
  - exists (Some (enqueue t' e)). split; [done|]. exists (enqueue t' e). split; [done|]. by apply Henq.
Qed.

(** Rounds and iterations agree: [n] iterations go once through the [n] tasks at the front. *)
Lemma round_spec ts : forall (e : Executor F) rest w had q w',
  queue e = ts ++ rest -> poll_all ts w = (had, q, w') ->
  polled_tasks (length ts) (Some e, w) = had /\
  exists g, run (length ts) (Some e, w) = (_ ← q; Ok tt, (g, w')) /\
    match q with Ok q => exists e', g = Some e' /\ queue e' = rest ++ q | _ => True end.
Proof.
  induction ts as [|t ts IH]; intros e rest w had q w' Hq Hall; cbn [length polled_tasks run poll_all] in *.
  - simplify_eq. split; [done|]. exists (Some e). split; [done|]. exists e. by rewrite app_nil_r.
  - assert (e = {| task_queue := Some (t :: ts ++ rest) |} ) as -> by
      (destruct e as [[l|]]; cbn [queue task_queue app] in Hq; [by subst|done]).
    destruct (run_once_turn t (ts ++ rest) w) as (g & Hrun & Hg).
    destruct (take_turn t w) as [back w1]. cbn [fst] in *. destruct back as [back|m|m].
    + destruct Hg as (e1 & -> & Hq1). rewrite <- (assoc_L (++)) in Hq1.
      destruct (poll_all ts w1) as [[had1 q1] w2] eqn:E. simplify_eq.
      destruct (IH e1 (rest ++ back) w1 had1 q1 w' Hq1 E) as (Hp & g2 & Hr2 & Hq2).
      split; [by rewrite Hrun; cbn; rewrite Hp|]. exists g2. split.
      * rewrite (bind_ok _ _ _ _ _ Hrun). rewrite Hr2. by destruct q1.
      * destruct q1 as [q1| |]; [|done..]. destruct Hq2 as (e2 & -> & Hq2). exists e2. split; [done|].
        by rewrite Hq2, <- (assoc_L (++)).
    + simplify_eq. split; [by rewrite Hrun|]. exists g. by rewrite (bind_err _ _ _ _ _ Hrun).
    + simplify_eq. split; [by rewrite Hrun|]. exists g. by rewrite (bind_panic _ _ _ _ _ Hrun).
Qed.

(** A round goes through all tasks, or ends with the first one that does not come back. *)
Lemma poll_all_had ts : forall w had q w', poll_all ts w = (had, q, w') ->
  match q with
  | Ok _ => had = ts
  | _ => exists pre t post back w0, ts = pre ++ t :: post /\ had = pre ++ [t] /\
      poll_all pre w = (pre, Ok back, w0) /\ take_turn t w0 = (q, w')
  end.
Proof.
  induction ts as [|t ts IH]; intros w had q w' H; cbn [poll_all] in H; [by simplify_eq|].
  destruct (take_turn t w) as [back w1] eqn:Ht. destruct back as [back|m|m].
  - destruct (poll_all ts w1) as [[had1 q1] w2] eqn:E. specialize (IH _ _ _ _ E). simplify_eq.
    destruct q1 as [q1|m|m]; cbn [mbind outcome_bind]; [by subst|..];
      destruct IH as (pre & t' & post & b & w0 & -> & -> & Hpre & Hlast);
      exists (t :: pre), t', post, (back ++ b), w0; cbn [poll_all]; by rewrite Ht, Hpre.
  - simplify_eq. by exists [], t, ts, [], w.
  - simplify_eq. by exists [], t, ts, [], w.
Qed.
End scheduler.

(** C22. Round-robin scheduling: from any queue, the next [length q] iterations of the
    executor poll every waiting task exactly once, in queue order, and afterwards the queue
    is what they spawned and the tasks still pending, in that order; unless a poll (or the
    log of its result) panics: then the tasks before it have had their turn, the loop ends
    there with the panic, and no task behind it is polled. *)
Theorem executor_round_robin {W F} {Fut : Future W F unit} {Log : TaskLog W F} (e : Executor F) (w : W) :
  let '(had, back, w') := poll_all (queue e) w in
  polled_tasks (length (queue e)) (Some e, w) = had /\
  match back with
  | Ok q => had = queue e /\
      exists e', run (length (queue e)) (Some e, w) = (Ok tt, (Some e', w')) /\ queue e' = q
  | stop => exists pre t post q w0 g, queue e = pre ++ t :: post /\ had = pre ++ [t] /\
      poll_all pre w = (pre, Ok q, w0) /\ take_turn t w0 = (stop, w') /\
      run (length (queue e)) (Some e, w) = (_ ← stop; Ok tt, (g, w'))
  end.
Proof.
  destruct (poll_all (queue e) w) as [[had back] w'] eqn:E.
  destruct (round_spec (queue e) e [] w had back w') as (Hp & g & Hr & Hg); [by rewrite app_nil_r|done|].
  pose proof (poll_all_had _ _ _ _ _ E) as Hhad. split; [done|].
  destruct back as [q|m|m].
  - split; [done|]. destruct Hg as (e' & -> & Hq). by exists e'.
  - destruct Hhad as (pre & t & post & b & w0 & H). exists pre, t, post, b, w0, g. naive_solver.
  - destruct Hhad as (pre & t & post & b & w0 & H). exists pre, t, post, b, w0, g. naive_solver.
Qed.

(** Tasks that yield a number of times and log themselves; 9 panics. *)
#[export] Instance countdown_Future : Future (list nat) nat unit := {
  poll n log := match n with
                | O => (Ready (Ok tt), O, [], log ++ [O])
                | 9%nat => (Ready (Panic "nine"), n, [], log)
                | S m => (Pending, m, [], log ++ [n])
                end;
}.
#[export] Instance countdown_Log : TaskLog (list nat) nat := { log_completed _ _ := mret tt }.

Example countdown_run : run 4 (Some {| task_queue := Some [2; 0; 1]%nat |}, []) =
  (Ok tt, (Some {| task_queue := Some [0; 0]%nat |}, [2; 0; 1; 1]%nat)).
Proof. reflexivity. Qed.
Example countdown_panic : run 3 (Some {| task_queue := Some [2; 9; 1]%nat |}, []) =
  (Panic "nine", (Some {| task_queue := Some [1; 1]%nat |}, [2]%nat)).
Proof. reflexivity. Qed.
