(* ===== verification/Await.v ===== *)
(** * Awaiting an event: the tasks of [PciXhciDriver::run] in [src/src/xhci.rs] on the
    executor of [src/src/executor.rs].

    [run] spawns a task that polls the event ring for ever, and itself awaits an
    [EventFuture] after every command and transfer.  This file puts the two, with any other
    tasks, on the executor's queue, and lets the controller write events at any time between
    the executor's iterations. *)

From S2P Require Import Prelude Bits Trb Event Executor.
Import Trb.Trb Trb.TrbRing Event.Event EventProtocol Executor.Executor.

Module Await.

(** The tasks, by where they resume: the polling loop at its start, or in its
    [yield_execution().await]; the driver before it makes its [EventFuture] or in the
    future's [await]; the other tasks of the kernel, which leave the ring alone. *)
Inductive XhcTask : Type :=
  | PollLoop
  | PollYield (y : Yield)
  | AwaitNew (c : EventWaitCond)
  | Awaiting (w : nat)
  | Elsewhere.

(** The ring with the controller, and what the [await] returned. *)
Record World : Type := { sys : EventSystem; answer : option GenericTrbEntry }.

(** A method of the event ring; [popped] records the events it takes. *)
Definition taken (e : EventRing) : list GenericTrbEntry :=
  match pop e with (Ok (Some t), _) => [t] | _ => [] end.
Definition with_ev (new : list GenericTrbEntry) (e : EventRing) (s : EventSystem) : EventSystem :=
  {| ev := e; enq := enq s; pcs := pcs s; produced := produced s; popped := popped s ++ new |}.
Definition set_sys (s : EventSystem) (w : World) : World := {| sys := s; answer := answer w |}.

(** The body of the loop up to the first [Pending] of the yield: an error is logged. *)
Definition poll_body (w : World) : Poll (outcome unit) * XhcTask * World :=
  let '(r, e) := EventRing_poll (ev (sys w)) in
  let w := set_sys (with_ev (taken (ev (sys w))) e (sys w)) w in
  match r with
  | Panic p => (Ready (Panic p), PollLoop, w)
  | _ => let '(_, y) := Yield_poll Yield_default in (Pending, PollYield y, w)
  end.

(** [EventFuture::poll]; a future that is ready is dropped. *)
Definition poll_future (f : nat) (w : World) : Poll (outcome unit) * XhcTask * World :=
  let '(r, e) := EventFuture_poll f (ev (sys w)) in
  match r with
  | Ok None => (Pending, Awaiting f, set_sys (with_ev [] e (sys w)) w)
  | Ok (Some t) =>
      let e := (EventFuture_drop f e).2 in
      (Ready (Ok tt), Awaiting f, {| sys := with_ev [] e (sys w); answer := Some t |})
  | Err m | Panic m => (Ready (Panic m), Awaiting f, set_sys (with_ev [] e (sys w)) w)
  end.

Definition task_poll (t : XhcTask) (w : World) : Poll (outcome unit) * XhcTask * World :=
  match t with
  | PollLoop => poll_body w
  | PollYield y =>
      match Yield_poll y with
      | (Ready _, _) => poll_body w
      | (Pending, y) => (Pending, PollYield y, w)
      end
  | AwaitNew c =>
      match EventFuture_new c (ev (sys w)) with
      | (Ok f, e) => poll_future f (set_sys (with_ev [] e (sys w)) w)
      | (Err m, e) | (Panic m, e) => (Ready (Panic m), AwaitNew c, set_sys (with_ev [] e (sys w)) w)
      end
  | Awaiting f => poll_future f w
  | Elsewhere => (Pending, Elsewhere, w)
  end.

#[export] Instance XhcTask_Future : Future World XhcTask unit := {
  poll t w := let '(r, t, w) := task_poll t w in (r, t, [], w) }.

(** What the executor logs goes to the console, which is not part of this world. *)
#[export] Instance XhcTask_Log : TaskLog World XhcTask := { log_completed _ _ := mret tt }.

(** The controller writes an event if the driver has left it room, or the executor goes
    round its loop once. *)
Inductive moment : Type := Written (t : GenericTrbEntry) | Iterated.

Definition running : Type := option (Executor XhcTask) * World.

Definition advance (m : moment) : M running unit :=
  match m with
  | Written t => modify (fun s =>
      if (length (produced (sys s.2)) <? length (popped (sys s.2)) + 15)%nat
      then (s.1, set_sys (controller_writes t (sys s.2)) s.2) else s)
  | Iterated => run_once
  end.
Definition advances (ms : list moment) : M running unit := for_each ms advance.
Definition iterations (ms : list moment) : nat :=
  length (List.filter (fun m => match m with Iterated => true | _ => false end) ms).
End Await.
Import Await.

(** ** The waiter *)

Definition is_poller (t : XhcTask) : bool := match t with PollLoop | PollYield _ => true | _ => false end.
Definition is_awaiter (t : XhcTask) : bool := match t with AwaitNew _ | Awaiting _ => true | _ => false end.

(** The polling task's yield has been polled once whenever it is on the queue. *)
Definition task_ok (t : XhcTask) : Prop := match t with PollYield y => polled y = true | _ => True end.

(** The events for [c] among those popped since [n0]. *)
Definition matched (c : EventWaitCond) (n0 : nat) (s : EventSystem) : list GenericTrbEntry :=
  List.filter (accepts c) (drop n0 (popped s)).

(** Where the await is: the future not made, waiting, or finished. *)
Inductive phase (c : EventWaitCond) (n0 : nat) : list XhcTask -> World -> Prop :=
  | phase_new q w :
      List.filter is_awaiter q = [] -> infos (ev (sys w)) = ∅ -> length (popped (sys w)) = n0 -> answer w = None ->
      phase c n0 (AwaitNew c :: q) w
  | phase_waiting q w f :
      List.filter is_awaiter q = [Awaiting f] ->
      infos (ev (sys w)) = {[f := {| cond := c; trbs := matched c n0 (sys w) |}]} -> f ∈ wait_list (ev (sys w)) ->
      (n0 <= length (popped (sys w)))%nat -> answer w = None ->
      phase c n0 q w
  | phase_done q w t :
      List.filter is_awaiter q = [] -> infos (ev (sys w)) = ∅ -> (n0 <= length (popped (sys w)))%nat ->
      head (matched c n0 (sys w)) = Some t -> answer w = Some t ->
      phase c n0 q w.

Record await_inv (addr p : Z) (c : EventWaitCond) (n0 : nat) (s : running) : Prop := {
  ai_ring : ev_reachable addr p (sys s.2);
  ai_tasks : exists q, s.1 = Some {| task_queue := Some q |} /\ Forall task_ok q /\
    existsb is_poller q = true /\ phase c n0 q s.2;
}.

Lemma matched_app c n0 s new e : (n0 <= length (popped s))%nat ->
  matched c n0 (with_ev new e s) = matched c n0 s ++ List.filter (accepts c) new.
Proof.
  intros Hn. unfold matched. cbn [popped with_ev]. by rewrite drop_app_le, List.filter_app by lia.
Qed.

(** One poll of the ring, seen from the system. *)
Lemma ring_poll addr p s : ev_reachable addr p s -> exists e,
  EventRing_poll (ev s) = (Ok tt, e) /\ ev_reachable addr p (with_ev (taken (ev s)) e s) /\
  taken (ev s) = option_list (nth_event s (length (popped s))) /\
  match nth_event s (length (popped s)) with
  | None => infos e = infos (ev s) /\ wait_list e = wait_list (ev s)
  | Some t => infos e = deliver (wait_list (ev s)) t (infos (ev s)) /\
      wait_list e = List.filter (live (infos (ev s))) (wait_list (ev s))
  end.
Proof.
  intros Hr. pose proof (pop_spec addr p s (ev_reachable_inv addr p s Hr)) as Hpop.
  unfold taken. rewrite Hpop. destruct (nth_event s (length (popped s))) as [t|].
  - rewrite (poll_eq _ _ _ Hpop). eexists. split; [reflexivity|]. split; [|split; [done|]].
    + eapply ev_more; [|apply (ev_waiters {| ev := after_pop s; enq := enq s; pcs := pcs s; produced := produced s;
        popped := popped s ++ [t] |})]. eapply ev_more; [exact Hr|]. by apply ev_pop.
    + split; [done|]. cbn. apply filter_ext. apply deliver_live.
  - exists (ev s). split; [unfold EventRing_poll; by rewrite (bind_ok _ _ _ _ _ Hpop)|].
    split; [|done]. unfold with_ev. rewrite app_nil_r. by destruct s.
Qed.

Lemma waiters_reachable addr p s ws m : ev_reachable addr p s ->
  ev_reachable addr p (with_ev [] (with_waiters ws m (ev s)) s).
Proof. intros Hr. eapply ev_more; [exact Hr|]. unfold with_ev. rewrite app_nil_r. apply ev_waiters. Qed.

(** With one live waiter, an event goes to it or to nobody. *)
Lemma deliver_single ws f i t : f ∈ ws ->
  deliver ws t {[f := i]} = {[f := if accepts (cond i) t then EventWaitInfo_resolve t i else i]}.
Proof.
  intros Hf. unfold deliver.
  assert (forall w, accepting {[f := i]} t w = bool_decide (w = f) && accepts (cond i) t) as Hacc.
  { intros w. unfold accepting. case_bool_decide as Hw; [subst; by rewrite lookup_singleton_eq|].
    by rewrite lookup_singleton_ne. }
  destruct (accepts (cond i) t).
  - destruct (List.find _ ws) as [w|] eqn:Hfind.
    + apply List.find_some in Hfind as [_ Hw]. rewrite Hacc, andb_true_r in Hw. apply bool_decide_eq_true in Hw as ->.
      apply map_eq. intros k. rewrite lookup_alter. case_decide as Hk; [subst; by rewrite !lookup_singleton_eq|].
      by rewrite !lookup_singleton_ne.
    + pose proof (List.find_none _ _ Hfind f) as Hn. rewrite Hacc, bool_decide_eq_true_2 in Hn by done.
      discriminate Hn. by apply list_elem_of_In.
  - replace (List.find _ ws) with (@None nat); [done|]. symmetry. induction ws as [|w ws IH]; [done|].
    cbn [List.find]. rewrite Hacc, andb_false_r. destruct (decide (f ∈ ws)) as [Hin|Hin]; [by apply IH|].
    clear IH Hf Hin. induction ws as [|w' ws IH]; [done|]. cbn [List.find]. by rewrite Hacc, andb_false_r.
Qed.

Definition moment_ok (m : moment) : Prop := match m with Written t => trb_ok t | Iterated => True end.

Section steps.
Context (addr p : Z) (c : EventWaitCond) (n0 : nat).

(** A task that is not the awaiting one goes to the back of the queue. *)
Lemma phase_requeue t t' q w w' : is_awaiter t = false -> is_awaiter t' = false ->
  (forall f, infos (ev (sys w)) = {[f := {| cond := c; trbs := matched c n0 (sys w) |}]} -> f ∈ wait_list (ev (sys w)) ->
     (n0 <= length (popped (sys w)))%nat ->
     infos (ev (sys w')) = {[f := {| cond := c; trbs := matched c n0 (sys w') |}]} /\ f ∈ wait_list (ev (sys w'))) ->
  (infos (ev (sys w)) = ∅ -> infos (ev (sys w')) = ∅) ->
  (length (popped (sys w)) <= length (popped (sys w')))%nat ->
  (forall x, (n0 <= length (popped (sys w)))%nat -> head (matched c n0 (sys w)) = Some x -> head (matched c n0 (sys w')) = Some x) ->
  answer w' = answer w -> phase c n0 (t :: q) w -> phase c n0 (q ++ [t']) w'.
Proof using.
  intros Ht Ht' Hwait Hempty Hlen Hhead Hans Hph.
  assert (List.filter is_awaiter (q ++ [t']) = List.filter is_awaiter (t :: q)) as Hq.
  { rewrite List.filter_app. cbn. by rewrite Ht, Ht', app_nil_r. }
  inversion Hph as [q' w0 H1 H2 H3 H4|q' w0 f H1 H2 H3 H4 H5|q' w0 x H1 H2 H3 H4 H5]; subst.
  - by simpl in Ht.
  - destruct (Hwait f H2 H3 H4) as [Hi Hw]. apply (phase_waiting c n0 _ _ f); [by rewrite Hq|done|done|lia|congruence].
  - apply (phase_done c n0 _ _ x); [by rewrite Hq|auto|lia|auto|congruence].
Qed.

Lemma poll_body_ok w q t : ev_reachable addr p (sys w) -> is_poller t = true -> phase c n0 (t :: q) w ->
  exists w', poll_body w = (Pending, PollYield {| polled := true |}, w') /\ ev_reachable addr p (sys w') /\
    phase c n0 (q ++ [PollYield {| polled := true |}]) w' /\
    popped (sys w') = popped (sys w) ++ option_list (nth_event (sys w) (length (popped (sys w)))) /\
    produced (sys w') = produced (sys w).
Proof using.
  intros Hr Ht Hph. destruct (ring_poll addr p (sys w) Hr) as (e & He & Hr' & Htk & Hcase).
  set (w' := set_sys (with_ev (taken (ev (sys w))) e (sys w)) w).
  exists w'. split; [unfold poll_body; by rewrite He|]. split; [exact Hr'|]. split; [|by rewrite <- Htk].
  apply (phase_requeue t _ q w w'); [by destruct t|done|..|done|exact Hph].
  - intros f Hi Hf Hn. cbn [sys w' set_sys ev with_ev]. rewrite matched_app by done. rewrite Htk.
    destruct (nth_event _ _) as [x|].
    + destruct Hcase as [-> ->]. rewrite Hi, deliver_single by done. split.
      * change (List.filter (accepts c) (option_list (Some x))) with (if accepts c x then [x] else []).
        unfold EventWaitInfo_resolve. cbn [cond trbs].
        destruct (accepts c x); [reflexivity|by rewrite app_nil_r].
      * apply list_elem_of_In, List.filter_In. split; [by apply list_elem_of_In|]. unfold live.
        by rewrite lookup_singleton_eq.
    + destruct Hcase as [-> ->]. change (List.filter (accepts c) (option_list None)) with (@nil GenericTrbEntry). by rewrite app_nil_r.
  - intros Hi. cbn. destruct (nth_event _ _) as [x|]; destruct Hcase as [-> _]; [|done].
    rewrite Hi. unfold deliver. destruct (List.find _ _); [|done]. by rewrite alter_id by done.
  - cbn. rewrite length_app. lia.
  - intros x Hn Hx. cbn [sys w' set_sys]. rewrite matched_app by done. by destruct (matched c n0 (sys w)).
Qed.

Lemma matched_new w : length (popped (sys w)) = n0 -> matched c n0 (sys w) = [].
Proof using. intros H. unfold matched. by rewrite drop_ge by lia. Qed.

Lemma with_ev_nil s : with_ev [] (ev s) s = s.
Proof using. unfold with_ev. rewrite app_nil_r. by destruct s. Qed.

(** The future is polled: it is ready exactly when a matching event has been popped. *)
Lemma poll_future_ok w q f : ev_reachable addr p (sys w) -> List.filter is_awaiter q = [] ->
  infos (ev (sys w)) = {[f := {| cond := c; trbs := matched c n0 (sys w) |}]} -> f ∈ wait_list (ev (sys w)) ->
  (n0 <= length (popped (sys w)))%nat -> answer w = None ->
  match matched c n0 (sys w) with
  | [] => poll_future f w = (Pending, Awaiting f, w) /\ phase c n0 (q ++ [Awaiting f]) w
  | t :: _ => exists w', poll_future f w = (Ready (Ok tt), Awaiting f, w') /\ answer w' = Some t /\
      ev_reachable addr p (sys w') /\ phase c n0 q w' /\ popped (sys w') = popped (sys w) /\
      produced (sys w') = produced (sys w)
  end.
Proof using.
  intros Hr Hq Hi Hf Hn Hans. unfold poll_future, EventFuture_poll.
  rewrite (bind_ok get _ _ _ _ eq_refl). rewrite Hi, lookup_singleton_eq. cbn [cond trbs].
  destruct (matched c n0 (sys w)) as [|t ts] eqn:Hm.
  - split; [unfold mret, M_ret; rewrite with_ev_nil; by destruct w|].
    apply (phase_waiting c n0 _ _ f); [|by rewrite Hm|done..]. by rewrite List.filter_app, Hq.
  - mstep. eexists. split; [reflexivity|]. split; [done|]. cbn [sys].
    assert (forall ws m, popped (with_ev [] (with_waiters ws m (ev (sys w))) (sys w)) = popped (sys w)) as Hpop
      by (intros; cbn; by rewrite app_nil_r).
    split; [by apply waiters_reachable|]. split; [|split; [apply Hpop|done] ].
    apply (phase_done c n0 _ _ t); cbn [sys answer]; [done| | | |done].
    + cbn. apply map_eq. intros k. rewrite lookup_empty, lookup_delete. case_decide; [done|].
      rewrite lookup_insert_ne, Hi by congruence. by rewrite lookup_singleton_ne.
    + cbn. rewrite app_nil_r. lia.
    + unfold matched in *. cbn [popped with_ev]. by rewrite app_nil_r, Hm.
Qed.

(** The first poll of the awaiting task makes the future and finds nothing yet. *)
Lemma await_new_ok w q : ev_reachable addr p (sys w) -> phase c n0 (AwaitNew c :: q) w ->
  List.filter is_awaiter q = [] -> infos (ev (sys w)) = ∅ -> length (popped (sys w)) = n0 -> answer w = None ->
  exists f w', task_poll (AwaitNew c) w = (Pending, Awaiting f, w') /\ ev_reachable addr p (sys w') /\
    phase c n0 (q ++ [Awaiting f]) w' /\ popped (sys w') = popped (sys w) /\ produced (sys w') = produced (sys w).
Proof using.
  intros Hr _ Hq Hi Hn Hans. cbn [task_poll]. unfold EventFuture_new. rewrite (bind_ok get _ _ _ _ eq_refl).
  set (f := fresh _). mstep. unfold register_waiter. mstep. unfold mret, M_ret. cbv beta iota.
  set (w' := set_sys _ w). exists f, w'.
  assert (popped (sys w') = popped (sys w)) as Hpop by (cbn; by rewrite app_nil_r).
  assert (ev_reachable addr p (sys w')) as Hr' by (apply waiters_reachable; exact Hr).
  pose proof (poll_future_ok w' q f Hr' Hq) as Hpoll. unfold matched in Hpoll at 2. rewrite Hpop, drop_ge in Hpoll by lia.
  destruct Hpoll as [-> Hph].
  - rewrite matched_new by (by rewrite Hpop). cbn. by rewrite Hi.
  - cbn. apply elem_of_app. right. by apply list_elem_of_singleton.
  - lia.
  - done.
  - by split_and!.
Qed.
End steps.

(** *** One iteration of the executor *)

(** The place of the first task of a kind. *)
Fixpoint pos (f : XhcTask -> bool) (q : list XhcTask) : nat :=
  match q with [] => O | t :: q => if f t then O else S (pos f q) end.

Lemma pos_app f q t : existsb f q = true -> pos f (q ++ [t]) = pos f q.
Proof. induction q as [|x q IH]; [done|]. cbn. destruct (f x); [done|]. cbn. intros H. by rewrite IH. Qed.

Lemma pos_le f q : (pos f q <= length q)%nat.
Proof. induction q as [|x q IH]; cbn; [lia|]. destruct (f x); lia. Qed.

Lemma existsb_filter {A} (f : A -> bool) q : existsb f q = true <-> List.filter f q <> [].
Proof. induction q as [|x q IH]; cbn; [done|]. by destruct (f x). Qed.

(** What the executor's turn does to the queue: the head task is polled and goes to the back,
    unless the await is over. *)
Record turn (w : World) (t : XhcTask) (q : list XhcTask) (w' : World) (q' : list XhcTask) : Prop := {
  tn_produced : produced (sys w') = produced (sys w);
  tn_popped : popped (sys w') = popped (sys w) ++
    (if is_poller t then option_list (nth_event (sys w) (length (popped (sys w)))) else []);
  tn_queue : answer w' = None -> exists t', q' = q ++ [t'] /\ is_poller t' = is_poller t /\ is_awaiter t' = is_awaiter t;
}.

Section iterate.
Context (addr p : Z) (c : EventWaitCond) (n0 : nat).

Lemma phase_awaiting q w f : phase c n0 (Awaiting f :: q) w ->
  infos (ev (sys w)) = {[f := {| cond := c; trbs := matched c n0 (sys w) |}]} /\ f ∈ wait_list (ev (sys w)) /\
  (n0 <= length (popped (sys w)))%nat /\ answer w = None /\ List.filter is_awaiter q = [].
Proof using.
  inversion 1 as [q' w0 H1 H2 H3 H4|q' w0 f' H1 H2 H3 H4 H5|q' w0 x H1 H2 H3 H4 H5]; subst; simplify_eq/=.
  by split_and!.
Qed.

Lemma requeue_self t q w : is_awaiter t = false -> phase c n0 (t :: q) w -> phase c n0 (q ++ [t]) w.
Proof using. intros Ht Hph. eapply (phase_requeue c n0 t t q w w); try done. Qed.

(** Every task of the queue can be polled, and the invariant goes on. *)
Lemma task_turn t q w : ev_reachable addr p (sys w) -> Forall task_ok (t :: q) ->
  existsb is_poller (t :: q) = true -> phase c n0 (t :: q) w ->
  exists r t' w', task_poll t w = (r, t', w') /\
    let q' := match r with Ready _ => q | Pending => q ++ [t'] end in
    ev_reachable addr p (sys w') /\ Forall task_ok q' /\ existsb is_poller q' = true /\ phase c n0 q' w' /\
    turn w t q w' q' /\
    (is_awaiter t = true -> matched c n0 (sys w) <> [] -> answer w' <> None) /\
    (r = Pending \/ r = Ready (Ok tt)).
Proof using.
  intros Hr Hok Hex Hph. apply Forall_cons in Hok as [Ht Hok].
  assert (forall t', task_ok t' -> Forall task_ok (q ++ [t'])) as Hokq
    by (intros; apply Forall_app; split; [done|by apply Forall_singleton]).
  assert (forall t', is_poller t' = is_poller t -> existsb is_poller (q ++ [t']) = true) as Hexq.
  { intros t' Ht'. rewrite existsb_app. cbn in *. rewrite Ht', orb_false_r. by rewrite orb_comm. }
  assert (is_poller t = true -> exists w', poll_body w = (Pending, PollYield {| polled := true |}, w') /\
    let q' := q ++ [PollYield {| polled := true |}] in
    ev_reachable addr p (sys w') /\ Forall task_ok q' /\ existsb is_poller q' = true /\ phase c n0 q' w' /\ turn w t q w' q')
    as Hpoller.
  { intros Hp. destruct (poll_body_ok addr p c n0 w q t Hr Hp Hph) as (w' & E & Hr' & Hph' & Hpop & Hprod).
    exists w'. split; [exact E|]. split_and!; try done; [by apply Hokq|by apply Hexq; rewrite Hp|].
    constructor; [done|by rewrite Hp|]. intros _. exists (PollYield {| polled := true |}). by destruct t. }
  destruct t as [|y|c'|f|].
  - destruct (Hpoller eq_refl) as (w' & E & H1 & H2 & H3 & H4 & H5). eexists _, _, w'. split; [exact E|]. split_and!; try done; by left.
  - destruct (Hpoller eq_refl) as (w' & E & H1 & H2 & H3 & H4 & H5). eexists _, _, w'.
    split; [cbn [task_poll]; unfold Yield_poll; cbn in Ht; rewrite Ht; exact E|]. split_and!; try done; by left.
  - inversion Hph as [q' w0 H1 H2 H3 H4|q' w0 f' H1 H2 H3 H4 H5|q' w0 x H1 H2 H3 H4 H5]; subst; [|simplify_eq/=..].
    destruct (await_new_ok addr p _ _ w q Hr Hph H1 H2 eq_refl H4) as (f & w' & E & Hr' & Hph' & Hpop & Hprod).
    eexists _, _, w'. split; [exact E|]. cbv zeta iota. split_and!; try done; [by apply Hokq|by apply Hexq| | |by left].
    + constructor; [done|by rewrite app_nil_r|]. intros _. by exists (Awaiting f).
    + intros _ Hm. by rewrite matched_new in Hm.
  - destruct (phase_awaiting q w f Hph) as (Hi & Hf & Hn & Hans & Hq).
    pose proof (poll_future_ok addr p c n0 w q f Hr Hq Hi Hf Hn Hans) as Hpoll.
    destruct (matched c n0 (sys w)) as [|x ts].
    + destruct Hpoll as [E Hph']. eexists _, _, w. split; [exact E|]. cbv zeta iota.
      split_and!; try done; [by apply Hokq|by apply Hexq| |by left]. constructor; [done|by rewrite app_nil_r|].
      intros _. by exists (Awaiting f).
    + destruct Hpoll as (w' & E & Ha & Hr' & Hph' & Hpop & Hprod). eexists _, _, w'. split; [exact E|]. cbv zeta iota.
      cbn in Hex. split_and!; try done; [|by rewrite Ha|by right]. constructor; [done|by rewrite app_nil_r|by rewrite Ha].
  - eexists _, _, w. split; [reflexivity|]. cbv zeta iota. split_and!; try done; [by apply Hokq|by apply Hexq|by apply requeue_self| |by left].
    constructor; [done|by rewrite app_nil_r|]. intros _. by exists Elsewhere.
Qed.
End iterate.

(** *** Progress *)

(** The controller's events as the driver reads them, and the first one for [c] since [n0]. *)
Definition events (s : EventSystem) : list GenericTrbEntry := imap (fun k t => with_cycle (lap16 k) t) (produced s).
Definition first_match (c : EventWaitCond) (n0 : nat) (s : EventSystem) : option GenericTrbEntry :=
  head (List.filter (accepts c) (drop n0 (events s))).

Lemma events_lookup s k : events s !! k = nth_event s k.
Proof. unfold events, nth_event. by rewrite list_lookup_imap. Qed.

Lemma popped_prefix addr p s : ev_reachable addr p s ->
  events s = popped s ++ drop (length (popped s)) (events s) /\ (length (popped s) <= length (produced s) <= length (popped s) + 15)%nat.
Proof.
  intros Hr. pose proof (ev_reachable_inv addr p s Hr) as Hinv. pose proof (ei_room _ _ _ Hinv) as Hroom.
  split; [|done]. rewrite <- (take_drop (length (popped s)) (events s)) at 1. f_equal.
  apply list_eq. intros k. destruct (Nat.lt_ge_cases k (length (popped s))) as [Hk|Hk].
  - by rewrite lookup_take_lt, events_lookup, (ei_popped _ _ _ Hinv) by done.
  - rewrite !lookup_ge_None_2; [done|done|rewrite length_take; lia].
Qed.

(** A match among the popped events is the first match of all. *)
Lemma first_match_popped addr p c n0 s t : ev_reachable addr p s -> (n0 <= length (popped s))%nat ->
  head (matched c n0 s) = Some t -> first_match c n0 s = Some t.
Proof.
  intros Hr Hn Hm. unfold first_match. destruct (popped_prefix addr p s Hr) as [-> _].
  rewrite drop_app_le, List.filter_app by done. unfold matched in Hm. by destruct (List.filter _ _).
Qed.

(** The number of iterations that are enough for the event at [k] to be the answer. *)
Definition distance (k : nat) (q : list XhcTask) (w : World) : nat :=
  match answer w with
  | Some _ => O
  | None =>
      if (length (popped (sys w)) <=? k)%nat
      then ((S k - length (popped (sys w))) * length q + pos is_poller q + length q)%nat
      else S (pos is_awaiter q)
  end.

Lemma pos_below f q : existsb f q = true -> (pos f q < length q)%nat.
Proof. induction q as [|x q IH]; [done|]. cbn. destruct (f x); [lia|]. cbn. intros H. specialize (IH H). lia. Qed.

Section progress.
Context (addr p : Z) (c : EventWaitCond) (n0 : nat).

Lemma phase_awaiter q w : phase c n0 q w -> answer w = None -> existsb is_awaiter q = true.
Proof using.
  inversion 1 as [q' w0 H1 H2 H3 H4|q' w0 f' H1 H2 H3 H4 H5|q' w0 x H1 H2 H3 H4 H5]; subst; intros Ha;
    [done|apply existsb_filter; by rewrite H1|congruence].
Qed.

(** The answer, once given, stays. *)
Lemma answer_stays t q w w' q' x : phase c n0 (t :: q) w -> phase c n0 q' w' -> turn w t q w' q' ->
  answer w = Some x -> answer w' <> None.
Proof using.
  intros Hph Hph' [_ _ Hq] Hx Hn. destruct (Hq Hn) as (t' & -> & _ & Ht').
  pose proof (phase_awaiter _ _ Hph' Hn) as Ha. apply existsb_filter in Ha. apply Ha.
  inversion Hph as [q1 w0 H1 H2 H3 H4|q1 w0 f' H1 H2 H3 H4 H5|q1 w0 y H1 H2 H3 H4 H5]; subst; [congruence..|].
  rewrite List.filter_app. cbn in H1 |- *. rewrite Ht'. destruct (is_awaiter t); [done|]. by rewrite H1.
Qed.

Lemma distance_turn k x t q w w' q' : ev_reachable addr p (sys w) -> (n0 <= k)%nat ->
  events (sys w) !! k = Some x -> accepts c x = true ->
  existsb is_poller (t :: q) = true -> existsb is_poller q' = true -> phase c n0 (t :: q) w -> phase c n0 q' w' ->
  turn w t q w' q' -> (is_awaiter t = true -> matched c n0 (sys w) <> [] -> answer w' <> None) ->
  answer w' = None -> (distance k q' w' < distance k (t :: q) w)%nat.
Proof using.
  intros Hr Hk Hx Hacc Hp Hp' Hph Hph' Hturn Hans Hn. unfold distance at 1. rewrite Hn.
  assert (answer w = None) as Hn0.
  { destruct (answer w) eqn:E; [|done]. by destruct (answer_stays _ _ _ _ _ _ Hph Hph' Hturn E). }
  unfold distance. rewrite Hn0. pose proof Hturn as [_ Hpop Hq]. destruct (Hq Hn) as (t' & -> & Htp & Hta).
  pose proof (phase_awaiter _ _ Hph' Hn) as Ha'. pose proof (phase_awaiter _ _ Hph Hn0) as Ha.
  pose proof (pos_below _ _ Hp') as Lp. pose proof (pos_below _ _ Ha') as La. rewrite length_app in Lp, La |- *. cbn [length] in *.
  rewrite Hpop, length_app. set (n := length (popped (sys w))) in *.
  destruct (Nat.leb_spec n k) as [Hnk|Hnk].
  - destruct (is_poller t) eqn:Et.
    + assert (length (option_list (nth_event (sys w) n)) = 1%nat) as Hone.
      { rewrite <- events_lookup. destruct (lookup_lt_is_Some_2 (events (sys w)) n) as [y ->]; [|done].
        apply lookup_lt_Some in Hx. lia. }
      rewrite Hone. cbn [pos]. rewrite Et. destruct (Nat.leb_spec (n + 1) k).
      * replace (S k - n)%nat with (S (S k - (n + 1))) by lia. rewrite Nat.mul_succ_l. lia.
      * replace (S k - n)%nat with 1%nat by lia. lia.
    + cbn [existsb orb] in Hp. rewrite Et in Hp. cbn [orb] in Hp. cbn [length pos]. rewrite Et, pos_app by done.
      rewrite Nat.add_0_r. rewrite (proj2 (Nat.leb_le n k)) by lia. lia.
  - assert (matched c n0 (sys w) <> []) as Hm.
    { destruct (popped_prefix addr p (sys w) Hr) as [Hpre _]. rewrite Hpre, lookup_app_l in Hx by (fold n; lia).
      intros Hnil. assert (x ∈ drop n0 (popped (sys w))) as Hin.
      { apply list_elem_of_lookup. exists (k - n0)%nat. rewrite lookup_drop. by replace (n0 + (k - n0))%nat with k by lia. }
      apply list_elem_of_In in Hin. pose proof (conj Hin Hacc) as Hin'. apply List.filter_In in Hin'.
      unfold matched in Hnil. by rewrite Hnil in Hin'. }
    rewrite (proj2 (Nat.leb_gt _ k)) by lia.
    destruct (is_awaiter t) eqn:Et; [by destruct (Hans eq_refl Hm)|].
    cbn [existsb orb] in Ha. rewrite Et in Ha. cbn [orb] in Ha. cbn [pos]. rewrite Et, pos_app by done. lia.
Qed.
End progress.

Section runs.
Context (addr p : Z) (c : EventWaitCond) (n0 : nat).

(** The running system: a queue that polls the ring, and the await in one of its phases. *)
Definition good (q : list XhcTask) (w : World) : Prop :=
  ev_reachable addr p (sys w) /\ Forall task_ok q /\ existsb is_poller q = true /\ phase c n0 q w.

Definition on_queue (q : list XhcTask) : option (Executor XhcTask) := Some {| task_queue := Some q |}.

(** One moment, of either kind. *)
Lemma advance_good m q w : moment_ok m -> good q w -> exists q' w',
  advance m (on_queue q, w) = (Ok tt, (on_queue q', w')) /\ good q' w' /\
  (exists new, produced (sys w') = produced (sys w) ++ new) /\
  (forall k x, (n0 <= k)%nat -> events (sys w) !! k = Some x -> accepts c x = true -> answer w' = None ->
     (distance k q' w' + iterations [m] <= distance k q w)%nat).
Proof using.
  intros Hm (Hr & Hok & Hp & Hph). destruct m as [t|].
  - cbn [advance]. unfold modify. cbn [snd fst]. destruct (Nat.ltb_spec (length (produced (sys w))) (length (popped (sys w)) + 15)) as [Hroom|Hroom].
    + eexists _, _. split; [reflexivity|]. split; [|split; [by exists [t]|] ].
      * split; [eapply ev_more; [exact Hr|by apply ev_produce]|]. split; [done|]. split; [done|].
        inversion Hph as [q1 w0 H1 H2 H3 H4|q1 w0 f' H1 H2 H3 H4 H5|q1 w0 y H1 H2 H3 H4 H5]; subst;
          [by apply phase_new|by apply (phase_waiting c n0 _ _ f')|by apply (phase_done c n0 _ _ y)].
      * intros k x _ _ _ _. unfold distance. cbn. lia.
    + eexists _, _. split; [reflexivity|]. split; [done|]. split; [exists []; by rewrite app_nil_r|].
      intros. cbn. lia.
  - destruct q as [|t q]; [done|]. destruct (task_turn addr p c n0 t q w Hr Hok Hp Hph) as (r & t' & w' & E & Hgood).
    cbv zeta in Hgood. set (q' := match r with Ready _ => q | Pending => q ++ [t'] end) in *.
    destruct Hgood as (G1 & G2 & G3 & G4 & G5 & G6 & G7). exists q', w'. split; [|split; [done|split] ].
    + cbn [advance]. unfold run_once, on_queue. cbn [queue task_queue poll XhcTask_Future]. rewrite E. cbn [foldl].
      unfold q'. by destruct G7 as [-> | ->].
    + exists []. rewrite app_nil_r. apply G5.
    + intros k x Hk Hx Hacc Hn.
      pose proof (distance_turn addr p c n0 k x t q w w' q' Hr Hk Hx Hacc Hp G3 Hph G4 G5 G6 Hn). cbn. lia.
Qed.

Lemma events_grow (s s' : EventSystem) new k x : produced s' = produced s ++ new -> events s !! k = Some x -> events s' !! k = Some x.
Proof using.
  intros Hp. unfold events. rewrite !list_lookup_imap, Hp. intros Hx.
  destruct (produced s !! k) eqn:E; [|done]. by rewrite (lookup_app_l_Some _ _ _ _ E).
Qed.

Lemma advances_good ms : forall q w, Forall moment_ok ms -> good q w -> exists q' w',
  advances ms (on_queue q, w) = (Ok tt, (on_queue q', w')) /\ good q' w' /\
  (exists new, produced (sys w') = produced (sys w) ++ new) /\
  (forall k x, (n0 <= k)%nat -> events (sys w) !! k = Some x -> accepts c x = true -> answer w' = None ->
     (distance k q' w' + iterations ms <= distance k q w)%nat).
Proof using.
  induction ms as [|m ms IH] using rev_ind; intros q w Hms Hg.
  - exists q, w. split; [done|]. split; [done|]. split; [exists []; by rewrite app_nil_r|]. intros. cbn. lia.
  - apply Forall_app in Hms as [Hms Hm]. apply Forall_cons in Hm as [Hm _].
    destruct (IH q w Hms Hg) as (q1 & w1 & E1 & G1 & (new1 & N1) & D1).
    destruct (advance_good m q1 w1 Hm G1) as (q2 & w2 & E2 & G2 & (new2 & N2) & D2).
    exists q2, w2. split; [unfold advances in *; rewrite for_each_app, (bind_ok _ _ _ _ _ E1); cbn [for_each]; by rewrite (bind_ok _ _ _ _ _ E2)|].
    split; [done|]. split; [exists (new1 ++ new2); by rewrite N2, N1, app_assoc|].
    intros k x Hk Hx Hacc Hn. specialize (D2 k x Hk (events_grow _ _ _ _ _ N1 Hx) Hacc Hn).
    assert (answer w1 = None) as Hn1.
    { destruct (answer w1) eqn:Ea; [|done]. unfold distance in D2. rewrite Hn, Ea in D2. cbn in D2.
      destruct (_ <=? _)%nat in D2; [|lia]. pose proof (pos_le is_poller q2).
      destruct q2; cbn [length] in D2; [|lia]. by destruct G2 as (_ & _ & Hf & _). }
    specialize (D1 k x Hk Hx Hacc Hn1). unfold iterations in *. rewrite List.filter_app, length_app. lia.
Qed.

Lemma distance_bound q w k : good q w -> (k < length (produced (sys w)))%nat -> (distance k q w < 17 * length q)%nat.
Proof using.
  intros (Hr & _ & Hp & Hph) Hk. destruct (popped_prefix addr p (sys w) Hr) as [_ Hroom].
  pose proof (pos_below _ _ Hp). unfold distance. destruct (answer w) eqn:Ha; [lia|].
  pose proof (pos_below _ _ (phase_awaiter c n0 _ _ Hph Ha)).
  destruct (Nat.leb_spec (length (popped (sys w))) k); [|lia].
  assert ((S k - length (popped (sys w))) * length q <= 15 * length q)%nat by (apply Nat.mul_le_mono_r; lia). lia.
Qed.

(** An answer is the first match. *)
Lemma answer_first q w t : good q w -> answer w = Some t -> first_match c n0 (sys w) = Some t.
Proof using.
  intros (Hr & _ & _ & Hph) Ha.
  inversion Hph as [q1 w0 H1 H2 H3 H4|q1 w0 f' H1 H2 H3 H4 H5|q1 w0 y H1 H2 H3 H4 H5]; subst; [congruence..|].
  apply (first_match_popped addr p); [done|done|congruence].
Qed.

Lemma first_match_index s t : first_match c n0 s = Some t ->
  exists k, (n0 <= k < length (produced s))%nat /\ events s !! k = Some t /\ accepts c t = true.
Proof using.
  unfold first_match. intros Hh. assert (t ∈ List.filter (accepts c) (drop n0 (events s))) as Hin.
  { destruct (List.filter _ _); [done|]. simplify_eq/=. apply list_elem_of_here. }
  apply list_elem_of_In, List.filter_In in Hin as [Hin Hacc]. apply list_elem_of_In, list_elem_of_lookup in Hin as [j Hj].
  rewrite lookup_drop in Hj. exists (n0 + j)%nat. split; [|done]. apply lookup_lt_Some in Hj.
  unfold events in Hj. rewrite length_imap in Hj. lia.
Qed.

Lemma first_match_grow s s' new t : produced s' = produced s ++ new -> first_match c n0 s = Some t ->
  first_match c n0 s' = Some t.
Proof using.
  intros Hp Hh. destruct (first_match_index s t Hh) as (k & [Hk0 Hk] & _). unfold first_match in *.
  assert (events s' = events s ++ drop (length (events s)) (events s')) as ->.
  { rewrite <- (take_drop (length (events s)) (events s')) at 1. f_equal. apply list_eq. intros j.
    destruct (events s !! j) as [x|] eqn:Hx.
    - rewrite lookup_take_lt by (by eapply lookup_lt_Some). by eapply events_grow.
    - apply lookup_ge_None in Hx. rewrite lookup_ge_None_2; [done|rewrite length_take; lia]. }
  rewrite drop_app_le, List.filter_app by (unfold events; rewrite length_imap; lia).
  by destruct (List.filter (accepts c) (drop n0 (events s))).
Qed.
End runs.

(** ** Properties *)

(** C28. Awaiting an event of the controller, with the polling task and any tasks that leave the
    ring alone on the executor's queue, and the controller writing events between any two
    iterations as far as the ring has room: the await never gives anything but the first
    event, among those the driver had not taken when it rang the doorbell, with the awaited
    type and address, earlier and later ones being dropped; and once that event has been
    written the await returns it within seventeen rounds of the queue, whatever else the
    controller writes meanwhile.  Nothing panics, and the ring is polled for ever. *)
Theorem await_first_match (addr p : Z) (c : EventWaitCond) (rest : list XhcTask) (w : World) (ms : list moment)
  (Hring : ev_reachable addr p (sys w)) (Hnew : infos (ev (sys w)) = ∅) (Hans : answer w = None)
  (Hrest : Forall (fun t => t = PollLoop \/ t = Elsewhere) rest) (Hpoll : PollLoop ∈ rest)
  (Hms : Forall moment_ok ms) :
  let n0 := length (popped (sys w)) in
  exists q w', advances ms (on_queue (AwaitNew c :: rest), w) = (Ok tt, (on_queue q, w')) /\
    existsb is_poller q = true /\
    (forall t, answer w' = Some t -> first_match c n0 (sys w') = Some t) /\
    (forall t ms', first_match c n0 (sys w') = Some t -> Forall moment_ok ms' ->
       (17 * length q <= iterations ms')%nat -> exists g w2, advances ms' (on_queue q, w') = (Ok tt, (g, w2)) /\ answer w2 = Some t).
Proof.
  intros n0. assert (good addr p c n0 (AwaitNew c :: rest) w) as Hgood.
  { split; [done|]. split; [|split].
    - apply Forall_cons. split; [done|]. eapply Forall_impl; [exact Hrest|]. by intros t [-> | ->].
    - cbn. apply existsb_exists. exists PollLoop. split; [by apply list_elem_of_In|done].
    - apply phase_new; try done. clear Hpoll. induction Hrest as [|t rest [-> | ->] _ IH]; done. }
  destruct (advances_good addr p c n0 ms _ _ Hms Hgood) as (q & w' & E & Hg & _ & _).
  exists q, w'. split; [exact E|]. split; [apply Hg|]. split; [intros t; by apply (answer_first addr p c n0 q)|].
  intros t ms' Hf Hms' Hn. destruct (advances_good addr p c n0 ms' q w' Hms' Hg) as (q2 & w2 & E2 & Hg2 & (new & Hnew2) & Hd).
  destruct (first_match_index c n0 (sys w') t Hf) as (k & [Hk0 Hk] & Hev & Hacc). exists (on_queue q2), w2. split; [exact E2|].
  destruct (answer w2) as [x|] eqn:Hx.
  - pose proof (answer_first addr p c n0 q2 w2 x Hg2 Hx) as H1.
    pose proof (first_match_grow c n0 _ _ new t Hnew2 Hf) as H2. congruence.
  - specialize (Hd k t Hk0 Hev Hacc eq_refl). pose proof (distance_bound addr p c n0 q w' k Hg Hk). lia.
Qed.

(** A stray event, then the completion that is waited for. *)
Definition stray : GenericTrbEntry := {| t_data := 0; t_option := 0; t_control := 34 * 1024 |}.

Lemma await_first_match_witness : exists q w',
  advances [Iterated; Written stray; Written example_event; Iterated; Iterated]
    (on_queue [AwaitNew {| wc_trb_type := Some CommandCompletionEvent; wc_trb_addr := Some 0x10000; wc_slot := None |};
               PollLoop; Elsewhere], {| sys := example_start; answer := None |}) = (Ok tt, (on_queue q, w')) /\
  answer w' = None /\
  exists g w2, advances (replicate 51 Iterated) (on_queue q, w') = (Ok tt, (g, w2)) /\
    answer w2 = Some (with_cycle true example_event).
Proof.
  assert (ev_reachable 0x20000 0xFEE00038 example_start) as Hr by (apply (ev_init 0x20000 0xFEE00038); vm_compute; reflexivity).
  assert (trb_ok stray /\ trb_ok example_event) as [H1 H2] by (split; (split; vm_compute; done)).
  destruct (await_first_match 0x20000 0xFEE00038
    {| wc_trb_type := Some CommandCompletionEvent; wc_trb_addr := Some 0x10000; wc_slot := None |} [PollLoop; Elsewhere]
    {| sys := example_start; answer := None |} [Iterated; Written stray; Written example_event; Iterated; Iterated]
    Hr eq_refl eq_refl) as (q & w' & E & _ & _ & H).
  - by apply Forall_cons; split; [left|apply Forall_cons; split; [right|] ].
  - apply list_elem_of_here.
  - repeat constructor; done.
  - vm_compute in E. injection E as <- <-.
    exists [Awaiting 0; PollYield {| polled := true |}; Elsewhere]%nat. eexists.
    split; [vm_compute; reflexivity|]. split; [reflexivity|].
    apply (H _ (replicate 51 Iterated)); [vm_compute; reflexivity|apply Forall_replicate; done|vm_compute; lia].
Defined.
