(* ===== verification/Controller.v ===== *)
(** * The xHCI host controller: [src/src/xhci.rs].

    [Registers] holds the capability, operational and runtime register blocks, [Portsc] the
    port registers and doorbells, [Controller] the bring-up of the controller and the
    doorbell of an endpoint.  The device is behind the class [MmioBus]; the classes
    [BusTrace] and [XhcHardware] state what the theorems rely on: a log of the register
    writes, and the controller's answers to RUN/STOP and to port power and reset. *)

From S2P Require Import Prelude Bits Uefi Allocator Heap Trb Event Contexts Executor.
Import Bits.Bits Allocator.Allocator Trb.Trb Trb.TrbRing Trb.CommandRing Event.Event
  UsbTypes Executor.Executor.

(** Volatile register accesses by address, at the register's own width. *)
Class MmioBus (D : Type) : Type := {
  mmio_read : Z -> D -> Z * D;
  mmio_write : Z -> Z -> D -> D;
}.

(** Every write is logged, oldest first; a read is not a write. *)
Class BusTrace (D : Type) `{MmioBus D} : Type := {
  bus_trace : D -> list (Z * Z);
  trace_read a d : bus_trace (mmio_read a d).2 = bus_trace d;
  trace_write a v d : bus_trace (mmio_write a v d) = bus_trace d ++ [(a, v)];
}.

Module Registers.
Section registers.
Context {D : Type} {MB : MmioBus D}.

Definition reg_read (a : Z) : M D Z := fun d => let '(v, d) := mmio_read a d in (Ok v, d).
Definition reg_write (a v : Z) : M D unit := fun d => (Ok tt, mmio_write a v d).

(** [while cond(register.read()) { busy_loop_hint() }], cut off after [fuel] reads. *)
Fixpoint poll_while (fuel : nat) (a : Z) (cond : Z -> bool) : M D unit :=
  match fuel with
  | O => panic "out of fuel"
  | S fuel => v ← reg_read a; if cond v then poll_while fuel a cond else mret tt
  end.

(** [CapabilityRegisters] at [cap]. *)
Definition caplength (cap : Z) : M D Z := reg_read cap.
Definition rtsoff (cap : Z) : M D Z := reg_read (cap + 0x18).
Definition dboff (cap : Z) : M D Z := reg_read (cap + 0x14).
Definition hcsparams1 (cap : Z) : Z := cap + 4.
Definition hcsparams2 (cap : Z) : Z := cap + 8.

Definition num_of_device_slots (cap : Z) : M D Z :=
  v ← reg_read (hcsparams1 cap); mret (extract_bits 32 v 0 8).
Definition num_scratchpad_bufs (cap : Z) : M D Z :=
  hi ← reg_read (hcsparams2 cap);
  lo ← reg_read (hcsparams2 cap);
  mret (Z.lor (wrap 32 (Z.shiftl (extract_bits 32 hi 21 5) 5)) (extract_bits 32 lo 27 5)).
Definition num_of_ports (cap : Z) : M D Z :=
  v ← reg_read (hcsparams1 cap); mret (extract_bits 32 v 24 8).

(** [OperationalRegisters] at [op]. *)
Definition usbcmd (op : Z) : Z := op.
Definition usbsts (op : Z) : Z := op + 4.
Definition pagesize (op : Z) : Z := op + 8.
Definition crcr (op : Z) : Z := op + 0x18.
Definition dcbaap (op : Z) : Z := op + 0x30.
Definition config (op : Z) : Z := op + 0x38.

Definition STATUS_HC_HALTED : Z := 1.
Definition CMD_RUN_STOP : Z := 1.
Definition CMD_HC_RESET : Z := 2.

(** [u32::count_ones] and [u32::trailing_zeros]. *)
Definition ones_of (x : Z) : list Z := filter (fun i => Z.testbit x i = true) (range 0 32).
Definition count_ones (x : Z) : Z := Z.of_nat (length (ones_of x)).
Definition trailing_zeros (x : Z) : Z := default 32 (head (ones_of x)).

Definition page_size (op : Z) : M D Z :=
  v ← reg_read (pagesize op);
  let page_size_bits := Z.land v 0xffff in
  if negb (count_ones page_size_bits =? 1) then throw "Invalid page size bits" else
  shift ← lift (add_chk 32 (trailing_zeros page_size_bits) 12);
  lift (shl_chk 64 1 shift).

Definition set_command_bits (op bits : Z) : M D unit :=
  v ← reg_read (usbcmd op); reg_write (usbcmd op) (Z.lor v bits).
Definition clear_command_bits (op bits : Z) : M D unit :=
  v ← reg_read (usbcmd op); reg_write (usbcmd op) (Z.land v (wnot 32 bits)).

Definition reset_xhc (fuel : nat) (op : Z) : M D unit :=
  clear_command_bits op CMD_RUN_STOP;;
  poll_while fuel (usbsts op) (fun v => Z.land v STATUS_HC_HALTED =? 0);;
  set_command_bits op CMD_HC_RESET;;
  poll_while fuel (usbsts op) (fun v => negb (Z.land v CMD_HC_RESET =? 0)).

Definition start_xhc (fuel : nat) (op : Z) : M D unit :=
  set_command_bits op CMD_RUN_STOP;;
  poll_while fuel (usbsts op) (fun v => negb (Z.land v STATUS_HC_HALTED =? 0)).

Definition set_cmd_ring_ctrl (op : Z) (ring : CommandRing) : M D unit :=
  reg_write (crcr op) (Z.lor (cr_ring_phys_addr ring) 1).
Definition set_dcbaa_ptr (op dcbaa : Z) : M D unit := reg_write (dcbaap op) dcbaa.
Definition set_num_device_slots (op num : Z) : M D unit :=
  c ← reg_read (config op);
  let c := Z.land c (wnot 64 0xff) in
  reg_write (config op) (Z.lor c num).

(** [RuntimeRegisters] at [rt]: interrupter [index]; [erst] is the segment table's address. *)
Definition irs (rt index : Z) : Z := rt + 0x20 + 0x20 * index.
Definition init_irs (rt index erst : Z) (ring : EventRing) : M D EventRing :=
  if negb (index <? 1024) then throw "Index out of range" else
  let r := irs rt index in
  reg_write (r + 8) 1;;
  reg_write (r + 16) erst;;
  reg_write (r + 24) (r_addr (er_ring ring));;
  reg_write (r + 4) 0;;
  reg_write r 1;;
  let '(res, ring) := set_erdp (r + 24) ring in
  lift res;;
  mret ring.
End registers.
End Registers.
Import Registers.

Module Portsc.
Section portsc.
Context {D : Type} {MB : MmioBus D}.

(** A [PortScEntry] and a [Doorbell] are the register's address. *)
Definition PRESERVE_MASK : Z := 0x4F01FFE9.

Definition portsc_value (ptr : Z) : M D Z := reg_read ptr.
Definition portsc_bit (ptr pos : Z) : M D bool :=
  v ← portsc_value ptr;
  m ← lift (shl_chk 32 1 pos);
  mret (negb (Z.land v m =? 0)).
Definition portsc_ccs (ptr : Z) : M D bool := portsc_bit ptr 0.
Definition portsc_pp (ptr : Z) : M D bool := portsc_bit ptr 9.
Definition portsc_pr (ptr : Z) : M D bool := portsc_bit ptr 4.
Definition portsc_ped (ptr : Z) : M D bool := portsc_bit ptr 1.

Definition assert_bit (ptr pos : Z) : M D unit :=
  old ← reg_read ptr;
  m ← lift (shl_chk 32 1 pos);
  reg_write ptr (Z.lor (Z.land old PRESERVE_MASK) m).
Definition assert_pp (ptr : Z) : M D unit := assert_bit ptr 9.
Definition assert_pr (ptr : Z) : M D unit := assert_bit ptr 4.

(** [self.pp() && self.ccs() && self.ped() && !self.pr()], each a read of its own. *)
Definition is_enabled (ptr : Z) : M D bool :=
  pp ← portsc_pp ptr;
  if negb pp then mret false else
  ccs ← portsc_ccs ptr;
  if negb ccs then mret false else
  ped ← portsc_ped ptr;
  if negb ped then mret false else
  pr ← portsc_pr ptr;
  mret (negb pr).

Definition port_speed (ptr : Z) : M D UsbMode :=
  v ← portsc_value ptr; mret (UsbMode_of (extract_bits 32 v 10 4)).
Definition max_packet_size (ptr : Z) : M D Z :=
  m ← port_speed ptr; lift (max_packet_size_of m).

(** [PortSc::new]: the addresses of the ports' registers, for the BAR at [bar]. *)
Definition PortSc_new (bar cap : Z) : M D (list Z) :=
  len ← caplength cap;
  let base := bar + len + 0x400 in
  num_ports ← num_of_ports cap;
  mret ((fun port => base + 4 * ((port - 1) * 4)) <$> range 1 (num_ports + 1)).
Definition port_range (portsc : list Z) : list Z := range 1 (Z.of_nat (length portsc) + 1).
Definition PortSc_get (portsc : list Z) (port : Z) : option Z :=
  portsc !! Z.to_nat (wrapping_sub 64 port 1).

Definition doorbell_notify (ptr target task : Z) : M D unit :=
  reg_write ptr (Z.lor target (wrap 32 (Z.shiftl task 16))).

(** The [async fn reset_port]: where it resumes after a [yield_execution().await]. *)
Inductive ResetPort : Type := RpStart | RpPower | RpReset | RpDone.

Definition check_pr (ptr : Z) : M D (Poll (outcome unit) * ResetPort) :=
  pr ← portsc_pr ptr;
  if negb pr then mret (Ready (Ok tt), RpDone) else mret (Pending, RpReset).
Definition check_pp (ptr : Z) : M D (Poll (outcome unit) * ResetPort) :=
  pp ← portsc_pp ptr;
  if negb pp then mret (Pending, RpPower) else assert_pr ptr;; check_pr ptr.

Definition reset_port_step (ptr : Z) (f : ResetPort) : M D (Poll (outcome unit) * ResetPort) :=
  match f with
  | RpStart => assert_pp ptr;; check_pp ptr
  | RpPower => check_pp ptr
  | RpReset => check_pr ptr
  | RpDone => panic "`async fn` resumed after completion"
  end.

(** [reset_port] as a future of the executor, over the bus; a panic ends the task. *)
#[export] Instance reset_port : Future D (Z * ResetPort) unit := {|
  poll := fun (f : Z * ResetPort) (d : D) =>
    match reset_port_step f.1 f.2 d with
    | (Ok (r, s), d) => (r, (f.1, s), [], d)
    | (Err e, d) => (Ready (Err e), (f.1, RpDone), [], d)
    | (Panic p, d) => (Ready (Panic p), (f.1, RpDone), [], d)
    end;
|}.
End portsc.
End Portsc.
Import Portsc.

Module Controller.

Record XhcRegisters : Type := {
  cap_regs : Z; op_regs : Z; rt_regs : Z; doorbell_regs : list Z; portsc : list Z;
}.

(** [DeviceContextBaseAddressArray]: the raw array's address and contents, and the owned
    output contexts by address. *)
Record DeviceContextBaseAddressArray : Type := {
  inner : Z; scratchpad_table_ptr : Z; raw_context : list Z; context : list (option Z);
  scratchpad_bufs : list Z;
}.

Record Controller : Type := {
  regs : XhcRegisters; device_context_base_array : DeviceContextBaseAddressArray;
  primary_event_ring : EventRing; command_ring : CommandRing;
}.

Section alloc.
Context {H : Type} {GA : GlobalAlloc H}.

(** [ScratchpadBuffers::alloc]: the table's and the buffers' addresses.  Each [Box::from]
    copies the slice into a box of its element's alignment. *)
Definition ScratchpadBuffers_alloc (num page : Z) : M H (Z * list Z) :=
  let num := Z.max num 1 in
  _ ← raw_alloc (8 * num) page "Failed to allocate scratchpad buffer table";
  table ← box_new {| l_size := 8 * num; l_align := 8 |};
  bufs ← mapM (fun _ =>
    _ ← raw_alloc page page "couldnt allocated scratchpad buffer";
    box_new {| l_size := page; l_align := 1 |}) (range 0 num);
  mret (table, bufs).

(** [DeviceContextBaseAddressArray::new]. *)
Definition dcbaa_new (scratchpad : Z * list Z) : M H DeviceContextBaseAddressArray :=
  p ← box_new {| l_size := 2048; l_align := 64 |};
  mret {| inner := p; scratchpad_table_ptr := scratchpad.1; raw_context := replicate 255 0;
          context := replicate 255 None; scratchpad_bufs := scratchpad.2 |}.

(** The allocating part of [Controller::new]; the second component is the address of the
    event ring's segment table.  The rings and that table are an [IoBox] each, of one page. *)
Context {IB : IoBoxes H}.
Definition Controller_alloc (num page : Z) :
    M H (DeviceContextBaseAddressArray * Z * EventRing * CommandRing) :=
  scratchpad ← ScratchpadBuffers_alloc num page;
  dcbaa ← dcbaa_new scratchpad;
  ring ← io_box 4096;
  events ← lift (EventRing_new ring);
  erst ← io_box 4096;
  cmds ← io_box 4096;
  commands ← lift (CommandRing_default cmds);
  mret (dcbaa, erst, events, commands).
End alloc.

(** [set_output_context], on the array. *)
Definition set_output_context (slot output_context : Z) : M DeviceContextBaseAddressArray unit :=
  i ← lift (sub_chk slot 1);
  d ← get;
  if negb (i <? Z.of_nat (length (context d))) then panic "index out of bounds" else
  put {| inner := inner d; scratchpad_table_ptr := scratchpad_table_ptr d;
         raw_context := <[Z.to_nat i := output_context]> (raw_context d);
         context := <[Z.to_nat i := Some output_context]> (context d);
         scratchpad_bufs := scratchpad_bufs d |}.

Section bus.
Context {D : Type} {MB : MmioBus D}.

(** [setup_xhc_registers] for the BAR at [bar]; the doorbell array's offset is read anew
    for each entry. *)
Definition setup_xhc_registers (bar : Z) : M D XhcRegisters :=
  len ← caplength bar;
  rts ← rtsoff bar;
  ports ← PortSc_new bar bar;
  num_slots ← num_of_ports bar;
  doorbells ← mapM (fun i => off ← dboff bar; mret (bar + off + 4 * i)) (range 0 (num_slots + 1));
  if negb (Z.of_nat (length doorbells) =? 1 + num_slots) then panic "assertion failed" else
  mret {| cap_regs := bar; op_regs := bar + len; rt_regs := bar + rts;
          doorbell_regs := doorbells; portsc := ports |}.

Definition index {A} (l : list A) (i : Z) : outcome A :=
  match l !! Z.to_nat i with Some a => Ok a | None => Panic "index out of bounds" end.

Definition notify_xhc (r : XhcRegisters) : M D unit :=
  db ← lift (index (doorbell_regs r) 0); doorbell_notify db 0 0.

Definition TO_CLEAR : Z := 0x1C.

Definition notify_ep (r : XhcRegisters) (slot dci : Z) : M D unit :=
  db ← lift (ok_or (doorbell_regs r !! Z.to_nat slot) "Invalid slot");
  dci ← lift (if dci <? 256 then Ok dci else Err "dci out of range");
  doorbell_notify db dci 0;;
  sts ← reg_read (usbsts (op_regs r));
  reg_write (usbsts (op_regs r)) (Z.land sts (wnot 32 TO_CLEAR)).
End bus.

(** The device and the heap. *)
Record Machine (D H : Type) : Type := { bus : D; mheap : H }.
Arguments bus {D H} _.
Arguments mheap {D H} _.
Arguments Build_Machine {D H} _ _.

Section machine.
Context {D H : Type} {MB : MmioBus D} {GA : GlobalAlloc H} {IB : IoBoxes H}.

Definition on_bus {A} (m : M D A) : M (Machine D H) A :=
  zoom bus (fun d s => Build_Machine d (mheap s)) m.
Definition on_heap {A} (m : M H A) : M (Machine D H) A :=
  zoom mheap (fun h s => Build_Machine (bus s) h) m.

(** [Controller::new]; [fuel] bounds each of its three polling loops. *)
Definition Controller_new (fuel : nat) (r : XhcRegisters) : M (Machine D H) Controller :=
  on_bus (reset_xhc fuel (op_regs r));;
  page ← on_bus (page_size (op_regs r));
  _ ← on_bus (num_scratchpad_bufs (cap_regs r));
  num ← on_bus (num_scratchpad_bufs (cap_regs r));
  '(dcbaa, erst, events, commands) ← on_heap (Controller_alloc num page);
  events ← on_bus (init_irs (rt_regs r) 0 erst events);
  num_slots ← on_bus (num_of_device_slots (cap_regs r));
  on_bus (set_num_device_slots (op_regs r) num_slots);;
  on_bus (set_dcbaa_ptr (op_regs r) (inner dcbaa));;
  on_bus (set_cmd_ring_ctrl (op_regs r) commands);;
  on_bus (start_xhc fuel (op_regs r));;
  mret {| regs := r; device_context_base_array := dcbaa; primary_event_ring := events;
          command_ring := commands |}.
End machine.
End Controller.
Import Controller.

(** ** Polling *)

(** The [n]-th of successive reads of a register. *)
Fixpoint nth_read {D} `{MmioBus D} (n : nat) (a : Z) (d : D) : Z * D :=
  match n with O => mmio_read a d | S n => nth_read n a (mmio_read a d).2 end.

Definition eventually_reads {D} `{MmioBus D} (a : Z) (p : Z -> bool) (d : D) : Prop :=
  exists n, p (nth_read n a d).1 = true.

(** The controller answers RUN/STOP in HCHalted, and bit 1 of USBSTS (reserved) reads zero. *)
Class XhcHardware (D : Type) `{BusTrace D} (op : Z) : Prop := {
  hw_halts (d : D) tr v : bus_trace d = tr ++ [(usbcmd op, v)] -> Z.testbit v 0 = false ->
    eventually_reads (usbsts op) (fun s => Z.testbit s 0) d;
  hw_runs (d : D) tr v : bus_trace d = tr ++ [(usbcmd op, v)] -> Z.testbit v 0 = true ->
    eventually_reads (usbsts op) (fun s => negb (Z.testbit s 0)) d;
  hw_bit1 (d : D) : Z.testbit (mmio_read (usbsts op) d).1 1 = false;
}.

Section polling.
Context {D : Type} `{BusTrace D}.

Lemma reg_read_eq a (d : D) : reg_read a d = (Ok (mmio_read a d).1, (mmio_read a d).2).
Proof using. unfold reg_read. by destruct (mmio_read a d). Qed.

Lemma bind_reg_read {B} a (k : Z -> M D B) (d : D) :
  (reg_read a ≫= k) d = k (mmio_read a d).1 (mmio_read a d).2.
Proof using. erewrite bind_ok; [done|]. apply reg_read_eq. Qed.

Lemma poll_while_ok a cond (d : D) :
  eventually_reads a (fun v => negb (cond v)) d ->
  exists fuel0 d', bus_trace d' = bus_trace d /\
    forall fuel, (fuel0 <= fuel)%nat -> poll_while fuel a cond d = (Ok tt, d').
Proof.
  intros [n Hn]. revert d Hn. induction n as [|n IH]; intros d Hn.
  - exists 1%nat, (mmio_read a d).2. split; [apply trace_read|]. intros [|fuel] Hf; [lia|].
    cbn [poll_while]. rewrite bind_reg_read. cbn [nth_read] in Hn.
    by destruct (cond (mmio_read a d).1).
  - destruct (cond (mmio_read a d).1) eqn:Hc.
    + destruct (IH (mmio_read a d).2 Hn) as (f0 & d' & Ht & Hf).
      exists (S f0), d'. rewrite Ht, trace_read. split; [done|]. intros [|fuel] Hle; [lia|].
      cbn [poll_while]. rewrite bind_reg_read, Hc. apply Hf. lia.
    + exists 1%nat, (mmio_read a d).2. split; [apply trace_read|]. intros [|fuel] Hf; [lia|].
      cbn [poll_while]. by rewrite bind_reg_read, Hc.
Qed.

Lemma eventually_ext a (p q : Z -> bool) (d : D) :
  (forall v, p v = q v) -> eventually_reads a p d -> eventually_reads a q d.
Proof using. intros E [n Hn]. exists n. by rewrite <- E. Qed.
End polling.

Lemma land_one_testbit v : (Z.land v 1 =? 0) = negb (Z.testbit v 0).
Proof. pose proof (land_pow2_testbit v 0 ltac:(lia)) as E. change (2 ^ 0) with 1 in E. by rewrite <- E, negb_involutive. Qed.

Section bring_up.
Context {D : Type} `{BusTrace D} (op : Z) `{!XhcHardware D op}.

(** Halting, and the reset command, which is not waited for. *)
Lemma reset_xhc_ok (d : D) : exists fuel0 d' v0 v1,
  bus_trace d' = bus_trace d ++ [(usbcmd op, Z.land v0 (wnot 32 1)); (usbcmd op, Z.lor v1 2)] /\
  forall fuel, (fuel0 <= fuel)%nat -> reset_xhc fuel op d = (Ok tt, d').
Proof using All.
  set (v0 := (mmio_read (usbcmd op) d).1).
  set (d1 := mmio_write (usbcmd op) (Z.land v0 (wnot 32 1)) (mmio_read (usbcmd op) d).2).
  assert (bus_trace d1 = bus_trace d ++ [(usbcmd op, Z.land v0 (wnot 32 1))]) as T1
    by (unfold d1; by rewrite trace_write, trace_read).
  destruct (poll_while_ok (usbsts op) (fun v => Z.land v STATUS_HC_HALTED =? 0) d1) as (f1 & d2 & T2 & P1).
  { eapply eventually_ext; [|eapply hw_halts; [exact T1|]].
    - intros v. unfold STATUS_HC_HALTED. by rewrite land_one_testbit, negb_involutive.
    - rewrite Z.land_spec. by rewrite andb_false_r. }
  set (v1 := (mmio_read (usbcmd op) d2).1).
  set (d3 := mmio_write (usbcmd op) (Z.lor v1 2) (mmio_read (usbcmd op) d2).2).
  destruct (poll_while_ok (usbsts op) (fun v => negb (Z.land v CMD_HC_RESET =? 0)) d3) as (f2 & d4 & T4 & P2).
  { exists 0%nat. cbn [nth_read]. pose proof (hw_bit1 d3) as Hb. unfold CMD_HC_RESET.
    pose proof (land_pow2_testbit (mmio_read (usbsts op) d3).1 1 ltac:(lia)) as E.
    change (2 ^ 1) with 2 in E. by rewrite E, Hb. }
  exists (Nat.max f1 f2), d4, v0, v1. split.
  - rewrite T4. unfold d3. rewrite trace_write, trace_read, T2, T1. by rewrite <- app_assoc.
  - intros fuel Hf. unfold reset_xhc, clear_command_bits, set_command_bits, CMD_RUN_STOP, CMD_HC_RESET.
    erewrite bind_ok; [|rewrite bind_reg_read; reflexivity]. fold v0. fold d1. cbv beta.
    rewrite (bind_ok _ _ _ _ _ (P1 fuel ltac:(lia))).
    erewrite bind_ok; [|rewrite bind_reg_read; reflexivity]. fold v1. fold d3. cbv beta.
    apply P2. lia.
Qed.

Lemma start_xhc_ok (d : D) : exists fuel0 d' v,
  bus_trace d' = bus_trace d ++ [(usbcmd op, Z.lor v 1)] /\
  forall fuel, (fuel0 <= fuel)%nat -> start_xhc fuel op d = (Ok tt, d').
Proof using All.
  set (v0 := (mmio_read (usbcmd op) d).1).
  set (d1 := mmio_write (usbcmd op) (Z.lor v0 1) (mmio_read (usbcmd op) d).2).
  assert (bus_trace d1 = bus_trace d ++ [(usbcmd op, Z.lor v0 1)]) as T1
    by (unfold d1; by rewrite trace_write, trace_read).
  destruct (poll_while_ok (usbsts op) (fun v => negb (Z.land v STATUS_HC_HALTED =? 0)) d1) as (f1 & d2 & T2 & P1).
  { eapply eventually_ext; [|eapply hw_runs; [exact T1|]].
    - intros v. unfold STATUS_HC_HALTED. by rewrite land_one_testbit, negb_involutive.
    - rewrite Z.lor_spec. by rewrite orb_true_r. }
  exists f1, d2, v0. rewrite T2. split; [done|]. intros fuel Hf. unfold start_xhc, set_command_bits, CMD_RUN_STOP.
  erewrite bind_ok; [|rewrite bind_reg_read; reflexivity]. fold v0. fold d1. cbv beta. by apply P1.
Qed.
End bring_up.

(** PAGESIZE with the single bit [k] set means pages of [2 ^ (k + 12)] bytes. *)
Lemma page_size_bit k : 0 <= k < 16 ->
  count_ones (Z.land (2 ^ k) 0xffff) = 1 /\ trailing_zeros (Z.land (2 ^ k) 0xffff) = k.
Proof.
  intros Hk.
  assert (forallb (fun k => (count_ones (Z.land (2 ^ k) 0xffff) =? 1) &&
    (trailing_zeros (Z.land (2 ^ k) 0xffff) =? k)) (range 0 16) = true) as Hall
    by (vm_compute; reflexivity).
  pose proof (proj1 (forallb_forall _ _) Hall k) as Hbit. cbv beta in Hbit.
  rewrite <- list_elem_of_In, elem_of_range in Hbit. lia.
Qed.

Lemma page_size_ok {D} `{MmioBus D} op k (d : D) : 0 <= k < 16 ->
  (mmio_read (pagesize op) d).1 = 2 ^ k ->
  page_size op d = (Ok (2 ^ (k + 12)), (mmio_read (pagesize op) d).2).
Proof.
  intros Hk Hd. unfold page_size. rewrite bind_reg_read, Hd. cbv zeta.
  destruct (page_size_bit k Hk) as [-> ->]. rewrite Z.eqb_refl. cbn [negb].
  rewrite (add_chk_ok 32 k 12) by lia. mstep. rewrite shl_chk_ok by lia.
  by rewrite wrap_shiftl_one by lia.
Qed.

Section registers.
Context {D : Type} `{BusTrace D}.

Lemma num_scratchpad_bufs_eq cap p2 (d : D) :
  (forall d, (mmio_read (hcsparams2 cap) d).1 = p2) ->
  exists d', bus_trace d' = bus_trace d /\
    num_scratchpad_bufs cap d = (Ok (Z.lor (Z.shiftl (get_field p2 21 5) 5) (get_field p2 27 5)), d').
Proof.
  intros Hp. eexists. split; [|unfold num_scratchpad_bufs; rewrite !bind_reg_read, !Hp;
    rewrite !extract_bits_field by lia; rewrite (wrap_shiftl_field 32 5 5); [reflexivity|lia..|]].
  - by rewrite !trace_read.
  - by apply get_field_width.
Qed.

Lemma num_of_device_slots_eq cap p1 (d : D) :
  (mmio_read (hcsparams1 cap) d).1 = p1 ->
  num_of_device_slots cap d = (Ok (get_field p1 0 8), (mmio_read (hcsparams1 cap) d).2).
Proof using.
  intros Hp. unfold num_of_device_slots. by rewrite bind_reg_read, Hp, extract_bits_field by lia.
Qed.

(** The writes of [init_irs], and the ring's pointer to ERDP. *)
Lemma init_irs_ok rt index erst ring (d : D) : 0 <= index < 1024 ->
  exists d', bus_trace d' = bus_trace d ++
      [(irs rt index + 8, 1); (irs rt index + 16, erst); (irs rt index + 24, r_addr (er_ring ring));
       (irs rt index + 4, 0); (irs rt index, 1)] /\
    init_irs rt index erst ring d = (Ok (with_erdp (Some (irs rt index + 24)) (erdp_reg ring) ring), d').
Proof.
  intros Hi. eexists. split; [|unfold init_irs; rewrite (proj2 (Z.ltb_lt _ _)) by lia; reflexivity].
  rewrite !trace_write, <- !app_assoc. reflexivity.
Qed.

Lemma set_num_device_slots_ok op n (d : D) : in_width 8 n ->
  exists d' c, get_field c 0 8 = n /\ bus_trace d' = bus_trace d ++ [(config op, c)] /\
    set_num_device_slots op n d = (Ok tt, d').
Proof.
  intros Hn. set (c := Z.lor (Z.land (mmio_read (config op) d).1 (wnot 64 0xff)) n).
  exists (mmio_write (config op) c (mmio_read (config op) d).2), c. split; [|split].
  - unfold c, get_field, wnot. change 0xff with (Z.ones 8). zbits.
  - by rewrite trace_write, trace_read.
  - unfold set_num_device_slots. by rewrite bind_reg_read.
Qed.
End registers.

Section lifting.
Context {D H A : Type} {s : Machine D H} {a : A}.

Lemma on_bus_ok (m : M D A) d :
  m (bus s) = (Ok a, d) -> on_bus m s = (Ok a, {| bus := d; mheap := mheap s |}).
Proof using. intros E. unfold on_bus, zoom. by rewrite E. Qed.

Lemma on_heap_ok (m : M H A) h :
  m (mheap s) = (Ok a, h) -> on_heap m s = (Ok a, {| bus := bus s; mheap := h |}).
Proof using. intros E. unfold on_heap, zoom. by rewrite E. Qed.
End lifting.

Ltac bus_step E := erewrite bind_ok; [|apply on_bus_ok; apply E; try lia]; cbv beta.

(** ** Properties *)

(** The register writes of a bring-up, in order. *)
Definition bring_up (op ir v0 v1 v2 conf erst : Z) (events : EventRing) (dcbaa : DeviceContextBaseAddressArray)
    (commands : CommandRing) : list (Z * Z) :=
  [(usbcmd op, Z.land v0 (wnot 32 1)); (usbcmd op, Z.lor v1 2);
   (ir + 8, 1); (ir + 16, erst); (ir + 24, r_addr (er_ring events)); (ir + 4, 0); (ir, 1);
   (config op, conf); (dcbaap op, inner dcbaa); (crcr op, Z.lor (r_addr (cr_ring commands)) 1);
   (usbcmd op, Z.lor v2 1)].

(** Bring-up: on a controller that answers RUN/STOP, with any page size and any
    allocator that provides the memory, [Controller::new] returns once its three polling
    loops get enough reads, and its register writes are, in this order: RUN cleared, the
    reset command, interrupter 0 (table size 1, table address, dequeue pointer at the event
    ring, moderation 0, enable), CONFIG with MaxSlots in its low byte, the context array,
    CRCR = the command ring with cycle state 1, and only then RUN.  The scratchpad table is
    sized by both halves of HCSPARAMS2, and the event ring knows its ERDP register. *)
Theorem controller_new_starts {D H} `{BusTrace D} `{GlobalAlloc H, IoBoxes H} (r : XhcRegisters)
  `{!XhcHardware D (op_regs r)} (s : Machine D H) (k p1 p2 : Z)
  (dcbaa : DeviceContextBaseAddressArray) (erst : Z) (events : EventRing) (commands : CommandRing) (h' : H)
  (Hk : 0 <= k < 16) (Hpage : forall d : D, (mmio_read (pagesize (op_regs r)) d).1 = 2 ^ k)
  (Hp1 : forall d : D, (mmio_read (hcsparams1 (cap_regs r)) d).1 = p1)
  (Hp2 : forall d : D, (mmio_read (hcsparams2 (cap_regs r)) d).1 = p2)
  (Halloc : Controller_alloc (Z.lor (Z.shiftl (get_field p2 21 5) 5) (get_field p2 27 5)) (2 ^ (k + 12)) (mheap s)
            = (Ok (dcbaa, erst, events, commands), h')) :
  let op := op_regs r in let ir := irs (rt_regs r) 0 in
  exists fuel0 c d' v0 v1 v2 conf,
    (forall fuel, (fuel0 <= fuel)%nat -> Controller_new fuel r s = (Ok c, {| bus := d'; mheap := h' |})) /\
    get_field conf 0 8 = get_field p1 0 8 /\
    bus_trace d' = bus_trace (bus s) ++ bring_up op ir v0 v1 v2 conf erst events dcbaa commands /\
    erdp (primary_event_ring c) = Some (ir + 24) /\ command_ring c = commands /\
    device_context_base_array c = dcbaa /\ regs c = r.
Proof.
  intros op ir.
  destruct (reset_xhc_ok op (bus s)) as (f1 & d1 & v0 & v1 & T1 & P1).
  pose proof (page_size_ok op k d1 Hk (Hpage d1)) as P2. set (d2 := (mmio_read (pagesize op) d1).2) in P2.
  destruct (num_scratchpad_bufs_eq (cap_regs r) p2 d2 Hp2) as (d3 & T3 & P3).
  destruct (num_scratchpad_bufs_eq (cap_regs r) p2 d3 Hp2) as (d4 & T4 & P4).
  destruct (init_irs_ok (rt_regs r) 0 erst events d4 ltac:(lia)) as (d5 & T5 & P5).
  pose proof (num_of_device_slots_eq (cap_regs r) p1 d5 (Hp1 d5)) as P6.
  set (d6 := (mmio_read (hcsparams1 (cap_regs r)) d5).2) in P6.
  destruct (set_num_device_slots_ok op (get_field p1 0 8) d6) as (d7 & conf & Hc & T7 & P7);
    [by apply get_field_width|].
  set (d9 := mmio_write (crcr op) (Z.lor (r_addr (cr_ring commands)) 1) (mmio_write (dcbaap op) (inner dcbaa) d7)).
  destruct (start_xhc_ok op d9) as (f2 & d10 & v2 & T10 & P10).
  eexists (Nat.max f1 f2), _, d10, v0, v1, v2, conf. split; [|split; [exact Hc|split]].
  - intros fuel Hf. unfold Controller_new. fold op.
    bus_step P1. bus_step P2. bus_step P3. bus_step P4.
    erewrite bind_ok; [|apply on_heap_ok; exact Halloc]. cbv beta iota.
    bus_step P5. bus_step P6. bus_step P7.
    erewrite bind_ok; [|apply on_bus_ok; reflexivity]. cbv beta.
    erewrite bind_ok; [|apply on_bus_ok; reflexivity]. cbv beta.
    bus_step P10. reflexivity.
  - rewrite T10. unfold d9. rewrite !trace_write, T7. unfold d6. rewrite trace_read, T5, T4, T3.
    unfold d2. rewrite trace_read, T1. rewrite <- !app_assoc. reflexivity.
  - by split_and!.
Qed.

(** Without memory the bring-up stops with the controller reset. *)
Lemma controller_new_fails {D H} `{BusTrace D} `{GlobalAlloc H, IoBoxes H} (r : XhcRegisters)
  `{!XhcHardware D (op_regs r)} (s : Machine D H) (k p2 : Z) (e : string) (h' : H)
  (Hk : 0 <= k < 16) (Hpage : forall d : D, (mmio_read (pagesize (op_regs r)) d).1 = 2 ^ k)
  (Hp2 : forall d : D, (mmio_read (hcsparams2 (cap_regs r)) d).1 = p2)
  (Halloc : Controller_alloc (Z.lor (Z.shiftl (get_field p2 21 5) 5) (get_field p2 27 5)) (2 ^ (k + 12)) (mheap s)
            = (Panic e, h')) :
  exists fuel0 d', forall fuel, (fuel0 <= fuel)%nat -> Controller_new fuel r s = (Panic e, {| bus := d'; mheap := h' |}).
Proof.
  set (op := op_regs r).
  destruct (reset_xhc_ok op (bus s)) as (f1 & d1 & v0 & v1 & T1 & P1).
  pose proof (page_size_ok op k d1 Hk (Hpage d1)) as P2. set (d2 := (mmio_read (pagesize op) d1).2) in P2.
  destruct (num_scratchpad_bufs_eq (cap_regs r) p2 d2 Hp2) as (d3 & T3 & P3).
  destruct (num_scratchpad_bufs_eq (cap_regs r) p2 d3 Hp2) as (d4 & T4 & P4).
  exists f1, d4. intros fuel Hf. unfold Controller_new. fold op.
  bus_step P1. bus_step P2. bus_step P3. bus_step P4.
  apply bind_panic. unfold on_heap, zoom. cbn [mheap bus]. by rewrite Halloc.
Qed.

(** The registers of a controller with one slot and one port. *)
Definition example_regs : XhcRegisters :=
  {| cap_regs := 0x1000; op_regs := 0x2000; rt_regs := 0x3000; doorbell_regs := [0x4000; 0x4004];
     portsc := [0x2400] |}.

(** The scratchpad buffers lose their alignment: on the allocator of [init_with_mmap]
    the page-sized allocation the code asks for is on a page boundary, as the controller
    requires, but the table and the first buffer that [ScratchpadBuffers::alloc] returns, and
    whose addresses the controller is given, are the copies made by [Box::from] and are not. *)
Theorem scratchpad_buffers_unaligned : exists p h0 table buf bufs h,
  raw_alloc 4096 4096 "allocation failed" example_state = (Ok p, h0) /\ p mod 4096 = 0 /\
  ScratchpadBuffers_alloc 1 4096 example_state = (Ok (table, buf :: bufs), h) /\
  table mod 4096 <> 0 /\ buf mod 4096 <> 0.
Proof.
  destruct (outcome_ok_test (fun p => p mod 4096 =? 0) (raw_alloc 4096 4096 "allocation failed" example_state))
    as (p & h0 & H0 & E0); [vm_compute; reflexivity|].
  destruct (outcome_ok_test (fun tb => match tb with
    | (t, b :: _) => negb (t mod 4096 =? 0) && negb (b mod 4096 =? 0) | _ => false end)
    (ScratchpadBuffers_alloc 1 4096 example_state)) as ([t [|b bs]] & h & H1 & E); [vm_compute; reflexivity|discriminate E|].
  apply andb_prop in E as [E1 E2]. exists p, h0, t, b, bs, h.
  exact (conj H0 (conj (proj1 (Z.eqb_eq _ _) E0) (conj H1 (conj
    (proj1 (Z.eqb_neq _ _) (proj1 (negb_true_iff _) E1)) (proj1 (Z.eqb_neq _ _) (proj1 (negb_true_iff _) E2)))))).
Qed.

(** ** Port reset *)

(** The port powers up when PP is written, and ends a reset that PR starts. *)
Class PortHardware (D : Type) `{BusTrace D} (ptr : Z) : Prop := {
  hw_power (d : D) tr v : bus_trace d = tr ++ [(ptr, v)] -> Z.testbit v 9 = true ->
    eventually_reads ptr (fun s => Z.testbit s 9) d;
  hw_reset (d : D) tr v : bus_trace d = tr ++ [(ptr, v)] -> Z.testbit v 4 = true ->
    eventually_reads ptr (fun s => negb (Z.testbit s 4)) d;
}.

(** The bits of PORTSC that act when one is written: port enabled (writing disables the
    port) and the seven change flags (writing acknowledges). *)
Definition RW1C_BITS : list Z := [1; 17; 18; 19; 20; 21; 22; 23].

(** [w] is the value [old] with [pos] asserted, harmlessly. *)
Definition asserts (pos old w : Z) : Prop :=
  Z.testbit w pos = true /\ Forall (fun i => Z.testbit w i = false) RW1C_BITS /\
  forall i, 0 <= i -> i <> pos -> Z.testbit PRESERVE_MASK i = true -> Z.testbit w i = Z.testbit old i.

Lemma assert_value pos old :
  0 <= pos < 32 -> ~ pos ∈ RW1C_BITS -> asserts pos old (Z.lor (Z.land old PRESERVE_MASK) (2 ^ pos)).
Proof.
  intros Hp Hn. split; [|split].
  - rewrite Z.lor_spec, Z.pow2_bits_true by lia. apply orb_true_r.
  - apply Forall_forall. intros i Hi. assert (i <> pos) as Hne by (intros ->; done).
    rewrite Z.lor_spec, Z.land_spec, (Z.pow2_bits_false pos i), orb_false_r by done.
    replace (Z.testbit PRESERVE_MASK i) with false; [by rewrite andb_false_r|].
    unfold RW1C_BITS in Hi. repeat (apply elem_of_cons in Hi as [->|Hi]; [reflexivity|]).
    by apply elem_of_nil in Hi.
  - intros i Hi Hne Hm. rewrite Z.lor_spec, Z.land_spec, Hm, andb_true_r.
    by rewrite Z.pow2_bits_false, orb_false_r by done.
Qed.

Ltac by_rw1c := apply (bool_decide_unpack _); vm_compute; exact I.

Section port.
Context {D : Type} `{BusTrace D} (ptr : Z).

Lemma portsc_bit_eq pos (d : D) : 0 <= pos < 32 ->
  portsc_bit ptr pos d = (Ok (Z.testbit (mmio_read ptr d).1 pos), (mmio_read ptr d).2).
Proof using.
  intros Hp. unfold portsc_bit, portsc_value. rewrite bind_reg_read, shl_chk_ok by lia. mstep.
  rewrite wrap_shiftl_one by lia. by rewrite land_pow2_testbit by lia.
Qed.

Lemma assert_bit_eq pos (d : D) : 0 <= pos < 32 -> ~ pos ∈ RW1C_BITS ->
  exists d' w, assert_bit ptr pos d = (Ok tt, d') /\ bus_trace d' = bus_trace d ++ [(ptr, w)] /\
    asserts pos (mmio_read ptr d).1 w.
Proof.
  intros Hp Hn. eexists _, _. split; [|split; [|by apply assert_value]].
  - unfold assert_bit. rewrite bind_reg_read, shl_chk_ok by lia. mstep.
    rewrite wrap_shiftl_one by lia. reflexivity.
  - by rewrite trace_write, trace_read.
Qed.

(** What [block_on] does after a step of the future. *)
Definition resume (fuel : nat) (r : outcome (Poll (outcome unit) * ResetPort) * D) :
    option (outcome unit * D) :=
  match r with
  | (Ok (Ready r, _), d) => Some (r, d)
  | (Ok (Pending, s), d) => block_on fuel (ptr, s) d
  | (Err e, d) => Some (Err e, d)
  | (Panic p, d) => Some (Panic p, d)
  end.

Lemma block_on_step fuel s (d : D) :
  block_on (S fuel) (ptr, s) d = resume fuel (reset_port_step ptr s d).
Proof using.
  cbn [block_on poll reset_port fst snd]. destruct (reset_port_step ptr s d) as [[[[]]|e|p] d']; done.
Qed.

Lemma check_pr_done (d : D) :
  eventually_reads ptr (fun s => negb (Z.testbit s 4)) d ->
  exists fuel0 d', bus_trace d' = bus_trace d /\
    forall fuel, (fuel0 <= fuel)%nat -> resume fuel (check_pr ptr d) = Some (Ok tt, d').
Proof.
  intros [n Hn]. revert d Hn. induction n as [|n IH]; intros d Hn.
  all: unfold check_pr, portsc_pr; rewrite (bind_ok _ _ _ _ _ (portsc_bit_eq 4 d ltac:(lia))).
  all: destruct (Z.testbit (mmio_read ptr d).1 4) eqn:Hb; cbn [negb].
  - cbn [nth_read] in Hn. by rewrite Hb in Hn.
  - exists 0%nat, (mmio_read ptr d).2. split; [apply trace_read|done].
  - destruct (IH (mmio_read ptr d).2 Hn) as (f0 & d' & Ht & Hf). exists (S f0), d'.
    rewrite Ht, trace_read. split; [done|]. intros [|fuel] Hle; [lia|].
    cbn [resume mret M_ret]. rewrite block_on_step. apply Hf. lia.
  - exists 0%nat, (mmio_read ptr d).2. split; [apply trace_read|done].
Qed.

Lemma check_pp_done `{!PortHardware D ptr} (d : D) :
  eventually_reads ptr (fun s => Z.testbit s 9) d ->
  exists fuel0 d' old w, bus_trace d' = bus_trace d ++ [(ptr, w)] /\ asserts 4 old w /\
    forall fuel, (fuel0 <= fuel)%nat -> resume fuel (check_pp ptr d) = Some (Ok tt, d').
Proof.
  intros [n Hn]. revert d Hn. induction n as [|n IH]; intros d Hn.
  all: unfold check_pp, portsc_pp; rewrite (bind_ok _ _ _ _ _ (portsc_bit_eq 9 d ltac:(lia))).
  all: destruct (Z.testbit (mmio_read ptr d).1 9) eqn:Hb; cbn [negb].
  2: { cbn [nth_read] in Hn. by rewrite Hb in Hn. }
  3: { destruct (IH (mmio_read ptr d).2 Hn) as (f0 & d' & old & w & Ht & Ha & Hf).
    exists (S f0), d', old, w. rewrite Ht, trace_read. split; [done|]. split; [done|].
    intros [|fuel] Hle; [lia|]. cbn [resume mret M_ret]. rewrite block_on_step. apply Hf. lia. }
  all: destruct (assert_bit_eq 4 (mmio_read ptr d).2 ltac:(lia) ltac:(by_rw1c))
    as (d1 & w & E & T & Ha).
  all: destruct (check_pr_done d1) as (f0 & d' & Ht & Hf); [by eapply hw_reset; [exact T|apply Ha]|].
  all: exists f0, d', (mmio_read ptr (mmio_read ptr d).2).1, w; rewrite Ht, T, trace_read.
  all: split; [done|split; [done|]]; intros fuel Hle; unfold assert_pr; rewrite (bind_ok _ _ _ _ _ E).
  all: by apply Hf.
Qed.
End port.

(** A port reset, run to completion on a port that powers up and ends its reset: the
    future completes after enough polls, having written PORTSC exactly twice, first to
    assert port power and then to assert port reset; neither write acknowledges a change
    flag or disables the port (every write-one-to-act bit is written as zero), and the bits
    of the preserve mask keep the value read. *)
Theorem reset_port_completes {D} `{BusTrace D} (ptr : Z) `{!PortHardware D ptr} (d : D) :
  exists fuel0 d' old0 w0 old1 w1,
    (forall fuel, (fuel0 <= fuel)%nat -> block_on fuel (ptr, RpStart) d = Some (Ok tt, d')) /\
    bus_trace d' = bus_trace d ++ [(ptr, w0); (ptr, w1)] /\
    asserts 9 old0 w0 /\ asserts 4 old1 w1.
Proof.
  destruct (assert_bit_eq ptr 9 d ltac:(lia) ltac:(by_rw1c)) as (d1 & w0 & E & T & Ha).
  destruct (check_pp_done ptr d1) as (f0 & d' & old & w1 & T1 & Ha1 & Hf);
    [eapply hw_power; [exact T|apply Ha]|].
  exists (S f0), d', (mmio_read ptr d).1, w0, old, w1. split; [|split; [|done]].
  - intros [|fuel] Hle; [lia|]. rewrite block_on_step. cbn [reset_port_step]. unfold assert_pp.
    rewrite (bind_ok _ _ _ _ _ E). apply Hf. lia.
  - by rewrite T1, T, <- app_assoc.
Qed.

(** A port that takes two reads to power up, and two to end a reset. *)
Record SlowPort : Type := { sp_log : list (Z * Z); sp_reads : nat }.
Definition sp_value (d : SlowPort) : Z := match last (sp_log d) with Some w => w.2 | None => 0 end.
#[export] Instance SlowPort_MmioBus : MmioBus SlowPort := {
  mmio_read a d :=
    (Z.ldiff (sp_value d) (if (sp_reads d <? 2)%nat then 0x200 else 0x10),
     {| sp_log := sp_log d; sp_reads := S (sp_reads d) |});
  mmio_write a v d := {| sp_log := sp_log d ++ [(a, v)]; sp_reads := 0 |};
}.
#[export] Instance SlowPort_BusTrace : BusTrace SlowPort.
Proof. refine {| bus_trace := sp_log |}; done. Defined.
#[export] Instance SlowPort_PortHardware ptr : PortHardware SlowPort ptr.
Proof.
  split; intros [log n] tr v Hd Hv; cbn in Hd; subst log; exists 2%nat.
  all: cbn [nth_read mmio_read SlowPort_MmioBus snd fst sp_reads sp_log].
  all: unfold sp_value; cbn [sp_log]; rewrite last_snoc; cbn [snd].
  all: rewrite (proj2 (Nat.ltb_ge _ _)), Z.ldiff_spec by lia; rewrite ?Hv; done.
Qed.

Lemma reset_port_completes_witness :
  exists fuel d' w0 w1, block_on fuel (0x2400, RpStart) {| sp_log := []; sp_reads := 0 |} = Some (Ok tt, d') /\
    sp_log d' = [(0x2400, w0); (0x2400, w1)] /\ Z.testbit w1 17 = false.
Proof.
  destruct (reset_port_completes 0x2400 {| sp_log := []; sp_reads := 0 |})
    as (fuel0 & d' & old0 & w0 & old1 & w1 & Hf & Ht & _ & _ & Hw & _).
  exists fuel0, d', w0, w1. split; [by apply Hf|]. split; [exact Ht|].
  apply (proj1 (Forall_forall _ _) Hw 17). by apply (bool_decide_unpack _).
Defined.

Lemma slow_port_runs :
  block_on 5 (0x2400, RpStart) {| sp_log := []; sp_reads := 0 |} =
    Some (Ok tt, {| sp_log := [(0x2400, 0x200); (0x2400, 0x210)]; sp_reads := 3 |}).
Proof. vm_compute. reflexivity. Qed.
