(* ===== verification/Usb.v ===== *)
(** * USB descriptors: [src/src/xhci.rs], [src/src/slice.rs].

    The packed descriptor structures as byte layouts, the [DescriptorIterator] over a
    configuration's bytes, and the search for a mass-storage interface's bulk endpoints. *)

From S2P Require Import Prelude Contexts.
Import UsbTypes.

Module Descriptor.

Inductive UsbDescriptorType : Type := TDevice | TConfig | TString | TInterface | TEndpoint.
Definition UsbDescriptorType_repr (t : UsbDescriptorType) : Z :=
  match t with TDevice => 1 | TConfig => 2 | TString => 3 | TInterface => 4 | TEndpoint => 5 end.

Record UsbDeviceDescriptor : Type := {
  dd_length : Z; dd_type : Z; dd_version : Z; device_class : Z; device_subclass : Z;
  device_protocol : Z; dd_max_packet_size : Z; vendor_id : Z; product_id : Z;
  device_version : Z; manufacturer_index : Z; product_index : Z; serial_idx : Z; num_of_config : Z;
}.

Record ConfigDescriptor : Type := {
  cd_length : Z; cd_type : Z; total_length : Z; num_of_interfaces : Z; config_value : Z;
  config_string_index : Z; cd_attributes : Z; max_power : Z;
}.

Record InterfaceDescriptor : Type := {
  id_length : Z; id_type : Z; interface_number : Z; alt_setting : Z; num_of_endpoints : Z;
  interface_class : Z; interface_subclass : Z; interface_protocol : Z; interface_index : Z;
}.

Record EndpointDescriptor : Type := {
  ed_length : Z; ed_type : Z; endpoint_address : Z; attributes : Z; ed_max_packet_size : Z;
  interval : Z;
}.

Inductive UsbDescriptor : Type :=
  | DConfig (c : ConfigDescriptor)
  | DInterface (i : InterfaceDescriptor)
  | DEndpoint (e : EndpointDescriptor)
  | DUnknown (desc_len desc_type : Z).

Definition byte (l : list Z) (i : nat) : Z := default 0 (l !! i).
Definition u16 (l : list Z) (i : nat) : Z := le_decode (slice l i 2).

(** [Sliceable::copy_from_slice] for a type of [size] bytes: the bytes it reads. *)
Definition copy_from_slice (size : nat) (data : list Z) : outcome (list Z) :=
  if (length data <? size)%nat then Err "data is too short" else Ok (take size data).

(** The packed layouts. *)
Definition UsbDeviceDescriptor_of (b : list Z) : UsbDeviceDescriptor := {|
  dd_length := byte b 0; dd_type := byte b 1; dd_version := u16 b 2; device_class := byte b 4;
  device_subclass := byte b 5; device_protocol := byte b 6; dd_max_packet_size := byte b 7;
  vendor_id := u16 b 8; product_id := u16 b 10; device_version := u16 b 12;
  manufacturer_index := byte b 14; product_index := byte b 15; serial_idx := byte b 16;
  num_of_config := byte b 17 |}.
Definition ConfigDescriptor_of (b : list Z) : ConfigDescriptor := {|
  cd_length := byte b 0; cd_type := byte b 1; total_length := u16 b 2; num_of_interfaces := byte b 4;
  config_value := byte b 5; config_string_index := byte b 6; cd_attributes := byte b 7;
  max_power := byte b 8 |}.
Definition InterfaceDescriptor_of (b : list Z) : InterfaceDescriptor := {|
  id_length := byte b 0; id_type := byte b 1; interface_number := byte b 2; alt_setting := byte b 3;
  num_of_endpoints := byte b 4; interface_class := byte b 5; interface_subclass := byte b 6;
  interface_protocol := byte b 7; interface_index := byte b 8 |}.
Definition EndpointDescriptor_of (b : list Z) : EndpointDescriptor := {|
  ed_length := byte b 0; ed_type := byte b 1; endpoint_address := byte b 2; attributes := byte b 3;
  ed_max_packet_size := u16 b 4; interval := byte b 6 |}.

(** [DescriptorIterator::next] on the buffer, from [index]: the item ([None] at the end, or
    when a structure does not fit the rest of the buffer) and the next index. *)
Definition DescriptorIterator_next (buf : list Z) : M nat (option UsbDescriptor) :=
  index ← get;
  if (length buf <=? index)%nat then mret None else
  let rest := drop index buf in
  match rest with
  | desc_len :: desc_type :: _ =>
      let item size (mk : list Z -> UsbDescriptor) :=
        match copy_from_slice size rest with Ok b => Some (mk b) | _ => None end in
      let desc :=
        if desc_type =? UsbDescriptorType_repr TConfig then
          item 9%nat (fun b => DConfig (ConfigDescriptor_of b))
        else if desc_type =? UsbDescriptorType_repr TInterface then
          item 9%nat (fun b => DInterface (InterfaceDescriptor_of b))
        else if desc_type =? UsbDescriptorType_repr TEndpoint then
          item 7%nat (fun b => DEndpoint (EndpointDescriptor_of b))
        else Some (DUnknown desc_len desc_type) in
      match desc with
      | None => mret None
      | Some desc => modify (fun i => (i + Z.to_nat desc_len)%nat);; mret (Some desc)
      end
  | _ => panic "index out of bounds"
  end.

(** [iter.collect()]; [None] when [fuel] calls of [next] are not enough. *)
Fixpoint collect (fuel : nat) (buf : list Z) (index : nat) : option (outcome (list UsbDescriptor)) :=
  match fuel with
  | O => None
  | S fuel =>
      match DescriptorIterator_next buf index with
      | (Ok None, _) => Some (Ok [])
      | (Ok (Some d), index) =>
          r ← collect fuel buf index;
          Some (ds ← r; Ok (d :: ds))
      | (Err e, _) => Some (Err e)
      | (Panic p, _) => Some (Panic p)
      end
  end.

End Descriptor.
Import Descriptor.

Module MassStorage.

(** The loop of [handle_mass_storage_device]. *)
Record Search : Type := {
  bulk_in_ep : option EndpointDescriptor; bulk_out_ep : option EndpointDescriptor;
  last_config : option ConfigDescriptor; usb_interface : option InterfaceDescriptor;
  ep_desc_list : list EndpointDescriptor;
}.

Definition search_start : Search :=
  {| bulk_in_ep := None; bulk_out_ep := None; last_config := None; usb_interface := None;
     ep_desc_list := [] |}.

(** One descriptor; [None] is the [break]. *)
Definition search_step (s : Search) (d : UsbDescriptor) : option Search :=
  match d with
  | DConfig c =>
      match usb_interface s with
      | Some _ => None
      | None => Some {| bulk_in_ep := bulk_in_ep s; bulk_out_ep := bulk_out_ep s;
                        last_config := Some c; usb_interface := usb_interface s; ep_desc_list := [] |}
      end
  | DInterface i =>
      Some {| bulk_in_ep := bulk_in_ep s; bulk_out_ep := bulk_out_ep s; last_config := last_config s;
              usb_interface := Some i; ep_desc_list := ep_desc_list s |}
  | DEndpoint ep =>
      let bulk := Z.land (attributes ep) 3 =? 2 in
      let dir_in := negb (Z.land (endpoint_address ep) 0x80 =? 0) in
      Some {| bulk_in_ep := if bulk && dir_in then Some ep else bulk_in_ep s;
              bulk_out_ep := if bulk && negb dir_in then Some ep else bulk_out_ep s;
              last_config := last_config s; usb_interface := usb_interface s;
              ep_desc_list := ep_desc_list s ++ [ep] |}
  | DUnknown _ _ => Some s
  end.

Fixpoint search (s : Search) (ds : list UsbDescriptor) : Search :=
  match ds with
  | [] => s
  | d :: ds => match search_step s d with Some s => search s ds | None => s end
  end.

(** What the search must have found. *)
Definition find_bulk (ds : list UsbDescriptor) :
    outcome (ConfigDescriptor * InterfaceDescriptor * EndpointDescriptor * EndpointDescriptor) :=
  let s := search search_start ds in
  config ← ok_or (last_config s) "Config descriptor not found";
  interface ← ok_or (usb_interface s) "Interface descriptor not found";
  bulk_in ← ok_or (bulk_in_ep s) "Bulk IN endpoint not found";
  bulk_out ← ok_or (bulk_out_ep s) "Bulk OUT endpoint not found";
  Ok (config, interface, bulk_in, bulk_out).

(** The device context indices, computed on [u8]. *)
Definition bulk_out_dci (ep : EndpointDescriptor) : outcome Z :=
  if Z.land (endpoint_address ep) 0x80 =? 0
  then mul_chk 8 (Z.land (endpoint_address ep) 0x0F) 2
  else Err "OUT endpoint has IN direction bit set".
Definition bulk_in_dci (ep : EndpointDescriptor) : outcome Z :=
  if negb (Z.land (endpoint_address ep) 0x80 =? 0)
  then n ← mul_chk 8 (Z.land (endpoint_address ep) 0x0F) 2; add_chk 8 n 1
  else Err "IN endpoint has OUT direction bit set".

(** The test of [PciXhciDriver::run] on an interface. *)
Definition is_mass_storage (i : InterfaceDescriptor) : bool :=
  (interface_class i =? 8) && (interface_subclass i =? 6) && (interface_protocol i =? 0x50).

End MassStorage.
Import MassStorage.

(** ** Descriptor streams *)

(** The bytes of a descriptor followed by [pad] bytes that its length also covers. *)
Definition encode (d : UsbDescriptor) (pad : list Z) : list Z :=
  match d with
  | DConfig c =>
      [cd_length c; cd_type c] ++ le_encode 2 (total_length c) ++
      [num_of_interfaces c; config_value c; config_string_index c; cd_attributes c; max_power c]
  | DInterface i =>
      [id_length i; id_type i; interface_number i; alt_setting i; num_of_endpoints i; interface_class i;
       interface_subclass i; interface_protocol i; interface_index i]
  | DEndpoint e =>
      [ed_length e; ed_type e; endpoint_address e; attributes e] ++ le_encode 2 (ed_max_packet_size e) ++
      [interval e]
  | DUnknown len ty => [len; ty]
  end ++ pad.

Definition desc_length (d : UsbDescriptor) : Z :=
  match d with
  | DConfig c => cd_length c | DInterface i => id_length i
  | DEndpoint e => ed_length e | DUnknown len _ => len
  end.

(** The type byte agrees with the constructor, the length byte with the bytes, and the
    16-bit fields are 16-bit. *)
Definition well_formed (x : UsbDescriptor * list Z) : Prop :=
  desc_length x.1 = Z.of_nat (length (encode x.1 x.2)) /\
  match x.1 with
  | DConfig c => cd_type c = 2 /\ in_width 16 (total_length c)
  | DInterface i => id_type i = 4
  | DEndpoint e => ed_type e = 5 /\ in_width 16 (ed_max_packet_size e)
  | DUnknown _ ty => ty <> 2 /\ ty <> 4 /\ ty <> 5
  end.

Definition stream (xs : list (UsbDescriptor * list Z)) : list Z := xs ≫= (fun x => encode x.1 x.2).

Lemma le_encode_two v : in_width 16 v ->
  exists b0 b1, le_encode 2 v = [b0; b1] /\ le_decode [b0; b1] = v.
Proof.
  intros Hv. exists (v mod 256), (v / 256 mod 256). split; [done|].
  by apply (le_decode_encode_id 2 v).
Qed.

(** One step of the iterator over a descriptor at its index. *)
Lemma next_well_formed x pre post : well_formed x ->
  DescriptorIterator_next (pre ++ encode x.1 x.2 ++ post) (length pre) =
    (Ok (Some x.1), (length pre + length (encode x.1 x.2))%nat).
Proof.
  destruct x as [d pad]. intros [Hlen Hd]. cbn [fst snd] in *.
  unfold DescriptorIterator_next. rewrite (bind_ok get _ _ _ _ eq_refl).
  rewrite (proj2 (Nat.leb_gt _ _)), drop_app_length
    by (rewrite !length_app; destruct d; simpl; lia).
  assert (Z.to_nat (desc_length d) = length (encode d pad)) as Hn by lia. clear Hlen. revert Hn.
  destruct d as [[]|[]|[]|len ty]; cbn [cd_type id_type ed_type total_length ed_max_packet_size] in Hd.
  - destruct Hd as [-> Hw]. unfold encode. cbn [total_length].
    destruct (le_encode_two _ Hw) as (b0 & b1 & -> & <-). cbn -[le_decode length]. by intros ->.
  - subst. cbn -[length]. by intros ->.
  - destruct Hd as [-> Hw]. unfold encode. cbn [ed_max_packet_size].
    destruct (le_encode_two _ Hw) as (b0 & b1 & -> & <-). cbn -[le_decode length]. by intros ->.
  - destruct Hd as (H2 & H4 & H5). cbn -[length Z.eqb].
    rewrite (proj2 (Z.eqb_neq _ _) H2), (proj2 (Z.eqb_neq _ _) H4), (proj2 (Z.eqb_neq _ _) H5).
    by intros ->.
Qed.

Lemma next_end buf : DescriptorIterator_next buf (length buf) = (Ok None, length buf).
Proof.
  unfold DescriptorIterator_next. rewrite (bind_ok get _ _ _ _ eq_refl). by rewrite Nat.leb_refl.
Qed.

Lemma collect_stream xs : Forall well_formed xs -> forall pre fuel, (length xs < fuel)%nat ->
  collect fuel (pre ++ stream xs) (length pre) = Some (Ok (fst <$> xs)).
Proof.
  induction 1 as [|x xs Hx _ IH]; intros pre [|fuel] Hf; cbn [length] in Hf; try lia; cbn [collect].
  - unfold stream. cbn [mbind list_bind]. rewrite app_nil_r, next_end. done.
  - change (stream (x :: xs)) with (encode x.1 x.2 ++ stream xs). rewrite next_well_formed by done.
    rewrite app_assoc, <- length_app, IH by lia. done.
Qed.

(** ** Progress *)

(** The bytes a descriptor of a type needs: a structure its size, other types none. *)
Definition structure_size (ty : Z) : nat :=
  if (ty =? 2) || (ty =? 4) then 9 else if ty =? 5 then 7 else 0.

(** The length byte of the descriptor at [j], when there are the two bytes of its head and
    room for its structure. *)
Definition descriptor_at (buf : list Z) (j : nat) : option nat :=
  match drop j buf with
  | len :: ty :: _ => if (structure_size ty <=? length (drop j buf))%nat then Some (Z.to_nat len) else None
  | _ => None
  end.

(** The positions reached from [i] by the length bytes. *)
Inductive visits (buf : list Z) (i : nat) : nat -> Prop :=
  | visits_start : visits buf i i
  | visits_next j len : visits buf i j -> descriptor_at buf j = Some len -> visits buf i (j + len).

Section progress.
Context (buf : list Z).

Lemma visits_head i len j : descriptor_at buf i = Some len -> visits buf (i + len) j -> visits buf i j.
Proof using.
  intros Hd. induction 1 as [|j' len' _ IH Hj]; [|by apply visits_next].
  apply visits_next; [apply visits_start|done].
Qed.

Lemma visits_inv i j : visits buf i j ->
  j = i \/ exists len, descriptor_at buf i = Some len /\ visits buf (i + len) j.
Proof using.
  induction 1 as [|j len _ IH Hj]; [by left|]. right. destruct IH as [->|(l & Hl & Hv)].
  - exists len. split; [done|apply visits_start].
  - exists l. split; [done|by apply visits_next].
Qed.

Lemma next_at i : exists d, DescriptorIterator_next buf i =
  match drop i buf with
  | [] => (Ok None, i)
  | [_] => (Panic "index out of bounds", i)
  | _ => match descriptor_at buf i with Some len => (Ok (Some d), i + len)%nat | None => (Ok None, i) end
  end.
Proof using.
  unfold DescriptorIterator_next, descriptor_at. rewrite (bind_ok get _ _ _ _ eq_refl).
  destruct (Nat.leb_spec (length buf) i) as [Hi|Hi]; [rewrite drop_ge by lia; by exists (DUnknown 0 0)|].
  destruct (drop i buf) as [|len [|ty rest]] eqn:Hd; [|by exists (DUnknown 0 0)|].
  { apply (f_equal length) in Hd. rewrite length_drop in Hd. cbn in Hd. lia. }
  unfold structure_size, copy_from_slice. cbn [UsbDescriptorType_repr].
  destruct (ty =? 2); [|destruct (ty =? 4); [|destruct (ty =? 5)] ]; cbn [orb].
  1, 2: destruct (Nat.leb_spec 9 (length (len :: ty :: rest))) as [H|H];
    [rewrite (proj2 (Nat.ltb_ge _ _)) by lia; by eexists|rewrite (proj2 (Nat.ltb_lt _ _)) by lia; by exists (DUnknown 0 0)].
  - destruct (Nat.leb_spec 7 (length (len :: ty :: rest))) as [H|H];
      [rewrite (proj2 (Nat.ltb_ge _ _)) by lia; by eexists|rewrite (proj2 (Nat.ltb_lt _ _)) by lia; by exists (DUnknown 0 0)].
  - by eexists.
Qed.

Lemma descriptor_at_lt i len : descriptor_at buf i = Some len -> (S i < length buf)%nat.
Proof using.
  unfold descriptor_at. destruct (drop i buf) as [|x [|y l]] eqn:Hd; try done. intros _.
  apply (f_equal length) in Hd. rewrite length_drop in Hd. cbn in Hd. lia.
Qed.

Lemma drop_lt2 i : (S i < length buf)%nat -> exists x y l, drop i buf = x :: y :: l.
Proof using.
  intros Hi. destruct (drop i buf) as [|x [|y l]] eqn:Hd; [..|by eexists _, _, _];
    apply (f_equal length) in Hd; rewrite length_drop in Hd; cbn in Hd; lia.
Qed.

(** Without a zero length byte on its way the iterator gets to its end, which is a panic
    exactly when one byte is left there. *)
Lemma collect_ends fuel : forall i, (length buf - i < fuel)%nat ->
  (forall j, visits buf i j -> descriptor_at buf j <> Some 0%nat) ->
  ((exists ds, collect fuel buf i = Some (Ok ds)) /\ forall j, visits buf i j -> S j <> length buf) \/
  (collect fuel buf i = Some (Panic "index out of bounds") /\ exists j, visits buf i j /\ S j = length buf).
Proof using.
  induction fuel as [|fuel IH]; intros i Hf Hz; [lia|]. cbn [collect]. destruct (next_at i) as [d ->].
  destruct (descriptor_at buf i) as [len|] eqn:Hat.
  - pose proof (descriptor_at_lt i len Hat) as Hi. destruct (drop_lt2 i Hi) as (x & y & l & ->).
    assert (len <> 0%nat) as Hlen by (intros ->; by apply (Hz i); [apply visits_start|]).
    destruct (IH (i + len)%nat) as [[[ds ->] Hno]|[-> (j & Hv & Hj)] ]; [lia| | |].
    + intros j Hv. apply Hz. by apply (visits_head i len).
    + left. split; [by eexists|]. intros j Hv. destruct (visits_inv i j Hv) as [->|(l' & E & Hv')]; [lia|].
      rewrite Hat in E. simplify_eq. by apply Hno.
    + right. split; [done|]. exists j. split; [by apply (visits_head i len)|done].
  - assert (forall j, visits buf i j -> j = i) as Honly.
    { intros j Hv. destruct (visits_inv i j Hv) as [->|(l & E & _)]; [done|by rewrite Hat in E]. }
    destruct (drop i buf) as [|x [|y l]] eqn:Hd; apply (f_equal length) in Hd; rewrite length_drop in Hd; cbn in Hd.
    + left. split; [by eexists|]. intros j ->%Honly. lia.
    + right. split; [done|]. exists i. split; [apply visits_start|lia].
    + left. split; [by eexists|]. intros j ->%Honly. lia.
Qed.

(** A zero length byte is read again and again. *)
Lemma collect_stuck j fuel : descriptor_at buf j = Some 0%nat -> collect fuel buf j = None.
Proof using.
  intros Hz. induction fuel as [|fuel IH]; [done|]. cbn [collect]. destruct (next_at j) as [d ->].
  destruct (drop_lt2 j (descriptor_at_lt j _ Hz)) as (x & y & l & ->). by rewrite Hz, Nat.add_0_r, IH.
Qed.

Lemma collect_reaches i j fuel : visits buf i j -> descriptor_at buf j = Some 0%nat -> collect fuel buf i = None.
Proof using.
  intros Hv Hz. assert (forall k, visits buf i k -> (forall fuel, collect fuel buf k = None) ->
    forall fuel, collect fuel buf i = None) as H.
  { induction 1 as [|k len _ IH Hk]; [done|]. intros Hnone. apply IH. intros [|n]; [done|]. cbn [collect].
    destruct (next_at k) as [d ->]. destruct (drop_lt2 k (descriptor_at_lt k _ Hk)) as (x & y & l & ->).
    by rewrite Hk, Hnone. }
  apply (H j Hv). intros n. by apply collect_stuck.
Qed.
End progress.

(** ** Properties *)

(** Round trip of the descriptor iterator: over the concatenation of any well-formed
    descriptors (configuration, interface, endpoint or of another type, each as long as its
    length byte says, padding included), it yields exactly those descriptors in order and
    then ends, within one call per descriptor and one more. *)
Theorem descriptor_stream_roundtrip (xs : list (UsbDescriptor * list Z)) (fuel : nat)
  (Hxs : Forall well_formed xs) (Hfuel : (length xs < fuel)%nat) :
  collect fuel (stream xs) 0 = Some (Ok (fst <$> xs)).
Proof. by apply (collect_stream xs Hxs []). Qed.

Definition example_config : ConfigDescriptor := {|
  cd_length := 9; cd_type := 2; total_length := 32; num_of_interfaces := 1; config_value := 1;
  config_string_index := 0; cd_attributes := 0x80; max_power := 50 |}.
Definition example_interface : InterfaceDescriptor := {|
  id_length := 9; id_type := 4; interface_number := 0; alt_setting := 0; num_of_endpoints := 2;
  interface_class := 8; interface_subclass := 6; interface_protocol := 0x50; interface_index := 0 |}.
Definition example_endpoint (address : Z) : EndpointDescriptor := {|
  ed_length := 7; ed_type := 5; endpoint_address := address; attributes := 2;
  ed_max_packet_size := 512; interval := 0 |}.
Definition example_stream : list (UsbDescriptor * list Z) :=
  [(DConfig example_config, []); (DInterface example_interface, []);
   (DEndpoint (example_endpoint 0x81), []); (DUnknown 6 0x30, [0; 0; 0; 0]);
   (DEndpoint (example_endpoint 2), [])].

Lemma descriptor_stream_roundtrip_witness :
  collect 6 (stream example_stream) 0 = Some (Ok (fst <$> example_stream)).
Proof.
  apply (descriptor_stream_roundtrip example_stream 6); [|simpl; lia].
  repeat constructor; cbn; try lia; done.
Defined.

(** C31. Progress of the descriptor iterator on arbitrary device bytes, from any position, by
    the positions that the length bytes lead to ([visits]).  If no descriptor on the way has
    a length byte of zero, the collection ends within one call per byte and one more: with a
    panic, an index out of range, when it comes to a single left-over byte, and normally
    otherwise, also when a structure does not fit the rest.  If one has, it is yielded for
    ever, and no number of calls ends the collection. *)
Theorem descriptor_iterator_progress (buf : list Z) (i : nat) :
  ((forall j, visits buf i j -> descriptor_at buf j <> Some 0%nat) ->
   ((exists j, visits buf i j /\ S j = length buf) ->
      collect (S (length buf)) buf i = Some (Panic "index out of bounds")) /\
   ((forall j, visits buf i j -> S j <> length buf) -> exists ds, collect (S (length buf)) buf i = Some (Ok ds))) /\
  (forall j fuel, visits buf i j -> descriptor_at buf j = Some 0%nat -> collect fuel buf i = None).
Proof.
  split; [|intros j fuel; apply collect_reaches].
  intros Hz. destruct (collect_ends buf (S (length buf)) i ltac:(lia) Hz) as [[Hds Hno]|[Hp (j & Hv & Hj)] ]; split.
  - intros (j & Hv & Hj). by destruct (Hno j Hv).
  - done.
  - done.
  - intros Hno. by destruct (Hno j Hv).
Qed.

(** An endpoint of length zero behind a descriptor of two bytes; and a left-over byte. *)
Lemma descriptor_iterator_progress_witness :
  collect 1000 [2; 0x30; 0; 5; 1; 2; 0; 2; 0] 0 = None /\
  collect 5 [3; 0x30; 0; 1] 0 = Some (Panic "index out of bounds").
Proof.
  split.
  - apply (proj2 (descriptor_iterator_progress [2; 0x30; 0; 5; 1; 2; 0; 2; 0] 0) 2%nat); [|reflexivity].
    apply (visits_next _ 0 0 2); [apply visits_start|reflexivity].
  - apply (proj1 (descriptor_iterator_progress [3; 0x30; 0; 1] 0)).
    + intros j Hv. assert (j = 0 \/ j = 3)%nat as [-> | ->]; [|discriminate..].
      induction Hv as [|j len _ [-> | ->] Hj]; [by left|injection Hj as <-; by right|discriminate Hj].
    + exists 3%nat. split; [|reflexivity]. apply (visits_next _ 0 0 3); [apply visits_start|reflexivity].
Defined.

(** ** The bulk endpoint search *)

(** The descriptors of the first configuration that has an interface: all up to the next
    configuration descriptor. *)
Fixpoint active (seen : bool) (ds : list UsbDescriptor) : list UsbDescriptor :=
  match ds with
  | [] => []
  | DConfig c :: ds => if seen then [] else DConfig c :: active false ds
  | DInterface i :: ds => DInterface i :: active true ds
  | d :: ds => d :: active seen ds
  end.

Definition configs (ds : list UsbDescriptor) : list ConfigDescriptor :=
  omap (fun d => match d with DConfig c => Some c | _ => None end) ds.
Definition interfaces (ds : list UsbDescriptor) : list InterfaceDescriptor :=
  omap (fun d => match d with DInterface i => Some i | _ => None end) ds.
Definition is_bulk (dir_in : bool) (e : EndpointDescriptor) : bool :=
  (get_field (attributes e) 0 2 =? 2) && eqb (Z.testbit (endpoint_address e) 7) dir_in.
Definition bulks (dir_in : bool) (ds : list UsbDescriptor) : list EndpointDescriptor :=
  omap (fun d => match d with DEndpoint e => if is_bulk dir_in e then Some e else None | _ => None end) ds.

(** The last element, or the one known before. *)
Definition last_or {A} (o : option A) (l : list A) : option A :=
  match last l with Some a => Some a | None => o end.

Lemma last_or_cons {A} (o : option A) a l : last_or o (a :: l) = last_or (Some a) l.
Proof. unfold last_or. rewrite last_cons. by destruct (last l). Qed.

Lemma address_in e : negb (Z.land (endpoint_address e) 0x80 =? 0) = Z.testbit (endpoint_address e) 7.
Proof. exact (land_pow2_testbit (endpoint_address e) 7 ltac:(lia)). Qed.

Lemma is_bulk_eq b e :
  is_bulk b e = (Z.land (attributes e) 3 =? 2) && eqb (negb (Z.land (endpoint_address e) 0x80 =? 0)) b.
Proof. unfold is_bulk. by rewrite address_in. Qed.

Lemma search_last ds : forall s,
  let seen := match usb_interface s with Some _ => true | None => false end in
  let s' := search s ds in
  last_config s' = last_or (last_config s) (configs (active seen ds)) /\
  usb_interface s' = last_or (usb_interface s) (interfaces (active seen ds)) /\
  bulk_in_ep s' = last_or (bulk_in_ep s) (bulks true (active seen ds)) /\
  bulk_out_ep s' = last_or (bulk_out_ep s) (bulks false (active seen ds)).
Proof.
  induction ds as [|d ds IH]; intros s seen s'; [done|].
  destruct d as [c|i|e|len ty]; unfold s'; cbn [search search_step].
  - unfold seen. destruct (usb_interface s) eqn:Hu; [unfold last_or; cbn; by rewrite Hu|].
    match goal with |- context [search ?s1 ds] => specialize (IH s1) end.
    cbn [usb_interface last_config bulk_in_ep bulk_out_ep] in IH. rewrite ?Hu in IH.
    destruct IH as (-> & -> & -> & ->). cbn [active]. unfold configs. cbn [omap list_omap].
    by rewrite last_or_cons.
  - match goal with |- context [search ?s1 ds] => specialize (IH s1) end.
    cbn [usb_interface last_config bulk_in_ep bulk_out_ep] in IH.
    destruct IH as (-> & -> & -> & ->). cbn [active]. unfold interfaces. cbn [omap list_omap].
    by rewrite last_or_cons.
  - match goal with |- context [search ?s1 ds] => specialize (IH s1) end.
    cbn [usb_interface last_config bulk_in_ep bulk_out_ep] in IH. fold seen in IH.
    destruct IH as (-> & -> & -> & ->). cbn [active]. split; [done|]. split; [done|].
    unfold bulks. cbn [omap list_omap]. rewrite !is_bulk_eq.
    destruct (Z.land (attributes e) 3 =? 2), (Z.land (endpoint_address e) 0x80 =? 0);
      cbn [andb negb eqb]; by rewrite ?last_or_cons.
  - apply (IH s).
Qed.

Lemma dci_number e : 0 <= get_field (endpoint_address e) 0 4 < 16 /\
  Z.land (endpoint_address e) 0x0F = get_field (endpoint_address e) 0 4.
Proof. split; [apply (get_field_width (endpoint_address e) 0 4); lia|done]. Qed.

Lemma find_bulk_last (ds : list UsbDescriptor) :
  let a := active false ds in
  find_bulk ds =
    (c ← ok_or (last (configs a)) "Config descriptor not found";
     i ← ok_or (last (interfaces a)) "Interface descriptor not found";
     bi ← ok_or (last (bulks true a)) "Bulk IN endpoint not found";
     bo ← ok_or (last (bulks false a)) "Bulk OUT endpoint not found";
     Ok (c, i, bi, bo)).
Proof.
  intros a. destruct (search_last ds search_start) as (H1 & H2 & H3 & H4).
  cbn [search_start last_config usb_interface bulk_in_ep bulk_out_ep] in H1, H2, H3, H4. fold a in H1, H2, H3, H4.
  assert (forall A (l : list A), last_or None l = last l) as Hl by (intros A l; unfold last_or; by destruct (last l)).
  rewrite Hl in H1, H2, H3, H4. unfold find_bulk. by rewrite H1, H2, H3, H4.
Qed.

(** The directions and the context indices of the endpoints found. *)
Lemma find_bulk_endpoints ds c i bi bo : find_bulk ds = Ok (c, i, bi, bo) ->
  Z.testbit (endpoint_address bi) 7 = true /\ Z.testbit (endpoint_address bo) 7 = false /\
  bulk_in_dci bi = Ok (2 * get_field (endpoint_address bi) 0 4 + 1) /\
  bulk_out_dci bo = Ok (2 * get_field (endpoint_address bo) 0 4).
Proof.
  rewrite find_bulk_last. intros E. set (a := active false ds) in E.
  assert (forall b e, last (bulks b a) = Some e -> Z.testbit (endpoint_address e) 7 = b) as Hdir.
  { intros b e He. apply last_Some_elem_of in He. unfold bulks in He. apply list_elem_of_omap in He as (d & _ & Hd).
    destruct d as [|?|e'|]; try done. destruct (is_bulk b e') eqn:Hb; [|done]. simplify_eq.
    unfold is_bulk in Hb. apply andb_prop in Hb as [_ Hb]. by apply eqb_prop in Hb. }
  destruct (last (configs a)); [|done]. destruct (last (interfaces a)); [|done].
  destruct (last (bulks true a)) as [bi'|] eqn:Hbi; [|done]. destruct (last (bulks false a)) as [bo'|] eqn:Hbo; [|done].
  cbn in E. simplify_eq. apply Hdir in Hbi, Hbo. split; [done|]. split; [done|].
  destruct (dci_number bi) as [Hbi1 Ebi], (dci_number bo) as [Hbo1 Ebo].
  unfold bulk_in_dci, bulk_out_dci. rewrite !address_in, Hbi, Ebi, Ebo.
  rewrite <- (negb_involutive (_ =? 0)), address_in, Hbo. cbn [negb].
  rewrite !mul_chk_ok by lia. cbn [mbind outcome_bind]. rewrite add_chk_ok by lia.
  split; f_equal; lia.
Qed.

(** C32. The bulk endpoints of a mass-storage device, for any descriptor list: the search
    finds, within the first configuration that has an interface (everything before the next
    configuration descriptor), the last configuration, the last interface and the last bulk
    IN and bulk OUT endpoint, and reports the first of these that is missing; the context
    indices of the endpoints found are then 2n+1 for IN and 2n for OUT, n the endpoint
    number, without error or overflow. *)
Theorem find_bulk_correct (ds : list UsbDescriptor) :
  let a := active false ds in
  find_bulk ds =
    (c ← ok_or (last (configs a)) "Config descriptor not found";
     i ← ok_or (last (interfaces a)) "Interface descriptor not found";
     bi ← ok_or (last (bulks true a)) "Bulk IN endpoint not found";
     bo ← ok_or (last (bulks false a)) "Bulk OUT endpoint not found";
     Ok (c, i, bi, bo)) /\
  forall c i bi bo, find_bulk ds = Ok (c, i, bi, bo) ->
    bulk_in_dci bi = Ok (2 * get_field (endpoint_address bi) 0 4 + 1) /\
    bulk_out_dci bo = Ok (2 * get_field (endpoint_address bo) 0 4).
Proof.
  intros a. split; [apply find_bulk_last|]. intros c i bi bo E.
  by destruct (find_bulk_endpoints ds c i bi bo E) as (_ & _ & H1 & H2).
Qed.

Lemma find_bulk_correct_witness :
  bulk_in_dci (example_endpoint 0x81) = Ok 3 /\ bulk_out_dci (example_endpoint 2) = Ok 4.
Proof.
  apply (proj2 (find_bulk_correct (fst <$> example_stream)) example_config example_interface).
  vm_compute. reflexivity.
Defined.
