(* ===== verification/Storage.v ===== *)
(** * Bulk-only mass storage: [src/src/cbw.rs], and the SCSI and boot-sector code of
    [src/src/xhci.rs].

    [Scsi] holds the command and status wrappers and the READ CAPACITY response, [Mbr] the
    analysis of sector zero: what the code prints is a list of report lines. *)

From S2P Require Import Prelude Contexts.
Import Contexts.

Module Scsi.

(** [buf[ofs..ofs + src.len()].copy_from_slice(src)], and [buf[ofs] = b]. *)
Definition set_bytes (ofs : nat) (src : list Z) : M (list Z) unit :=
  buf ← get;
  if (ofs + length src <=? length buf)%nat
  then put (take ofs buf ++ src ++ drop (ofs + length src) buf)
  else panic "range end index out of range".
Definition set_byte (ofs : nat) (b : Z) : M (list Z) unit := set_bytes ofs [b].

(** The command wrapper [scsi_inquiry] sends. *)
Definition inquiry_cbw : outcome (list Z) := construct (replicate 31 0) (
  set_bytes 0 (le_encode 4 0x43425355);;
  set_bytes 4 (le_encode 4 1);;
  set_bytes 8 (le_encode 4 36);;
  set_byte 12 0x80;;
  set_byte 13 0;;
  set_byte 14 6;;
  set_byte 15 0x12;;
  set_byte 16 0x00;;
  set_byte 17 0x00;;
  set_byte 18 0x00;;
  set_byte 19 36;;
  set_byte 20 0x00).

(** The command wrapper [scsi_read_10] sends. *)
Definition read_10_cbw (lba transfer_length : Z) : outcome (list Z) :=
  bytes ← mul_chk 32 transfer_length 512;
  construct (replicate 31 0) (
    set_bytes 0 (le_encode 4 0x43425355);;
    set_bytes 4 (le_encode 4 3);;
    set_bytes 8 (le_encode 4 bytes);;
    set_byte 12 0x80;;
    set_byte 13 0;;
    set_byte 14 10;;
    set_byte 15 0x28;;
    set_byte 16 0x00;;
    set_bytes 17 (be_encode 4 lba);;
    set_byte 21 0x00;;
    set_bytes 22 (be_encode 2 transfer_length);;
    set_byte 24 0x00).

(** [CommandBlockWrapper] of [cbw.rs]. *)
Record CommandBlockWrapper : Type := {
  signature : Z; tag : Z; data_transfer_length : Z; flags : Z; lun : Z; cb_length : Z;
  command_block : list Z;
}.

Definition SIGNATURE : Z := 0x43425355.
Definition FLAG_DATA_IN : Z := 0x80.

Definition CommandBlockWrapper_new_read_10 (lba transfer_length tag : Z) : outcome CommandBlockWrapper :=
  bytes ← mul_chk 32 transfer_length 512;
  block ← construct (replicate 16 0) (
    set_byte 0 0x28;;
    set_byte 1 0x00;;
    set_byte 2 (wrap 8 (Z.shiftr lba 24));;
    set_byte 3 (wrap 8 (Z.shiftr lba 16));;
    set_byte 4 (wrap 8 (Z.shiftr lba 8));;
    set_byte 5 (wrap 8 lba);;
    set_byte 6 0x00;;
    set_byte 7 (wrap 8 (Z.shiftr transfer_length 8));;
    set_byte 8 (wrap 8 transfer_length);;
    set_byte 9 0x00);
  Ok {| signature := SIGNATURE; tag := tag; data_transfer_length := bytes; flags := FLAG_DATA_IN;
        lun := 0; cb_length := 10; command_block := block |}.

(** The packed layout of the structure. *)
Definition CommandBlockWrapper_bytes (c : CommandBlockWrapper) : list Z :=
  le_encode 4 (signature c) ++ le_encode 4 (tag c) ++ le_encode 4 (data_transfer_length c) ++
  [flags c; lun c; cb_length c] ++ command_block c.

(** The checks of [scsi_read_10] on the command status wrapper, 13 bytes. *)
Definition check_csw (csw : list Z) : outcome unit :=
  let csw_signature := le_decode (slice csw 0 4) in
  let csw_status := default 0 (csw !! 12%nat) in
  if negb (csw_signature =? 0x53425355) then Err "Invalid CSW signature"
  else if negb (csw_status =? 0) then Err "SCSI command failed" else Ok tt.

Definition parse_read_capacity_response (data : list Z) : outcome (Z * Z) :=
  if (length data <? 8)%nat then Err "READ CAPACITY response too short" else
  let last_lba := be_decode (slice data 0 4) in
  let block_size := be_decode (slice data 4 4) in
  total_blocks ← add_chk 32 last_lba 1;
  total ← mul_chk 64 total_blocks block_size;
  Ok (last_lba, block_size).

End Scsi.
Import Scsi.

Module Mbr.

Record PartitionEntry : Type := {
  boot_flag : Z; start_head : Z; start_sector : Z; start_cylinder : Z; partition_type : Z;
  end_head : Z; end_sector : Z; end_cylinder : Z; lba_start : Z; sector_count : Z;
}.

(** A line of the report. *)
Inductive Report : Type :=
  | BootSignature (value : Z) (valid : bool)
  | Partition (num : Z) (entry : PartitionEntry) (name : string)
  | PartitionSize (size_mb : Z) (entry : PartitionEntry)
  | AsciiString (offset : nat) (text : list Z).

Definition partition_type_name (partition_type : Z) : string :=
  match partition_type with
  | 0x00 => "Empty" | 0x01 => "FAT12" | 0x04 => "FAT16 <32MB" | 0x05 => "Extended"
  | 0x06 => "FAT16" | 0x07 => "NTFS/HPFS/exFAT" | 0x0B => "FAT32" | 0x0C => "FAT32 LBA"
  | 0x0E => "FAT16 LBA" | 0x0F => "Extended LBA" | 0x82 => "Linux Swap" | 0x83 => "Linux"
  | 0xEE => "GPT Protective" | _ => "Unknown"
  end.

(** The fields of an entry; the cylinders are computed on [u8]. *)
Definition partition_entry (entry : list Z) : PartitionEntry :=
  let e i := default 0 (entry !! i) in {|
  boot_flag := e 0%nat; start_head := e 1%nat; start_sector := Z.land (e 2%nat) 0x3F;
  start_cylinder := Z.lor (wrap 8 (Z.shiftl (Z.land (e 2%nat) 0xC0) 2)) (e 3%nat);
  partition_type := e 4%nat; end_head := e 5%nat; end_sector := Z.land (e 6%nat) 0x3F;
  end_cylinder := Z.lor (wrap 8 (Z.shiftl (Z.land (e 6%nat) 0xC0) 2)) (e 7%nat);
  lba_start := le_decode (slice entry 8 4); sector_count := le_decode (slice entry 12 4);
|}.

Definition analyze_partition_entry (num : Z) (entry : list Z) : list Report :=
  if (length entry <? 16)%nat then [] else
  let p := partition_entry entry in
  Partition num p (partition_type_name (partition_type p)) ::
  (if 0 <? sector_count p
   then [PartitionSize (sector_count p * 512 / (1024 * 1024)) p] else []).

(** [byte.is_ascii_graphic() || byte == b' ']. *)
Definition printable (b : Z) : bool := ((0x21 <=? b) && (b <=? 0x7E)) || (b =? 0x20).

(** The loop of [find_ascii_strings], from byte [i] on. *)
Fixpoint ascii_loop (i : nat) (current : list Z) (start : nat) (data : list Z) : list Report :=
  match data with
  | [] => if (4 <=? length current)%nat then [AsciiString start current] else []
  | b :: data =>
      if printable b then
        let start := match current with [] => i | _ => start end in
        ascii_loop (S i) (current ++ [b]) start data
      else
        (if (4 <=? length current)%nat then [AsciiString start current] else []) ++
        ascii_loop (S i) [] start data
  end.
Definition find_ascii_strings (data : list Z) : list Report := ascii_loop 0 [] 0 data.

Definition analyze_sector_zero (data : list Z) : list Report :=
  if (length data <? 512)%nat then [] else
  let boot_signature := le_decode (slice data 510 2) in
  BootSignature boot_signature (boot_signature =? 0xAA55) ::
  (range 0 4 ≫= (fun i =>
    let offset := Z.to_nat (446 + i * 16) in
    if (offset + 16 <=? length data)%nat
    then analyze_partition_entry (i + 1) (slice data offset 16) else [])) ++
  find_ascii_strings data.

End Mbr.
Import Mbr.

(** ** Lemmas *)

Lemma le_encode_four v : le_encode 4 v = [v mod 256; v / 256 mod 256; v / 256 / 256 mod 256; v / 256 / 256 / 256 mod 256].
Proof. reflexivity. Qed.

Lemma be_encode_four v :
  be_encode 4 v = [wrap 8 (Z.shiftr v 24); wrap 8 (Z.shiftr v 16); wrap 8 (Z.shiftr v 8); wrap 8 v].
Proof.
  unfold be_encode, wrap. rewrite le_encode_four, !Z.shiftr_div_pow2 by lia.
  change (2 ^ 8) with 256. change (2 ^ 16) with (256 * 256). change (2 ^ 24) with (256 * 256 * 256).
  rewrite <- !Z.div_div by lia. reflexivity.
Qed.

Lemma be_encode_two v : be_encode 2 v = [wrap 8 (Z.shiftr v 8); wrap 8 v].
Proof. unfold be_encode, wrap. rewrite Z.shiftr_div_pow2 by lia. reflexivity. Qed.

(** The bytes both encoders produce for a READ(10). *)
Definition read_10_bytes (lba len tag : Z) : list Z :=
  le_encode 4 0x43425355 ++ le_encode 4 tag ++ le_encode 4 (len * 512) ++ [0x80; 0; 10] ++
  [0x28; 0] ++ be_encode 4 lba ++ [0] ++ be_encode 2 len ++ replicate 7 0.

Lemma read_10_cbw_eq lba len : in_width 16 len -> read_10_cbw lba len = Ok (read_10_bytes lba len 3).
Proof.
  intros [H0 H]. unfold read_10_cbw. rewrite mul_chk_ok by lia. reflexivity.
Qed.

Lemma new_read_10_bytes lba len tag : in_width 16 len ->
  (CommandBlockWrapper_bytes <$> match CommandBlockWrapper_new_read_10 lba len tag with Ok c => Some c | _ => None end)
  = Some (read_10_bytes lba len tag).
Proof.
  intros [H0 H]. unfold CommandBlockWrapper_new_read_10. rewrite mul_chk_ok by lia.
  unfold read_10_bytes. rewrite be_encode_four, be_encode_two. reflexivity.
Qed.

Lemma slice_mid {A} (l1 l2 l3 : list A) (ofs n : nat) :
  ofs = length l1 -> n = length l2 -> slice (l1 ++ l2 ++ l3) ofs n = l2.
Proof. intros -> ->. rewrite slice_app_skip, Nat.sub_diag by lia. by apply slice_app_here. Qed.

Lemma length_be_encode n v : length (be_encode n v) = n.
Proof. unfold be_encode. by rewrite length_rev, length_le_encode. Qed.

(** ** Printable runs *)

(** [s] is the maximal run of printable bytes of [data] at offset [o]. *)
Definition run_at (data : list Z) (o : nat) (s : list Z) : Prop :=
  exists l r, data = l ++ s ++ r /\ length l = o /\ s <> [] /\ Forall (fun b => printable b = true) s /\
    (forall b, last l = Some b -> printable b = false) /\ (forall b, head r = Some b -> printable b = false).

(** Where a printable suffix starts is determined by the bytes before it. *)
Lemma printable_suffix_unique (l1 c1 l2 c2 : list Z) :
  l1 ++ c1 = l2 ++ c2 -> Forall (fun b => printable b = true) c1 -> Forall (fun b => printable b = true) c2 ->
  (forall b, last l1 = Some b -> printable b = false) -> (forall b, last l2 = Some b -> printable b = false) ->
  l1 = l2 /\ c1 = c2.
Proof.
  intros E H1 H2 E1 E2. assert (forall (l c : list Z) (x : list Z), l ++ x = c -> True) as _ by done.
  destruct (app_eq_inv _ _ _ _ E) as [(k & -> & ->)|(k & -> & ->)].
  - destruct (last k) as [b|] eqn:Hk; [|apply last_None in Hk as ->; by rewrite app_nil_r].
    exfalso. assert (last (l2 ++ k) = Some b) as Hl.
    { apply last_Some in Hk as [k' ->]. by rewrite app_assoc, last_snoc. }
    apply E1 in Hl. rewrite Forall_forall in H2.
    rewrite (H2 b) in Hl; [done|]. apply elem_of_app. left. by apply last_Some_elem_of.
  - destruct (last k) as [b|] eqn:Hk; [|apply last_None in Hk as ->; by rewrite app_nil_r].
    exfalso. assert (last (l1 ++ k) = Some b) as Hl.
    { apply last_Some in Hk as [k' ->]. by rewrite app_assoc, last_snoc. }
    apply E2 in Hl. rewrite Forall_forall in H1.
    rewrite (H1 b) in Hl; [done|]. apply elem_of_app. left. by apply last_Some_elem_of.
Qed.

Lemma printable_prefix_unique (s r c r' : list Z) :
  s ++ r = c ++ r' -> Forall (fun b => printable b = true) s -> Forall (fun b => printable b = true) c ->
  (forall b, head r = Some b -> printable b = false) -> (forall b, head r' = Some b -> printable b = false) ->
  s = c.
Proof.
  intros E Hs. revert c E. induction Hs as [|b s Hb Hs IH]; intros [|b' c] E Hc Hr Hr'; try done.
  - simpl in E. subst r. inversion Hc; subst. rewrite (Hr b') in *; done.
  - simpl in E. subst r'. rewrite (Hr' b) in Hb; done.
  - simplify_eq/=. inversion Hc; subst. by rewrite (IH c).
Qed.

(** The run that starts in the pending part [cur] is [cur] itself. *)
Lemma run_in_pending (pre cur data : list Z) (o : nat) (s : list Z) :
  Forall (fun b => printable b = true) cur ->
  (forall b, last pre = Some b -> printable b = false) ->
  (forall b, head data = Some b -> printable b = false) ->
  (length pre <= o <= length pre + length cur)%nat ->
  run_at (pre ++ cur ++ data) o s -> (forall b, head data = Some b -> o <> length pre + length cur)%nat ->
  o = length pre /\ s = cur.
Proof.
  intros Hc Hpre Hd Ho (l & r & E & <- & Hne & Hs & Hl & Hr) Hend.
  assert (take (length pre) l = pre) as Hp.
  { apply (f_equal (take (length pre))) in E. rewrite take_app_length, take_app_le in E by lia. done. }
  rewrite <- (take_drop (length pre) l), Hp, <- app_assoc in E. apply app_inv_head in E.
  set (k := drop (length pre) l) in *.
  assert (length l = length pre + length k)%nat as Hlen by (unfold k; rewrite length_drop; lia).
  assert (k = []) as Hk.
  { destruct (last k) as [b|] eqn:Hb; [|by apply last_None].
    assert (last l = Some b) as Hlb.
    { rewrite <- (take_drop (length pre) l). fold k. apply last_Some in Hb as [k' ->]. by rewrite app_assoc, last_snoc. }
    exfalso. apply Hl in Hlb. rewrite Forall_forall in Hc. rewrite (Hc b) in Hlb; [done|].
    assert (take (length k) cur = k) as Hkc.
    { apply (f_equal (take (length k))) in E. rewrite take_app_length, take_app_le in E by lia. done. }
    rewrite <- (take_drop (length k) cur), Hkc. apply elem_of_app. left. by apply last_Some_elem_of. }
  rewrite Hk in *. split; [simpl in Hlen; lia|]. simpl in E.
  by apply (printable_prefix_unique s r cur data).
Qed.

Lemma run_pending (pre cur data : list Z) :
  cur <> [] -> Forall (fun b => printable b = true) cur ->
  (forall b, last pre = Some b -> printable b = false) ->
  (forall b, head data = Some b -> printable b = false) ->
  run_at (pre ++ cur ++ data) (length pre) cur.
Proof. intros. by exists pre, data. Qed.

Lemma elem_of_report (b : bool) o s o' s' :
  AsciiString o s ∈ (if b then [AsciiString o' s'] else []) <-> b = true /\ o = o' /\ s = s'.
Proof. destruct b; [rewrite list_elem_of_singleton|rewrite elem_of_nil]; naive_solver. Qed.

Lemma ascii_loop_spec (data : list Z) : forall pre cur start o s,
  Forall (fun b => printable b = true) cur ->
  (forall b, last pre = Some b -> printable b = false) ->
  (cur <> [] -> start = length pre) ->
  AsciiString o s ∈ ascii_loop (length pre + length cur) cur start data <->
  (4 <= length s)%nat /\ (length pre <= o)%nat /\ run_at (pre ++ cur ++ data) o s.
Proof.
  induction data as [|b data IH]; intros pre cur start o s Hc Hpre Hst; cbn [ascii_loop].
  - rewrite elem_of_report. split.
    + intros (Hlen & -> & ->). apply Nat.leb_le in Hlen.
      assert (cur <> []) as Hne by (intros ->; simpl in Hlen; lia).
      rewrite (Hst Hne). split_and!; [done|done|]. by apply run_pending.
    + intros (Hlen & Ho & Hrun). pose proof Hrun as (l & r & E & Hl & Hne & _).
      assert (o < length pre + length cur)%nat.
      { apply (f_equal length) in E. rewrite !length_app in E. destruct s; simpl in *; [done|lia]. }
      destruct (run_in_pending pre cur [] o s) as [-> ->]; try done; try lia.
      split; [by apply Nat.leb_le|]. split; [|done]. symmetry. by apply Hst.
  - destruct (printable b) eqn:Hb.
    + specialize (IH pre (cur ++ [b]) (length pre) o s). rewrite length_app, <- app_assoc in IH.
      simpl in IH. rewrite Nat.add_1_r, Nat.add_succ_r in IH.
      replace (match cur with [] => (length pre + length cur)%nat | _ :: _ => start end) with (length pre).
      * apply IH; [|done|done]. apply Forall_app. split; [done|]. by constructor.
      * destruct cur; [simpl; lia|]. symmetry. by apply Hst.
    + rewrite elem_of_app, elem_of_report.
      specialize (IH (pre ++ cur ++ [b]) [] start o s (Forall_nil_2 _)).
      rewrite !length_app in IH. simpl in IH. rewrite Nat.add_0_r, Nat.add_1_r, Nat.add_succ_r in IH.
      rewrite IH; clear IH; [|intros b' Hb'; rewrite app_assoc, last_snoc in Hb'; by simplify_eq|done].
      rewrite <- !app_assoc. cbn [app]. split.
      * intros [(Hlen & -> & ->)|(Hlen & Ho & Hrun)]; [|split_and!; [done|lia|done]].
        apply Nat.leb_le in Hlen. assert (cur <> []) as Hne by (intros ->; simpl in Hlen; lia).
        rewrite (Hst Hne). split_and!; [done|done|]. apply run_pending; try done. intros b' [= <-]. done.
      * intros (Hlen & Ho & Hrun). destruct (decide (length pre + length cur < o)%nat) as [Hgt|Hle].
        { right. split_and!; [done|lia|done]. }
        left. assert (o <> length pre + length cur)%nat as Hneq.
        { intros ->. destruct Hrun as (l & r & E & Hl & Hne & Hs & _).
          destruct s as [|b' s]; [done|]. inversion Hs; subst.
          assert (b' = b) as ->; [|congruence].
          assert (take (length l) (pre ++ cur ++ b :: data) = l) as Ht by (rewrite E; by rewrite take_app_length).
          apply (f_equal (drop (length l))) in E. rewrite drop_app_length, Hl, app_assoc in E.
          rewrite drop_app_length' in E by (rewrite length_app; lia). by simplify_eq/=. }
        destruct (run_in_pending pre cur (b :: data) o s) as [-> ->]; try done; try lia.
        -- intros b' [= <-]. done.
        -- assert (cur <> []) as Hne by (intros ->; simpl in Hlen; lia).
           split; [by apply Nat.leb_le|]. split; [|done]. symmetry. by apply Hst.
Qed.

(** The report of a partition, without its optional size line. *)
Definition cylinder (high low : Z) : Z := Z.lor (Z.shiftl (Z.land high 0xC0) 2) low.

Lemma cylinder_wrap (high low : Z) : is_byte low ->
  Z.lor (wrap 8 (Z.shiftl (Z.land high 0xC0) 2)) low = low /\
  cylinder high low mod 256 = low /\ (cylinder high low = low <-> Z.land high 0xC0 = 0).
Proof.
  intros Hl. assert (in_width 8 low) as Hw by (split; unfold is_byte in Hl; lia).
  unfold cylinder. assert (Z.land high 0xC0 = Z.shiftl (get_field high 6 2) 6) as ->.
  { unfold get_field. change 0xC0 with (Z.shiftl (Z.ones 2) 6). zbits. }
  pose proof (get_field_width high 6 2 ltac:(lia) ltac:(lia)) as Hf. set (v := get_field high 6 2) in *.
  split; [|split].
  - unfold wrap. zbits.
  - change 256 with (2 ^ 8). zbits.
  - split; intros E; [|by rewrite E].
    apply Z.bits_inj'. intros i Hi. rewrite Z.bits_0.
    destruct (Z.lt_ge_cases i 6); [rewrite Z.shiftl_spec_low by lia; done|].
    apply (f_equal (fun z => Z.testbit z (i + 2))) in E.
    rewrite Z.lor_spec, (testbit_high 8 low), orb_false_r, (Z.shiftl_spec _ 2) in E by (done || lia).
    by replace (i + 2 - 2) with i in E by lia.
Qed.

(** ** Properties *)

(** The READ(10) command wrapper, for every block address and length: the 31 bytes
    [scsi_read_10] assembles are the packed [CommandBlockWrapper::new_read_10] with tag 3,
    and decode to the wrapper signature, the tag, the transfer length in bytes, the data-in
    flag and, big-endian at the positions of the SCSI command, the address and the block
    count. *)
Theorem read_10_cbw_correct (lba len : Z) (Hlba : in_width 32 lba) (Hlen : in_width 16 len) :
  exists b c, read_10_cbw lba len = Ok b /\ CommandBlockWrapper_new_read_10 lba len 3 = Ok c /\
    CommandBlockWrapper_bytes c = b /\ length b = 31%nat /\
    le_decode (slice b 0 4) = 0x43425355 /\ le_decode (slice b 4 4) = 3 /\
    le_decode (slice b 8 4) = 512 * len /\ slice b 12 4 = [0x80; 0; 10; 0x28] /\
    be_decode (slice b 17 4) = lba /\ be_decode (slice b 22 2) = len.
Proof.
  pose proof (new_read_10_bytes lba len 3 Hlen) as Hc.
  destruct (CommandBlockWrapper_new_read_10 lba len 3) as [c|e|e] eqn:Ec; [|done..].
  apply (inj Some) in Hc.
  exists (read_10_bytes lba len 3), c. split; [by apply read_10_cbw_eq|].
  assert (in_width 32 (len * 512)) as Hl by (destruct Hlen; split; lia).
  split_and!; try done.
  - change (slice (read_10_bytes lba len 3) 8 4) with (le_encode 4 (len * 512)).
    rewrite le_decode_encode_id by done. lia.
  - change (slice (read_10_bytes lba len 3) 17 4) with (be_encode 4 lba). by apply be_decode_encode_id.
  - change (slice (read_10_bytes lba len 3) 22 2) with (be_encode 2 len). by apply be_decode_encode_id.
Qed.

Lemma read_10_cbw_correct_witness :
  exists b c, read_10_cbw 0x12345678 8 = Ok b /\ CommandBlockWrapper_new_read_10 0x12345678 8 3 = Ok c /\
    CommandBlockWrapper_bytes c = b /\ be_decode (slice b 17 4) = 0x12345678.
Proof.
  destruct (read_10_cbw_correct 0x12345678 8 ltac:(split; lia) ltac:(split; lia))
    as (b & c & H1 & H2 & H3 & _ & _ & _ & _ & _ & H4 & _).
  by exists b, c.
Defined.

Lemma ascii_loop_strings data : forall i cur start,
  Forall (fun l => exists o s, l = AsciiString o s) (ascii_loop i cur start data).
Proof.
  induction data as [|b data IH]; intros i cur start; cbn [ascii_loop].
  - destruct (_ <=? _)%nat; repeat constructor. by eexists _, _.
  - destruct (printable b); [apply IH|]. apply Forall_app. split; [|apply IH].
    destruct (_ <=? _)%nat; repeat constructor. by eexists _, _.
Qed.

Definition byte_at (l : list Z) (i : nat) : Z := default 0 (l !! i).

(** The lines for one entry of the partition table, by its sixteen bytes: what the format
    puts where, but for the high bits of the cylinders, which are dropped. *)
Definition entry_lines (num : Z) (entry : list Z) : list Report :=
  match entry with
  | [boot; head; sector; cylinder; ty; end_head; end_sector; end_cylinder; l0; l1; l2; l3; n0; n1; n2; n3] =>
      let count := n0 + n1 * 2 ^ 8 + n2 * 2 ^ 16 + n3 * 2 ^ 24 in
      let p := {| boot_flag := boot; start_head := head; start_sector := sector mod 64; start_cylinder := cylinder;
                  partition_type := ty; end_head := end_head; end_sector := end_sector mod 64;
                  end_cylinder := end_cylinder; lba_start := l0 + l1 * 2 ^ 8 + l2 * 2 ^ 16 + l3 * 2 ^ 24;
                  sector_count := count |} in
      Partition num p (partition_type_name ty) ::
      if 0 <? count then [PartitionSize (count * 512 / 2 ^ 20) p] else []
  | _ => []
  end.

Lemma entry_lines_eq num e : length e = 16%nat -> Forall is_byte e -> analyze_partition_entry num e = entry_lines num e.
Proof.
  intros Hl Hb. do 16 (destruct e as [|? e]; [discriminate Hl|]). destruct e; [|discriminate Hl].
  repeat (apply Forall_cons in Hb as [? Hb]).
  unfold analyze_partition_entry, entry_lines. cbn [length Nat.ltb Nat.leb].
  match goal with |- context [partition_entry ?e] => set (p := partition_entry e) end.
  match goal with |- _ = Partition _ ?q _ :: _ => assert (p = q) as -> end; [|done].
  unfold p, partition_entry.
  repeat match goal with |- context [default 0 (?l !! ?i)] =>
    let x := eval cbn in (l !! i) in change (l !! i) with x; cbn [default from_option id] end.
  repeat match goal with |- context [Z.lor (wrap 8 (Z.shiftl (Z.land ?a 0xC0) 2)) ?c] =>
    rewrite (proj1 (cylinder_wrap a c ltac:(assumption))) end.
  rewrite !(Z.land_ones _ 6) by lia.
  f_equal; unfold slice; cbn [drop take le_decode]; lia.
Qed.

(** C33. The boot-sector analysis of a sector of at least 512 bytes prints, in this order: the
    signature word of bytes 510 and 511 and whether it is 0xAA55; for each of the four table
    entries at 446 + 16 i, the line of its sixteen bytes, and a second one if its sector
    count is not zero; and lines of text, which are exactly the maximal runs of at least
    four printable bytes, at their offsets.  The cylinders are the low byte only, whatever
    the two high bits in the sector byte are. *)
Theorem sector_zero_correct (data : list Z) (Hlen : (512 <= length data)%nat) (Hb : Forall is_byte data)
  (signature := byte_at data 510 + byte_at data 511 * 2 ^ 8)
  (entry := fun i : nat => slice data (446 + i * 16) 16) :
  exists lines, analyze_sector_zero data =
    BootSignature signature (signature =? 0xAA55) ::
    entry_lines 1 (entry 0%nat) ++ entry_lines 2 (entry 1%nat) ++ entry_lines 3 (entry 2%nat) ++
    entry_lines 4 (entry 3%nat) ++ lines /\
  Forall (fun l => exists o s, l = AsciiString o s) lines /\
  (forall o s, AsciiString o s ∈ lines <-> (4 <= length s)%nat /\ run_at data o s).
Proof.
  exists (find_ascii_strings data). split; [|split].
  - unfold analyze_sector_zero. rewrite (proj2 (Nat.ltb_ge _ _)) by lia. cbv zeta.
    assert (le_decode (slice data 510 2) = signature) as ->.
    { unfold signature, byte_at. unfold slice. destruct (lookup_lt_is_Some_2 data 510 ltac:(lia)) as [x Hx].
      destruct (lookup_lt_is_Some_2 data 511 ltac:(lia)) as [y Hy]. rewrite (drop_S _ _ _ Hx), (drop_S _ _ _ Hy), Hx, Hy.
      cbn. rewrite take_0. cbn. lia. }
    f_equal. rewrite !app_assoc. f_equal.
    assert (forall i : nat, (i < 4)%nat -> analyze_partition_entry (Z.of_nat i + 1) (entry i) = entry_lines (Z.of_nat i + 1) (entry i)) as He.
    { intros i Hi. apply entry_lines_eq; [unfold entry, slice; rewrite length_take, length_drop; lia|].
      by apply Forall_take, Forall_drop. }
    pose proof (He 0%nat ltac:(lia)) as E1. pose proof (He 1%nat ltac:(lia)) as E2.
    pose proof (He 2%nat ltac:(lia)) as E3. pose proof (He 3%nat ltac:(lia)) as E4.
    change (Z.of_nat 0 + 1) with 1 in E1. change (Z.of_nat 1 + 1) with 2 in E2.
    change (Z.of_nat 2 + 1) with 3 in E3. change (Z.of_nat 3 + 1) with 4 in E4. rewrite <- E1, <- E2, <- E3, <- E4.
    change (range 0 4) with [0; 1; 2; 3]. cbn [mbind list_bind].
    repeat match goal with |- context [(?a <=? ?b)%nat] => rewrite (proj2 (Nat.leb_le a b)) by lia end.
    rewrite app_nil_r, <- !app_assoc. reflexivity.
  - apply ascii_loop_strings.
  - intros o s. pose proof (ascii_loop_spec data [] [] 0 o s (Forall_nil_2 _) ltac:(done) ltac:(done)) as Ha.
    cbn [length app Nat.add] in Ha. unfold find_ascii_strings. rewrite Ha.
    split; [by intros (? & _ & ?)|intros [? ?]; split_and!; [done|lia|done] ].
Qed.

(** A sector with a signature, one partition past cylinder 255, and a boot message. *)
Definition example_sector : list Z :=
  [0; 0x42; 0x6F; 0x6F; 0x74; 0x21; 0] ++ replicate 439 0 ++
  [0x80; 1; 0xC1; 5; 0x0C; 254; 255; 255; 0; 8; 0; 0; 0; 0; 16; 0] ++ replicate 48 0 ++ [0x55; 0xAA].

Lemma sector_zero_correct_witness : exists lines,
  analyze_sector_zero example_sector = BootSignature 0xAA55 true ::
    entry_lines 1 [0x80; 1; 0xC1; 5; 0x0C; 254; 255; 255; 0; 8; 0; 0; 0; 0; 16; 0] ++
    entry_lines 2 (replicate 16 0) ++ entry_lines 3 (replicate 16 0) ++ entry_lines 4 (replicate 16 0) ++ lines /\
  AsciiString 1 [0x42; 0x6F; 0x6F; 0x74; 0x21] ∈ lines.
Proof.
  destruct (sector_zero_correct example_sector) as (lines & H1 & _ & H3).
  - apply (bool_decide_unpack _). by vm_compute.
  - apply (bool_decide_unpack _). by vm_compute.
  - exists lines. split; [rewrite H1; reflexivity|].
    apply H3. split; [simpl; lia|]. exists [0].
    exists (drop 6 example_sector). split; [by vm_compute|].
    split; [done|]. split; [done|]. split; [by repeat constructor|].
    split; intros b [= <-]; done.
Defined.

(** What is printed of its first entry: a cylinder of 5 where the disk has 773. *)
Example entry_lines_example :
  entry_lines 1 [0x80; 1; 0xC1; 5; 0x0C; 254; 255; 255; 0; 8; 0; 0; 0; 0; 16; 0] =
  let p := {| boot_flag := 0x80; start_head := 1; start_sector := 1; start_cylinder := 5; partition_type := 0x0C;
              end_head := 254; end_sector := 63; end_cylinder := 255; lba_start := 2048; sector_count := 0x100000 |} in
  [Partition 1 p "FAT32 LBA"; PartitionSize 512 p].
Proof. reflexivity. Qed.
Example true_cylinder : cylinder 0xC1 5 = 773.
Proof. reflexivity. Qed.
