(* ===== verification/Driver.v ===== *)
(** * The USB class driver: [src/src/xhci.rs].

    The control transfers, the bring-up of a device behind a port and the SCSI commands over
    bulk endpoints, as sequences of effects on a [World]: the device registers, the four
    rings the code pushes to, the buffers it hands out, and the events the awaited futures
    resolve to.  [w_log] records the order of the effects. *)

From S2P Require Import Prelude Bits Uefi Allocator Trb Event Contexts Executor Controller Usb Storage.
Import Trb.Trb Trb.TrbRing Trb.CommandRing UsbTypes Contexts.Contexts Registers Portsc Controller.Controller
  Descriptor MassStorage Scsi Mbr.

Module UsbIo.

(** The controller's command ring, the control endpoint's ring, and the bulk rings. *)
Inductive RingId : Type := RCommand | RControl | RIn | ROut.
#[export] Instance RingId_eq_dec : EqDecision RingId.
Proof. solve_decision. Defined.

(** What the driver does, as the controller can observe it. *)
Inductive Io : Type :=
  | Push (r : RingId) (t : GenericTrbEntry)
  | Doorbell (slot dci : Z)
  | Await (trb_addr : Z)
  | Printed (lines : list Report).

(** One resolved event: what the future yields, and the bytes the device has written by
    then, by buffer address. *)
Record Response : Type := { r_event : GenericTrbEntry; r_dma : list (Z * list Z) }.

(** [w_bufs] are the addresses the next boxes get, [w_mem] the contents of byte buffers,
    [w_ctx] those of input contexts, [w_script] the responses to come. *)
Record World (D : Type) : Type := {
  w_bus : D; w_rings : RingId -> CommandRing; w_dcbaa : DeviceContextBaseAddressArray;
  w_bufs : list Z; w_mem : gmap Z (list Z); w_ctx : gmap Z InputContext;
  w_script : list Response; w_log : list Io;
}.
Arguments w_bus {D} _.
Arguments w_rings {D} _ _.
Arguments w_dcbaa {D} _.
Arguments w_bufs {D} _.
Arguments w_mem {D} _.
Arguments w_ctx {D} _.
Arguments w_script {D} _.
Arguments w_log {D} _.

Section io.
Context {D : Type} {MB : MmioBus D}.

Definition with_bus (d : D) (w : World D) : World D :=
  {| w_bus := d; w_rings := w_rings w; w_dcbaa := w_dcbaa w; w_bufs := w_bufs w; w_mem := w_mem w;
     w_ctx := w_ctx w; w_script := w_script w; w_log := w_log w |}.
Definition with_ring (r : RingId) (c : CommandRing) (w : World D) : World D :=
  {| w_bus := w_bus w; w_rings := fun r' => if decide (r' = r) then c else w_rings w r';
     w_dcbaa := w_dcbaa w; w_bufs := w_bufs w; w_mem := w_mem w; w_ctx := w_ctx w;
     w_script := w_script w; w_log := w_log w |}.
Definition with_dcbaa (a : DeviceContextBaseAddressArray) (w : World D) : World D :=
  {| w_bus := w_bus w; w_rings := w_rings w; w_dcbaa := a; w_bufs := w_bufs w; w_mem := w_mem w;
     w_ctx := w_ctx w; w_script := w_script w; w_log := w_log w |}.
Definition with_bufs (l : list Z) (w : World D) : World D :=
  {| w_bus := w_bus w; w_rings := w_rings w; w_dcbaa := w_dcbaa w; w_bufs := l; w_mem := w_mem w;
     w_ctx := w_ctx w; w_script := w_script w; w_log := w_log w |}.
Definition with_mem (m : gmap Z (list Z)) (w : World D) : World D :=
  {| w_bus := w_bus w; w_rings := w_rings w; w_dcbaa := w_dcbaa w; w_bufs := w_bufs w; w_mem := m;
     w_ctx := w_ctx w; w_script := w_script w; w_log := w_log w |}.
Definition with_ctx (m : gmap Z InputContext) (w : World D) : World D :=
  {| w_bus := w_bus w; w_rings := w_rings w; w_dcbaa := w_dcbaa w; w_bufs := w_bufs w; w_mem := w_mem w;
     w_ctx := m; w_script := w_script w; w_log := w_log w |}.
Definition with_script (l : list Response) (w : World D) : World D :=
  {| w_bus := w_bus w; w_rings := w_rings w; w_dcbaa := w_dcbaa w; w_bufs := w_bufs w; w_mem := w_mem w;
     w_ctx := w_ctx w; w_script := l; w_log := w_log w |}.
Definition with_log (l : list Io) (w : World D) : World D :=
  {| w_bus := w_bus w; w_rings := w_rings w; w_dcbaa := w_dcbaa w; w_bufs := w_bufs w; w_mem := w_mem w;
     w_ctx := w_ctx w; w_script := w_script w; w_log := l |}.

Definition logged (e : Io) : M (World D) unit := modify (fun w => with_log (w_log w ++ [e]) w).
Definition on_regs {A} (m : M D A) : M (World D) A := zoom w_bus with_bus m.

(** [ring.push(trb)?]. *)
Definition ring_push (r : RingId) (t : GenericTrbEntry) : M (World D) Z :=
  p ← zoom (fun w => w_rings w r) (with_ring r) (push t);
  logged (Push r t);;
  mret p.

(** [xhc.notify_ep(slot, dci)?]. *)
Definition ring_doorbell (regs : XhcRegisters) (slot dci : Z) : M (World D) unit :=
  on_regs (notify_ep regs slot dci);; logged (Doorbell slot dci).

(** What the device has written goes to the front of the buffer, whose end the controller
    does not cross; the rest of the buffer stays as it was. *)
Definition dma_write (sent buffer : list Z) : list Z := take (length buffer) sent ++ drop (length sent) buffer.

(** [EventFuture::new_for_trb(..).await?]: the next event.  Without one the future stays
    pending. *)
Definition await_event (trb_addr : Z) : M (World D) GenericTrbEntry :=
  logged (Await trb_addr);;
  w ← get;
  match w_script w with
  | [] => panic "pending"
  | r :: rs =>
      modify (fun w => with_mem (foldl (fun m b => alter (dma_write b.2) b.1 m) (w_mem w) (r_dma r)) (with_script rs w));;
      mret (r_event r)
  end.

(** A box: its address. *)
Definition box_address : M (World D) Z :=
  w ← get;
  match w_bufs w with
  | [] => panic "memory allocation failed"
  | a :: l => modify (with_bufs l);; mret a
  end.

(** [Box::into_pin(bytes.into_boxed_slice())], and reading such a buffer. *)
Definition box_bytes (bytes : list Z) : M (World D) Z :=
  a ← box_address;
  modify (fun w => with_mem (<[a := bytes]> (w_mem w)) w);;
  mret a.
Definition read_bytes (a : Z) : M (World D) (list Z) :=
  w ← get; mret (default [] (w_mem w !! a)).

(** [.await?.transfer_result_ok()?]. *)
Definition await_transfer (trb_addr : Z) : M (World D) unit :=
  t ← await_event trb_addr; lift (transfer_result_ok t).
End io.
End UsbIo.
Import UsbIo.

Module Transfers.
Section transfers.
Context {D : Type} {MB : MmioBus D} (xhc : XhcRegisters).

Definition setup (request_type request value index length : Z) : GenericTrbEntry :=
  GenericTrbEntry_from_setup (SetupStageTrb_new request_type request value index length).

Definition FEATURE_ENDPOINT_HALT : Z := 0.

(** [Controller::send_command]. *)
Definition send_command (cmd : GenericTrbEntry) : M (World D) GenericTrbEntry :=
  p ← ring_push RCommand cmd;
  on_regs (notify_xhc xhc);;
  logged (Doorbell 0 0);;
  await_event p.

Definition request_set_config (slot config_value : Z) : M (World D) unit :=
  _ ← ring_push RControl (setup 0 REQ_SET_CONFIGURATION config_value 0 0);
  p ← ring_push RControl StatusStageTrb_new_in;
  ring_doorbell xhc slot 1;;
  await_transfer p.

(** [buf] and [len] are the buffer's address and its length in bytes. *)
Definition request_descriptor (slot : Z) (desc_type : UsbDescriptorType) (desc_index lang_id buf len : Z) :
    M (World D) unit :=
  _ ← ring_push RControl (setup REQ_TYPE_DIR_DEVICE_TO_HOST REQ_GET_DESCRIPTOR
        (Z.lor (wrap 16 (Z.shiftl (UsbDescriptorType_repr desc_type) 8)) desc_index) lang_id (wrap 16 len));
  p ← ring_push RControl (DataStageTrb_new_in buf len);
  _ ← ring_push RControl StatusStageTrb_new_out;
  ring_doorbell xhc slot 1;;
  await_transfer p.

Definition clear_endpoint_halt (slot endpoint_address : Z) : M (World D) unit :=
  _ ← ring_push RControl (setup (Z.lor REQ_TYPE_DIR_HOST_TO_DEVICE REQ_TYPE_TO_ENDPOINT)
        REQ_CLEAR_FEATURE FEATURE_ENDPOINT_HALT endpoint_address 0);
  p ← ring_push RControl StatusStageTrb_new_in;
  ring_doorbell xhc slot 1;;
  await_transfer p.

Definition bulk_only_mass_storage_reset (slot : Z) : M (World D) unit :=
  _ ← ring_push RControl (setup (Z.lor (Z.lor REQ_TYPE_DIR_HOST_TO_DEVICE REQ_TYPE_TYPE_CLASS)
        REQ_TYPE_TO_INTERFACE) 0xFF 0 0 0);
  p ← ring_push RControl StatusStageTrb_new_in;
  ring_doorbell xhc slot 1;;
  await_transfer p.

(** [init_port]; the port's reset is cut off after [fuel] polls. *)
Definition await_reset_port (fuel : nat) (ptr : Z) : M D unit := fun d =>
  match Executor.Executor.block_on fuel (ptr, RpStart) d with
  | Some (r, d) => (r, d)
  | None => (Panic "out of fuel", d)
  end.

Definition init_port (fuel : nat) (port : Z) : M (World D) Z :=
  ptr ← lift (ok_or (PortSc_get (portsc xhc) port) "Port not found");
  on_regs (await_reset_port fuel ptr);;
  enabled ← on_regs (is_enabled ptr);
  if negb enabled then throw "Port is not enabled" else
  cmd ← lift cmd_enable_slot;
  t ← send_command cmd;
  lift (slot_id t).

(** [address_device]: the control endpoint's ring becomes [RControl]. *)
Definition address_device (port slot : Z) : M (World D) unit :=
  output_context ← box_address;
  zoom w_dcbaa with_dcbaa (set_output_context slot output_context);;
  ctx ← lift (address_context_port port);
  input_context ← box_address;
  ptr ← lift (ok_or (PortSc_get (portsc xhc) port) "PORTSC was invalid");
  speed ← on_regs (port_speed ptr);
  ctx ← lift (construct ctx (address_context_speed speed));
  ring ← box_address;
  ctrl_ep_ring ← lift (CommandRing_default ring);
  size ← on_regs (max_packet_size ptr);
  ctx ← lift (construct ctx (address_context_endpoint size (cr_ring_phys_addr ctrl_ep_ring)));
  modify (fun w => with_ctx (<[input_context := ctx]> (w_ctx w)) w);;
  cmd ← lift (cmd_address_device input_context slot);
  t ← send_command cmd;
  lift (cmd_result_ok t);;
  modify (UsbIo.with_ring RControl ctrl_ep_ring).

(** [configure_bulk_endpoint]: the endpoint's ring becomes [r]. *)
Definition configure_bulk_endpoint (r : RingId) (slot : Z) (ep : EndpointDescriptor) (dci : Z) :
    M (World D) unit :=
  ring ← box_address;
  ep_ring ← lift (CommandRing_default ring);
  ctx ← lift (bulk_endpoint_context (endpoint_address ep) (ed_max_packet_size ep) dci (cr_ring_phys_addr ep_ring));
  input_context ← box_address;
  modify (fun w => with_ctx (<[input_context := ctx]> (w_ctx w)) w);;
  cmd ← lift (cmd_configure_endpoint input_context slot);
  t ← send_command cmd;
  lift (cmd_result_ok t);;
  modify (UsbIo.with_ring r ep_ring).

Definition request_device_descriptor (slot : Z) : M (World D) UsbDeviceDescriptor :=
  buf ← box_bytes (replicate 18 0);
  request_descriptor slot TDevice 0 0 buf 18;;
  b ← read_bytes buf;
  mret (UsbDeviceDescriptor_of b).

(** The bytes of [request_string_descriptor] after the two header bytes, NULs removed;
    the lossy UTF-8 conversion is left to the reader of the bytes. *)
Definition request_string_descriptor (slot lang_id index : Z) : M (World D) (list Z) :=
  buf ← box_bytes (replicate 128 0);
  request_descriptor slot TString index lang_id buf 128;;
  b ← read_bytes buf;
  mret (filter (fun c => c <> 0) (drop 2 b)).

(** The buffer has eight [u16] elements. *)
Definition request_string_descriptor_zero (slot : Z) : M (World D) (list Z) :=
  buf ← box_bytes (replicate 16 0);
  request_descriptor slot TString 0 0 buf 16;;
  b ← read_bytes buf;
  mret ((fun i => u16 b (2 * i)) <$> seq 0 8).

Definition request_config_descriptor_and_rest (fuel : nat) (slot : Z) : M (World D) (list UsbDescriptor) :=
  head ← box_bytes (replicate 9 0);
  request_descriptor slot TConfig 0 0 head 9;;
  b ← read_bytes head;
  let len := total_length (ConfigDescriptor_of b) in
  buf ← box_bytes (replicate (Z.to_nat len) 0);
  request_descriptor slot TConfig 0 0 buf len;;
  b ← read_bytes buf;
  match collect fuel b 0 with
  | Some r => lift r
  | None => panic "out of fuel"
  end.
End transfers.
End Transfers.
Import Transfers.

Module Commands.
Section commands.
Context {D : Type} {MB : MmioBus D} (xhc : XhcRegisters).

(** Push a normal TRB, ring the endpoint's doorbell, and wait for its event. *)
Definition bulk_transfer (r : RingId) (t : GenericTrbEntry) (slot dci : Z) : M (World D) unit :=
  p ← ring_push r t;
  ring_doorbell xhc slot dci;;
  await_transfer p.

Definition scsi_inquiry (slot in_dci out_dci : Z) : M (World D) (list Z) :=
  cbw ← lift inquiry_cbw;
  cbw_data ← box_bytes cbw;
  bulk_transfer ROut (NormalTrb_new_out cbw_data 31) slot out_dci;;
  read_data ← box_bytes (replicate 36 0);
  bulk_transfer RIn (NormalTrb_new_in read_data 36) slot in_dci;;
  csw ← box_bytes (replicate 13 0);
  bulk_transfer RIn (NormalTrb_new_in csw 13) slot in_dci;;
  read_bytes read_data.

(** As [bulk_transfer], with the status register read for the log in between. *)
Definition bulk_transfer_logged (r : RingId) (t : GenericTrbEntry) (slot dci : Z) : M (World D) unit :=
  p ← ring_push r t;
  ring_doorbell xhc slot dci;;
  _ ← on_regs (reg_read (usbsts (op_regs xhc)));
  await_transfer p.

Definition scsi_read_10 (slot in_dci out_dci lba transfer_length : Z) : M (World D) (list Z) :=
  cbw ← lift (read_10_cbw lba transfer_length);
  cbw_data ← box_bytes cbw;
  bulk_transfer_logged ROut (NormalTrb_new_out cbw_data 31) slot out_dci;;
  let data_size := transfer_length * 512 in
  read_data ← box_bytes (replicate (Z.to_nat data_size) 0);
  bulk_transfer_logged RIn (NormalTrb_new_in read_data data_size) slot in_dci;;
  csw ← box_bytes (replicate 13 0);
  bulk_transfer_logged RIn (NormalTrb_new_in csw 13) slot in_dci;;
  csw ← read_bytes csw;
  lift (check_csw csw);;
  data ← read_bytes read_data;
  logged (Printed (analyze_sector_zero data));;
  mret data.

Definition handle_mass_storage_device (slot : Z) (descriptors : list UsbDescriptor) : M (World D) unit :=
  '(config, interface, bulk_in, bulk_out) ← lift (find_bulk descriptors);
  request_set_config xhc slot (config_value config);;
  bulk_only_mass_storage_reset xhc slot;;
  out_dci ← lift (bulk_out_dci bulk_out);
  in_dci ← lift (bulk_in_dci bulk_in);
  configure_bulk_endpoint xhc ROut slot bulk_out out_dci;;
  configure_bulk_endpoint xhc RIn slot bulk_in in_dci;;
  ignore_err (clear_endpoint_halt xhc slot (endpoint_address bulk_in));;
  ignore_err (clear_endpoint_halt xhc slot (endpoint_address bulk_out));;
  _ ← scsi_read_10 slot in_dci out_dci 0 1;
  mret tt.

(** A fallible call whose [Err] the caller inspects. *)
Definition attempt {A} (m : M (World D) A) : M (World D) (option A) := fun w =>
  match m w with
  | (Ok a, w) => (Ok (Some a), w)
  | (Err _, w) => (Ok None, w)
  | (Panic p, w) => (Panic p, w)
  end.

(** A string whose descriptor has an index. *)
Definition optional_string (slot lang_id index : Z) : M (World D) (option (list Z)) :=
  if negb (index =? 0) then s ← request_string_descriptor xhc slot lang_id index; mret (Some s)
  else mret None.

(** The body of [PciXhciDriver::run]'s loop over the connected ports. *)
Definition run_port (fuel : nat) (port : Z) : M (World D) unit :=
  slot ← init_port xhc fuel port;
  ring ← attempt (address_device xhc port slot);
  match ring with
  | None => mret tt
  | Some _ =>
      desc ← attempt (request_device_descriptor xhc slot);
      match desc with
      | None => mret tt
      | Some desc =>
          e ← attempt (request_string_descriptor_zero xhc slot);
          match e with
          | None => mret tt
          | Some e =>
              lang_id ← lift (match e !! 1%nat with Some l => Ok l | None => Panic "index out of bounds" end);
              _ ← optional_string slot lang_id (manufacturer_index desc);
              _ ← optional_string slot lang_id (product_index desc);
              _ ← optional_string slot lang_id (serial_idx desc);
              descriptors ← request_config_descriptor_and_rest xhc fuel slot;
              for_each descriptors (fun d =>
                match d with
                | DInterface i =>
                    if is_mass_storage i then handle_mass_storage_device slot descriptors else mret tt
                | _ => mret tt
                end)
          end
      end
  end.

(** The ports whose CCS bit is set, in order. *)
Definition connected_ports : M (World D) (list Z) :=
  ports ← mapM (fun port =>
    match PortSc_get (portsc xhc) port with
    | Some e => c ← on_regs (portsc_ccs e); mret (if (c : bool) then [port] else [])
    | None => mret []
    end) (port_range (portsc xhc));
  mret (concat ports).

(** [PciXhciDriver::run], next to the task that polls the event ring. *)
Definition run (fuel : nat) : M (World D) unit :=
  ports ← connected_ports;
  for_each ports (run_port fuel).
End commands.
End Commands.
Import Commands.

(** ** Effects one by one *)

(** The address the next TRB pushed to a ring at [addr] gets. *)
Definition next_slot (addr : Z) (sent : list GenericTrbEntry) : Z := addr + 16 * Z.of_nat (length sent mod 15).

(** A ring at [addr] to which [sent] has been pushed. *)
Definition ring_ok (addr : Z) (sent : list GenericTrbEntry) (c : CommandRing) : Prop :=
  cmd_inv addr sent c /\ Forall cmd_ok sent /\ 0 <= addr /\ addr + 256 <= 2 ^ 64.

Definition apply_dma (r : Response) (m : gmap Z (list Z)) : gmap Z (list Z) :=
  foldl (fun m b => alter (dma_write b.2) b.1 m) m (r_dma r).

Lemma dma_write_all sent buffer : length sent = length buffer -> dma_write sent buffer = sent.
Proof. intros H. unfold dma_write. by rewrite take_ge, drop_ge, app_nil_r by lia. Qed.

(** The world after a transfer on ring [r]: the new ring, the registers, and the response. *)
Definition transferred {D} (r : RingId) (c : CommandRing) (d : D) (resp : Response) (rest : list Response)
    (log : list Io) (w : World D) : World D :=
  with_mem (apply_dma resp (w_mem w)) (with_script rest (with_log (w_log w ++ log)
    (with_bus d (UsbIo.with_ring r c w)))).

Section effects.
Context {D : Type} {MB : MmioBus D} (xhc : XhcRegisters).

Lemma ring_push_ok r t addr sent (w : World D) :
  ring_ok addr sent (w_rings w r) -> cmd_ok t ->
  exists c', ring_ok addr (sent ++ [t]) c' /\
    ring_push r t w = (Ok (next_slot addr sent), with_log (w_log w ++ [Push r t]) (UsbIo.with_ring r c' w)).
Proof using.
  intros (Hinv & Hs & Ha) Ht. destruct (push_inv addr sent (w_rings w r) t Hinv Hs Ht Ha) as (c' & Hp & Hinv').
  exists c'. split.
  - split; [done|]. split; [|done]. apply Forall_app. split; [done|]. by constructor.
  - unfold ring_push. erewrite bind_ok; [|unfold zoom; rewrite Hp; reflexivity]. reflexivity.
Qed.

Lemma on_regs_ok {A} (m : M D A) a d (w : World D) :
  m (w_bus w) = (Ok a, d) -> on_regs m w = (Ok a, with_bus d w).
Proof using. intros E. unfold on_regs, zoom. by rewrite E. Qed.

Lemma notify_ep_ok slot dci db (d : D) :
  doorbell_regs xhc !! Z.to_nat slot = Some db -> 0 <= dci < 256 ->
  exists d', notify_ep xhc slot dci d = (Ok tt, d').
Proof using.
  intros Hdb Hdci. unfold notify_ep. rewrite Hdb. eexists.
  mstep. rewrite (proj2 (Z.ltb_lt dci 256)) by lia. mstep.
  erewrite bind_ok by reflexivity. rewrite bind_reg_read. reflexivity.
Qed.

Lemma ring_doorbell_ok slot dci db (w : World D) :
  doorbell_regs xhc !! Z.to_nat slot = Some db -> 0 <= dci < 256 ->
  exists d', ring_doorbell xhc slot dci w = (Ok tt, with_log (w_log w ++ [Doorbell slot dci]) (with_bus d' w)).
Proof using.
  intros Hdb Hdci. destruct (notify_ep_ok slot dci db (w_bus w) Hdb Hdci) as [d' E]. exists d'.
  unfold ring_doorbell. erewrite bind_ok; [|apply on_regs_ok; exact E]. reflexivity.
Qed.

Lemma await_event_eq p r rs (w : World D) : w_script w = r :: rs ->
  await_event p w = (Ok (r_event r),
    with_mem (apply_dma r (w_mem w)) (with_script rs (with_log (w_log w ++ [Await p]) w))).
Proof using.
  intros Hs. unfold await_event. mstep. rewrite (bind_ok get _ _ _ _ eq_refl).
  cbn [w_script with_log]. rewrite Hs. reflexivity.
Qed.

Lemma await_transfer_eq p r rs (w : World D) : w_script w = r :: rs ->
  await_transfer p w = (transfer_result_ok (r_event r),
    with_mem (apply_dma r (w_mem w)) (with_script rs (with_log (w_log w ++ [Await p]) w))).
Proof using.
  intros Hs. unfold await_transfer. erewrite bind_ok; [|exact (await_event_eq p r rs w Hs)]. reflexivity.
Qed.

Lemma box_address_ok a l (w : World D) : w_bufs w = a :: l -> box_address w = (Ok a, with_bufs l w).
Proof using. intros Hl. unfold box_address. rewrite (bind_ok get _ _ _ _ eq_refl), Hl. reflexivity. Qed.

Lemma box_bytes_ok b a l (w : World D) : w_bufs w = a :: l ->
  box_bytes b w = (Ok a, with_mem (<[a := b]> (w_mem w)) (with_bufs l w)).
Proof using. intros Hl. unfold box_bytes. by rewrite (bind_ok _ _ _ _ _ (box_address_ok a l w Hl)). Qed.

(** The world after a buffer at [b] is made and a TRB for it transferred. *)
Definition boxed (r : RingId) (c : CommandRing) (d : D) (b : Z) (bytes : list Z) (l : list Z)
    (resp : Response) (rest : list Response) (log : list Io) (w : World D) : World D :=
  transferred r c d resp rest log (with_mem (<[b := bytes]> (w_mem w)) (with_bufs l w)).

(** One phase of a command: make a buffer, push its TRB, ring the doorbell, wait. *)
Lemma phase_ok {A} (r : RingId) (mk : Z -> GenericTrbEntry) (bytes : list Z) (slot dci db addr : Z)
    (sent : list GenericTrbEntry) (b : Z) (l : list Z) (resp : Response) (rest : list Response)
    (k : Z -> M (World D) A) (w : World D) :
  ring_ok addr sent (w_rings w r) -> cmd_ok (mk b) -> doorbell_regs xhc !! Z.to_nat slot = Some db ->
  0 <= dci < 256 -> w_bufs w = b :: l -> w_script w = resp :: rest ->
  exists c' d', ring_ok addr (sent ++ [mk b]) c' /\
    let w' := boxed r c' d' b bytes l resp rest
      [Push r (mk b); Doorbell slot dci; Await (next_slot addr sent)] w in
    (a ← box_bytes bytes; bulk_transfer_logged xhc r (mk a) slot dci;; k a) w =
      match transfer_result_ok (r_event resp) with
      | Ok _ => k b w' | Err e => (Err e, w') | Panic p => (Panic p, w')
      end.
Proof using.
  intros Hring Ht Hdb Hdci Hbufs Hs.
  set (w0 := with_mem (<[b := bytes]> (w_mem w)) (with_bufs l w)).
  destruct (ring_push_ok r (mk b) addr sent w0 Hring Ht) as (c' & Hc & E1).
  destruct (ring_doorbell_ok slot dci db (with_log (w_log w0 ++ [Push r (mk b)]) (UsbIo.with_ring r c' w0)) Hdb Hdci)
    as (d1 & E2).
  eexists c', _. split; [done|]. cbv zeta.
  rewrite (bind_ok _ _ _ _ _ (box_bytes_ok bytes b l w Hbufs)). fold w0.
  unfold mbind at 1, M_bind at 1, bulk_transfer_logged.
  erewrite (bind_ok (ring_push _ _)) by exact E1. erewrite (bind_ok (ring_doorbell _ _ _)) by exact E2.
  erewrite bind_ok; [|apply on_regs_ok; apply reg_read_eq].
  rewrite (await_transfer_eq _ resp rest) by exact Hs.
  unfold boxed, transferred. cbn [w_log with_log with_bus UsbIo.with_ring w_mem with_mem with_bufs w0].
  rewrite <- !app_assoc. cbn [app]. destruct (transfer_result_ok (r_event resp)) as [[]|e|p]; reflexivity.
Qed.
End effects.

Lemma normal_ok dir buf len : cmd_ok (if dir : bool then NormalTrb_new_in buf len else NormalTrb_new_out buf len).
Proof. destruct dir; (split; [split; vm_compute; done|vm_compute; discriminate]). Qed.

(** ** Properties *)

(** The status wrapper a device returns. *)
Definition csw_bytes (signature tag residue status : Z) : list Z :=
  le_encode 4 signature ++ le_encode 4 tag ++ le_encode 4 residue ++ [status].

Definition csw_result (signature status : Z) : outcome unit :=
  if negb (signature =? 0x53425355) then Err "Invalid CSW signature"
  else if negb (status =? 0) then Err "SCSI command failed" else Ok tt.

Lemma check_csw_bytes s tag residue status : in_width 32 s ->
  check_csw (csw_bytes s tag residue status) = csw_result s status.
Proof.
  intros Hs. unfold check_csw, csw_result.
  change (slice (csw_bytes s tag residue status) 0 4) with (le_encode 4 s).
  by rewrite le_decode_encode_id.
Qed.

(** The tails of [scsi_read_10]: from the data buffer, from the status buffer, and the
    checks. *)
Definition read_10_result {D} (read_data csw : Z) : M (World D) (list Z) :=
  csw ← read_bytes csw;
  lift (check_csw csw);;
  data ← read_bytes read_data;
  logged (Printed (analyze_sector_zero data));;
  mret data.
Definition read_10_status {D} `{MmioBus D} (xhc : XhcRegisters) (slot in_dci read_data : Z) : M (World D) (list Z) :=
  csw ← box_bytes (replicate 13 0);
  bulk_transfer_logged xhc RIn (NormalTrb_new_in csw 13) slot in_dci;;
  read_10_result read_data csw.
Definition read_10_data {D} `{MmioBus D} (xhc : XhcRegisters) (slot in_dci len : Z) : M (World D) (list Z) :=
  read_data ← box_bytes (replicate (Z.to_nat (len * 512)) 0);
  bulk_transfer_logged xhc RIn (NormalTrb_new_in read_data (len * 512)) slot in_dci;;
  read_10_status xhc slot in_dci read_data.

Lemma read_10_result_eq {D} (b2 b3 sig tag residue status : Z) (data : list Z) (w : World D) :
  w_mem w !! b3 = Some (csw_bytes sig tag residue status) -> w_mem w !! b2 = Some data -> in_width 32 sig ->
  read_10_result b2 b3 w = (_ ← csw_result sig status; Ok data,
    if is_ok (csw_result sig status) then with_log (w_log w ++ [Printed (analyze_sector_zero data)]) w else w).
Proof.
  intros H3 H2 Hsig. unfold read_10_result. erewrite bind_ok by reflexivity. cbv beta. rewrite H3.
  change (default [] (Some (csw_bytes sig tag residue status))) with (csw_bytes sig tag residue status).
  rewrite check_csw_bytes by done. unfold csw_result.
  destruct (negb (sig =? 0x53425355)); [done|]. destruct (negb (status =? 0)); [done|].
  mstep. erewrite bind_ok by reflexivity. cbv beta. rewrite H2. reflexivity.
Qed.

(** C13. A READ(10) over the bulk rings, on a device that fetches the wrapper, fills the data
    buffer and returns a status wrapper, with every transfer event good: the controller
    sees, in this order, the command wrapper (the encoded block address and count) on the
    OUT ring, a buffer of 512 bytes per block on the IN ring, and a 13-byte status buffer on
    the IN ring, each TRB pushed before its doorbell and awaited before the next; the result
    is the whole data buffer, the bytes the device put there and zeros behind them after a
    short transfer, when the wrapper's signature is right and its status zero, whatever tag it carries, and the error of the first check that fails
    otherwise.  When the first transfer's event is bad its error is returned and nothing
    more is pushed. *)
Theorem scsi_read_10_correct {D} `{MmioBus D} (xhc : XhcRegisters) (w : World D)
  (slot in_dci out_dci db lba len b1 b2 b3 ao ai : Z) (so si : list GenericTrbEntry)
  (bufs : list Z) (r1 : Response) (rest : list Response)
  (Hout : ring_ok ao so (w_rings w ROut)) (Hin : ring_ok ai si (w_rings w RIn))
  (Hdb : doorbell_regs xhc !! Z.to_nat slot = Some db)
  (Hi : 0 <= in_dci < 256) (Ho : 0 <= out_dci < 256)
  (Hlba : in_width 32 lba) (Hlen : in_width 16 len)
  (Hbufs : w_bufs w = b1 :: b2 :: b3 :: bufs) (Hnd : b1 <> b2 /\ b1 <> b3 /\ b2 <> b3)
  (Hscript : w_script w = r1 :: rest) (Hr1 : r_dma r1 = []) :
  let out := NormalTrb_new_out b1 31 in
  let first := [Push ROut out; Doorbell slot out_dci; Await (next_slot ao so)] in
  (forall e2 e3 rest' data sig tag residue status,
     rest = {| r_event := e2; r_dma := [(b2, data)] |} ::
            {| r_event := e3; r_dma := [(b3, csw_bytes sig tag residue status)] |} :: rest' ->
     transfer_result_ok (r_event r1) = Ok tt -> transfer_result_ok e2 = Ok tt -> transfer_result_ok e3 = Ok tt ->
     in_width 32 sig ->
     let d := NormalTrb_new_in b2 (len * 512) in let s := NormalTrb_new_in b3 13 in
     let blocks := dma_write data (replicate (Z.to_nat (len * 512)) 0) in
     exists w', scsi_read_10 xhc slot in_dci out_dci lba len w = (_ ← csw_result sig status; Ok blocks, w') /\
       w_log w' = w_log w ++ first ++
         [Push RIn d; Doorbell slot in_dci; Await (next_slot ai si);
          Push RIn s; Doorbell slot in_dci; Await (next_slot ai (si ++ [d]))] ++
         (if is_ok (csw_result sig status) then [Printed (analyze_sector_zero blocks)] else []) /\
       w_mem w' !! b1 = Some (read_10_bytes lba len 3) /\
       ring_ok ao (so ++ [out]) (w_rings w' ROut) /\ ring_ok ai (si ++ [d; s]) (w_rings w' RIn)) /\
  (forall msg, transfer_result_ok (r_event r1) = Err msg ->
     exists w', scsi_read_10 xhc slot in_dci out_dci lba len w = (Err msg, w') /\ w_log w' = w_log w ++ first).
Proof.
  intros out first. destruct Hnd as (N12 & N13 & N23).
  assert (forall b n, cmd_ok (NormalTrb_new_in b n)) as Hokin by (intros; apply (normal_ok true)).
  assert (scsi_read_10 xhc slot in_dci out_dci lba len w = (
    (a ← box_bytes (read_10_bytes lba len 3);
     bulk_transfer_logged xhc ROut (NormalTrb_new_out a 31) slot out_dci;;
     (fun _ => read_10_data xhc slot in_dci len) a) w)) as ->
    by (unfold scsi_read_10; by rewrite read_10_cbw_eq).
  destruct (phase_ok xhc ROut (fun a => NormalTrb_new_out a 31) (read_10_bytes lba len 3) slot out_dci db ao so b1
    (b2 :: b3 :: bufs) r1 rest (fun _ => read_10_data xhc slot in_dci len) w Hout (normal_ok false b1 31) Hdb Ho
    Hbufs Hscript) as (c1 & d1 & Hc1 & ->).
  fold out. fold first. set (w1 := boxed _ _ _ _ _ _ _ _ _ _).
  split; [|intros msg ->; by exists w1].
  intros e2 e3 rest' data sig tag residue status -> -> H2 H3 Hsig d s blocks.
  destruct (phase_ok xhc RIn (fun a => NormalTrb_new_in a (len * 512)) (replicate (Z.to_nat (len * 512)) 0) slot
    in_dci db ai si b2 (b3 :: bufs) _ _ (read_10_status xhc slot in_dci) w1 Hin (Hokin b2 (len * 512)) Hdb Hi
    eq_refl eq_refl) as (c2 & d2 & Hc2 & E2).
  cbn [r_event] in E2. rewrite H2 in E2. fold d in Hc2, E2. unfold read_10_data. rewrite E2. clear E2.
  set (w2 := boxed _ _ _ _ _ _ _ _ _ _).
  destruct (phase_ok xhc RIn (fun a => NormalTrb_new_in a 13) (replicate 13 0) slot in_dci db ai (si ++ [d]) b3 bufs
    _ _ (read_10_result b2) w2 Hc2 (Hokin b3 13) Hdb Hi eq_refl eq_refl) as (c3 & d3 & Hc3 & E3).
  cbn [r_event] in E3. rewrite H3 in E3. fold s in Hc3, E3. unfold read_10_status. rewrite E3. clear E3.
  set (w3 := boxed _ _ _ _ _ _ _ _ _ _).
  assert (w_mem w3 = alter (dma_write (csw_bytes sig tag residue status)) b3 (<[b3 := replicate 13 0]>
    (alter (dma_write data) b2 (<[b2 := replicate (Z.to_nat (len * 512)) 0]>
      (<[b1 := read_10_bytes lba len 3]> (w_mem w)))))) as Hmem.
  { unfold w3, w2, w1, boxed, transferred, apply_dma. cbn [w_mem with_mem with_script with_log with_bus UsbIo.with_ring
      with_bufs r_dma foldl fst snd]. by rewrite Hr1. }
  assert (w_mem w3 !! b3 = Some (csw_bytes sig tag residue status)) as Hm3.
  { rewrite Hmem, lookup_alter_eq, lookup_insert_eq. cbn [fmap option_fmap option_map].
    rewrite dma_write_all; [done|]. unfold csw_bytes. rewrite !length_app, !length_le_encode. reflexivity. }
  assert (w_mem w3 !! b2 = Some blocks) as Hm2.
  { rewrite Hmem, lookup_alter_ne, lookup_insert_ne, lookup_alter_eq, lookup_insert_eq by congruence. done. }
  assert (w_mem w3 !! b1 = Some (read_10_bytes lba len 3)) as Hm1.
  { rewrite Hmem, lookup_alter_ne, lookup_insert_ne, lookup_alter_ne, lookup_insert_ne, lookup_insert_eq by congruence. done. }
  rewrite (read_10_result_eq b2 b3 sig tag residue status blocks w3 Hm3 Hm2 Hsig). eexists. split; [reflexivity|].
  assert (w_log w3 = w_log w ++ first ++ [Push RIn d; Doorbell slot in_dci; Await (next_slot ai si);
     Push RIn s; Doorbell slot in_dci; Await (next_slot ai (si ++ [d]))]) as Hlog
    by (cbn; by rewrite <- !app_assoc).
  rewrite <- app_assoc in Hc3.
  destruct (is_ok (csw_result sig status)); split_and!; try done.
  cbn [w_log with_log]. by rewrite Hlog, <- !app_assoc.
Qed.

(** ** The witness's world: rings at two addresses, three buffers, a good device *)

Definition good_event : GenericTrbEntry := {| t_data := 0; t_option := 0x01000000; t_control := 32 * 1024 |}.
#[export] Instance Null_MmioBus : MmioBus unit := { mmio_read _ d := (0, d); mmio_write _ _ d := d }.

Definition ring_at (addr : Z) : CommandRing :=
  match CommandRing_default addr with
  | Ok c => c
  | _ => {| cr_ring := TrbRing_new 0; cr_cycle_state_ours := false |}
  end.

Lemma ring_at_ok addr : 0 <= addr /\ addr + 256 <= 2 ^ 64 -> ring_ok addr [] (ring_at addr).
Proof.
  intros Ha. split; [|by split]. apply default_inv. unfold ring_at.
  unfold CommandRing_default. cbn [phys_addr TrbRing_new r_addr cr_ring]. rewrite trb_link_eq. reflexivity.
Qed.

Definition example_world (script : list Response) : World unit := {|
  w_bus := tt;
  w_rings := fun r => match r with RIn => ring_at 0x10000 | ROut => ring_at 0x20000
                      | RControl => ring_at 0x30000 | RCommand => ring_at 0x40000 end;
  w_dcbaa := {| inner := 0x50000; scratchpad_table_ptr := 0; raw_context := replicate 255 0;
                context := replicate 255 None; scratchpad_bufs := [] |};
  w_bufs := [0x60000; 0x61000; 0x62000]; w_mem := ∅; w_ctx := ∅; w_script := script; w_log := [] |}.

Definition example_data : list Z := replicate 512 7.
Definition example_script (status : Z) : list Response :=
  [{| r_event := good_event; r_dma := [] |};
   {| r_event := good_event; r_dma := [(0x61000, example_data)] |};
   {| r_event := good_event; r_dma := [(0x62000, csw_bytes 0x53425355 3 0 status)] |}].

Lemma scsi_read_10_correct_witness :
  exists w', scsi_read_10 example_regs 1 3 4 0 1 (example_world (example_script 0)) = (Ok example_data, w') /\
    length (w_log w') = 10%nat.
Proof.
  destruct (proj1 (scsi_read_10_correct example_regs (example_world (example_script 0)) 1 3 4 0x4004 0 1
    0x60000 0x61000 0x62000 0x20000 0x10000 [] [] [] {| r_event := good_event; r_dma := [] |}
    (drop 1 (example_script 0)) (ring_at_ok 0x20000 ltac:(lia)) (ring_at_ok 0x10000 ltac:(lia)) eq_refl
    ltac:(lia) ltac:(lia) ltac:(split; lia) ltac:(split; lia) eq_refl ltac:(lia) eq_refl eq_refl)
    good_event good_event [] example_data 0x53425355 3 0 0 eq_refl eq_refl eq_refl eq_refl ltac:(split; lia))
    as (w' & H1 & H2 & _).
  exists w'. split; [exact H1|]. by rewrite H2.
Defined.

(** ** Control transfers *)

(** The 8-byte setup packet of a setup TRB. *)
Lemma setup_packet request_type request value index length :
  in_width 8 request_type -> in_width 8 request -> in_width 16 value -> in_width 16 index -> in_width 16 length ->
  le_encode 8 (t_data (setup request_type request value index length)) =
    [request_type; request] ++ le_encode 2 value ++ le_encode 2 index ++ le_encode 2 length.
Proof.
  intros H1 H2 H3 H4 H5. unfold setup, GenericTrbEntry_from_setup, SetupStageTrb_new.
  cbn [t_data ss_request_type ss_request ss_value ss_index ss_length].
  assert (le_encode 1 request_type = [request_type]) as -> by (unfold le_encode; by rewrite Z.mod_small).
  assert (le_encode 1 request = [request]) as -> by (unfold le_encode; by rewrite Z.mod_small).
  match goal with |- le_encode 8 (le_decode ?l) = _ => apply (le_encode_decode l) end.
  unfold in_width in *. rewrite !Forall_app. split_and!; try apply le_encode_bytes.
  all: by apply Forall_singleton.
Qed.

Lemma setup_ok request_type request value index length :
  cmd_ok (setup request_type request value index length).
Proof.
  assert (forall tt, tt = TRT_NO_DATA_STAGE \/ tt = TRT_OUT_DATA_STAGE \/ tt = TRT_IN_DATA_STAGE ->
    forall d o, cmd_ok {| t_data := d; t_option := o; t_control := Z.lor (Z.lor (Z.shiftl tt 16)
      (Z.shiftl (TrbType_repr SetupStage) 10)) CTRL_BIT_IMMEDIATE_DATA |}) as H.
  { intros tt Htt d o. destruct Htt as [->|[->| -> ] ]; (split; [split; vm_compute; done|vm_compute; discriminate]). }
  unfold setup, GenericTrbEntry_from_setup, SetupStageTrb_new. cbn [ss_control ss_option].
  apply H. destruct (length =? 0); [by left|]. destruct (negb _); naive_solver.
Qed.

Lemma descriptor_value ty idx : in_width 8 idx ->
  let v := Z.lor (wrap 16 (Z.shiftl (UsbDescriptorType_repr ty) 8)) idx in
  in_width 16 v /\ le_encode 2 v = [idx; UsbDescriptorType_repr ty].
Proof.
  intros Hi v. set (r := UsbDescriptorType_repr ty) in *.
  assert (in_width 8 r) as Hr by (unfold r; destruct ty; split; simpl; lia).
  assert (in_width 16 v) as Hv.
  { apply in_width_testbit; [lia| |].
    - apply Z.lor_nonneg. split; [apply wrap_width; lia|by destruct Hi].
    - intros i Hge. unfold v, wrap. rewrite Z.lor_spec, testbit_mod, (testbit_high 8 idx) by (done || lia).
      by rewrite (proj2 (Z.ltb_ge _ _)) by lia. }
  split; [done|]. unfold le_encode. f_equal; [|f_equal].
  - change 256 with (2 ^ 8). unfold v, wrap. zbits.
  - change 256 with (2 ^ 8). rewrite <- Z.shiftr_div_pow2 by lia. unfold v, wrap. zbits.
Qed.

(** [w'] is [w] after [new] has been pushed on ring [r], a response has been taken, and
    [log] observed; nothing else the driver keeps has changed but buffers and registers. *)
Record advanced {D} (r : RingId) (addr : Z) (sent new : list GenericTrbEntry) (log : list Io)
    (w w' : World D) : Prop := {
  adv_ring : ring_ok addr (sent ++ new) (w_rings w' r);
  adv_others : forall r', r' <> r -> w_rings w' r' = w_rings w r';
  adv_log : w_log w' = w_log w ++ log;
  adv_bufs : w_bufs w' = w_bufs w;
  adv_script : w_script w' = tail (w_script w);
  adv_ctx : w_ctx w' = w_ctx w;
  adv_dcbaa : w_dcbaa w' = w_dcbaa w;
}.

(** GET_DESCRIPTOR: its three stages, and the world after them. *)
Lemma request_descriptor_ok {D} `{MmioBus D} (xhc : XhcRegisters) (w : World D)
  (slot db : Z) (ty : UsbDescriptorType) (idx lang buf len addr : Z) (sent : list GenericTrbEntry)
  (r : Response) (rest : list Response) :
  ring_ok addr sent (w_rings w RControl) -> doorbell_regs xhc !! Z.to_nat slot = Some db ->
  in_width 8 idx -> in_width 16 lang -> 0 < len < 2 ^ 16 -> w_script w = r :: rest ->
  exists w' s, let d := DataStageTrb_new_in buf len in
    request_descriptor xhc slot ty idx lang buf len w = (transfer_result_ok (r_event r), w') /\
    advanced RControl addr sent [s; d; StatusStageTrb_new_out]
      [Push RControl s; Push RControl d; Push RControl StatusStageTrb_new_out;
       Doorbell slot 1; Await (next_slot addr (sent ++ [s]))] w w' /\
    w_mem w' = apply_dma r (w_mem w) /\
    le_encode 8 (t_data s) = [0x80; 6; idx; UsbDescriptorType_repr ty] ++ le_encode 2 lang ++ le_encode 2 len /\
    get_field (t_control s) 16 2 = TRT_OUT_DATA_STAGE.
Proof.
  intros Hring Hdb Hidx Hlang Hlen Hscript.
  destruct (descriptor_value ty idx Hidx) as [Hv Hvb]. cbv zeta in Hv, Hvb.
  set (v := Z.lor (wrap 16 (Z.shiftl (UsbDescriptorType_repr ty) 8)) idx) in *.
  assert (in_width 16 len) as Hl by (split; lia).
  set (s := setup REQ_TYPE_DIR_DEVICE_TO_HOST REQ_GET_DESCRIPTOR v lang len).
  set (d := DataStageTrb_new_in buf len).
  assert (cmd_ok d) as Hd by (split; [split; vm_compute; done|vm_compute; discriminate]).
  assert (cmd_ok StatusStageTrb_new_out) as Hst by (split; [split; vm_compute; done|vm_compute; discriminate]).
  destruct (ring_push_ok RControl s addr sent w Hring (setup_ok _ _ _ _ _)) as (c1 & Hc1 & E1).
  set (w1 := with_log _ _) in E1.
  destruct (ring_push_ok RControl d addr (sent ++ [s]) w1 Hc1 Hd) as (c2 & Hc2 & E2). set (w2 := with_log _ _) in E2.
  destruct (ring_push_ok RControl StatusStageTrb_new_out addr ((sent ++ [s]) ++ [d]) w2 Hc2 Hst) as (c3 & Hc3 & E3).
  set (w3 := with_log _ _) in E3.
  destruct (ring_doorbell_ok xhc slot 1 db w3 Hdb ltac:(lia)) as (d' & E4). set (w4 := with_log _ _) in E4.
  eexists _, s. cbv zeta. split; [|split; [|split; [|split] ] ].
  - unfold request_descriptor. rewrite (wrap_small 16 len) by done. fold v. fold s. fold d.
    rewrite (bind_ok _ _ _ _ _ E1), (bind_ok _ _ _ _ _ E2), (bind_ok _ _ _ _ _ E3), (bind_ok _ _ _ _ _ E4).
    by apply await_transfer_eq.
  - rewrite <- !app_assoc in Hc3. constructor; try done.
    + intros r' Hne. cbn. by rewrite !decide_False.
    + cbn. by rewrite <- !app_assoc.
    + cbn. by rewrite Hscript.
  - reflexivity.
  - unfold s. rewrite setup_packet, Hvb by (done || (split; vm_compute; done)). done.
  - unfold s, setup, GenericTrbEntry_from_setup, SetupStageTrb_new. cbn [t_control ss_control].
    rewrite (proj2 (Z.eqb_neq len 0)) by lia. reflexivity.
Qed.

(** C27. Reading a descriptor (GET_DESCRIPTOR) over the control ring, for every type, index,
    language and buffer of 1 .. 65535 bytes: the controller sees a setup stage whose packet
    is the eight bytes of the request, a data stage for the buffer with the IN direction,
    and a status stage, all pushed before the doorbell of context 1 is rung, and the driver
    then waits for the event of the data stage and returns its result.  The setup stage
    announces an OUT data stage (transfer type 2, where an IN data stage is 3), since the
    direction is tested on the request code instead of the request type. *)
Theorem request_descriptor_stages {D} `{MmioBus D} (xhc : XhcRegisters) (w : World D)
  (slot db : Z) (ty : UsbDescriptorType) (idx lang buf len addr : Z) (sent : list GenericTrbEntry)
  (r : Response) (rest : list Response)
  (Hring : ring_ok addr sent (w_rings w RControl)) (Hdb : doorbell_regs xhc !! Z.to_nat slot = Some db)
  (Hidx : in_width 8 idx) (Hlang : in_width 16 lang) (Hlen : 0 < len < 2 ^ 16)
  (Hscript : w_script w = r :: rest) :
  exists w' s, let d := DataStageTrb_new_in buf len in
    request_descriptor xhc slot ty idx lang buf len w = (transfer_result_ok (r_event r), w') /\
    w_log w' = w_log w ++ [Push RControl s; Push RControl d; Push RControl StatusStageTrb_new_out;
                           Doorbell slot 1; Await (next_slot addr (sent ++ [s]))] /\
    ring_ok addr (sent ++ [s; d; StatusStageTrb_new_out]) (w_rings w' RControl) /\
    le_encode 8 (t_data s) = [0x80; 6; idx; UsbDescriptorType_repr ty] ++ le_encode 2 lang ++ le_encode 2 len /\
    get_field (t_control s) 16 2 = TRT_OUT_DATA_STAGE /\ get_field (t_control d) 16 1 = 1.
Proof.
  destruct (request_descriptor_ok xhc w slot db ty idx lang buf len addr sent r rest Hring Hdb Hidx Hlang Hlen Hscript)
    as (w' & s & E & [Hr _ Hl _ _ _ _] & _ & Hp & Ht).
  exists w', s. by split_and!.
Qed.

Lemma request_descriptor_stages_witness :
  exists w' s, request_descriptor example_regs 1 TDevice 0 0 0x60000 18 (example_world (example_script 0)) = (Ok tt, w') /\
    length (w_log w') = 5%nat /\ get_field (t_control s) 16 2 = 2 /\
    le_encode 8 (t_data s) = [0x80; 6; 0; 1; 0; 0; 18; 0].
Proof.
  destruct (request_descriptor_stages example_regs (example_world (example_script 0)) 1 0x4004 TDevice 0 0 0x60000 18
    0x30000 [] {| r_event := good_event; r_dma := [] |} (drop 1 (example_script 0)) (ring_at_ok 0x30000 ltac:(lia))
    eq_refl ltac:(split; lia) ltac:(split; lia) ltac:(lia) eq_refl) as (w' & s & H1 & H2 & _ & H3 & H4 & _).
  exists w', s. split; [exact H1|]. rewrite H2. split; [done|]. split; [exact H4|exact H3].
Defined.
