(* ===== verification/Device.v ===== *)
(** * Bringing up a device: the long sequences of [src/src/xhci.rs].

    The definitions are those of [Driver].  This file follows [init_port], [address_device],
    [handle_mass_storage_device] and [request_config_descriptor_and_rest] from the first
    effect to the last: which structures the controller finds in memory, which commands and
    control transfers it is given and in which order, and which rings the driver goes on
    with. *)

From S2P Require Import Prelude Bits Uefi Trb Event Contexts Executor Controller Usb Storage Driver.
Import Bits.Volatile Trb.Trb Trb.TrbRing Trb.CommandRing UsbTypes Contexts.Contexts Registers Portsc Controller.Controller
  Descriptor MassStorage Scsi UsbIo Transfers Commands.

(** ** Commands *)

(** A command TRB for an input context and a slot. *)
Record slot_trb (ty0 : TrbType) (ctx slot : Z) (t : GenericTrbEntry) : Prop := {
  st_data : t_data t = ctx; st_type : ty t = TrbType_repr ty0; st_slot : get_field (t_control t) 24 8 = slot;
}.

Lemma slot_trb_build ty0 ctx slot : in_width 64 ctx -> in_width 8 slot -> ty0 <> Link ->
  exists t, build (set_trb_type ty0;; on_data (Volatile_write ctx);; set_slot_id slot) = Ok t /\
    slot_trb ty0 ctx slot t /\ cmd_ok t.
Proof.
  intros Hc Hs Hl. rewrite slot_command by done. eexists. split; [reflexivity|].
  set (t := {| t_data := ctx; t_option := 0; t_control := _ |}).
  assert (0 <= TrbType_repr ty0 < 64 /\ TrbType_repr ty0 <> 6) as [Hr Hr6] by (destruct ty0; done).
  unfold in_width in Hs. change (2 ^ 8) with 256 in Hs.
  assert (ty t = TrbType_repr ty0) as Hty.
  { unfold ty. rewrite get_field_div by lia. cbn [t t_control].
    replace (TrbType_repr ty0 * 2 ^ 10 + slot * 2 ^ 24) with ((TrbType_repr ty0 + slot * 2 ^ 8 * 2 ^ 6) * 2 ^ 10) by lia.
    rewrite Z.div_mul, Z.mod_add by lia. by apply Z.mod_small. }
  split; [constructor; [done|done|]|split; [|by rewrite Hty]].
  - rewrite get_field_div by lia. cbn [t t_control]. rewrite Z.div_add, Z.div_small by lia. by apply Z.mod_small.
  - unfold trb_ok, in_width. cbn [t t_control]. lia.
Qed.

Section commands.
Context {D : Type} {MB : MmioBus D} (xhc : XhcRegisters).

Lemma notify_xhc_ok db (d : D) : doorbell_regs xhc !! 0%nat = Some db -> exists d', notify_xhc xhc d = (Ok tt, d').
Proof using.
  intros Hdb. unfold notify_xhc, index. change (Z.to_nat 0) with 0%nat. rewrite Hdb. eexists. mstep. reflexivity.
Qed.

(** [send_command]: the TRB, its doorbell, and the event that answers. *)
Lemma send_command_ok cmd db addr sent r rest (w : World D) :
  ring_ok addr sent (w_rings w RCommand) -> cmd_ok cmd -> doorbell_regs xhc !! 0%nat = Some db ->
  w_script w = r :: rest ->
  exists w', send_command xhc cmd w = (Ok (r_event r), w') /\
    advanced RCommand addr sent [cmd] [Push RCommand cmd; Doorbell 0 0; Await (next_slot addr sent)] w w'.
Proof using.
  intros Hr Hc Hdb Hs. destruct (ring_push_ok RCommand cmd addr sent w Hr Hc) as (c' & Hc' & E1).
  set (w1 := with_log _ _) in E1. destruct (notify_xhc_ok db (w_bus w1) Hdb) as (d' & E2).
  apply (on_regs_ok (notify_xhc xhc) tt d' w1) in E2.
  eexists. split.
  - unfold send_command. rewrite (bind_ok _ _ _ _ _ E1), (bind_ok _ _ _ _ _ E2). mstep.
    by apply (await_event_eq _ r rest).
  - constructor; try done.
    + intros r' Hne. cbn. by rewrite decide_False.
    + cbn. by rewrite <- !app_assoc.
    + cbn. by rewrite Hs.
Qed.

(** The command that gives a ring to the controller: the driver's ring [r] becomes [ring]
    when the completion is good. *)
Lemma command_installs (r : RingId) (ring : CommandRing) cmd db addr sent resp rest (w : World D) :
  r <> RCommand ->
  ring_ok addr sent (w_rings w RCommand) -> cmd_ok cmd -> doorbell_regs xhc !! 0%nat = Some db ->
  w_script w = resp :: rest ->
  exists w1, advanced RCommand addr sent [cmd] [Push RCommand cmd; Doorbell 0 0; Await (next_slot addr sent)] w w1 /\
    (t ← send_command xhc cmd; lift (cmd_result_ok t);; modify (UsbIo.with_ring r ring)) w =
      (cmd_result_ok (r_event resp),
       if is_ok (cmd_result_ok (r_event resp)) then UsbIo.with_ring r ring w1 else w1).
Proof using.
  intros Hne Hr Hc Hdb Hs. destruct (send_command_ok cmd db addr sent resp rest w Hr Hc Hdb Hs) as (w1 & E & Ha).
  exists w1. split; [done|]. rewrite (bind_ok _ _ _ _ _ E).
  destruct (cmd_result_ok (r_event resp)) as [[]|e|e]; reflexivity.
Qed.
End commands.

(** *** The stages of the input context *)

Lemma construct_seq {S} (s : S) (m n : M S unit) :
  construct s (m;; n) = (c ← construct s m; construct c n).
Proof. unfold construct, mbind, M_bind, outcome_bind. destruct (m s) as [[[]|e|e] s']; reflexivity. Qed.

(** [address_device] builds its context in stages, with PORTSC read in between. *)
Lemma address_device_stages port speed ring :
  address_device_context port speed ring =
    (ctx ← address_context_port port;
     ctx ← construct ctx (address_context_speed speed);
     size ← max_packet_size_of speed;
     construct ctx (address_context_endpoint size ring)).
Proof.
  unfold address_device_context. destruct (address_context_port port) as [c|e|e]; [|done..].
  cbn [mbind outcome_bind]. rewrite construct_seq. unfold outcome_bind.
  destruct (construct c _) as [c2|e|e]; [|done..]. by destruct (max_packet_size_of speed).
Qed.

Lemma ring_default_ok addr : 0 <= addr /\ addr + 256 <= 2 ^ 64 ->
  exists c, CommandRing_default addr = Ok c /\ ring_ok addr [] c /\ cr_ring_phys_addr c = addr.
Proof.
  intros Ha. exists (ring_at addr). assert (CommandRing_default addr = Ok (ring_at addr)) as E
    by (unfold ring_at, CommandRing_default; cbn [phys_addr TrbRing_new r_addr cr_ring]; by rewrite trb_link_eq).
  split; [done|]. split; [by apply ring_at_ok|]. by destruct (default_inv _ _ E).
Qed.

(** What the controller reads in the input context of an Address Device command: the ring of
    endpoint 0 starts at [first], with the cycle state of a ring's first lap. *)
Record address_request (port : Z) (speed : UsbMode) (size first : Z) (ctx : InputContext) : Prop := {
  ar_flags : input_ctrl_ctx ctx = {| drop_context_bitmap := 0; add_context_bitmap := 3 |};
  ar_slot : view_slot (device_ctx ctx) =
    {| v_speed := UsbMode_psi speed; v_entries := 1; v_port := port; v_others := replicate 10 0 |};
  ar_endpoint : exists ep, ep_ctx (device_ctx ctx) = ep :: replicate 30 EndpointContext_new /\
    view_endpoint ep = control_view size first /\
    v_deque (view_endpoint ep) = first /\ v_cycle (view_endpoint ep) = Z.b2z (lap_cycle 0);
}.

(** And in that of a Configure Endpoint command, for one bulk endpoint. *)
Record bulk_request (t : EndpointType) (size dci first : Z) (ctx : InputContext) : Prop := {
  br_drop : drop_context_bitmap (input_ctrl_ctx ctx) = 0;
  br_add : forall i, 0 <= i -> Z.testbit (add_context_bitmap (input_ctrl_ctx ctx)) i = (i =? 0) || (i =? dci);
  br_entries : v_entries (view_slot (device_ctx ctx)) = dci;
  br_endpoint : exists ep, ep_ctx (device_ctx ctx) = <[Z.to_nat (dci - 1) := ep]> (replicate 31 EndpointContext_new) /\
    view_endpoint ep = bulk_view t size first /\
    v_deque (view_endpoint ep) = first /\ v_cycle (view_endpoint ep) = Z.b2z (lap_cycle 0);
}.

(** An address for a ring: an [IoBox] is page aligned, the controller asks for less. *)
Definition ring_address (ring : Z) : Prop := 0 <= ring /\ ring + 256 <= 2 ^ 64 /\ ring mod 16 = 0.

Lemma next_slot_nil ring : next_slot ring [] = ring.
Proof. unfold next_slot. simpl. lia. Qed.

Lemma address_stages_ok port speed size ring : 0 < port < 256 -> max_packet_size_of speed = Ok size ->
  ring_address ring ->
  exists c1 c2 ctx, address_context_port port = Ok c1 /\ construct c1 (address_context_speed speed) = Ok c2 /\
    construct c2 (address_context_endpoint size ring) = Ok ctx /\
    address_request port speed size (next_slot ring []) ctx.
Proof.
  intros Hport Hsize (H0 & H1 & H2). rewrite next_slot_nil.
  destruct (proj1 (address_device_context_correct port speed ring size ltac:(split; lia)) Hport Hsize)
    as (ctx & ep & E & Hflags & Hview & Hep & Hepv).
  rewrite address_device_stages, Hsize in E.
  destruct (address_context_port port) as [c1|e|e]; [|done..]. cbn [mbind outcome_bind] in E.
  destruct (construct c1 _) as [c2|e|e] eqn:E2; [|done..]. cbn [mbind outcome_bind] in E.
  exists c1, c2, ctx. split_and!; [done..|]. constructor; [done..|]. exists ep. rewrite Hepv.
  split_and!; try done. cbn [v_deque control_view]. div_lia.
Qed.

(** A port whose speed field reads as [speed], however often it is read. *)
Definition port_runs_at {D} `{MmioBus D} (ptr : Z) (speed : UsbMode) : Prop :=
  forall d, exists d', port_speed ptr d = (Ok speed, d').

(** What a refused or accepted command leaves as a ring of the driver. *)
Definition ring_after (ok : bool) (addr : Z) (old new : CommandRing) : Prop :=
  if ok then ring_ok addr [] new else new = old.

Section address.
Context {D : Type} {MB : MmioBus D} (xhc : XhcRegisters).

(** The slot's entry of the context array. *)
Lemma set_output_context_ok slot a (d : DeviceContextBaseAddressArray) :
  0 < slot <= Z.of_nat (length (context d)) ->
  exists d', set_output_context slot a d = (Ok tt, d') /\
    raw_context d' = <[Z.to_nat (slot - 1) := a]> (raw_context d) /\ inner d' = inner d /\
    scratchpad_table_ptr d' = scratchpad_table_ptr d.
Proof using.
  intros Hs. unfold set_output_context. rewrite sub_chk_ok by lia. mstep. rewrite (bind_ok get _ _ _ _ eq_refl).
  rewrite (proj2 (Z.ltb_lt _ _)) by lia. eexists. split; [reflexivity|done].
Qed.

(** C25. Giving a device its address, for a slot the context array has, on a port 1 .. 255 with
    a register and of known speed: the slot's entry of the array points to the output context, and one command is
    sent, an Address Device command with the address of the input context and the slot.
    When the controller fetches it, the input context in memory has the port, its speed and
    one context entry in the slot context, the add flags of the slot and endpoint 0, and a
    control endpoint whose dequeue pointer and cycle state name the first TRB of a ring that
    nothing has been pushed to.  A good completion makes that ring the control ring of the
    driver, any other is returned as the error and leaves the ring alone.  A port number
    outside 1 .. 255, a port without a register and a port of unknown speed are refused with
    their errors before a command is sent, with the array already changed. *)
Theorem address_device_correct (w : World D) (port slot db addr out inp ring : Z)
  (sent : list GenericTrbEntry) (bufs : list Z) (resp : Response) (rest : list Response)
  (Hring : ring_ok addr sent (w_rings w RCommand)) (Hdb : doorbell_regs xhc !! 0%nat = Some db)
  (Hslot : 0 < slot < 256) (Hlen : slot <= Z.of_nat (length (context (w_dcbaa w))))
  (Hbufs : w_bufs w = out :: inp :: ring :: bufs) (Hinp : in_width 64 inp)
  (Hra : ring_address ring) (Hscript : w_script w = resp :: rest) :
  let result := cmd_result_ok (r_event resp) in
  let entry w' := raw_context (w_dcbaa w') = <[Z.to_nat (slot - 1) := out]> (raw_context (w_dcbaa w)) in
  let refused e := exists w', address_device xhc port slot w = (Err e, w') /\ entry w' /\ w_log w' = w_log w in
  (forall ptr speed size, 0 < port < 256 -> PortSc_get (portsc xhc) port = Some ptr -> port_runs_at ptr speed ->
     max_packet_size_of speed = Ok size ->
   exists w' cmd ctx, address_device xhc port slot w = (result, w') /\ entry w' /\
     w_log w' = w_log w ++ [Push RCommand cmd; Doorbell 0 0; Await (next_slot addr sent)] /\
     slot_trb AddressDeviceCommand inp slot cmd /\
     w_ctx w' !! inp = Some ctx /\ address_request port speed size (next_slot ring []) ctx /\
     ring_after (is_ok result) ring (w_rings w RControl) (w_rings w' RControl) /\
     ring_ok addr (sent ++ [cmd]) (w_rings w' RCommand)) /\
  (~ 0 < port < 256 -> refused "Port out of range") /\
  (0 < port < 256 -> PortSc_get (portsc xhc) port = None -> refused "PORTSC was invalid") /\
  (forall ptr v, 0 < port < 256 -> PortSc_get (portsc xhc) port = Some ptr -> port_runs_at ptr (Unknown v) -> v < 16 ->
     refused "unknown Protocol Speed ID").
Proof using.
  intros result entry refused.
  destruct (set_output_context_ok slot out (w_dcbaa w) ltac:(lia)) as (dc & Hdc & Hraw & _).
  set (w0 := with_dcbaa dc (with_bufs (inp :: ring :: bufs) w)).
  assert (forall k : unit -> M (World D) unit, (output_context ← box_address;
    zoom w_dcbaa with_dcbaa (set_output_context slot output_context) ≫= k) w = k tt w0) as Hfirst.
  { intros k. rewrite (bind_ok _ _ _ _ _ (box_address_ok out _ w Hbufs)).
    erewrite bind_ok; [reflexivity|]. unfold zoom. cbn [w_dcbaa with_bufs]. by rewrite Hdc. }
  destruct (ring_default_ok ring ltac:(destruct Hra; lia)) as (rc & Erc & Hrc & Hphys).
  split; [|split; [|split] ].
  - intros ptr speed size Hport Hptr Hspeed Hsize.
    destruct (address_stages_ok port speed size ring Hport Hsize Hra) as (c1 & c2 & ctx & E1 & E2 & E3 & Hreq).
    destruct (slot_trb_build AddressDeviceCommand inp slot Hinp ltac:(split; lia) ltac:(done)) as (cmd & Ecmd & Hcmd & Hok).
    unfold address_device. rewrite Hfirst, E1. mstep.
    erewrite bind_ok; [|by apply box_address_ok]. rewrite Hptr. mstep.
    set (w1 := with_bufs _ w0). destruct (Hspeed (w_bus w1)) as (d1 & Hd1).
    erewrite bind_ok; [|apply on_regs_ok; exact Hd1]. rewrite E2. mstep.
    erewrite bind_ok; [|by apply box_address_ok]. rewrite Erc. mstep.
    set (w2 := with_bufs bufs _). destruct (Hspeed (w_bus w2)) as (d2 & Hd2).
    erewrite bind_ok; [|apply (on_regs_ok _ size d2); unfold max_packet_size; rewrite (bind_ok _ _ _ _ _ Hd2), Hsize; reflexivity].
    rewrite Hphys, E3. mstep. mstep. unfold cmd_address_device. rewrite Ecmd. mstep.
    match goal with |- exists _ _ _, _ ?w3 = _ /\ _ => set (w' := w3) end.
    destruct (command_installs xhc RControl rc cmd db addr sent resp rest w' ltac:(done) Hring Hok Hdb Hscript)
      as (w4 & [H1 H2 H3 _ _ H4 H5] & E4).
    eexists _, cmd, ctx. split; [exact E4|]. fold result in E4 |- *. clearbody result. unfold entry.
    assert (w_ctx w4 !! inp = Some ctx) as Hctx by (rewrite H4; apply lookup_insert_eq).
    split_and!; [| |exact Hcmd| |exact Hreq| |]; destruct (is_ok result); try done.
    + cbn. by rewrite H5.
    + by rewrite H5.
    + apply (H2 RControl). done.
  - intros Hport. exists w0. split; [|done]. unfold address_device. rewrite Hfirst.
    by rewrite address_context_port_refuses.
  - intros Hport Hptr. destruct (address_stages_ok port FullSpeed 8 ring Hport eq_refl Hra) as (c1 & _ & _ & E1 & _).
    exists (with_bufs (ring :: bufs) w0). split; [|done]. unfold address_device. rewrite Hfirst, E1. mstep.
    erewrite bind_ok; [|by apply box_address_ok]. by rewrite Hptr.
  - intros ptr v Hport Hptr Hspeed Hlt. unfold refused.
    pose proof (proj2 (proj2 (address_device_context_correct port (Unknown v) ring 0 ltac:(destruct Hra; split; lia)))
      v Hport eq_refl Hlt) as Hunk.
    destruct (address_stages_ok port FullSpeed 8 ring Hport eq_refl Hra) as (c1 & _ & _ & E1 & _).
    rewrite address_device_stages, E1 in Hunk. cbn [mbind outcome_bind] in Hunk.
    set (w1 := with_bufs (ring :: bufs) w0). destruct (Hspeed (w_bus w1)) as (d1 & Hd1).
    unfold address_device. rewrite Hfirst, E1. mstep.
    erewrite bind_ok; [|by apply box_address_ok]. rewrite Hptr. mstep.
    erewrite bind_ok; [|apply on_regs_ok; exact Hd1].
    destruct (construct c1 _) as [c2|e|e]; simplify_eq/=; [|by eexists].
    mstep. erewrite bind_ok; [|by apply box_address_ok]. rewrite Erc. mstep.
    set (w2 := with_bufs bufs _). destruct (Hspeed (w_bus w2)) as (d2 & Hd2).
    exists (with_bus d2 w2). split; [|done]. unfold on_regs at 1, zoom at 1, max_packet_size.
    unfold mbind at 1, M_bind at 1. by rewrite (bind_ok _ _ _ _ _ Hd2).
Qed.
End address.

(** A device on every port that reads as a SuperSpeed one. *)
Definition fast_bus : MmioBus unit := {| mmio_read _ d := (0x1203, d); mmio_write _ _ d := d |}.

Definition command_event (code : Z) : GenericTrbEntry :=
  {| t_data := 0; t_option := Z.shiftl code 24; t_control := 33 * 1024 |}.

Lemma address_device_correct_witness :
  (exists w' cmd ctx, @address_device unit fast_bus example_regs 1 1
      (example_world [{| r_event := command_event 1; r_dma := [] |}]) = (Ok tt, w') /\
    slot_trb AddressDeviceCommand 0x61000 1 cmd /\ w_ctx w' !! 0x61000 = Some ctx /\
    address_request 1 SuperSpeed 512 0x62000 ctx) /\
  exists w', @address_device unit fast_bus example_regs 9 1
      (example_world [{| r_event := command_event 1; r_dma := [] |}]) = (Err "PORTSC was invalid", w').
Proof.
  destruct (PortSc_get (portsc example_regs) 1) as [ptr|] eqn:Hptr; [|vm_compute in Hptr; discriminate].
  assert (forall port, _) as T by (intros port; exact (@address_device_correct unit fast_bus example_regs
    (example_world [{| r_event := command_event 1; r_dma := [] |}])
    port 1 0x4000 0x40000 0x60000 0x61000 0x62000 [] [] {| r_event := command_event 1; r_dma := [] |} []
    (ring_at_ok 0x40000 ltac:(lia)) eq_refl ltac:(lia) ltac:(simpl; lia)
    eq_refl ltac:(split; lia) ltac:(split; [|split]; (lia || reflexivity)) eq_refl)). split.
  - destruct (proj1 (T 1) ptr SuperSpeed 512 ltac:(lia) Hptr ltac:(intros []; exists tt; reflexivity) eq_refl)
      as (w' & cmd & ctx & H1 & _ & _ & H2 & H3 & H4 & _).
    exists w', cmd, ctx. split; [exact H1|]. split; [exact H2|]. split; [exact H3|exact H4].
  - destruct (proj1 (proj2 (proj2 (T 9))) ltac:(lia) ltac:(vm_compute; reflexivity)) as (w' & H & _).
    exists w'. exact H.
Defined.

(** ** A port's slot *)

Lemma enable_slot_command : exists t, cmd_enable_slot = Ok t /\ cmd_ok t /\ ty t = TrbType_repr EnableSlotCommand.
Proof. eexists. split; [vm_compute; reflexivity|]. by split; [split; [split; vm_compute; done|]|]. Qed.

Lemma is_enabled_ok {D} `{BusTrace D} ptr (d : D) : exists on d', is_enabled ptr d = (Ok on, d') /\ bus_trace d' = bus_trace d.
Proof.
  unfold is_enabled, portsc_pp, portsc_ccs, portsc_ped, portsc_pr.
  rewrite (bind_ok _ _ _ _ _ (portsc_bit_eq ptr 9 d ltac:(lia))). destruct (Z.testbit _ 9); cbn [negb]; [|eexists _, _; split; [reflexivity|apply trace_read] ].
  rewrite (bind_ok _ _ _ _ _ (portsc_bit_eq ptr 0 _ ltac:(lia))). destruct (Z.testbit _ 0); cbn [negb];
    [|eexists _, _; split; [reflexivity|by rewrite !trace_read] ].
  rewrite (bind_ok _ _ _ _ _ (portsc_bit_eq ptr 1 _ ltac:(lia))). destruct (Z.testbit _ 1); cbn [negb];
    [|eexists _, _; split; [reflexivity|by rewrite !trace_read] ].
  rewrite (bind_ok _ _ _ _ _ (portsc_bit_eq ptr 4 _ ltac:(lia))). eexists _, _. split; [reflexivity|by rewrite !trace_read].
Qed.

(** C24. Bringing up a port that powers up when told to and ends its resets.  [init_port] ends:
    it writes PORTSC exactly twice, first to assert port power and then to assert port reset,
    each time leaving the change flags unacknowledged, the port enabled and the preserved
    bits as read.  If the port is not enabled after that, it says so and sends no command.
    If it is, one Enable Slot command goes out, with its doorbell, and the result is the slot
    number in the event that answers it, whatever completion code that event has. *)
Theorem init_port_correct {D} `{BusTrace D} (xhc : XhcRegisters) (w : World D) (port ptr db addr : Z) `{!PortHardware D ptr}
  (sent : list GenericTrbEntry) (resp : Response) (rest : list Response)
  (Hring : ring_ok addr sent (w_rings w RCommand)) (Hdb : doorbell_regs xhc !! 0%nat = Some db)
  (Hptr : PortSc_get (portsc xhc) port = Some ptr) (Hscript : w_script w = resp :: rest) :
  exists fuel0 d old0 v0 old1 v1 on d1, let w1 := with_bus d1 w in
    bus_trace d1 = bus_trace (w_bus w) ++ [(ptr, v0); (ptr, v1)] /\ asserts 9 old0 v0 /\ asserts 4 old1 v1 /\
    bus_trace d = bus_trace d1 /\ is_enabled ptr d = (Ok on, d1) /\
    if (on : bool) then exists w' cmd, ty cmd = TrbType_repr EnableSlotCommand /\
      advanced RCommand addr sent [cmd] [Push RCommand cmd; Doorbell 0 0; Await (next_slot addr sent)] w1 w' /\
      forall fuel, (fuel0 <= fuel)%nat ->
        init_port xhc fuel port w = (Ok (get_field (t_control (r_event resp)) 24 8), w')
    else forall fuel, (fuel0 <= fuel)%nat -> init_port xhc fuel port w = (Err "Port is not enabled", w1).
Proof.
  destruct (reset_port_completes ptr (w_bus w)) as (fuel0 & d & old0 & v0 & old1 & v1 & Hreset & Htr & A0 & A1).
  destruct (is_enabled_ok ptr d) as (on & d1 & Eon & Ton).
  destruct enable_slot_command as (cmd & Ecmd & Hcmd & Hty).
  assert (forall fuel, (fuel0 <= fuel)%nat -> init_port xhc fuel port w =
    (if negb on then throw "Port is not enabled" else
     cmd ← lift cmd_enable_slot; t ← send_command xhc cmd; lift (slot_id t)) (with_bus d1 w)) as Hrun.
  { intros fuel Hf. unfold init_port. rewrite Hptr. mstep.
    rewrite (bind_ok _ _ w tt (with_bus d w)) by (apply on_regs_ok; unfold await_reset_port; by rewrite Hreset).
    by rewrite (bind_ok _ _ (with_bus d w) on (with_bus d1 w)) by (apply (on_regs_ok (is_enabled ptr) on d1 (with_bus d w)); exact Eon). }
  exists fuel0, d, old0, v0, old1, v1, on, d1. cbv zeta. split; [by rewrite Ton|]. split; [exact A0|]. split; [exact A1|].
  split; [by rewrite Ton|]. split; [exact Eon|]. destruct on; cbn [negb] in Hrun; [|exact Hrun].
  destruct (send_command_ok xhc cmd db addr sent resp rest (with_bus d1 w) Hring Hcmd Hdb Hscript) as (w' & E & Ha).
  exists w', cmd. split; [exact Hty|]. split; [exact Ha|]. intros fuel Hf. rewrite (Hrun fuel Hf), Ecmd. mstep.
  rewrite (bind_ok _ _ _ _ _ E). unfold slot_id, bits_of. rewrite read_bits_eq by lia. cbn [fst mbind outcome_bind].
  by rewrite (proj2 (Z.ltb_lt _ _)) by (apply get_field_width; lia).
Qed.

(** A connected device behind a port that is enabled when its reset ends. *)
Record ReadyPort : Type := { rp_port : SlowPort }.
#[export] Instance ReadyPort_MmioBus : MmioBus ReadyPort := {
  mmio_read a d := (Z.lor (mmio_read a (rp_port d)).1 3, {| rp_port := (mmio_read a (rp_port d)).2 |});
  mmio_write a v d := {| rp_port := mmio_write a v (rp_port d) |};
}.
#[export] Instance ReadyPort_BusTrace : BusTrace ReadyPort.
Proof. refine {| bus_trace := fun d => bus_trace (rp_port d) |}; done. Defined.
#[export] Instance ReadyPort_PortHardware ptr : PortHardware ReadyPort ptr.
Proof.
  assert (forall n (f : Z -> bool) (d : ReadyPort), (forall v, f (Z.lor v 3) = f v) ->
    f (nth_read n ptr (rp_port d)).1 = f (nth_read n ptr d).1) as Hread.
  { intros n f d Hf. revert d. induction n as [|n IH]; intros d; [symmetry; apply Hf|exact (IH {| rp_port := (mmio_read ptr (rp_port d)).2 |})]. }
  split; intros d tr v Hd Hv.
  - destruct (hw_power (PortHardware := SlowPort_PortHardware ptr) (rp_port d) tr v Hd Hv) as [n Hn]. exists n.
    rewrite <- (Hread n (fun s => Z.testbit s 9)); [exact Hn|]. intros x. rewrite Z.lor_spec. apply orb_false_r.
  - destruct (hw_reset (PortHardware := SlowPort_PortHardware ptr) (rp_port d) tr v Hd Hv) as [n Hn]. exists n.
    rewrite <- (Hread n (fun s => negb (Z.testbit s 4))); [exact Hn|]. intros x. rewrite Z.lor_spec. f_equal. apply orb_false_r.
Qed.

Definition ready_world (w : World unit) : World ReadyPort := {|
  w_bus := {| rp_port := {| sp_log := []; sp_reads := 0 |} |}; w_rings := w_rings w; w_dcbaa := w_dcbaa w;
  w_bufs := w_bufs w; w_mem := w_mem w; w_ctx := w_ctx w; w_script := w_script w; w_log := w_log w |}.
Definition slot_event (slot code : Z) : GenericTrbEntry :=
  {| t_data := 0; t_option := Z.shiftl code 24; t_control := Z.shiftl slot 24 + 33 * 1024 |}.

(** A completion that says there are no slots (code 9, slot 0) is taken for slot 0. *)
Lemma init_port_correct_witness : exists fuel w',
  init_port example_regs fuel 1 (ready_world (example_world [{| r_event := slot_event 0 9; r_dma := [] |}])) = (Ok 0, w').
Proof.
  destruct (PortSc_get (portsc example_regs) 1) as [ptr|] eqn:Hptr; [|vm_compute in Hptr; discriminate].
  set (w := ready_world _).
  destruct (init_port_correct example_regs w 1 ptr 0x4000 0x40000 [] _ [] (ring_at_ok 0x40000 ltac:(lia)) eq_refl Hptr eq_refl)
    as (fuel0 & d & old0 & v0 & old1 & v1 & on & d1 & _ & _ & _ & _ & _ & T).
  assert (is_ok (init_port example_regs (10 + fuel0) 1 w).1 = true) as E by (vm_compute; reflexivity).
  exists (10 + fuel0)%nat. destruct on.
  - destruct T as (w' & cmd & _ & _ & T). exists w'. apply (T (10 + fuel0)%nat). lia.
  - rewrite (T (10 + fuel0)%nat ltac:(lia)) in E. discriminate E.
Defined.

(** Slot 0 then makes [address_device] panic. *)
Lemma address_device_slot_zero {D} {MB : MmioBus D} (xhc : XhcRegisters) (w : World D) port out bufs :
  w_bufs w = out :: bufs -> exists e w', address_device xhc port 0 w = (Panic e, w').
Proof.
  intros Hb. unfold address_device. rewrite (bind_ok _ _ _ _ _ (box_address_ok out bufs w Hb)). by eexists _, _.
Qed.

(** ** Mass storage *)

Section mass_storage.
Context {D : Type} {MB : MmioBus D} (xhc : XhcRegisters).

(** A control transfer without a data stage. *)
Lemma no_data_transfer (s : GenericTrbEntry) slot db addr sent r rest (w : World D) :
  ring_ok addr sent (w_rings w RControl) -> cmd_ok s -> doorbell_regs xhc !! Z.to_nat slot = Some db ->
  w_script w = r :: rest ->
  exists w', (_ ← ring_push RControl s; p ← ring_push RControl StatusStageTrb_new_in;
      ring_doorbell xhc slot 1;; await_transfer p) w = (transfer_result_ok (r_event r), w') /\
    advanced RControl addr sent [s; StatusStageTrb_new_in]
      [Push RControl s; Push RControl StatusStageTrb_new_in; Doorbell slot 1; Await (next_slot addr (sent ++ [s]))] w w'.
Proof using.
  intros Hr Hs Hdb Hscript.
  assert (cmd_ok StatusStageTrb_new_in) as Hst by (split; [split; vm_compute; done|vm_compute; discriminate]).
  destruct (ring_push_ok RControl s addr sent w Hr Hs) as (c1 & Hc1 & E1). set (w1 := with_log _ _) in E1.
  destruct (ring_push_ok RControl StatusStageTrb_new_in addr (sent ++ [s]) w1 Hc1 Hst) as (c2 & Hc2 & E2).
  set (w2 := with_log _ _) in E2. destruct (ring_doorbell_ok xhc slot 1 db w2 Hdb ltac:(lia)) as (d' & E3).
  eexists. split.
  - rewrite (bind_ok _ _ _ _ _ E1), (bind_ok _ _ _ _ _ E2), (bind_ok _ _ _ _ _ E3). by apply (await_transfer_eq _ r rest).
  - rewrite <- app_assoc in Hc2. constructor; try done.
    + intros r' Hne. cbn. by rewrite !decide_False.
    + cbn. by rewrite <- !app_assoc.
    + cbn. by rewrite Hscript.
Qed.

(** [configure_bulk_endpoint]: the command, its input context, and the endpoint's new ring. *)
Lemma configure_bulk_ok (r : RingId) slot ep dci db addr sent ring inp l resp rest (w : World D) :
  let t := if Z.testbit (endpoint_address ep) 7 then BulkIn else BulkOut in
  r <> RCommand -> ring_ok addr sent (w_rings w RCommand) -> doorbell_regs xhc !! 0%nat = Some db ->
  0 < slot < 256 -> 1 <= dci <= 31 -> in_width 16 (ed_max_packet_size ep) -> in_width 64 inp ->
  ring_address ring -> w_bufs w = ring :: inp :: l -> w_script w = resp :: rest ->
  let result := cmd_result_ok (r_event resp) in
  exists cmd ctx rc w1, slot_trb ConfigureEndpointCommand inp slot cmd /\
    bulk_request t (ed_max_packet_size ep) dci (next_slot ring []) ctx /\ ring_ok ring [] rc /\
    advanced RCommand addr sent [cmd] [Push RCommand cmd; Doorbell 0 0; Await (next_slot addr sent)]
      (with_ctx (<[inp := ctx]> (w_ctx w)) (with_bufs l w)) w1 /\
    configure_bulk_endpoint xhc r slot ep dci w = (result, if is_ok result then UsbIo.with_ring r rc w1 else w1).
Proof using.
  intros t Hne Hr Hdb Hslot Hdci Hsz Hinp (H0 & H1 & H2) Hbufs Hscript result.
  destruct (ring_default_ok ring ltac:(lia)) as (rc & Erc & Hrc & Hphys).
  destruct (proj1 (bulk_endpoint_context_correct (endpoint_address ep) (ed_max_packet_size ep) dci ring Hsz
    ltac:(split; lia) ltac:(lia)) Hdci) as (ctx & e & Ectx & Hb1 & Hb2 & Hb3 & Hb4 & Hb5). fold t in Hb5.
  destruct (slot_trb_build ConfigureEndpointCommand inp slot Hinp ltac:(split; lia) ltac:(done))
    as (cmd & Ecmd & Hcmd & Hok).
  set (w0 := with_ctx (<[inp := ctx]> (w_ctx w)) (with_bufs l w)).
  destruct (command_installs xhc r rc cmd db addr sent resp rest w0 Hne Hr Hok Hdb Hscript) as (w1 & Ha & E).
  exists cmd, ctx, rc, w1. rewrite next_slot_nil. split_and!; [done| |done|done|].
  - constructor; [done..|]. exists e. rewrite Hb5. split_and!; try done. cbn [v_deque bulk_view]. div_lia.
  - fold result in E. rewrite <- E. unfold configure_bulk_endpoint.
    rewrite (bind_ok _ _ _ _ _ (box_address_ok ring _ w Hbufs)), Erc. mstep. rewrite Hphys, Ectx. mstep.
    erewrite bind_ok; [|by apply box_address_ok]. mstep. unfold cmd_configure_endpoint. rewrite Ecmd. mstep. done.
Qed.
End mass_storage.

(** What the controller observes of a control transfer without data, and of a command. *)
Definition no_data_log (addr slot : Z) (sent : list GenericTrbEntry) (s : GenericTrbEntry) : list Io :=
  [Push RControl s; Push RControl StatusStageTrb_new_in; Doorbell slot 1; Await (next_slot addr (sent ++ [s]))].
Definition command_log (addr : Z) (sent : list GenericTrbEntry) (cmd : GenericTrbEntry) : list Io :=
  [Push RCommand cmd; Doorbell 0 0; Await (next_slot addr sent)].

Lemma transfer_result_no_panic t : match transfer_result_ok t with Panic _ => False | _ => True end.
Proof.
  unfold transfer_result_ok, trb_type, completion_code. rewrite !bits_of_eq by lia. cbn [mbind outcome_bind].
  by destruct (negb _); [|destruct (negb _ && negb _)].
Qed.

Lemma ignore_err_transfer {S} (m : M S unit) t s s' : m s = (transfer_result_ok t, s') -> ignore_err m s = (Ok tt, s').
Proof.
  intros E. pose proof (transfer_result_no_panic t) as Hp. unfold ignore_err. rewrite E.
  by destruct (transfer_result_ok t) as [[]|e|e].
Qed.

(** The rings and structures a mass-storage device is left with. *)
Record storage_ready {D} (slot ro ri xo xi in_dci out_dci : Z) (bi bo : EndpointDescriptor)
    (c1 c2 : GenericTrbEntry) (w : World D) : Prop := {
  sr_out : ring_ok ro [] (w_rings w ROut);
  sr_in : ring_ok ri [] (w_rings w RIn);
  sr_out_cmd : slot_trb ConfigureEndpointCommand xo slot c1;
  sr_in_cmd : slot_trb ConfigureEndpointCommand xi slot c2;
  sr_out_ctx : exists ctx, w_ctx w !! xo = Some ctx /\
    bulk_request BulkOut (ed_max_packet_size bo) out_dci (next_slot ro []) ctx;
  sr_in_ctx : exists ctx, w_ctx w !! xi = Some ctx /\
    bulk_request BulkIn (ed_max_packet_size bi) in_dci (next_slot ri []) ctx;
}.

(** The Bulk-Only reset, and CLEAR_FEATURE(ENDPOINT_HALT) for an endpoint. *)
Definition reset_packet : GenericTrbEntry :=
  setup (Z.lor (Z.lor REQ_TYPE_DIR_HOST_TO_DEVICE REQ_TYPE_TYPE_CLASS) REQ_TYPE_TO_INTERFACE) 0xFF 0 0 0.
Definition halt_packet (ep : EndpointDescriptor) : GenericTrbEntry :=
  setup (Z.lor REQ_TYPE_DIR_HOST_TO_DEVICE REQ_TYPE_TO_ENDPOINT) REQ_CLEAR_FEATURE FEATURE_ENDPOINT_HALT
    (endpoint_address ep) 0.

(** The control transfers around the two commands, each behind the ones before it. *)
Lemma logs_assoc l ak slot sk s1 s2 s3 s4 st lc :
  ((((l ++ no_data_log ak slot sk s1) ++ no_data_log ak slot (sk ++ [s1; st]) s2) ++ lc) ++
     no_data_log ak slot ((sk ++ [s1; st]) ++ [s2; st]) s3) ++
     no_data_log ak slot (((sk ++ [s1; st]) ++ [s2; st]) ++ [s3; st]) s4 =
  l ++ no_data_log ak slot sk s1 ++ no_data_log ak slot (sk ++ [s1; st]) s2 ++ lc ++
    no_data_log ak slot (sk ++ [s1; st; s2; st]) s3 ++ no_data_log ak slot (sk ++ [s1; st; s2; st; s3; st]) s4.
Proof. by rewrite <- !app_assoc. Qed.

Definition packet (s : GenericTrbEntry) : list Z := le_encode 8 (t_data s).

Lemma packet_setup rt rq v i : in_width 8 rt -> in_width 8 rq -> in_width 8 v -> in_width 8 i ->
  packet (setup rt rq v i 0) = [rt; rq; v; 0; i; 0; 0; 0].
Proof.
  intros Hrt Hrq Hv Hi. assert (forall x, in_width 8 x -> in_width 16 x /\ le_encode 2 x = [x; 0]) as H.
  { intros x [H0 H1]. split; [split; lia|]. unfold le_encode. by rewrite Z.mod_small, Z.div_small by lia. }
  unfold packet. rewrite setup_packet by (done || (split; lia) || by apply H).
  by rewrite (proj2 (H v Hv)), (proj2 (H i Hi)).
Qed.

Lemma packet_reset : packet reset_packet = [0x21; 0xFF; 0; 0; 0; 0; 0; 0].
Proof. vm_compute. reflexivity. Qed.

Lemma packet_halt ep : in_width 8 (endpoint_address ep) ->
  packet (halt_packet ep) = [0x02; 1; 0; 0; endpoint_address ep; 0; 0; 0].
Proof. intros He. unfold halt_packet. rewrite packet_setup; [reflexivity|split; vm_compute; done..|exact He]. Qed.

Lemma storage_ready_control {D} slot ro ri xo xi id od bi bo c1 c2 addr sent new log (w w' : World D) :
  advanced RControl addr sent new log w w' -> storage_ready slot ro ri xo xi id od bi bo c1 c2 w ->
  storage_ready slot ro ri xo xi id od bi bo c1 c2 w'.
Proof.
  intros [_ Ho _ _ _ Hx _] [H1 H2 H3 H4 H5 H6]. constructor; rewrite ?Ho, ?Hx by done; done.
Qed.

Section handle.
Context {D : Type} {MB : MmioBus D} (xhc : XhcRegisters).

(** Both endpoints are configured, OUT first. *)
Lemma configure_both_ok (w : World D) slot db ac sc ro xo ri xi (bi bo : EndpointDescriptor) bufs r3 r4 rest id od :
  Z.testbit (endpoint_address bi) 7 = true -> Z.testbit (endpoint_address bo) 7 = false ->
  1 <= od <= 31 -> 1 <= id <= 31 ->
  in_width 16 (ed_max_packet_size bi) -> in_width 16 (ed_max_packet_size bo) -> 0 < slot < 256 ->
  ring_ok ac sc (w_rings w RCommand) -> doorbell_regs xhc !! 0%nat = Some db ->
  ring_address ro -> ring_address ri -> in_width 64 xo -> in_width 64 xi -> xo <> xi ->
  w_bufs w = ro :: xo :: ri :: xi :: bufs -> w_script w = r3 :: r4 :: rest ->
  cmd_result_ok (r_event r3) = Ok tt -> cmd_result_ok (r_event r4) = Ok tt ->
  exists c1 c2 w1 w2, configure_bulk_endpoint xhc ROut slot bo od w = (Ok tt, w1) /\
    configure_bulk_endpoint xhc RIn slot bi id w1 = (Ok tt, w2) /\
    storage_ready slot ro ri xo xi id od bi bo c1 c2 w2 /\
    w_rings w2 RControl = w_rings w RControl /\
    w_log w2 = w_log w ++ command_log ac sc c1 ++ command_log ac (sc ++ [c1]) c2 /\
    w_bufs w2 = bufs /\ w_script w2 = rest.
Proof using.
  intros Hdi Hdo Hod Hid Hsi Hso Hslot Hc Hdb Hro Hri Hxo Hxi Hx Hbufs Hscript H3 H4.
  destruct (configure_bulk_ok xhc ROut slot bo od db ac sc ro xo _ r3 _ w ltac:(done) Hc Hdb Hslot
    Hod Hso Hxo Hro Hbufs Hscript) as (c1 & ctx1 & rc1 & w1 & T1 & Q1 & R1 & [C1 O1 L1 B1 S1 X1 _] & E1).
  rewrite H3 in E1. cbn [is_ok] in E1. cbn in S1, B1, X1, L1. rewrite Hscript in S1. cbn [tail] in S1.
  destruct (configure_bulk_ok xhc RIn slot bi id db ac _ ri xi _ r4 _ (UsbIo.with_ring ROut rc1 w1) ltac:(done) C1 Hdb
    Hslot Hid Hsi Hxi Hri B1 S1) as (c2 & ctx2 & rc2 & w2 & T2 & Q2 & R2 & [C2 O2 L2 B2 S2 X2 _] & E2).
  rewrite H4 in E2. cbn [is_ok] in E2. cbn in S2, B2, X2, L2. rewrite S1 in S2. cbn [tail] in S2. rewrite X1 in X2.
  exists c1, c2, (UsbIo.with_ring ROut rc1 w1), (UsbIo.with_ring RIn rc2 w2).
  rewrite Hdo in Q1. rewrite Hdi in Q2. split; [exact E1|]. split; [exact E2|]. split; [|split; [|split; [|split] ] ].
  - constructor; [| |exact T1|exact T2| |]; cbn.
    + by rewrite O2.
    + exact R2.
    + exists ctx1. split; [|exact Q1]. by rewrite X2, lookup_insert_ne, lookup_insert_eq.
    + exists ctx2. split; [|exact Q2]. by rewrite X2, lookup_insert_eq.
  - cbn. rewrite (O2 RControl) by done. cbn. by apply (O1 RControl).
  - cbn. rewrite L2, L1. unfold command_log. by rewrite <- app_assoc.
  - exact B2.
  - exact S2.
Qed.

(** C26. A mass-storage device with a configuration, an interface and a bulk endpoint in each
    direction, the OUT one not numbered zero, whose first two control transfers and two
    commands complete well: the controller is given, in this order and each after the
    answer to the one before, SET_CONFIGURATION with the configuration's value, the
    Bulk-Only reset, Configure Endpoint for the OUT and then the IN endpoint, and
    CLEAR_FEATURE(ENDPOINT_HALT) for IN and OUT, whose results do not matter; the input
    contexts describe the two endpoints with the first TRBs of two fresh rings, and what
    follows is a READ(10) of sector 0 over exactly those rings, whose result is the result
    of the whole, its data dropped.  When the first transfer is refused its error is
    returned and nothing more is sent. *)
Theorem mass_storage_sequence (w : World D) (slot db0 db ac ak ro xo ri xi : Z) (sc sk : list GenericTrbEntry)
  (ds : list UsbDescriptor) c i bi bo (bufs : list Z) (r1 r2 r3 r4 r5 r6 : Response) (rest : list Response)
  (Hfind : find_bulk ds = Ok (c, i, bi, bo)) (Hep : get_field (endpoint_address bo) 0 4 <> 0)
  (Hcfg : in_width 8 (config_value c)) (Hai : in_width 8 (endpoint_address bi)) (Hao : in_width 8 (endpoint_address bo))
  (Hsi : in_width 16 (ed_max_packet_size bi)) (Hso : in_width 16 (ed_max_packet_size bo)) (Hslot : 0 < slot < 256)
  (Hc : ring_ok ac sc (w_rings w RCommand)) (Hk : ring_ok ak sk (w_rings w RControl))
  (Hdb0 : doorbell_regs xhc !! 0%nat = Some db0) (Hdb : doorbell_regs xhc !! Z.to_nat slot = Some db)
  (Hro : ring_address ro) (Hri : ring_address ri) (Hxo : in_width 64 xo) (Hxi : in_width 64 xi) (Hx : xo <> xi)
  (Hbufs : w_bufs w = ro :: xo :: ri :: xi :: bufs)
  (Hscript : w_script w = r1 :: r2 :: r3 :: r4 :: r5 :: r6 :: rest) :
  let in_dci := 2 * get_field (endpoint_address bi) 0 4 + 1 in
  let out_dci := 2 * get_field (endpoint_address bo) 0 4 in
  exists s1, packet s1 = [0; 9; config_value c; 0; 0; 0; 0; 0] /\
  (transfer_result_ok (r_event r1) = Ok tt -> transfer_result_ok (r_event r2) = Ok tt ->
   cmd_result_ok (r_event r3) = Ok tt -> cmd_result_ok (r_event r4) = Ok tt ->
   exists w' c1 c2 s2 s3 s4, let st := StatusStageTrb_new_in in
     handle_mass_storage_device xhc slot ds w =
       (_ ← scsi_read_10 xhc slot in_dci out_dci 0 1; mret tt) w' /\
     storage_ready slot ro ri xo xi in_dci out_dci bi bo c1 c2 w' /\
     w_log w' = w_log w ++ no_data_log ak slot sk s1 ++ no_data_log ak slot (sk ++ [s1; st]) s2 ++
       (command_log ac sc c1 ++ command_log ac (sc ++ [c1]) c2) ++
       no_data_log ak slot (sk ++ [s1; st; s2; st]) s3 ++ no_data_log ak slot (sk ++ [s1; st; s2; st; s3; st]) s4 /\
     packet s2 = [0x21; 0xFF; 0; 0; 0; 0; 0; 0] /\
     packet s3 = [0x02; 1; 0; 0; endpoint_address bi; 0; 0; 0] /\
     packet s4 = [0x02; 1; 0; 0; endpoint_address bo; 0; 0; 0] /\
     w_bufs w' = bufs /\ w_script w' = rest) /\
  (forall msg, transfer_result_ok (r_event r1) = Err msg ->
   exists w', handle_mass_storage_device xhc slot ds w = (Err msg, w') /\
     w_log w' = w_log w ++ no_data_log ak slot sk s1).
Proof using.
  intros in_dci out_dci. destruct (find_bulk_endpoints ds c i bi bo Hfind) as (Hdi & Hdo & Edi & Edo).
  assert (1 <= out_dci <= 31 /\ 1 <= in_dci <= 31) as [Hod Hid]
    by (destruct (dci_number bo) as [? _], (dci_number bi) as [? _]; unfold out_dci, in_dci; lia).
  set (s1 := setup 0 REQ_SET_CONFIGURATION (config_value c) 0 0).
  destruct (no_data_transfer xhc s1 slot db ak sk r1 _ w Hk (setup_ok _ _ _ _ _) Hdb Hscript) as (w1 & E1 & A1).
  change (request_set_config xhc slot (config_value c) w = (transfer_result_ok (r_event r1), w1)) in E1.
  exists s1. split; [|split].
  - by apply packet_setup.
  - intros H1 H2 H3 H4. rewrite H1 in E1. pose proof A1 as [K1 O1 L1 B1 S1 _ _].
    rewrite Hscript in S1. rewrite Hbufs in B1. cbn [tail] in S1.
    destruct (no_data_transfer xhc reset_packet slot db ak _ r2 _ w1 K1 (setup_ok _ _ _ _ _) Hdb S1) as (w2 & E2 & A2).
    change (bulk_only_mass_storage_reset xhc slot w1 = (transfer_result_ok (r_event r2), w2)) in E2.
    rewrite H2 in E2. pose proof A2 as [K2 O2 L2 B2 S2 _ _]. rewrite S1 in S2. rewrite B1 in B2.
    assert (ring_ok ac sc (w_rings w2 RCommand)) as C2 by (by rewrite O2, O1).
    destruct (configure_both_ok w2 slot db0 ac sc ro xo ri xi bi bo bufs r3 r4 _ in_dci out_dci Hdi Hdo Hod Hid Hsi Hso
      Hslot C2 Hdb0 Hro Hri Hxo Hxi Hx B2 S2 H3 H4) as (c1 & c2 & w3 & w4 & E3 & E4 & Hready & K4 & L4 & B4 & S4).
    rewrite <- K4 in K2.
    destruct (no_data_transfer xhc (halt_packet bi) slot db ak _ r5 _ w4 K2 (setup_ok _ _ _ _ _) Hdb S4) as (w5 & E5 & A5).
    change (clear_endpoint_halt xhc slot (endpoint_address bi) w4 = (transfer_result_ok (r_event r5), w5)) in E5.
    pose proof A5 as [K5 _ L5 B5 S5 _ _]. rewrite S4 in S5.
    destruct (no_data_transfer xhc (halt_packet bo) slot db ak _ r6 _ w5 K5 (setup_ok _ _ _ _ _) Hdb S5) as (w6 & E6 & A6).
    change (clear_endpoint_halt xhc slot (endpoint_address bo) w5 = (transfer_result_ok (r_event r6), w6)) in E6.
    pose proof A6 as [_ _ L6 B6 S6 _ _].
    exists w6, c1, c2, reset_packet, (halt_packet bi), (halt_packet bo). cbv zeta.
    split; [|split; [|split; [|split; [|split; [|split; [|split] ] ] ] ] ].
    + unfold handle_mass_storage_device. rewrite Hfind. mstep. cbv beta iota.
      rewrite (bind_ok _ _ _ _ _ E1), (bind_ok _ _ _ _ _ E2), Edo. mstep. rewrite Edi. mstep.
      rewrite (bind_ok _ _ _ _ _ E3), (bind_ok _ _ _ _ _ E4).
      by rewrite (bind_ok _ _ _ _ _ (ignore_err_transfer _ _ _ _ E5)), (bind_ok _ _ _ _ _ (ignore_err_transfer _ _ _ _ E6)).
    + by eapply storage_ready_control, storage_ready_control.
    + rewrite L6, L5, L4, L2, L1. apply logs_assoc.
    + apply packet_reset.
    + by apply packet_halt.
    + by apply packet_halt.
    + by rewrite B6, B5.
    + by rewrite S6, S5.
  - intros msg Hmsg. rewrite Hmsg in E1. exists w1. split; [|by destruct A1].
    unfold handle_mass_storage_device. rewrite Hfind. mstep. cbv beta iota. erewrite bind_err; [reflexivity|exact E1].
Qed.
End handle.

(** A device that answers every request well and refuses to clear a halt. *)
Definition storage_world : World unit :=
  with_bufs [0x60000; 0x61000; 0x62000; 0x63000]
    (example_world ((fun t => {| r_event := t; r_dma := [] |}) <$>
      [good_event; good_event; command_event 1; command_event 1; trb_default; trb_default])).

Lemma example_found : find_bulk (fst <$> example_stream) =
  Ok (example_config, example_interface, example_endpoint 0x81, example_endpoint 2).
Proof. vm_compute. reflexivity. Qed.

Lemma byte_width x : (0 <=? x) && (x <? 256) = true -> in_width 8 x.
Proof. intros H. split; lia. Qed.

Lemma mass_storage_sequence_witness :
  exists w', handle_mass_storage_device example_regs 1 (fst <$> example_stream) storage_world =
      (_ ← scsi_read_10 example_regs 1 3 4 0 1; mret tt) w' /\
    length (w_log w') = 22%nat /\ w_bufs w' = [].
Proof.
  destruct (mass_storage_sequence example_regs storage_world 1 0x4000 0x4004 0x40000 0x30000 0x60000 0x61000 0x62000
    0x63000 [] [] (fst <$> example_stream) example_config example_interface (example_endpoint 0x81) (example_endpoint 2) []
    {| r_event := good_event; r_dma := [] |} {| r_event := good_event; r_dma := [] |}
    {| r_event := command_event 1; r_dma := [] |} {| r_event := command_event 1; r_dma := [] |}
    {| r_event := trb_default; r_dma := [] |} {| r_event := trb_default; r_dma := [] |} []
    example_found ltac:(discriminate) (byte_width 1 eq_refl) (byte_width 0x81 eq_refl)
    (byte_width 2 eq_refl) ltac:(split; simpl; lia) ltac:(split; simpl; lia) ltac:(lia) (ring_at_ok 0x40000 ltac:(lia)) (ring_at_ok 0x30000 ltac:(lia))
    eq_refl eq_refl ltac:(split; [|split]; (lia || reflexivity)) ltac:(split; [|split]; (lia || reflexivity))
    ltac:(split; lia) ltac:(split; lia) ltac:(lia) eq_refl eq_refl)
    as (s1 & _ & H & _).
  destruct (H eq_refl eq_refl eq_refl eq_refl) as (w' & c1 & c2 & s2 & s3 & s4 & H1 & _ & H2 & _ & _ & _ & H3 & _).
  exists w'. split; [exact H1|]. split; [by rewrite H2|exact H3].
Defined.

(** ** Reading the configuration *)

(** What [request_descriptor] shows of one GET_DESCRIPTOR of a configuration: its three stages, the
    doorbell, and the wait for the data stage. *)
Definition get_config_log (addr slot : Z) (sent : list GenericTrbEntry) (s : GenericTrbEntry) (buf len : Z) : list Io :=
  [Push RControl s; Push RControl (DataStageTrb_new_in buf len); Push RControl StatusStageTrb_new_out;
   Doorbell slot 1; Await (next_slot addr (sent ++ [s]))].

(** The first nine bytes of a configuration. *)
Lemma config_header c pad xs : well_formed (DConfig c, pad) ->
  ConfigDescriptor_of (take 9 (stream ((DConfig c, pad) :: xs))) = c.
Proof.
  intros [_ [_ Hw]]. destruct c as [l t n ni cv si a m]. cbn [fst total_length] in Hw.
  change (stream _) with (encode (DConfig {| cd_length := l; cd_type := t; total_length := n; num_of_interfaces := ni;
    config_value := cv; config_string_index := si; cd_attributes := a; max_power := m |}) pad ++ stream xs).
  unfold encode. cbn [total_length]. destruct (le_encode_two _ Hw) as (x0 & x1 & -> & <-). reflexivity.
Qed.

Lemma transfer_result_total t e : transfer_result_ok t <> Panic e.
Proof.
  unfold transfer_result_ok, trb_type, completion_code, bits_of. rewrite !read_bits_eq by lia. cbn [fst mbind outcome_bind].
  destruct (negb _); [done|]. by destruct (_ && _).
Qed.

Section configuration.
Context {D : Type} {MB : MmioBus D} (xhc : XhcRegisters).

(** One request into a new buffer: what the driver then reads there. *)
Lemma get_config_ok slot db addr sent b l (zeros : list Z) len r rest (w : World D) :
  ring_ok addr sent (w_rings w RControl) -> doorbell_regs xhc !! Z.to_nat slot = Some db ->
  0 < len < 2 ^ 16 -> w_bufs w = b :: l -> w_script w = r :: rest ->
  exists w' s, let d := DataStageTrb_new_in b len in
    packet s = [0x80; 6; 0; 2; 0; 0] ++ le_encode 2 len /\
    ring_ok addr (sent ++ [s; d; StatusStageTrb_new_out]) (w_rings w' RControl) /\
    w_log w' = w_log w ++ get_config_log addr slot sent s b len /\ w_bufs w' = l /\ w_script w' = rest /\
    w_mem w' = apply_dma r (<[b := zeros]> (w_mem w)) /\
    forall A (k : Z -> M (World D) A), (buf ← box_bytes zeros; request_descriptor xhc slot TConfig 0 0 buf len;; k buf) w =
      match transfer_result_ok (r_event r) with Ok _ => k b w' | Err e => (Err e, w') | Panic p => (Panic p, w') end.
Proof using.
  intros Hr Hdb Hlen Hb Hs. set (w0 := with_mem (<[b := zeros]> (w_mem w)) (with_bufs l w)).
  destruct (request_descriptor_ok xhc w0 slot db TConfig 0 0 b len addr sent r rest Hr Hdb ltac:(split; lia) ltac:(split; lia) Hlen Hs)
    as (w' & s & E & [A1 _ A3 A4 A5 _ _] & Hm & Hp & _).
  exists w', s. cbv zeta. split; [exact Hp|]. split; [exact A1|]. split; [exact A3|]. split; [by rewrite A4|].
  split; [by rewrite A5; cbn; rewrite Hs|]. split; [exact Hm|]. intros A k.
  rewrite (bind_ok _ _ _ _ _ (box_bytes_ok zeros b l w Hb)). fold w0. unfold mbind, M_bind. rewrite E.
  by destruct (transfer_result_ok (r_event r)) as [[]|e|e].
Qed.

(** C30. Reading a device's configuration.  For any well-formed descriptors that begin with a
    configuration whose total length is theirs, and a device that sends the first nine bytes
    when it is asked for nine and all of them when it is asked for that length, the driver
    makes exactly these two requests over the control ring and returns exactly these
    descriptors, in order, padding skipped; a refused request is returned as the error, and
    nothing is sent after it. *)
Theorem config_descriptors_read (w : World D) (slot db addr : Z) (sent : list GenericTrbEntry) (b1 b2 : Z) (bufs : list Z)
  (c : ConfigDescriptor) (pad : list Z) (xs : list (UsbDescriptor * list Z)) (r1 r2 : Response) (rest : list Response) (fuel : nat)
  (bytes := stream ((DConfig c, pad) :: xs))
  (Hxs : Forall well_formed ((DConfig c, pad) :: xs)) (Htotal : total_length c = Z.of_nat (length bytes))
  (Hring : ring_ok addr sent (w_rings w RControl)) (Hdb : doorbell_regs xhc !! Z.to_nat slot = Some db)
  (Hbufs : w_bufs w = b1 :: b2 :: bufs) (Hscript : w_script w = r1 :: r2 :: rest)
  (H1 : r_dma r1 = [(b1, take 9 bytes)]) (H2 : r_dma r2 = [(b2, bytes)]) (Hfuel : (S (length xs) < fuel)%nat) :
  let run := request_config_descriptor_and_rest xhc fuel slot w in
  exists s1, packet s1 = [0x80; 6; 0; 2; 0; 0; 9; 0] /\
    let log1 := get_config_log addr slot sent s1 b1 9 in
    match transfer_result_ok (r_event r1) with
    | Ok _ => exists w' s2, let sent1 := sent ++ [s1; DataStageTrb_new_in b1 9; StatusStageTrb_new_out] in
        packet s2 = [0x80; 6; 0; 2; 0; 0] ++ le_encode 2 (total_length c) /\
        run = (r ← transfer_result_ok (r_event r2); Ok (DConfig c :: (fst <$> xs)), w') /\
        w_log w' = w_log w ++ log1 ++ get_config_log addr slot sent1 s2 b2 (total_length c) /\
        ring_ok addr (sent1 ++ [s2; DataStageTrb_new_in b2 (total_length c); StatusStageTrb_new_out]) (w_rings w' RControl) /\
        w_bufs w' = bufs /\ w_script w' = rest
    | Err e => exists w', run = (Err e, w') /\ w_log w' = w_log w ++ log1
    | Panic _ => False
    end.
Proof using.
  intros run. pose proof Hxs as [Hc _]%Forall_cons.
  assert (0 < total_length c < 2 ^ 16) as Hlen.
  { destruct Hc as [_ [_ Hw]]. unfold in_width in Hw. cbn [fst] in Hw. rewrite Htotal. rewrite Htotal in Hw.
    split; [|lia].
    change bytes with (encode (DConfig c) pad ++ stream xs). unfold encode. rewrite !length_app. cbn [length]. lia. }
  destruct (get_config_ok slot db addr sent b1 (b2 :: bufs) (replicate 9 0) 9 r1 (r2 :: rest) w Hring Hdb ltac:(lia) Hbufs Hscript)
    as (w1 & s1 & P1 & K1 & L1 & B1 & S1 & M1 & E1).
  exists s1. split; [exact P1|]. cbv zeta in *.
  assert (apply_dma r1 (<[b1 := replicate 9 0]> (w_mem w)) !! b1 = Some (take 9 bytes)) as Hm1.
  { unfold apply_dma. rewrite H1. cbn [foldl fst snd]. rewrite lookup_alter_eq, lookup_insert_eq. cbn [fmap option_fmap option_map].
    rewrite dma_write_all; [done|]. rewrite length_take, length_replicate. apply Nat.min_l.
    change bytes with (encode (DConfig c) pad ++ stream xs). unfold encode. rewrite !length_app, length_le_encode. cbn [length]. lia. }
  unfold run, request_config_descriptor_and_rest. rewrite E1.
  destruct (transfer_result_ok (r_event r1)) as [[]|e|e] eqn:Er1; [|by exists w1|].
  2:{ by destruct (transfer_result_total (r_event r1) e). }
  rewrite (bind_ok _ _ w1 (take 9 bytes) w1) by (unfold read_bytes; rewrite (bind_ok get _ _ _ _ eq_refl), M1, Hm1; reflexivity).
  pose proof (config_header c pad xs Hc) as Hh. fold bytes in Hh. cbv zeta. rewrite !Hh.
  destruct (get_config_ok slot db addr _ b2 bufs (replicate (Z.to_nat (total_length c)) 0) (total_length c) r2 rest w1 K1 Hdb Hlen B1 S1)
    as (w2 & s2 & P2 & K2 & L2 & B2 & S2 & M2 & E2). cbv zeta in *. rewrite E2.
  exists w2, s2. split; [exact P2|]. split.
  - destruct (transfer_result_ok (r_event r2)) as [[]|e|e]; [|done|done].
    rewrite (bind_ok _ _ w2 bytes w2).
    2:{ unfold read_bytes. rewrite (bind_ok get _ _ _ _ eq_refl), M2. unfold apply_dma at 1. rewrite H2. cbn [foldl fst snd].
        rewrite lookup_alter_eq, lookup_insert_eq. cbn [fmap option_fmap option_map default].
        rewrite dma_write_all; [done|]. rewrite length_replicate, Htotal. lia. }
    assert (length ((DConfig c, pad) :: xs) < fuel)%nat as Hf by (cbn [length]; lia).
    pose proof (collect_stream _ Hxs [] fuel Hf) as Hcol. cbn [app length] in Hcol. unfold bytes. by rewrite Hcol.
  - split; [by rewrite L2, L1, <- app_assoc|]. by split_and!.
Qed.
End configuration.

(** The descriptors of a mass-storage device, [example_stream] cut to its length. *)
Definition config_bytes : list Z := stream ((DConfig {| cd_length := 9; cd_type := 2; total_length := 38; num_of_interfaces := 1;
  config_value := 1; config_string_index := 0; cd_attributes := 0x80; max_power := 50 |}, []) :: tail example_stream).
Definition config_script : list Response :=
  [{| r_event := good_event; r_dma := [(0x60000, take 9 config_bytes)] |};
   {| r_event := good_event; r_dma := [(0x61000, config_bytes)] |}].

Lemma config_descriptors_read_witness : exists ds w',
  request_config_descriptor_and_rest example_regs 6 1 (example_world config_script) = (Ok ds, w') /\
  tail ds = fst <$> tail example_stream /\ length (w_log w') = 10%nat.
Proof.
  destruct (config_descriptors_read example_regs (example_world config_script) 1 0x4004 0x30000 [] 0x60000 0x61000 [0x62000]
    {| cd_length := 9; cd_type := 2; total_length := 38; num_of_interfaces := 1; config_value := 1; config_string_index := 0;
       cd_attributes := 0x80; max_power := 50 |} [] (tail example_stream)
    {| r_event := good_event; r_dma := [(0x60000, take 9 config_bytes)] |}
    {| r_event := good_event; r_dma := [(0x61000, config_bytes)] |} [] 6) as (s1 & _ & T).
  - repeat constructor; cbn; try lia; done.
  - reflexivity.
  - exact (ring_at_ok 0x30000 ltac:(lia)).
  - reflexivity.
  - reflexivity.
  - reflexivity.
  - reflexivity.
  - reflexivity.
  - cbn. lia.
  - destruct T as (w' & s2 & _ & E & L & _). eexists _, w'. split; [exact E|]. split; [reflexivity|]. by rewrite L.
Defined.
