(* ===== verification/Interrupt.v ===== *)
(** Interrupt entry and exit of [x86.rs]: the entry stubs, [inthandler_common] and
    [inthandler].

    The assembly of the stubs is data ([interrupt_entrypoint], [inthandler_common]) run by an
    interpreter for the handful of instructions it uses; [deliver] is what the processor does
    when it takes an exception through an interrupt gate with a stack of its own.  The Rust
    function they call is [inthandler]; its compiled code is behind the class [SysvCall],
    which is the calling convention the stubs rely on.  Memory is words of 8 bytes, which is
    how the stubs access it. *)
From S2P Require Import Prelude.

(** ** The structures the handler receives *)

Record GeneralRegisterContext : Type := {
  i_rax : Z; i_rdx : Z; i_rbx : Z; i_rbp : Z; i_rsi : Z; i_rdi : Z; i_r8 : Z; i_r9 : Z;
  i_r10 : Z; i_r11 : Z; i_r12 : Z; i_r13 : Z; i_r14 : Z; i_r15 : Z; i_rcx : Z }.
Record InterruptContext : Type := { i_rip : Z; i_cs : Z; i_rflags : Z; i_rsp : Z; i_ss : Z }.
Record InterruptInfo : Type := {
  fpu_context : list Z; _dummy : Z; greg : GeneralRegisterContext; error_code : Z;
  ctx : InterruptContext }.

(** [&*(addr as *const InterruptInfo)]: the fields at their [repr(C)] offsets, in words. *)
Definition GeneralRegisterContext_at (w : nat -> Z) : GeneralRegisterContext :=
  {| i_rax := w 0%nat; i_rdx := w 1%nat; i_rbx := w 2%nat; i_rbp := w 3%nat; i_rsi := w 4%nat;
     i_rdi := w 5%nat; i_r8 := w 6%nat; i_r9 := w 7%nat; i_r10 := w 8%nat; i_r11 := w 9%nat;
     i_r12 := w 10%nat; i_r13 := w 11%nat; i_r14 := w 12%nat; i_r15 := w 13%nat; i_rcx := w 14%nat |}.
Definition InterruptContext_at (w : nat -> Z) : InterruptContext :=
  {| i_rip := w 0%nat; i_cs := w 1%nat; i_rflags := w 2%nat; i_rsp := w 3%nat; i_ss := w 4%nat |}.
Definition InterruptInfo_at (w : nat -> Z) : InterruptInfo :=
  {| fpu_context := w <$> seq 0 64; _dummy := w 64%nat;
     greg := GeneralRegisterContext_at (fun i => w (65 + i)%nat);
     error_code := w 80%nat; ctx := InterruptContext_at (fun i => w (81 + i)%nat) |}.

(** ** The handler *)

(** What [error!] prints, before it is formatted. *)
Inductive Report : Type :=
  | Interrupt_info (info : InterruptInfo)
  | Exception (index : Z)
  | Message (text : string)
  | Bytes_at_rip (bytes : list Z)
  | CR2 (address : Z)
  | Caused_by (mode access page structures : string).

Definition report (r : Report) : M (list Report) unit := modify (fun l => l ++ [r]).

(** The four words of the page-fault line. *)
Definition page_fault_cause (error_code : Z) : Report :=
  Caused_by
    (if negb (Z.land error_code 4 =? 0) then "user" else "supervisor")
    (if negb (Z.land error_code 16 =? 0) then "instruction fetch"
     else if negb (Z.land error_code 2 =? 0) then "data write" else "data read")
    (if negb (Z.land error_code 1 =? 0) then "present" else "non-present")
    (if negb (Z.land error_code 4 =? 0) then "invalid" else "valid").

(** [inthandler(info, index)], on a processor whose memory is [bytes] and CR2 is [cr2]. *)
Definition inthandler (bytes : Z -> Z) (cr2 : Z) (info : InterruptInfo) (index : Z) :
    M (list Report) unit :=
  report (Interrupt_info info);;
  report (Exception index);;
  if index =? 3 then report (Message "Breakpoint") else
  if index =? 6 then report (Message "Invalid Opcode") else
  (if index =? 8 then report (Message "Double Fault")
   else if index =? 13 then
     report (Message "General Protection Fault");;
     report (Message "Bytes @ RIP{rip:#018X}:");;
     report (Bytes_at_rip ((fun i => bytes (i_rip (ctx info) + Z.of_nat i)) <$> seq 0 16))
   else if index =? 14 then
     report (Message "Page Fault");;
     report (CR2 cr2);;
     report (page_fault_cause (error_code info))
   else report (Message "Not handled"));;
  panic "fatal exeception".

(** ** The processor *)

Inductive Reg : Type :=
  RAX | RBX | RCX | RDX | RSI | RDI | RBP | RSP | R8 | R9 | R10 | R11 | R12 | R13 | R14 | R15.
#[global] Instance Reg_eq_dec : EqDecision Reg.
Proof. solve_decision. Defined.

Record Cpu : Type := {
  gpr : Reg -> Z; rip : Z; cs : Z; rflags : Z; ss : Z;
  fpu : list Z;             (** the state [fxsave64] stores, 64 words *)
  mem : Z -> Z;             (** the word at an address *)
  console : list Report }.

Definition with_gpr (f : Reg -> Z) (s : Cpu) : Cpu :=
  {| gpr := f; rip := rip s; cs := cs s; rflags := rflags s; ss := ss s; fpu := fpu s;
     mem := mem s; console := console s |}.
Definition with_mem (f : Z -> Z) (s : Cpu) : Cpu :=
  {| gpr := gpr s; rip := rip s; cs := cs s; rflags := rflags s; ss := ss s; fpu := fpu s;
     mem := f; console := console s |}.
Definition with_fpu (f : list Z) (s : Cpu) : Cpu :=
  {| gpr := gpr s; rip := rip s; cs := cs s; rflags := rflags s; ss := ss s; fpu := f;
     mem := mem s; console := console s |}.
Definition with_console (l : list Report) (s : Cpu) : Cpu :=
  {| gpr := gpr s; rip := rip s; cs := cs s; rflags := rflags s; ss := ss s; fpu := fpu s;
     mem := mem s; console := l |}.
(** The part of the context [iretq] loads beside the stack pointer. *)
Definition with_flow (rip' cs' rflags' ss' : Z) (s : Cpu) : Cpu :=
  {| gpr := gpr s; rip := rip'; cs := cs'; rflags := rflags'; ss := ss'; fpu := fpu s;
     mem := mem s; console := console s |}.

Definition set_reg (r : Reg) (v : Z) (s : Cpu) : Cpu :=
  with_gpr (fun q => if decide (q = r) then v else gpr s q) s.
Definition store (a v : Z) (s : Cpu) : Cpu := with_mem (fun b => if b =? a then v else mem s b) s.

Definition push64 (v : Z) (s : Cpu) : Cpu :=
  let sp := wrap 64 (gpr s RSP - 8) in store sp v (set_reg RSP sp s).
Definition pushes (vs : list Z) (s : Cpu) : Cpu := foldl (fun s v => push64 v s) s vs.
Definition pop64 (s : Cpu) : Z * Cpu :=
  (mem s (gpr s RSP), set_reg RSP (wrap 64 (gpr s RSP + 8)) s).

(** [l] stored as consecutive words at [a]. *)
Fixpoint store_words (a : Z) (l : list Z) (s : Cpu) : Cpu :=
  match l with [] => s | v :: l => store_words (a + 8) l (store a v s) end.
Definition words_at (s : Cpu) (a : Z) (n : nat) : list Z :=
  (fun i => mem s (a + 8 * Z.of_nat i)) <$> seq 0 n.

(** ** The stubs *)

Inductive instr : Type :=
  | push_imm (v : Z) | push (r : Reg) | pop (r : Reg) | mov (d s : Reg) | mov_imm (d : Reg) (v : Z)
  | add_rsp (n : Z) | sub_rsp (n : Z) | and_rsp (mask : Z)
  | fxsave64_rsp | fxrstor64_rsp | call_inthandler | iretq.

Definition inthandler_common : list instr :=
  [push R15; push R14; push R13; push R12; push R11; push R10; push R9; push R8;
   push RDI; push RSI; push RBP; push RBX; push RDX; push RAX;
   sub_rsp (512 + 8); fxsave64_rsp; mov RDI RSP; mov RBP RSP; and_rsp (-16); mov RSI RCX;
   call_inthandler;
   mov RSP RBP; fxrstor64_rsp; add_rsp (512 + 8);
   pop RAX; pop RDX; pop RBX; pop RBP; pop RSI; pop RDI;
   pop R8; pop R9; pop R10; pop R11; pop R12; pop R13; pop R14; pop R15;
   pop RCX; add_rsp 8; iretq].

(** [interrupt_entrypoint!(index)] and [interrupt_entrypoint_with_ecode!(index)], with the
    code they jump to. *)
Definition interrupt_entrypoint (index : Z) : list instr :=
  [push_imm 0; push RCX; mov_imm RCX index] ++ inthandler_common.
Definition interrupt_entrypoint_with_ecode (index : Z) : list instr :=
  [push RCX; mov_imm RCX index] ++ inthandler_common.

(** The code at [interrupt_entrypointN]. *)
Definition stub (index : Z) : list instr :=
  if bool_decide (index ∈ [8; 13; 14]) then interrupt_entrypoint_with_ecode index
  else interrupt_entrypoint index.

Section machine.
(** What the compiled code of [inthandler] does to the registers and the memory, the bytes
    of memory, and CR2. *)
Context (rust : Cpu -> Cpu) (bytes : Z -> Z) (cr2 : Z).

Definition step (i : instr) : M Cpu unit :=
  match i with
  | push_imm v => modify (push64 v)
  | push r => modify (fun s => push64 (gpr s r) s)
  | pop r => modify (fun s => let '(v, s) := pop64 s in set_reg r v s)
  | mov d r => modify (fun s => set_reg d (gpr s r) s)
  | mov_imm d v => modify (set_reg d v)
  | add_rsp n => modify (fun s => set_reg RSP (wrap 64 (gpr s RSP + n)) s)
  | sub_rsp n => modify (fun s => set_reg RSP (wrap 64 (gpr s RSP - n)) s)
  | and_rsp mask => modify (fun s => set_reg RSP (Z.land (gpr s RSP) (wrap 64 mask)) s)
  | fxsave64_rsp => s ← get;
      if negb (gpr s RSP mod 16 =? 0) then panic "#GP: misaligned fxsave64"
      else put (store_words (gpr s RSP) (fpu s) s)
  | fxrstor64_rsp => s ← get;
      if negb (gpr s RSP mod 16 =? 0) then panic "#GP: misaligned fxrstor64"
      else put (with_fpu (words_at s (gpr s RSP) 64) s)
  | call_inthandler => s ← get;
      if negb (gpr s RSP mod 16 =? 0) then panic "call with a misaligned stack" else
      let info := InterruptInfo_at (fun i => mem s (gpr s RDI + 8 * Z.of_nat i)) in
      let '(r, l) := inthandler bytes cr2 info (gpr s RSI) (console s) in
      match r with
      | Ok _ => put (with_console l (rust s))
      | Err e | Panic e => put (with_console l s);; panic e
      end
  | iretq => modify (fun s =>
      let '(rip, s) := pop64 s in let '(cs, s) := pop64 s in let '(rflags, s) := pop64 s in
      let '(rsp, s) := pop64 s in let '(ss, s) := pop64 s in
      with_flow rip cs rflags ss (set_reg RSP rsp s))
  end.

Definition exec (l : list instr) : M Cpu unit := for_each l step.
End machine.

(** The System V calling convention, for a call with the stack below [top] in use. *)
Class SysvCall (rust : Cpu -> Cpu) (top : Z) : Prop := {
  sysv_saved s r : r ∈ [RBX; RBP; RSP; R12; R13; R14; R15] -> gpr (rust s) r = gpr s r;
  sysv_frame s a : gpr s RSP <= a < top -> mem (rust s) a = mem s a }.

(** The processor takes an exception through an interrupt gate whose stack ends at [top]:
    it aligns the stack, pushes the interrupted context and, for the exceptions that have
    one, the error code, masks interrupts and jumps to the handler. *)
Definition exception_frame (s : Cpu) (err : option Z) : list Z :=
  [ss s; gpr s RSP; rflags s; cs s; rip s] ++ match err with Some e => [e] | None => [] end.
Definition deliver (top : Z) (err : option Z) (handler selector : Z) (s : Cpu) : Cpu :=
  with_flow handler selector (Z.ldiff (rflags s) 0x300) (ss s)
    (pushes (exception_frame s err) (set_reg RSP (Z.land top (wnot 64 15)) s)).

(** ** The stack *)

(** The words [l] are in memory from address [a] upwards. *)
Definition holds (m : Z -> Z) (a : Z) (l : list Z) : Prop :=
  forall i x, l !! i = Some x -> m (a + 8 * Z.of_nat i) = x.

Lemma holds_cons m a x l : holds m a (x :: l) <-> m a = x /\ holds m (a + 8) l.
Proof.
  split.
  - intros H. split; [rewrite <- (H 0%nat x eq_refl); f_equal; lia|].
    intros i y Hi. rewrite <- (H (S i) y Hi). f_equal; lia.
  - intros [H0 H1] [|i] y Hi; simpl in Hi.
    + simplify_eq. f_equal; lia.
    + rewrite <- (H1 i y Hi). f_equal; lia.
Qed.

Lemma holds_app m a l k : holds m a (l ++ k) <-> holds m a l /\ holds m (a + 8 * Z.of_nat (length l)) k.
Proof.
  revert a. induction l as [|x l IH]; intros a; simpl.
  - replace (a + 8 * Z.of_nat 0) with a by lia. split; [|by intros [_ H]]. intros H. split; [done|done].
  - rewrite !holds_cons, IH.
    replace (a + 8 + 8 * Z.of_nat (length l)) with (a + 8 * Z.of_nat (S (length l))) by lia. tauto.
Qed.

Lemma holds_ext m m' a l :
  holds m a l -> (forall b, a <= b < a + 8 * Z.of_nat (length l) -> m' b = m b) -> holds m' a l.
Proof.
  intros H Hm i x Hi. rewrite Hm; [by apply H|]. apply lookup_lt_Some in Hi. lia.
Qed.

Lemma set_reg_same r v s : gpr (set_reg r v s) r = v.
Proof. cbn. by rewrite decide_True. Qed.
Lemma set_reg_other r q v s : q <> r -> gpr (set_reg r v s) q = gpr s q.
Proof. intros. cbn. by rewrite decide_False. Qed.

(** The fields an operation leaves alone, as rewriting rules. *)
Lemma mem_set_reg r v s : mem (set_reg r v s) = mem s. Proof. done. Qed.
Lemma fpu_set_reg r v s : fpu (set_reg r v s) = fpu s. Proof. done. Qed.
Lemma console_set_reg r v s : console (set_reg r v s) = console s. Proof. done. Qed.
Lemma gpr_flow a b c d s : gpr (with_flow a b c d s) = gpr s. Proof. done. Qed.
Lemma mem_flow a b c d s : mem (with_flow a b c d s) = mem s. Proof. done. Qed.
Lemma fpu_flow a b c d s : fpu (with_flow a b c d s) = fpu s. Proof. done. Qed.
Lemma console_flow a b c d s : console (with_flow a b c d s) = console s. Proof. done. Qed.
Lemma gpr_with_fpu f s : gpr (with_fpu f s) = gpr s. Proof. done. Qed.
Create Rewrite HintDb cpu.
#[export] Hint Rewrite mem_set_reg fpu_set_reg console_set_reg gpr_flow mem_flow fpu_flow console_flow : cpu.
#[export] Hint Rewrite set_reg_same : cpu.
#[export] Hint Rewrite set_reg_other using done : cpu.

Lemma push64_rsp v s : 8 <= gpr s RSP < 2 ^ 64 -> gpr (push64 v s) RSP = gpr s RSP - 8.
Proof. intros. unfold push64, store. cbn -[wrap]. apply wrap_small. unfold in_width. lia. Qed.

Lemma pushes_gpr vs s r : r <> RSP -> gpr (pushes vs s) r = gpr s r.
Proof.
  intros Hr. unfold pushes. revert s. induction vs as [|v vs IH]; intros s; [done|]. simpl.
  rewrite IH. unfold push64, store. cbn. by rewrite decide_False.
Qed.

Lemma pushes_rest vs s :
  rip (pushes vs s) = rip s /\ cs (pushes vs s) = cs s /\ rflags (pushes vs s) = rflags s /\
  ss (pushes vs s) = ss s /\ fpu (pushes vs s) = fpu s /\ console (pushes vs s) = console s.
Proof. unfold pushes. revert s. induction vs as [|v vs IH]; intros s; [done|apply (IH (push64 v s))]. Qed.

Lemma pushes_flow vs a b c d s : pushes vs (with_flow a b c d s) = with_flow a b c d (pushes vs s).
Proof.
  unfold pushes. revert s. induction vs as [|v vs IH]; intros s; [done|].
  exact (IH (push64 v s)).
Qed.

Lemma pushes_app vs ws s : pushes (vs ++ ws) s = pushes ws (pushes vs s).
Proof. apply foldl_app. Qed.

(** Pushing grows the stack downwards, leaves the words in reverse order and touches nothing else. *)
Lemma pushes_spec vs s :
  8 * Z.of_nat (length vs) <= gpr s RSP < 2 ^ 64 ->
  gpr (pushes vs s) RSP = gpr s RSP - 8 * Z.of_nat (length vs) /\
  holds (mem (pushes vs s)) (gpr s RSP - 8 * Z.of_nat (length vs)) (rev vs) /\
  (forall a, a < gpr s RSP - 8 * Z.of_nat (length vs) \/ gpr s RSP <= a -> mem (pushes vs s) a = mem s a).
Proof.
  revert s. induction vs as [|v vs IH]; intros s Hs; simpl length in *.
  - cbn. split_and!; [lia|done|done].
  - change (pushes (v :: vs) s) with (pushes vs (push64 v s)).
    assert (gpr (push64 v s) RSP = gpr s RSP - 8) as Hsp by (apply push64_rsp; lia).
    assert (forall a, mem (push64 v s) a = if a =? gpr s RSP - 8 then v else mem s a) as Hm.
    { intros a. rewrite <- Hsp. unfold push64, store. cbn -[wrap]. done. }
    destruct (IH (push64 v s)) as (H1 & H2 & H3); [lia|]. rewrite Hsp in *.
    replace (gpr s RSP - 8 - 8 * Z.of_nat (length vs)) with (gpr s RSP - 8 * Z.of_nat (S (length vs))) in * by lia.
    split_and!; [done| |].
    + cbn [rev]. apply holds_app. split; [done|]. rewrite length_rev. apply holds_cons. split; [|done].
      rewrite H3 by lia. rewrite Hm. rewrite (proj2 (Z.eqb_eq _ _)); [done|lia].
    + intros a Ha. rewrite H3, Hm by lia. rewrite (proj2 (Z.eqb_neq _ _)); [done|lia].
Qed.

Lemma store_words_spec a l s :
  gpr (store_words a l s) = gpr s /\ console (store_words a l s) = console s /\
  holds (mem (store_words a l s)) a l /\
  (forall b, b < a \/ a + 8 * Z.of_nat (length l) <= b -> mem (store_words a l s) b = mem s b).
Proof.
  revert a s. induction l as [|v l IH]; intros a s; simpl length; [done|].
  destruct (IH (a + 8) (store a v s)) as (H1 & H2 & H3 & H4). cbn [store_words].
  split_and!; [done|done| |].
  - apply holds_cons. split; [|done]. rewrite H4 by lia. cbn. by rewrite Z.eqb_refl.
  - intros b Hb. rewrite H4 by lia. cbn. rewrite (proj2 (Z.eqb_neq _ _)); [done|lia].
Qed.

Lemma words_at_holds s a l : holds (mem s) a l -> words_at s a (length l) = l.
Proof.
  intros H. apply list_eq. intros i. unfold words_at. rewrite list_lookup_fmap.
  destruct (l !! i) as [x|] eqn:Hi.
  - rewrite lookup_seq_lt by (by apply lookup_lt_Some in Hi). cbn. by rewrite (H i x Hi).
  - apply lookup_ge_None in Hi. by rewrite lookup_seq_ge.
Qed.

(** ** Running the stubs *)

Section exec.
Context (rust : Cpu -> Cpu) (bytes : Z -> Z) (cr2 : Z).

Lemma exec_app l k s s' : exec rust bytes cr2 l s = (Ok tt, s') -> exec rust bytes cr2 (l ++ k) s = exec rust bytes cr2 k s'.
Proof.
  revert s. induction l as [|i l IH]; intros s; simpl; [intros [= ->]; done|].
  unfold exec in *. cbn [app for_each]. unfold mbind, M_bind.
  destruct (step rust bytes cr2 i s) as [[[]|e|e] s1]; [apply IH|done..].
Qed.

Lemma exec_pushes rs s : RSP ∉ rs -> exec rust bytes cr2 (push <$> rs) s = (Ok tt, pushes (gpr s <$> rs) s).
Proof.
  revert s. induction rs as [|r rs IH]; intros s Hn; [done|].
  apply not_elem_of_cons in Hn as [Hr Hn].
  change (exec rust bytes cr2 (push <$> (r :: rs)) s) with (exec rust bytes cr2 (push <$> rs) (push64 (gpr s r) s)).
  rewrite IH by done.
  change (pushes (gpr s <$> (r :: rs)) s) with (pushes (gpr s <$> rs) (push64 (gpr s r) s)).
  do 2 f_equal. apply list_fmap_ext. intros i q Hi. apply (pushes_gpr [gpr s r]).
  intros ->. apply Hn. by eapply list_elem_of_lookup_2.
Qed.

Lemma exec_pops rs s l :
  length l = length rs -> holds (mem s) (gpr s RSP) l -> RSP ∉ rs -> NoDup rs ->
  0 <= gpr s RSP -> gpr s RSP + 8 * Z.of_nat (length rs) < 2 ^ 64 ->
  exists s', exec rust bytes cr2 (pop <$> rs) s = (Ok tt, s') /\
    gpr s' RSP = gpr s RSP + 8 * Z.of_nat (length rs) /\
    (gpr s' <$> rs) = l /\ (forall r, r <> RSP -> r ∉ rs -> gpr s' r = gpr s r) /\
    mem s' = mem s /\ fpu s' = fpu s /\ console s' = console s.
Proof.
  revert s l. induction rs as [|r rs IH]; intros s [|v l] Hlen Hl Hn Hnd H0 Hb; try done.
  { exists s. split_and!; try done. cbn; lia. }
  apply not_elem_of_cons in Hn as [Hr Hn]. apply NoDup_cons in Hnd as [Hr' Hnd].
  apply holds_cons in Hl as [Hv Hl]. simpl length in *.
  set (s1 := set_reg r v (set_reg RSP (wrap 64 (gpr s RSP + 8)) s)).
  assert (gpr s1 RSP = gpr s RSP + 8) as Hsp.
  { unfold s1. rewrite set_reg_other, set_reg_same by done. apply wrap_small. unfold in_width. lia. }
  destruct (IH s1 l) as (s' & Hrun & Hs & Hg & Ho & Hm & Hf & Hc); try done; try lia.
  { by rewrite Hsp. }
  exists s'. split_and!; try done.
  - change (exec rust bytes cr2 (pop <$> (r :: rs)) s) with
      (exec rust bytes cr2 (pop <$> rs) (set_reg r (mem s (gpr s RSP)) (set_reg RSP (wrap 64 (gpr s RSP + 8)) s))).
    by rewrite Hv.
  - lia.
  - cbn [fmap list_fmap]. f_equal; [|done]. rewrite Ho by done. apply set_reg_same.
  - intros q Hq Hq'. apply not_elem_of_cons in Hq' as [Hqr Hq']. rewrite Ho by done.
    unfold s1. by rewrite !set_reg_other.
Qed.
End exec.

(** The context of [s] as the handler sees it. *)
Definition interrupted (s : Cpu) (err dummy : Z) : InterruptInfo :=
  {| fpu_context := fpu s; _dummy := dummy;
     greg := {| i_rax := gpr s RAX; i_rdx := gpr s RDX; i_rbx := gpr s RBX; i_rbp := gpr s RBP;
       i_rsi := gpr s RSI; i_rdi := gpr s RDI; i_r8 := gpr s R8; i_r9 := gpr s R9;
       i_r10 := gpr s R10; i_r11 := gpr s R11; i_r12 := gpr s R12; i_r13 := gpr s R13;
       i_r14 := gpr s R14; i_r15 := gpr s R15; i_rcx := gpr s RCX |};
     error_code := err;
     ctx := {| i_rip := rip s; i_cs := cs s; i_rflags := rflags s; i_rsp := gpr s RSP; i_ss := ss s |} |}.

(** [s'] goes on where [s] was interrupted, with the registers of [s]. *)
Record resumed (s s' : Cpu) : Prop := {
  re_gpr : forall r, gpr s' r = gpr s r;
  re_rip : rip s' = rip s; re_cs : cs s' = cs s; re_rflags : rflags s' = rflags s; re_ss : ss s' = ss s;
  re_fpu : fpu s' = fpu s }.

(** The words the stub builds below the top of the stack, from the bottom. *)
Definition GREGS : list Reg := [RAX; RDX; RBX; RBP; RSI; RDI; R8; R9; R10; R11; R12; R13; R14; R15].
Definition frame_words (s : Cpu) (err dummy : Z) : list Z :=
  fpu s ++ [dummy] ++ (gpr s <$> GREGS ++ [RCX]) ++ [err; rip s; cs s; rflags s; gpr s RSP; ss s].

(** They are the context at the offsets of [InterruptInfo]. *)
Lemma InterruptInfo_holds s m a err dummy :
  length (fpu s) = 64%nat -> holds m a (frame_words s err dummy) ->
  InterruptInfo_at (fun i => m (a + 8 * Z.of_nat i)) = interrupted s err dummy.
Proof.
  intros Hf Hh. unfold frame_words in Hh.
  assert (forall i x, ([dummy] ++ (gpr s <$> GREGS ++ [RCX]) ++ [err; rip s; cs s; rflags s; gpr s RSP; ss s]) !! i
    = Some x -> m (a + 8 * Z.of_nat (64 + i)) = x) as Hi.
  { intros i x Hx. apply Hh. by rewrite lookup_app_r, Hf, Nat.add_comm, Nat.add_sub by lia. }
  assert ((fun i => m (a + 8 * Z.of_nat i)) <$> seq 0 64 = fpu s) as Hfpu.
  { rewrite <- Hf. apply list_eq. intros i. rewrite list_lookup_fmap.
    destruct (fpu s !! i) as [x|] eqn:Hx.
    - rewrite lookup_seq_lt by (by apply lookup_lt_Some in Hx). cbn [fmap option_fmap option_map].
      f_equal. apply (Hh i). by apply lookup_app_l_Some.
    - apply lookup_ge_None in Hx. by rewrite lookup_seq_ge. }
  unfold InterruptInfo_at, interrupted. rewrite Hfpu. f_equal.
  - by apply (Hi 0%nat).
  - unfold GeneralRegisterContext_at. f_equal;
      match goal with |- m (a + 8 * Z.of_nat (65 + ?k)) = _ => by apply (Hi (S k)) end.
  - by apply (Hi 16%nat).
  - unfold InterruptContext_at. f_equal;
      match goal with |- m (a + 8 * Z.of_nat (81 + ?k)) = _ => by apply (Hi (17 + k)%nat) end.
Qed.

(** The processor and the stub's first instructions have pushed the context and the vector. *)
Record entered (s : Cpu) (top index err : Z) (s2 : Cpu) : Prop := {
  en_rcx : gpr s2 RCX = index;
  en_gpr : forall r, r <> RSP -> r <> RCX -> gpr s2 r = gpr s r;
  en_rsp : gpr s2 RSP = top - 56;
  en_holds : holds (mem s2) (top - 56) [gpr s RCX; err; rip s; cs s; rflags s; gpr s RSP; ss s];
  en_out : forall a, a < top - 56 \/ top <= a -> mem s2 a = mem s a;
  en_fpu : fpu s2 = fpu s;
  en_console : console s2 = console s }.

(** The state at the call of [inthandler]. *)
Record at_call (s : Cpu) (top index err : Z) (s2 : Cpu) : Prop := {
  ac_rsp : gpr s2 RSP = top - 688;
  ac_rbp : gpr s2 RBP = top - 688;
  ac_rdi : gpr s2 RDI = top - 688;
  ac_rsi : gpr s2 RSI = index;
  ac_holds : holds (mem s2) (top - 688) (frame_words s err (mem s (top - 176)));
  ac_out : forall a, a < top - 688 \/ top <= a -> mem s2 a = mem s a;
  ac_console : console s2 = console s }.

Lemma aligned_top top : in_width 64 top -> Z.land top (wnot 64 15) = top / 16 * 16.
Proof. intros. by apply (land_align top 4). Qed.

Section run.
Context (rust : Cpu -> Cpu) (bytes : Z -> Z) (cr2 : Z).

Lemma exec_modify i l f s : step rust bytes cr2 i = modify f ->
  exec rust bytes cr2 (i :: l) s = exec rust bytes cr2 l (f s).
Proof. intros H. unfold exec. cbn [for_each]. by rewrite H. Qed.

Lemma exec_get i l (f : Cpu -> M Cpu unit) s s' :
  step rust bytes cr2 i = (s ← get; f s) -> f s s = (Ok tt, s') ->
  exec rust bytes cr2 (i :: l) s = exec rust bytes cr2 l s'.
Proof.
  intros H E. unfold exec. cbn [for_each]. rewrite H. unfold mbind, M_bind, get. by rewrite E.
Qed.

Lemma deliver_gpr top err handler selector s r :
  r <> RSP -> gpr (deliver top err handler selector s) r = gpr s r.
Proof using. intros Hr. unfold deliver. rewrite gpr_flow, pushes_gpr by done. by apply set_reg_other. Qed.

(** Both kinds of stub leave the same seven words. *)
Lemma stub_entry s top err handler selector index :
  (is_Some err <-> index ∈ [8; 13; 14]) -> 1024 <= top < 2 ^ 64 ->
  exists s2, exec rust bytes cr2 (stub index) (deliver top err handler selector s) =
      exec rust bytes cr2 inthandler_common s2 /\
    entered s (top / 16 * 16) index (default 0 err) s2.
Proof.
  intros He Ht. set (s0 := set_reg RSP (top / 16 * 16) s).
  set (fl := with_flow handler selector (Z.ldiff (rflags s) 0x300) (ss s)).
  set (vs := [ss s; gpr s RSP; rflags s; cs s; rip s; default 0 err; gpr s RCX]).
  exists (set_reg RCX index (fl (pushes vs s0))). split.
  - assert (forall ws, pushes ws (deliver top err handler selector s) =
      fl (pushes (exception_frame s err ++ ws) s0)) as Hd.
    { intros ws. unfold deliver. rewrite aligned_top by (unfold in_width; lia).
      by rewrite pushes_flow, <- pushes_app. }
    unfold stub. destruct err as [e|].
    + rewrite bool_decide_eq_true_2 by (apply He; eauto).
      unfold interrupt_entrypoint_with_ecode. cbn [app].
      do 2 (erewrite exec_modify by reflexivity). do 2 apply f_equal.
      rewrite (deliver_gpr top (Some e) handler selector s RCX) by done. exact (Hd [gpr s RCX]).
    + rewrite bool_decide_eq_false_2 by (intros H; apply He in H as [? ?]; done).
      unfold interrupt_entrypoint. cbn [app]. do 3 (erewrite exec_modify by reflexivity).
      change (push64 0 (deliver top None handler selector s))
        with (pushes [0] (deliver top None handler selector s)).
      rewrite (pushes_gpr [0]), (deliver_gpr top None handler selector s RCX) by done.
      do 2 apply f_equal. exact (Hd [0; gpr s RCX]).
  - assert (gpr s0 RSP = top / 16 * 16) as Hsp by apply set_reg_same.
    destruct (pushes_spec vs s0) as (H1 & H2 & H3); [rewrite Hsp; cbn [length vs]; div_lia|].
    rewrite Hsp in *. change (8 * Z.of_nat (length vs)) with 56 in *.
    destruct (pushes_rest vs s0) as (_ & _ & _ & _ & Hf & Hc). split.
    + apply set_reg_same.
    + intros r Hr Hr'. unfold fl. autorewrite with cpu. rewrite pushes_gpr by done. by apply set_reg_other.
    + autorewrite with cpu. exact H1.
    + unfold fl. autorewrite with cpu. exact H2.
    + unfold fl. autorewrite with cpu. exact H3.
    + unfold fl. autorewrite with cpu. exact Hf.
    + unfold fl. autorewrite with cpu. exact Hc.
Qed.

(** The rest of the way to the call: every register is saved in its place in [InterruptInfo]
    and the stack is aligned where [fxsave64] and the call need it. *)
Lemma common_entry s top index err s2 :
  entered s top index err s2 -> 704 <= top < 2 ^ 64 -> top mod 16 = 0 -> length (fpu s) = 64%nat ->
  exists sc, exec rust bytes cr2 inthandler_common s2 =
      exec rust bytes cr2 (drop 20 inthandler_common) sc /\ at_call s top index err sc.
Proof.
  intros En Ht Ha Hfpu. set (rs := rev GREGS). set (s3 := pushes (gpr s2 <$> rs) s2).
  pose proof (en_rsp _ _ _ _ _ En) as Hsp.
  destruct (pushes_spec (gpr s2 <$> rs) s2) as (H1 & H2 & H3).
  { rewrite Hsp. cbn [length rs rev GREGS fmap list_fmap app]. lia. }
  change (8 * Z.of_nat (length (gpr s2 <$> rs))) with 112 in *. rewrite Hsp in *.
  replace (top - 56 - 112) with (top - 168) in * by lia. fold s3 in H1, H2, H3.
  destruct (pushes_rest (gpr s2 <$> rs) s2) as (_ & _ & _ & _ & Hf & Hc). fold s3 in Hf, Hc.
  set (s4 := set_reg RSP (top - 688) s3).
  destruct (store_words_spec (top - 688) (fpu s) s4) as (G1 & G2 & G3 & G4).
  rewrite Hfpu in G4. set (s5 := store_words (top - 688) (fpu s) s4) in *.
  assert (Z.land (top - 688) (wrap 64 (-16)) = top - 688) as Hal.
  { change (wrap 64 (-16)) with (wnot 64 15). rewrite aligned_top by (unfold in_width; lia). div_lia. }
  assert (gpr s5 RSP = top - 688) as Hs5 by (rewrite G1; apply set_reg_same).
  eexists. split.
  - change inthandler_common with ((push <$> rs) ++ drop 14 inthandler_common) at 1.
    erewrite exec_app by (apply exec_pushes; apply (bool_decide_unpack _); vm_compute; exact I).
    fold s3. cbn [drop inthandler_common].
    erewrite exec_modify by reflexivity. cbv beta. rewrite H1.
    replace (wrap 64 (top - 168 - (512 + 8))) with (top - 688)
      by (rewrite wrap_small by (unfold in_width; lia); lia).
    fold s4. erewrite (exec_get fxsave64_rsp) with (s' := s5); [|reflexivity|].
    2:{ cbv beta. rewrite (set_reg_same RSP (top - 688) s3 : gpr s4 RSP = _).
        rewrite (proj2 (Z.eqb_eq _ _)) by (clear -Ha; div_lia). cbn [negb]. unfold put.
        unfold s5. do 2 f_equal. unfold s4. by rewrite fpu_set_reg, Hf, (en_fpu _ _ _ _ _ En). }
    do 4 (erewrite exec_modify by reflexivity; cbv beta). reflexivity.
  - split; autorewrite with cpu; rewrite ?Hs5, ?Hal; try done.
    + rewrite G1. unfold s4. autorewrite with cpu. unfold s3. rewrite pushes_gpr by done.
      by apply (en_rcx _ _ _ _ _ En).
    + unfold frame_words. apply holds_app. split; [done|]. rewrite Hfpu.
      apply holds_app. split.
      * apply holds_cons. split; [|done]. rewrite G4 by lia. unfold s4. rewrite mem_set_reg.
        rewrite H3, (en_out _ _ _ _ _ En) by lia. f_equal. lia.
      * apply (holds_ext (mem s3)).
        -- rewrite fmap_app, <- app_assoc.
           change ((gpr s <$> [RCX]) ++ [err; rip s; cs s; rflags s; gpr s RSP; ss s])
             with [gpr s RCX; err; rip s; cs s; rflags s; gpr s RSP; ss s].
           apply holds_app. split.
           ++ replace (top - 688 + _ + _) with (top - 168) by (cbn [length]; lia).
              replace (gpr s <$> GREGS) with (rev (gpr s2 <$> rs)); [exact H2|].
              unfold rs. cbn [GREGS rev app fmap list_fmap].
              by rewrite !(en_gpr _ _ _ _ _ En) by done.
           ++ apply (holds_ext (mem s2)).
              ** replace (top - 688 + _ + _ + _) with (top - 56) by (cbn [length GREGS fmap list_fmap]; lia).
                 apply (en_holds _ _ _ _ _ En).
              ** intros b Hb. apply H3. cbn [length GREGS fmap list_fmap] in Hb. lia.
        -- intros b Hb. rewrite G4; [by unfold s4; rewrite mem_set_reg|]. right. cbn [length] in Hb. lia.
    + intros a Hout. rewrite G4 by lia. unfold s4. rewrite mem_set_reg, H3 by lia.
      apply (en_out _ _ _ _ _ En). lia.
    + rewrite G2. unfold s4. rewrite console_set_reg, Hc. apply (en_console _ _ _ _ _ En).
Qed.

Lemma pop64_eq a x s :
  gpr s RSP = a -> mem s a = x -> in_width 64 (a + 8) -> pop64 s = (x, set_reg RSP (a + 8) s).
Proof using. intros <- <- H. unfold pop64. by rewrite wrap_small. Qed.

Lemma exec_iretq s rip' cs' rflags' rsp' ss' :
  holds (mem s) (gpr s RSP) [rip'; cs'; rflags'; rsp'; ss'] -> 0 <= gpr s RSP < 2 ^ 64 - 40 ->
  exists s', exec rust bytes cr2 [iretq] s = (Ok tt, s') /\
    (forall r, gpr s' r = if decide (r = RSP) then rsp' else gpr s r) /\
    rip s' = rip' /\ cs s' = cs' /\ rflags s' = rflags' /\ ss s' = ss' /\
    fpu s' = fpu s /\ mem s' = mem s /\ console s' = console s.
Proof using.
  intros Hh Hs. rewrite !holds_cons in Hh. destruct Hh as (H1 & H2 & H3 & H4 & H5 & _).
  eexists. split; [reflexivity|].
  do 5 (erewrite pop64_eq; [|rewrite ?set_reg_same; reflexivity|rewrite ?mem_set_reg; eassumption|
    unfold in_width; lia]; cbv beta iota zeta).
  split_and!; try done.
  intros r. cbn [gpr with_flow with_gpr set_reg]. by destruct (decide (r = RSP)).
Qed.

(** The way back restores everything the stub saved. *)
Lemma common_exit s top err dummy s3 :
  gpr s3 RBP = top - 688 -> holds (mem s3) (top - 688) (frame_words s err dummy) ->
  704 <= top < 2 ^ 64 -> top mod 16 = 0 -> length (fpu s) = 64%nat ->
  exists s', exec rust bytes cr2 (drop 21 inthandler_common) s3 = (Ok tt, s') /\ resumed s s' /\
    mem s' = mem s3 /\ console s' = console s3.
Proof using.
  intros Hbp Hh Ht Ha Hfpu. unfold frame_words in Hh.
  apply holds_app in Hh as [Hf Hh]. apply holds_app in Hh as [_ Hh]. rewrite Hfpu in Hh.
  replace (top - 688 + _ + _) with (top - 168) in Hh by (cbn [length]; lia).
  set (s4 := set_reg RSP (top - 168) (with_fpu (fpu s) (set_reg RSP (top - 688) s3))).
  apply holds_app in Hh as [Hregs Hrest].
  replace (top - 168 + _) with (top - 48) in Hrest by (cbn [length GREGS app fmap list_fmap]; lia).
  assert (gpr s4 RSP = top - 168) as Hs4 by apply set_reg_same.
  destruct (exec_pops rust bytes cr2 (GREGS ++ [RCX]) s4 (gpr s <$> GREGS ++ [RCX]))
    as (s5 & Hrun & Hsp & Hg & Ho & Hm & Hfp & Hc).
  { by rewrite length_fmap. }
  { rewrite Hs4. exact Hregs. }
  { apply (bool_decide_unpack _); vm_compute; exact I. }
  { apply (bool_decide_unpack _); vm_compute; exact I. }
  { lia. }
  { rewrite Hs4. cbn [length GREGS app]. lia. }
  rewrite Hs4 in Hsp. replace (top - 168 + _) with (top - 48) in Hsp by (cbn [length GREGS app]; lia).
  set (s6 := set_reg RSP (top - 40) s5).
  destruct (exec_iretq s6 (rip s) (cs s) (rflags s) (gpr s RSP) (ss s))
    as (s' & Hiret & I1 & I2 & I3 & I4 & I5 & I6 & I7 & I8).
  { unfold s6. rewrite mem_set_reg, set_reg_same, Hm. apply holds_cons in Hrest as [_ Hrest].
    by replace (top - 48 + 8) with (top - 40) in Hrest by lia. }
  { unfold s6. rewrite set_reg_same. lia. }
  exists s'. split.
  - cbn [drop inthandler_common]. erewrite exec_modify by reflexivity. cbv beta. rewrite Hbp.
    erewrite exec_get with (s' := with_fpu (fpu s) (set_reg RSP (top - 688) s3)); [|reflexivity|].
    2:{ cbv beta. rewrite set_reg_same. rewrite (proj2 (Z.eqb_eq _ _)) by (clear -Ha; div_lia).
        cbn [negb]. unfold put. rewrite <- Hfpu, words_at_holds by done. done. }
    erewrite exec_modify by reflexivity. cbv beta.
    rewrite gpr_with_fpu, set_reg_same.
    replace (wrap 64 (top - 688 + (512 + 8))) with (top - 168)
      by (rewrite wrap_small by (unfold in_width; lia); lia).
    fold s4. change (pop RAX :: _) with ((pop <$> GREGS ++ [RCX]) ++ [add_rsp 8; iretq]).
    rewrite (exec_app _ _ _ _ _ _ _ Hrun). erewrite exec_modify by reflexivity. cbv beta. rewrite Hsp.
    replace (wrap 64 (top - 48 + 8)) with (top - 40)
      by (rewrite wrap_small by (unfold in_width; lia); lia).
    exact Hiret.
  - assert (forall r, r ∈ GREGS ++ [RCX] -> gpr s5 r = gpr s r) as Hgr.
    { intros r Hr. apply list_elem_of_lookup in Hr as [i Hi].
      assert ((gpr s5 <$> GREGS ++ [RCX]) !! i = (gpr s <$> GREGS ++ [RCX]) !! i) as Hl by by rewrite Hg.
      rewrite !list_lookup_fmap, Hi in Hl. by injection Hl. }
    split_and!; [split|rewrite I7; unfold s6; by rewrite mem_set_reg, Hm|
      rewrite I8; unfold s6; by rewrite console_set_reg, Hc]; try done.
    + intros r. rewrite I1. destruct (decide (r = RSP)) as [->|Hr]; [done|].
      unfold s6. rewrite set_reg_other by done. apply Hgr.
      destruct r; try done; apply (bool_decide_unpack _); vm_compute; exact I.
    + rewrite I6. unfold s6. by rewrite fpu_set_reg, Hfp.
Qed.
End run.

(** An exception from delivery to the end of its stub: [inthandler] gets the interrupted
    context, and what it does decides what follows. *)
Lemma interrupt_run rust bytes cr2 s top err handler selector index :
  SysvCall rust (top / 16 * 16) -> (is_Some err <-> index ∈ [8; 13; 14]) ->
  1024 <= top < 2 ^ 64 -> length (fpu s) = 64%nat ->
  exists sc dummy, at_call s (top / 16 * 16) index (default 0 err) sc /\
    let '(r, l) := inthandler bytes cr2 (interrupted s (default 0 err) dummy) index (console s) in
    let run := exec rust bytes cr2 (stub index) (deliver top err handler selector s) in
    match r with
    | Ok _ => exists s', run = (Ok tt, s') /\ resumed s s' /\ console s' = l /\ mem s' = mem (rust sc)
    | Err e | Panic e => exists s', run = (Panic e, s') /\ console s' = l
    end.
Proof.
  intros Hsys He Ht Hfpu. set (t := top / 16 * 16) in *.
  assert (704 <= t < 2 ^ 64 /\ t mod 16 = 0) as [Htb Hta] by (unfold t; split; div_lia).
  destruct (stub_entry rust bytes cr2 s top err handler selector index He Ht) as (s2 & Hrun & En).
  destruct (common_entry rust bytes cr2 _ _ _ _ _ En Htb Hta Hfpu) as (sc & Hrun' & Hac).
  rewrite Hrun' in Hrun. exists sc, (mem s (t - 176)). split; [done|].
  assert (InterruptInfo_at (fun i => mem sc (gpr sc RDI + 8 * Z.of_nat i)) =
    interrupted s (default 0 err) (mem s (t - 176))) as Hinfo.
  { rewrite (ac_rdi _ _ _ _ _ Hac). apply InterruptInfo_holds; [done|]. apply (ac_holds _ _ _ _ _ Hac). }
  assert (step rust bytes cr2 call_inthandler sc =
    let '(r, l) := inthandler bytes cr2 (interrupted s (default 0 err) (mem s (t - 176))) index (console s) in
    match r with Ok _ => (Ok tt, with_console l (rust sc)) | Err e | Panic e => (Panic e, with_console l sc) end)
    as Hcall.
  { unfold step. mstep. rewrite (ac_rsp _ _ _ _ _ Hac), (proj2 (Z.eqb_eq _ _)) by (clear -Hta; div_lia).
    cbn [negb]. rewrite Hinfo, (ac_rsi _ _ _ _ _ Hac), (ac_console _ _ _ _ _ Hac).
    by destruct (inthandler _ _ _ _ _) as [[]]. }
  destruct (inthandler _ _ _ _ _) as [[[]|e|e] l] eqn:Hi; rewrite Hrun.
  2,3: exists (with_console l sc); split; [|done]; cbn [drop inthandler_common]; unfold exec; cbn [for_each];
    unfold mbind, M_bind; by rewrite Hcall.
  destruct (common_exit rust bytes cr2 s t (default 0 err) (mem s (t - 176)) (with_console l (rust sc)))
    as (s' & Hexit & Hres & Hm & Hc); try done.
  - change (gpr (rust sc) RBP = t - 688). rewrite (sysv_saved (rust := rust) (top := t)) by set_solver.
    apply (ac_rbp _ _ _ _ _ Hac).
  - change (holds (mem (rust sc)) (t - 688) (frame_words s (default 0 err) (mem s (t - 176)))).
    apply (holds_ext (mem sc)); [apply (ac_holds _ _ _ _ _ Hac)|].
    intros b Hb. apply (sysv_frame (rust := rust) (top := t)). rewrite (ac_rsp _ _ _ _ _ Hac).
    unfold frame_words in Hb. rewrite !length_app, Hfpu in Hb.
    cbn [length app fmap list_fmap GREGS] in Hb. lia.
  - exists s'. split_and!; try done.
    change (drop 20 inthandler_common) with ([call_inthandler] ++ drop 21 inthandler_common).
    rewrite (exec_app _ _ _ _ _ _ (with_console l (rust sc))); [done|].
    unfold exec. cbn [for_each]. unfold mbind, M_bind. by rewrite Hcall.
Qed.

(** ** Properties *)

(** C5. A breakpoint is transparent: after the stub of vector 3 or 6 the interrupted program
    goes on with every general register, the instruction and stack pointers, the segments,
    the flags and the floating-point state it had, whatever the Rust handler did to the
    registers its calling convention lets it use, and with its memory as the handler left
    it: the stub itself wrote only the 688 bytes below the top of the interrupt stack.  The
    handler was given exactly the interrupted context.  (For vector 6, a fault, the saved
    instruction pointer is the invalid instruction itself, which is executed again.) *)
Theorem interrupt_transparent (rust : Cpu -> Cpu) (bytes : Z -> Z) (cr2 : Z) (s : Cpu)
  (top handler selector index : Z)
  (Hsys : SysvCall rust (top / 16 * 16)) (Hindex : index = 3 \/ index = 6)
  (Htop : 1024 <= top < 2 ^ 64) (Hfpu : length (fpu s) = 64%nat) :
  exists s' sc dummy,
    exec rust bytes cr2 (stub index) (deliver top None handler selector s) = (Ok tt, s') /\
    resumed s s' /\
    console s' = console s ++ [Interrupt_info (interrupted s 0 dummy); Exception index;
      Message (if index =? 3 then "Breakpoint" else "Invalid Opcode")] /\
    mem s' = mem (rust sc) /\
    (forall a, a < top / 16 * 16 - 688 \/ top / 16 * 16 <= a -> mem sc a = mem s a).
Proof.
  destruct (interrupt_run rust bytes cr2 s top None handler selector index) as (sc & dummy & Hac & Hr); try done.
  { split; [by intros [? ?]|]. intros Hi. exfalso.
    destruct Hindex as [-> | ->]; revert Hi; apply (bool_decide_unpack _); vm_compute; exact I. }
  destruct Hindex as [-> | ->]; cbn [inthandler] in Hr; destruct Hr as (s' & Hrun & Hres & Hc & Hm);
    exists s', sc, dummy; (split_and!; [done|done| |done|apply (ac_out _ _ _ _ _ Hac)]);
    rewrite Hc; cbn [Z.eqb Pos.eqb]; by rewrite <- !app_assoc.
Qed.

(** A handler that uses every register it may, and scribbles below its stack. *)
Definition example_rust (s : Cpu) : Cpu :=
  with_fpu [] (with_mem (fun a => if a <? gpr s RSP then 42 else mem s a)
    (with_gpr (fun r => if decide (r ∈ [RBX; RBP; RSP; R12; R13; R14; R15]) then gpr s r else 7) s)).
Definition example_cpu : Cpu := {|
  gpr := fun r => if decide (r = RSP) then 0x7ff8 else 1; rip := 0x401000; cs := 8; rflags := 0x202;
  ss := 16; fpu := replicate 64 5; mem := fun _ => 0; console := [] |}.

Lemma example_rust_sysv top : SysvCall example_rust top.
Proof.
  split.
  - intros s r Hr. cbn [gpr example_rust with_fpu with_mem with_gpr]. by rewrite decide_True.
  - intros s a Ha. cbn [mem example_rust with_fpu with_mem with_gpr].
    by rewrite (proj2 (Z.ltb_ge _ _)) by lia.
Qed.

Lemma interrupt_transparent_witness :
  exists s', exec example_rust (fun _ => 0x90) 0 (stub 3) (deliver 0x20000 None 0x1000 8 example_cpu) = (Ok tt, s') /\
    resumed example_cpu s' /\ length (console s') = 3%nat.
Proof.
  destruct (interrupt_transparent example_rust (fun _ => 0x90) 0 example_cpu 0x20000 0x1000 8 3)
    as (s' & sc & dummy & H1 & H2 & H3 & _).
  - apply example_rust_sysv.
  - by left.
  - lia.
  - reflexivity.
  - exists s'. split; [exact H1|split; [exact H2|]]. by rewrite H3.
Defined.

(** C21. The other vectors end in the panic after a report that begins with exactly the
    interrupted context and the right error code: the double fault, the protection fault
    with the sixteen bytes at the interrupted instruction, the page fault with its address
    and cause, and the timer vector, which is not handled. *)
Theorem interrupt_fatal (rust : Cpu -> Cpu) (bytes : Z -> Z) (cr2 : Z) (s : Cpu) (err : option Z)
  (top handler selector index : Z)
  (Hsys : SysvCall rust (top / 16 * 16)) (Hindex : index ∈ [8; 13; 14; 32])
  (Herr : is_Some err <-> index ∈ [8; 13; 14])
  (Htop : 1024 <= top < 2 ^ 64) (Hfpu : length (fpu s) = 64%nat) :
  exists s' dummy details,
    exec rust bytes cr2 (stub index) (deliver top err handler selector s) = (Panic "fatal exeception", s') /\
    console s' = console s ++ Interrupt_info (interrupted s (default 0 err) dummy) :: Exception index :: details /\
    (index = 8 -> details = [Message "Double Fault"]) /\
    (index = 13 -> last details = Some (Bytes_at_rip ((fun i => bytes (rip s + Z.of_nat i)) <$> seq 0 16))) /\
    (index = 14 -> details = [Message "Page Fault"; CR2 cr2; page_fault_cause (default 0 err)]) /\
    (index = 32 -> details = [Message "Not handled"]).
Proof.
  destruct (interrupt_run rust bytes cr2 s top err handler selector index) as (sc & dummy & _ & Hr); try done.
  unfold inthandler in Hr.
  assert (index = 8 \/ index = 13 \/ index = 14 \/ index = 32) as [-> | [-> | [-> | -> ] ] ]
    by (rewrite !elem_of_cons, elem_of_nil in Hindex; lia);
    cbn [Z.eqb Pos.eqb] in Hr; destruct Hr as (s' & Hrun & Hc);
    exists s', dummy; eexists; (split; [exact Hrun|]); rewrite Hc, <- !app_assoc; cbn [app];
    (split; [reflexivity|]); by split_and!.
Qed.

Lemma interrupt_fatal_witness : exists s' dummy,
  exec example_rust (fun _ => 0x90) 0xdead000 (stub 14) (deliver 0x20000 (Some 2) 0x1000 8 example_cpu) =
    (Panic "fatal exeception", s') /\
  console s' = [Interrupt_info (interrupted example_cpu 2 dummy); Exception 14; Message "Page Fault";
    CR2 0xdead000; Caused_by "supervisor" "data write" "non-present" "valid"].
Proof.
  destruct (interrupt_fatal example_rust (fun _ => 0x90) 0xdead000 example_cpu (Some 2) 0x20000 0x1000 8 14)
    as (s' & dummy & details & H1 & H2 & _ & _ & H3 & _).
  - apply example_rust_sysv.
  - apply (bool_decide_unpack _); vm_compute; exact I.
  - split; [intros _; apply (bool_decide_unpack _); vm_compute; exact I|eauto].
  - lia.
  - reflexivity.
  - exists s', dummy. split; [exact H1|]. rewrite H2, H3 by reflexivity. reflexivity.
Defined.

(** The page-fault line reads the processor's error code: bit 2 is the mode, bits 4 and 1
    the access, bit 0 the presence of the page.  But the state of the page structures, which
    bit 3 reports, is read off bit 2 again: every user-mode fault is said to come from
    invalid structures, and a reserved bit found set in supervisor mode is not reported. *)
Theorem page_fault_cause_bits (e : Z) :
  page_fault_cause e = Caused_by
    (if Z.testbit e 2 then "user" else "supervisor")
    (if Z.testbit e 4 then "instruction fetch" else if Z.testbit e 1 then "data write" else "data read")
    (if Z.testbit e 0 then "present" else "non-present")
    (if Z.testbit e 2 then "invalid" else "valid") /\
  (exists reserved, Z.testbit reserved 3 = true /\
     page_fault_cause reserved = Caused_by "supervisor" "data read" "present" "valid").
Proof.
  split; [|by exists 9].
  rewrite <- !(land_pow2_testbit e) by lia. reflexivity.
Qed.
