(* ===== verification/Segments.v ===== *)
(** The descriptor tables of [x86.rs]: IDT, GDT and TSS, and [init_exceptions].

    The tables are built as the code builds them, boxed and stored byte by byte; the
    processor is the state that LGDT, LTR, LIDT and the segment loads change, and reads the
    tables back from memory ([gate_at], [segment_at], [ist_stack]) in the layout of its
    manual.  The heap is behind [GlobalAlloc] and its laws. *)
From Stdlib Require Import List.
From S2P Require Import Prelude Uefi Allocator Heap Interrupt.
Import Allocator.Allocator BlockSpec.

(** ** The tables *)

Definition BIT_FLAGS_INTGATE : Z := 0x0E.
Definition BIT_FLAGS_PRESENT : Z := 0x80.
Definition BIT_FLAGS_DPL0 : Z := Z.shiftl 0 5.
Definition BIT_FLAGS_DPL3 : Z := Z.shiftl 3 5.

Inductive IdtAttr : Type := _Notpresent | IntGateDPL0 | IntGateDPL3.
Definition IdtAttr_repr (a : IdtAttr) : Z :=
  match a with
  | _Notpresent => 0
  | IntGateDPL0 => Z.lor (Z.lor BIT_FLAGS_INTGATE BIT_FLAGS_PRESENT) BIT_FLAGS_DPL0
  | IntGateDPL3 => Z.lor (Z.lor BIT_FLAGS_INTGATE BIT_FLAGS_PRESENT) BIT_FLAGS_DPL3
  end.

Record IdtDescriptor : Type := {
  offset_low : Z; segment_selector : Z; ist_index : Z; attr : IdtAttr;
  offset_mid : Z; offset_high : Z }.

(** [IdtDescriptor::new], for the handler at [handler_addr]. *)
Definition IdtDescriptor_new (selector ist : Z) (a : IdtAttr) (handler_addr : Z) : IdtDescriptor :=
  {| offset_low := wrap 16 handler_addr;
     offset_mid := wrap 16 (Z.shiftr handler_addr 16);
     offset_high := wrap 32 (Z.shiftr handler_addr 32);
     segment_selector := selector; ist_index := ist; attr := a |}.

(** [repr(C, packed)], with [_reserved] at the end. *)
Definition IdtDescriptor_bytes (d : IdtDescriptor) : list Z :=
  le_encode 2 (offset_low d) ++ le_encode 2 (segment_selector d) ++ le_encode 1 (ist_index d) ++
  le_encode 1 (IdtAttr_repr (attr d)) ++ le_encode 2 (offset_mid d) ++ le_encode 4 (offset_high d) ++
  le_encode 4 0.

(** The addresses the linker gives the entry points. *)
Record EntryPoints : Type := {
  int_handler_unimplemented : Z;
  interrupt_entrypoint3 : Z; interrupt_entrypoint6 : Z; interrupt_entrypoint8 : Z;
  interrupt_entrypoint13 : Z; interrupt_entrypoint14 : Z; interrupt_entrypoint32 : Z }.

(** The array [Idt::new] fills. *)
Definition Idt_entries (fns : EntryPoints) (selector : Z) : list IdtDescriptor :=
  let entries := replicate 0x100 (IdtDescriptor_new selector 1 IntGateDPL0 (int_handler_unimplemented fns)) in
  let entries := <[3%nat := IdtDescriptor_new selector 1 IntGateDPL3 (interrupt_entrypoint3 fns)]> entries in
  let entries := <[6%nat := IdtDescriptor_new selector 1 IntGateDPL0 (interrupt_entrypoint6 fns)]> entries in
  let entries := <[8%nat := IdtDescriptor_new selector 2 IntGateDPL0 (interrupt_entrypoint8 fns)]> entries in
  let entries := <[13%nat := IdtDescriptor_new selector 1 IntGateDPL0 (interrupt_entrypoint13 fns)]> entries in
  let entries := <[14%nat := IdtDescriptor_new selector 1 IntGateDPL0 (interrupt_entrypoint14 fns)]> entries in
  <[32%nat := IdtDescriptor_new selector 1 IntGateDPL0 (interrupt_entrypoint32 fns)]> entries.

Definition BIT_TYPE_DATA : Z := Z.shiftl 2 43.
Definition BIT_TYPE_CODE : Z := Z.shiftl 3 43.
Definition BIT_PRESENT : Z := Z.shiftl 1 47.
Definition BIT_CS_LONG_MODE : Z := Z.shiftl 1 53.
Definition BIT_CS_READABLE : Z := Z.shiftl 1 53.
Definition BIT_DS_WRITEABLE : Z := Z.shiftl 1 41.

Inductive GdtAttr : Type := KernelCode | KernelData.
Definition GdtAttr_repr (a : GdtAttr) : Z :=
  match a with
  | KernelCode => Z.lor (Z.lor (Z.lor BIT_TYPE_CODE BIT_PRESENT) BIT_CS_LONG_MODE) BIT_CS_READABLE
  | KernelData => Z.lor (Z.lor BIT_TYPE_DATA BIT_PRESENT) BIT_DS_WRITEABLE
  end.

Definition KERNEL_CS : Z := Z.shiftl 1 3.
Definition KERNEL_DS : Z := Z.shiftl 2 3.
Definition TSS64_SEL : Z := Z.shiftl 3 3.

(** [GdtSegmentDescriptor::null] and [new]. *)
Definition GdtSegmentDescriptor_null : Z := 0.
Definition GdtSegmentDescriptor_new (a : GdtAttr) : Z := GdtAttr_repr a.

Record TaskStateSegment64Descriptor : Type := {
  limit_low : Z; base_low : Z; base_mid_low : Z; tss_attr : Z; base_mid_high : Z; base_high : Z }.
Definition TSS_SIZE : Z := 104.
Definition TaskStateSegment64Descriptor_new (base_addr : Z) : TaskStateSegment64Descriptor :=
  {| limit_low := wrap 16 TSS_SIZE;
     base_low := Z.land base_addr 0xFFFF;
     base_mid_low := Z.land (Z.shiftr base_addr 16) 0xFF;
     tss_attr := 0x8089;
     base_mid_high := Z.land (Z.shiftr base_addr 24) 0xFF;
     base_high := Z.land (Z.shiftr base_addr 32) 0xffffffff |}.
Definition TaskStateSegment64Descriptor_bytes (d : TaskStateSegment64Descriptor) : list Z :=
  le_encode 2 (limit_low d) ++ le_encode 2 (base_low d) ++ le_encode 1 (base_mid_low d) ++
  le_encode 2 (tss_attr d) ++ le_encode 1 (base_mid_high d) ++ le_encode 4 (base_high d) ++ le_encode 4 0.

Record Gdt : Type := {
  null_segment : Z; kernel_code_segment : Z; kernel_data_segment : Z;
  task_state_segment : TaskStateSegment64Descriptor }.
Definition Gdt_bytes (g : Gdt) : list Z :=
  le_encode 8 (null_segment g) ++ le_encode 8 (kernel_code_segment g) ++
  le_encode 8 (kernel_data_segment g) ++ TaskStateSegment64Descriptor_bytes (task_state_segment g).
Definition GDT_SIZE : Z := 40.

Record TaskStateSegment64Inner : Type := { _rsp : list Z; _ist : list Z; _io_map_base_addr : Z }.
Definition TaskStateSegment64Inner_bytes (t : TaskStateSegment64Inner) : list Z :=
  le_encode 4 0 ++ concat (le_encode 8 <$> _rsp t) ++ concat (le_encode 8 <$> _ist t) ++
  concat (le_encode 2 <$> replicate 5 0) ++ le_encode 2 (_io_map_base_addr t).

(** ** The processor *)

Record Selectors : Type := { sel_cs : Z; sel_ss : Z; sel_ds : Z; sel_es : Z; sel_fs : Z; sel_gs : Z }.

(** Memory by bytes, the table registers as limit and base, the task register as selector
    and cached base. *)
Record System (H : Type) : Type := {
  sheap : H; bytes : Z -> Z; gdtr : Z * Z; idtr : Z * Z; tr : Z * Z; selectors : Selectors }.
Arguments sheap {H}.
Arguments bytes {H}.
Arguments gdtr {H}.
Arguments idtr {H}.
Arguments tr {H}.
Arguments selectors {H}.
Arguments Build_System {H}.

Section system.
Context {H : Type}.

Definition with_heap h (s : System H) : System H := Build_System h (bytes s) (gdtr s) (idtr s) (tr s) (selectors s).
Definition with_bytes b (s : System H) : System H := Build_System (sheap s) b (gdtr s) (idtr s) (tr s) (selectors s).
Definition with_gdtr g (s : System H) : System H := Build_System (sheap s) (bytes s) g (idtr s) (tr s) (selectors s).
Definition with_idtr i (s : System H) : System H := Build_System (sheap s) (bytes s) (gdtr s) i (tr s) (selectors s).
Definition with_tr t (s : System H) : System H := Build_System (sheap s) (bytes s) (gdtr s) (idtr s) t (selectors s).
Definition with_selectors l (s : System H) : System H := Build_System (sheap s) (bytes s) (gdtr s) (idtr s) (tr s) l.

Definition write_bytes (a : Z) (l : list Z) (m : Z -> Z) : Z -> Z := fun b =>
  match l !! Z.to_nat (b - a) with Some x => if a <=? b then x else m b | None => m b end.
Definition fill (a n v : Z) (m : Z -> Z) : Z -> Z := fun b =>
  if (a <=? b) && (b <? a + n) then v else m b.
Definition read_bytes (m : Z -> Z) (a : Z) (n : nat) : list Z := (fun i => m (a + Z.of_nat i)) <$> seq 0 n.
Definition read_le (m : Z -> Z) (a : Z) (n : nat) : Z := le_decode (read_bytes m a n).

(** What the processor reads of an interrupt gate, of a segment and of a TSS descriptor. *)
Record Gate : Type := { g_offset : Z; g_selector : Z; g_ist : Z; g_type : Z; g_dpl : Z; g_present : bool }.
Definition gate_at (s : System H) (v : Z) : option Gate :=
  let '(limit, base) := idtr s in
  if limit <? 16 * v + 15 then None else
  let a := base + 16 * v in
  let m := bytes s in
  Some {| g_offset := read_le m a 2 + 2 ^ 16 * read_le m (a + 6) 2 + 2 ^ 32 * read_le m (a + 8) 4;
          g_selector := read_le m (a + 2) 2;
          g_ist := get_field (m (a + 4)) 0 3;
          g_type := get_field (m (a + 5)) 0 4;
          g_dpl := get_field (m (a + 5)) 5 2;
          g_present := Z.testbit (m (a + 5)) 7 |}.

Definition segment_at (s : System H) (selector : Z) : option Z :=
  let '(limit, base) := gdtr s in
  let i := Z.land selector 0xFFF8 in
  if limit <? i + 7 then None else Some (read_le (bytes s) (base + i) 8).

(** A present 64-bit code segment for ring 0, and a present writable data segment. *)
Definition is_code64 (d : Z) : bool :=
  Z.testbit d 47 && Z.testbit d 44 && Z.testbit d 43 && Z.testbit d 53 && negb (Z.testbit d 54) &&
  (get_field d 45 2 =? 0).
Definition is_data_rw (d : Z) : bool :=
  Z.testbit d 47 && Z.testbit d 44 && negb (Z.testbit d 43) && Z.testbit d 41 && (get_field d 45 2 =? 0).

Definition lgdt (limit base : Z) : M (System H) unit := modify (with_gdtr (limit, base)).
Definition lidt (limit base : Z) : M (System H) unit := modify (with_idtr (limit, base)).

(** LTR wants an available 64-bit TSS, caches its base and marks it busy. *)
Definition ltr (selector : Z) : M (System H) unit :=
  s ← get;
  let '(limit, base) := gdtr s in
  let a := base + Z.land selector 0xFFF8 in
  let m := bytes s in
  if (limit <? Z.land selector 0xFFF8 + 15) || negb (Z.testbit (m (a + 5)) 7) ||
     negb (get_field (m (a + 5)) 0 5 =? 9) then panic "#GP: LTR" else
  let tss := read_le m (a + 2) 3 + 2 ^ 24 * m (a + 7) + 2 ^ 32 * read_le m (a + 8) 4 in
  modify (with_tr (selector, tss));;
  modify (fun s => with_bytes (write_bytes (a + 5) [Z.lor (m (a + 5)) 2] (bytes s)) s).

Definition load_segment (test : Z -> bool) (f : Selectors -> Selectors) (selector : Z) : M (System H) unit :=
  s ← get;
  match segment_at s selector with
  | Some d => if test d then modify (fun s => with_selectors (f (selectors s)) s) else panic "#GP: segment"
  | None => panic "#GP: segment"
  end.
Definition write_cs (v : Z) := load_segment is_code64 (fun l =>
  {| sel_cs := v; sel_ss := sel_ss l; sel_ds := sel_ds l; sel_es := sel_es l; sel_fs := sel_fs l; sel_gs := sel_gs l |}) v.
Definition write_ss (v : Z) := load_segment is_data_rw (fun l =>
  {| sel_cs := sel_cs l; sel_ss := v; sel_ds := sel_ds l; sel_es := sel_es l; sel_fs := sel_fs l; sel_gs := sel_gs l |}) v.
Definition write_ds (v : Z) := load_segment is_data_rw (fun l =>
  {| sel_cs := sel_cs l; sel_ss := sel_ss l; sel_ds := v; sel_es := sel_es l; sel_fs := sel_fs l; sel_gs := sel_gs l |}) v.
Definition write_es (v : Z) := load_segment is_data_rw (fun l =>
  {| sel_cs := sel_cs l; sel_ss := sel_ss l; sel_ds := sel_ds l; sel_es := v; sel_fs := sel_fs l; sel_gs := sel_gs l |}) v.
Definition write_fs (v : Z) := load_segment is_data_rw (fun l =>
  {| sel_cs := sel_cs l; sel_ss := sel_ss l; sel_ds := sel_ds l; sel_es := sel_es l; sel_fs := v; sel_gs := sel_gs l |}) v.
Definition write_gs (v : Z) := load_segment is_data_rw (fun l =>
  {| sel_cs := sel_cs l; sel_ss := sel_ss l; sel_ds := sel_ds l; sel_es := sel_es l; sel_fs := sel_fs l; sel_gs := v |}) v.

(** ** The code *)
Context {GA : GlobalAlloc H}.

Definition on_sheap {A} (m : M H A) : M (System H) A := zoom sheap with_heap m.

(** [Box::pin] of a packed structure. *)
Definition box_bytes (l : list Z) : M (System H) Z :=
  p ← on_sheap (box_new {| l_size := Z.of_nat (length l); l_align := 1 |});
  modify (fun s => with_bytes (write_bytes p l (bytes s)) s);; mret p.

Definition HANDLER_STACK_SIZE : Z := 64 * 1024.
Definition alloc_interrupt_stack : M (System H) Z :=
  p ← on_sheap (box_new {| l_size := HANDLER_STACK_SIZE; l_align := 1 |});
  modify (fun s => with_bytes (fill p HANDLER_STACK_SIZE 0 (bytes s)) s);;
  mret (p + HANDLER_STACK_SIZE).

(** [TaskStateSegment64::new]: the address of the boxed structure. *)
Definition TaskStateSegment64_new : M (System H) Z :=
  rsp0 ← alloc_interrupt_stack;
  ists ← mapM (fun _ => alloc_interrupt_stack) (seq 1 7);
  box_bytes (TaskStateSegment64Inner_bytes
    {| _rsp := [rsp0; 0; 0]; _ist := 0 :: ists; _io_map_base_addr := 0 |}).

(** [GdtWrapper::default]: the addresses of the GDT and of the TSS. *)
Definition GdtWrapper_default : M (System H) (Z * Z) :=
  tss64 ← TaskStateSegment64_new;
  gdt ← box_bytes (Gdt_bytes {|
    null_segment := GdtSegmentDescriptor_null;
    kernel_code_segment := GdtSegmentDescriptor_new KernelCode;
    kernel_data_segment := GdtSegmentDescriptor_new KernelData;
    task_state_segment := TaskStateSegment64Descriptor_new tss64 |});
  mret (gdt, tss64).

Definition GdtWrapper_load (gdt : Z) : M (System H) unit :=
  lgdt (wrap 16 (GDT_SIZE - 1)) gdt;; ltr TSS64_SEL.

Definition Idt_new (fns : EntryPoints) (selector : Z) : M (System H) Z :=
  let entries := Idt_entries fns selector in
  let limit := wrap 16 (16 * Z.of_nat (length entries)) in
  base ← box_bytes (concat (IdtDescriptor_bytes <$> entries));
  lidt limit base;; mret base.

Definition init_exceptions (fns : EntryPoints) : M (System H) ((Z * Z) * Z) :=
  gdt ← GdtWrapper_default;
  GdtWrapper_load gdt.1;;
  write_cs KERNEL_CS;; write_ss KERNEL_DS;; write_es KERNEL_DS;; write_ds KERNEL_DS;;
  write_fs KERNEL_DS;; write_gs KERNEL_DS;;
  idt ← Idt_new fns KERNEL_CS;
  mret (gdt, idt).

(** The interrupt stack of the task state the task register points at. *)
Definition ist_stack (s : System H) (n : Z) : Z := read_le (bytes s) ((tr s).2 + 36 + 8 * (n - 1)) 8.
Definition rsp0_stack (s : System H) : Z := read_le (bytes s) ((tr s).2 + 4) 8.
End system.

(** ** Bytes in memory *)

Lemma length_read_bytes m a n : length (read_bytes m a n) = n.
Proof. unfold read_bytes. by rewrite length_fmap, length_seq. Qed.

Lemma read_bytes_ext m m' a n :
  (forall b, a <= b < a + Z.of_nat n -> m' b = m b) -> read_bytes m' a n = read_bytes m a n.
Proof.
  intros H. unfold read_bytes. apply list_fmap_ext. intros i k Hi.
  apply lookup_seq in Hi as [-> Hi]. apply H. lia.
Qed.

Lemma read_bytes_slice m a N k n :
  (k + n <= N)%nat -> read_bytes m (a + Z.of_nat k) n = slice (read_bytes m a N) k n.
Proof.
  intros Hk. unfold slice, read_bytes. rewrite <- fmap_drop, <- fmap_take. rewrite drop_seq, take_seq.
  rewrite Nat.min_l by lia. apply list_eq. intros i. rewrite !list_lookup_fmap.
  destruct (decide (i < n)%nat) as [Hi|Hi].
  - rewrite !lookup_seq_lt by lia. cbn. do 2 f_equal. lia.
  - by rewrite !lookup_seq_ge by lia.
Qed.

Lemma read_write_bytes m a l : read_bytes (write_bytes a l m) a (length l) = l.
Proof.
  apply list_eq. intros i. unfold read_bytes. rewrite list_lookup_fmap.
  destruct (l !! i) as [x|] eqn:Hx.
  - rewrite lookup_seq_lt by by eapply lookup_lt_Some. cbn [fmap option_fmap option_map Nat.add].
    unfold write_bytes. replace (Z.to_nat (a + Z.of_nat i - a)) with i by lia. rewrite Hx.
    by rewrite (proj2 (Z.leb_le _ _)) by lia.
  - apply lookup_ge_None in Hx. by rewrite lookup_seq_ge.
Qed.

Lemma write_bytes_out a l m b : b < a \/ a + Z.of_nat (length l) <= b -> write_bytes a l m b = m b.
Proof.
  intros H. unfold write_bytes. destruct (l !! Z.to_nat (b - a)) eqn:E; [|done].
  apply lookup_lt_Some in E. by rewrite (proj2 (Z.leb_gt _ _)) by lia.
Qed.

Lemma fill_out a n v m b : b < a \/ a + n <= b -> fill a n v m b = m b.
Proof.
  intros [H|H]; unfold fill.
  - by rewrite (proj2 (Z.leb_gt _ _)) by lia.
  - by rewrite (proj2 (Z.ltb_ge _ _)), andb_false_r by lia.
Qed.

(** Memory holds the bytes [l] at [a]: fields are read as slices of [l]. *)
Definition stored (m : Z -> Z) (a : Z) (l : list Z) : Prop := read_bytes m a (length l) = l.

Lemma stored_read_le m a l k n x :
  stored m a l -> (k + n <= length l)%nat -> slice l k n = le_encode n x ->
  in_width (8 * Z.of_nat n) x -> read_le m (a + Z.of_nat k) n = x.
Proof.
  intros Hs Hk Hsl Hx. unfold read_le. rewrite (read_bytes_slice _ _ (length l)) by done.
  rewrite Hs, Hsl. by apply le_decode_encode_id.
Qed.

Lemma stored_byte m a l k x : stored m a l -> l !! k = Some x -> m (a + Z.of_nat k) = x.
Proof.
  intros Hs Hk. unfold stored in Hs. rewrite <- Hs in Hk. unfold read_bytes in Hk.
  rewrite list_lookup_fmap in Hk. apply fmap_Some in Hk as (i & Hi & ->).
  by apply lookup_seq in Hi as [-> _].
Qed.

Lemma stored_ext m m' a l :
  stored m a l -> (forall b, a <= b < a + Z.of_nat (length l) -> m' b = m b) -> stored m' a l.
Proof. intros Hs H. unfold stored. by rewrite (read_bytes_ext m m'). Qed.

Lemma stored_insert m a l i x :
  stored m a l -> (i < length l)%nat -> stored (write_bytes (a + Z.of_nat i) [x] m) a (<[i := x]> l).
Proof.
  intros Hs Hi. unfold stored. rewrite length_insert. apply list_eq. intros j.
  unfold read_bytes. rewrite list_lookup_fmap.
  destruct (decide (j < length l)%nat) as [Hj|Hj].
  2:{ rewrite lookup_seq_ge by lia. symmetry. apply lookup_ge_None. rewrite length_insert. lia. }
  rewrite lookup_seq_lt by done. cbn [fmap option_fmap option_map Nat.add].
  destruct (decide (i = j)) as [->|Hne].
  - rewrite list_lookup_insert_eq by done. unfold write_bytes.
    replace (Z.to_nat _) with 0%nat by lia. cbn. by rewrite Z.leb_refl.
  - rewrite list_lookup_insert_ne by done. rewrite write_bytes_out by (cbn; lia).
    destruct (l !! j) as [y|] eqn:Hy; [|apply lookup_ge_None in Hy; lia].
    f_equal. by apply (stored_byte m a l).
Qed.

Lemma slice_concat {A} n (ls : list (list A)) i x :
  Forall (fun l => length l = n) ls -> ls !! i = Some x -> slice (concat ls) (n * i) n = x.
Proof.
  intros Hl. revert i. induction Hl as [|l ls Hlen _ IH]; intros [|i] Hi; simplify_eq/=.
  - apply slice_app_here; lia.
  - rewrite slice_app_skip by lia. rewrite <- (IH i Hi). f_equal. lia.
Qed.

Lemma length_concat_const {A} n (ls : list (list A)) :
  Forall (fun l => length l = n) ls -> length (concat ls) = (n * length ls)%nat.
Proof. induction 1 as [|l ls Hl _ IH]; simpl; [lia|]. rewrite length_app, IH, Hl. lia. Qed.

(** ** Boxing: either memory runs out or the state grows *)

Section grow.
Context {H : Type} `{GlobalAllocLaws H}.
Implicit Types s : System H.

Definition within (o : Z * Layout) (a : Z) : Prop := o.1 <= a < o.1 + l_size o.2.

(** Boxes [new] were added to the live ones, and only they were written. *)
Record grew (s : System H) (live : list (Z * Layout)) (s' : System H) (new : list (Z * Layout)) : Prop := {
  gr_ok : ga_ok (sheap s') (new ++ live);
  gr_bytes : forall a, Forall (fun o => ~ within o a) new -> bytes s' a = bytes s a;
  gr_gdtr : gdtr s' = gdtr s; gr_idtr : idtr s' = idtr s; gr_tr : tr s' = tr s;
  gr_sel : selectors s' = selectors s }.

Lemma grew_trans s1 live s2 n1 s3 n2 : grew s1 live s2 n1 -> grew s2 (n1 ++ live) s3 n2 -> grew s1 live s3 (n2 ++ n1).
Proof using.
  intros G1 G2. destruct G1, G2. split; try congruence.
  - by rewrite <- app_assoc.
  - intros a Ha. apply Forall_app in Ha as [Ha Hb]. rewrite gr_bytes1 by done. by apply gr_bytes0.
Qed.

Lemma apart_in o live new : ForallOrdPairs apart (new ++ live) -> o ∈ live -> Forall (fun o' => apart o' o) new.
Proof using.
  intros Hp Ho. induction new as [|n new IH]; [constructor|]. inversion Hp as [|? ? Hn Hp']; subst.
  constructor; [|by apply IH]. rewrite Forall_forall in Hn. apply Hn, elem_of_app. by right.
Qed.

(** What an older box holds stays. *)
Lemma grew_stored s live s' new p l layout :
  grew s live s' new -> (p, layout) ∈ live -> Z.of_nat (length l) <= l_size layout ->
  stored (bytes s) p l -> stored (bytes s') p l.
Proof using.
  intros G Ho Hl Hs. apply (stored_ext (bytes s)); [done|]. intros b Hb. apply (gr_bytes _ _ _ _ G).
  destruct (ga_objects _ _ (gr_ok _ _ _ _ G)) as [_ Hp].
  eapply Forall_impl; [exact (apart_in _ _ _ Hp Ho)|]. intros o [Ha|Ha]; unfold within; cbn in *; lia.
Qed.

Lemma box_grew s live l (f : Z -> (Z -> Z) -> Z -> Z) :
  ga_ok (sheap s) live -> layout_ok l ->
  (forall p m a, a < p \/ p + l_size l <= a -> f p m a = m a) ->
  oom_or ((p ← on_sheap (box_new l); modify (fun s => with_bytes (f p (bytes s)) s);; mret p) s)
    (fun p s' => grew s live s' [(p, l)] /\ bytes s' = f p (bytes s)).
Proof using.
  intros Hok Hl Hf. unfold on_sheap, zoom.
  destruct (box_new_ok (sheap s) live l Hok Hl) as [(p & h & Hrun & Hok')|(h & Hrun)].
  - rewrite (bind_ok _ _ _ p (with_heap h s)) by by rewrite Hrun. cbn. split; [|done]. split; try done.
    intros a Ha. inversion Ha as [|? ? Hw]; subst. apply Hf. unfold within in Hw. cbn in Hw. lia.
  - unfold mbind, M_bind. by rewrite Hrun.
Qed.

Lemma layout_ok_1 n : 0 <= n < 2 ^ 62 -> layout_ok {| l_size := n; l_align := 1 |}.
Proof using. intros Hn. split; [cbn; lia|]. split; [by exists 0|]. cbn. rewrite Z.div_1_r. lia. Qed.

Lemma box_bytes_grew s live l :
  ga_ok (sheap s) live -> Z.of_nat (length l) < 2 ^ 62 ->
  oom_or (box_bytes l s) (fun p s' =>
    grew s live s' [(p, {| l_size := Z.of_nat (length l); l_align := 1 |})] /\ stored (bytes s') p l).
Proof using.
  intros Hok Hl. eapply oom_weaken.
  - apply (box_grew s live _ (fun p => write_bytes p l) Hok
      (layout_ok_1 (Z.of_nat (length l)) ltac:(lia)) (fun p m a => write_bytes_out p l m a)).
  - intros p s' [G Hb]. split; [done|]. rewrite Hb. apply read_write_bytes.
Qed.

Definition STACK : Layout := {| l_size := HANDLER_STACK_SIZE; l_align := 1 |}.

Lemma stack_grew s live : ga_ok (sheap s) live ->
  oom_or (alloc_interrupt_stack s) (fun rsp s' => exists p, rsp = p + HANDLER_STACK_SIZE /\ grew s live s' [(p, STACK)]).
Proof using.
  intros Hok.
  pose proof (box_grew s live STACK (fun p => fill p HANDLER_STACK_SIZE 0) Hok
    (layout_ok_1 HANDLER_STACK_SIZE ltac:(unfold HANDLER_STACK_SIZE; lia)) (fun p m a => fill_out p _ 0 m a)) as Hb.
  unfold alloc_interrupt_stack, mbind, M_bind, modify, mret, M_ret in *. change STACK with
    {| l_size := HANDLER_STACK_SIZE; l_align := 1 |} in Hb.
  destruct (on_sheap _ s) as [[p|e|e] s']; [|done..]. exists p. by destruct Hb.
Qed.
End grow.

(** ** The tables as the processor reads them *)

(** The handler of each vector. *)
Definition handler_of (fns : EntryPoints) (v : Z) : Z :=
  if v =? 3 then interrupt_entrypoint3 fns else if v =? 6 then interrupt_entrypoint6 fns
  else if v =? 8 then interrupt_entrypoint8 fns else if v =? 13 then interrupt_entrypoint13 fns
  else if v =? 14 then interrupt_entrypoint14 fns else if v =? 32 then interrupt_entrypoint32 fns
  else int_handler_unimplemented fns.

Lemma Idt_entries_lookup fns selector v :
  0 <= v < 256 ->
  Idt_entries fns selector !! Z.to_nat v = Some (IdtDescriptor_new selector (if v =? 8 then 2 else 1)
    (if v =? 3 then IntGateDPL3 else IntGateDPL0) (handler_of fns v)).
Proof.
  intros Hv. unfold Idt_entries, handler_of.
  destruct (Z.eqb_spec v 32) as [->|]; [reflexivity|]. destruct (Z.eqb_spec v 14) as [->|]; [reflexivity|].
  destruct (Z.eqb_spec v 13) as [->|]; [reflexivity|]. destruct (Z.eqb_spec v 8) as [->|]; [reflexivity|].
  destruct (Z.eqb_spec v 6) as [->|]; [reflexivity|]. destruct (Z.eqb_spec v 3) as [->|]; [reflexivity|].
  rewrite !list_lookup_insert_ne by lia. apply lookup_replicate_2. lia.
Qed.

Lemma length_Idt_entries fns selector : length (Idt_entries fns selector) = 256%nat.
Proof. unfold Idt_entries. by rewrite !length_insert, length_replicate. Qed.

Lemma Idt_bytes_const fns selector :
  Forall (fun l => length l = 16%nat) (IdtDescriptor_bytes <$> Idt_entries fns selector).
Proof. apply Forall_fmap, Forall_forall. intros d _. reflexivity. Qed.

Lemma stored_sub m a l k l' :
  stored m a l -> slice l k (length l') = l' -> (k + length l' <= length l)%nat ->
  stored m (a + Z.of_nat k) l'.
Proof.
  intros Hs Hl Hk. unfold stored. rewrite (read_bytes_slice _ _ (length l)) by done. by rewrite Hs.
Qed.

(** An address split into low, middle and high parts. *)
Lemma offset_join a : in_width 64 a ->
  wrap 16 a + 2 ^ 16 * wrap 16 (Z.shiftr a 16) + 2 ^ 32 * wrap 32 (Z.shiftr a 32) = a.
Proof.
  intros Ha. unfold in_width, wrap in *. rewrite !Z.shiftr_div_pow2 by lia.
  change (2 ^ 16) with 65536 in *. change (2 ^ 32) with 4294967296 in *.
  change (2 ^ 64) with 18446744073709551616 in *. div_lia.
Qed.

Section tables.
Context {H : Type}.
Implicit Types s : System H.

Lemma gate_ok s fns base v :
  idtr s = (4096, base) -> stored (bytes s) base (concat (IdtDescriptor_bytes <$> Idt_entries fns KERNEL_CS)) ->
  0 <= v < 256 -> in_width 64 (handler_of fns v) ->
  gate_at s v = Some {| g_offset := handler_of fns v; g_selector := KERNEL_CS;
    g_ist := if v =? 8 then 2 else 1; g_type := 14; g_dpl := if v =? 3 then 3 else 0; g_present := true |}.
Proof.
  intros Hi Hs Hv Hw. unfold gate_at. rewrite Hi, (proj2 (Z.ltb_ge _ _)) by lia.
  set (d := IdtDescriptor_new KERNEL_CS (if v =? 8 then 2 else 1)
    (if v =? 3 then IntGateDPL3 else IntGateDPL0) (handler_of fns v)).
  assert (stored (bytes s) (base + 16 * v) (IdtDescriptor_bytes d)) as Hd.
  { replace (base + 16 * v) with (base + Z.of_nat (16 * Z.to_nat v)) by lia.
    apply (stored_sub _ _ _ _ _ Hs).
    - apply slice_concat; [apply Idt_bytes_const|]. by rewrite list_lookup_fmap, Idt_entries_lookup.
    - rewrite (length_concat_const 16) by apply Idt_bytes_const.
      rewrite length_fmap, length_Idt_entries. change (length (IdtDescriptor_bytes d)) with 16%nat. lia. }
  pose proof (fun k n x => stored_read_le _ _ _ k n x Hd) as Hr.
  pose proof (fun k x => stored_byte _ _ _ k x Hd) as Hb.
  set (a := base + 16 * v) in *.
  replace (read_le (bytes s) a 2) with (offset_low d)
    by (symmetry; rewrite <- (Z.add_0_r a); apply (Hr 0%nat); [cbn; lia|reflexivity|by apply wrap_width]).
  replace (read_le (bytes s) (a + 6) 2) with (offset_mid d)
    by (symmetry; apply (Hr 6%nat); [cbn; lia|reflexivity|by apply wrap_width]).
  replace (read_le (bytes s) (a + 8) 4) with (offset_high d)
    by (symmetry; apply (Hr 8%nat); [cbn; lia|reflexivity|by apply wrap_width]).
  replace (read_le (bytes s) (a + 2) 2) with KERNEL_CS
    by (symmetry; apply (Hr 2%nat); [cbn; lia|reflexivity|by vm_compute]).
  rewrite (Hb 4%nat _ eq_refl : bytes s (a + 4) = _), (Hb 5%nat _ eq_refl : bytes s (a + 5) = _).
  cbn [offset_low offset_mid offset_high d IdtDescriptor_new ist_index attr].
  rewrite offset_join by done. do 2 f_equal.
  - by destruct (v =? 8).
  - by destruct (v =? 3).
  - by destruct (v =? 3).
  - by destruct (v =? 3).
Qed.
End tables.

(** ** Building and loading the tables *)

Section build.
Context {H : Type} `{GlobalAllocLaws H}.
Implicit Types s : System H.

Definition stack_box (p : Z) : Z * Layout := (p, STACK).
Definition top_of (p : Z) : Z := p + HANDLER_STACK_SIZE.
Definition packed (n : Z) : Layout := {| l_size := n; l_align := 1 |}.

Lemma stacks_grew {A} (xs : list A) s live : ga_ok (sheap s) live ->
  oom_or (mapM (fun _ => alloc_interrupt_stack) xs s) (fun tops s' => exists ps,
    tops = top_of <$> ps /\ length ps = length xs /\ grew s live s' (rev (stack_box <$> ps))).
Proof using.
  revert s live. induction xs as [|x xs IH]; intros s live Hok.
  - exists []. split_and!; [done|done|]. by split.
  - cbn [mapM]. eapply oom_bind; [by apply stack_grew|]. intros top s1 (p & -> & G1).
    eapply oom_bind; [apply (IH s1 (stack_box p :: live)), (gr_ok _ _ _ _ G1)|].
    intros tops s2 (ps & -> & Hl & G2). exists (p :: ps). cbn [fmap list_fmap rev length].
    split_and!; [done|by rewrite Hl|]. by apply (grew_trans s live s1 [stack_box p]).
Qed.

(** The bytes of the task state with its eight stacks. *)
Definition tss_bytes (p0 : Z) (ps : list Z) : list Z := TaskStateSegment64Inner_bytes
  {| _rsp := [top_of p0; 0; 0]; _ist := 0 :: (top_of <$> ps); _io_map_base_addr := 0 |}.

Lemma length_tss_bytes p0 ps : length ps = 7%nat -> length (tss_bytes p0 ps) = 104%nat.
Proof using. intros Hl. do 7 (destruct ps as [|? ps]; [done|]). by destruct ps. Qed.

Definition tss_boxes (tss p0 : Z) (ps : list Z) : list (Z * Layout) :=
  (tss, packed TSS_SIZE) :: rev (stack_box <$> ps) ++ [stack_box p0].

Lemma tss_grew s live : ga_ok (sheap s) live ->
  oom_or (TaskStateSegment64_new s) (fun tss s' => exists p0 ps, length ps = 7%nat /\
    grew s live s' (tss_boxes tss p0 ps) /\ stored (bytes s') tss (tss_bytes p0 ps)).
Proof using.
  intros Hok. unfold TaskStateSegment64_new. eapply oom_bind; [by apply stack_grew|].
  intros top s1 (p0 & -> & G1). eapply oom_bind; [apply stacks_grew, (gr_ok _ _ _ _ G1)|].
  intros tops s2 (ps & -> & Hl & G2). cbn [length] in Hl. rewrite length_seq in Hl.
  pose proof (grew_trans _ _ _ _ _ _ G1 G2) as G. fold (tss_bytes p0 ps).
  eapply oom_weaken; [apply (box_bytes_grew s2 _ (tss_bytes p0 ps) (gr_ok _ _ _ _ G)); rewrite length_tss_bytes by done; cbn; lia|].
  intros tss s3 [G3 Hs]. exists p0, ps. split_and!; [done| |done].
  rewrite length_tss_bytes in G3 by done. exact (grew_trans _ _ _ _ _ _ G G3).
Qed.

Definition gdt_bytes (tss : Z) : list Z := Gdt_bytes {|
  null_segment := GdtSegmentDescriptor_null;
  kernel_code_segment := GdtSegmentDescriptor_new KernelCode;
  kernel_data_segment := GdtSegmentDescriptor_new KernelData;
  task_state_segment := TaskStateSegment64Descriptor_new tss |}.

Lemma gdt_grew s live : ga_ok (sheap s) live ->
  oom_or (GdtWrapper_default s) (fun '(gdt, tss) s' => exists p0 ps, length ps = 7%nat /\
    grew s live s' ((gdt, packed GDT_SIZE) :: tss_boxes tss p0 ps) /\
    stored (bytes s') tss (tss_bytes p0 ps) /\ stored (bytes s') gdt (gdt_bytes tss)).
Proof using.
  intros Hok. unfold GdtWrapper_default. eapply oom_bind; [by apply tss_grew|].
  intros tss s1 (p0 & ps & Hl & G1 & Hs1). fold (gdt_bytes tss).
  eapply oom_bind; [apply (box_bytes_grew s1 _ (gdt_bytes tss) (gr_ok _ _ _ _ G1)); cbn; lia|].
  intros gdt s2 [G2 Hs2]. exists p0, ps. split_and!; [done|exact (grew_trans _ _ _ _ _ _ G1 G2)| |done].
  eapply (grew_stored _ _ _ _ tss _ (packed TSS_SIZE) G2); [by left| |done].
  rewrite length_tss_bytes by done. unfold TSS_SIZE. cbn. lia.
Qed.

(** The base the processor puts together from a TSS descriptor. *)
Lemma tss_base_join a : in_width 64 a ->
  le_decode (le_encode 2 (Z.land a 0xFFFF) ++ le_encode 1 (Z.land (Z.shiftr a 16) 0xFF)) +
  2 ^ 24 * Z.land (Z.shiftr a 24) 0xFF + 2 ^ 32 * Z.land (Z.shiftr a 32) 0xffffffff = a.
Proof using.
  intros Ha. change 0xFFFF with (Z.ones 16). change 0xFF with (Z.ones 8). change 0xffffffff with (Z.ones 32).
  rewrite !Z.land_ones, !Z.shiftr_div_pow2 by lia. unfold in_width in Ha.
  cbn [le_encode le_decode app].
  change (2 ^ 8) with 256 in *. change (2 ^ 16) with 65536 in *. change (2 ^ 24) with 16777216 in *.
  change (2 ^ 32) with 4294967296 in *. change (2 ^ 64) with 18446744073709551616 in *.
  div_lia.
Qed.

(** The GDT once LTR has marked the TSS busy. *)
Definition gdt_bytes_busy (tss : Z) : list Z := <[29%nat := 0x8B]> (gdt_bytes tss).

Lemma load_ok s gdt tss : stored (bytes s) gdt (gdt_bytes tss) -> in_width 64 tss ->
  exists s', GdtWrapper_load gdt s = (Ok tt, s') /\ sheap s' = sheap s /\ gdtr s' = (39, gdt) /\
    idtr s' = idtr s /\ tr s' = (TSS64_SEL, tss) /\ stored (bytes s') gdt (gdt_bytes_busy tss) /\
    (forall a, a < gdt \/ gdt + 40 <= a -> bytes s' a = bytes s a).
Proof using.
  intros Hs Ht. pose proof (fun k x => stored_byte _ _ _ k x Hs) as Hb.
  assert (bytes s (gdt + 24 + 5) = 0x89) as H29
    by (rewrite <- Z.add_assoc; exact (Hb 29%nat 0x89 eq_refl)).
  assert (read_le (bytes s) (gdt + 24 + 2) 3 + 2 ^ 24 * bytes s (gdt + 24 + 7) +
    2 ^ 32 * read_le (bytes s) (gdt + 24 + 8) 4 = tss) as Hbase.
  { rewrite <- (Z.add_assoc gdt 24 2), <- (Z.add_assoc gdt 24 7), <- (Z.add_assoc gdt 24 8).
    assert (read_le (bytes s) (gdt + (24 + 2)) 3 = le_decode (le_encode 2 (Z.land tss 0xFFFF) ++
      le_encode 1 (Z.land (Z.shiftr tss 16) 0xFF))) as ->.
    { unfold read_le. rewrite (read_bytes_slice _ _ 40 26 3 ltac:(lia) : read_bytes _ (gdt + (24 + 2)) 3 = _).
      rewrite (Hs : read_bytes (bytes s) gdt 40 = _). reflexivity. }
    assert (bytes s (gdt + (24 + 7)) = Z.land (Z.shiftr tss 24) 0xFF) as ->.
    { rewrite (Hb 31%nat (Z.land (Z.shiftr tss 24) 0xFF mod 256) eq_refl : bytes s (gdt + (24 + 7)) = _).
      change 0xFF with (Z.ones 8). rewrite Z.land_ones by lia. apply Z.mod_mod. lia. }
    assert (read_le (bytes s) (gdt + (24 + 8)) 4 = Z.land (Z.shiftr tss 32) 0xffffffff) as ->.
    { apply (stored_read_le _ _ _ 32 4 _ Hs); [cbn; lia|reflexivity|].
      change 0xffffffff with (Z.ones 32). rewrite Z.land_ones by lia. by apply (wrap_width 32). }
    by apply tss_base_join. }
  set (m := write_bytes (gdt + 29) [0x8B] (bytes s)).
  exists (with_bytes m (with_tr (TSS64_SEL, tss) (with_gdtr (39, gdt) s))).
  split; [|split_and!; try done].
  - unfold GdtWrapper_load, lgdt, ltr. mstep. mstep.
    cbn [gdtr with_gdtr bytes]. change (Z.land TSS64_SEL 0xFFF8) with 24. change (wrap 16 (GDT_SIZE - 1)) with 39.
    rewrite H29, Hbase. change (Z.lor 0x89 2) with 0x8B. rewrite <- Z.add_assoc. reflexivity.
  - unfold gdt_bytes_busy. apply (stored_insert _ _ _ 29); [done|cbn; lia].
  - intros a Ha. apply write_bytes_out. cbn. lia.
Qed.
End build.

(** ** Start-up of the exceptions *)

Section start.
Context {H : Type} `{GlobalAllocLaws H}.
Implicit Types s : System H.

Lemma gdt_segments s gdt tss : gdtr s = (39, gdt) -> stored (bytes s) gdt (gdt_bytes_busy tss) ->
  segment_at s KERNEL_CS = Some (GdtAttr_repr KernelCode) /\ segment_at s KERNEL_DS = Some (GdtAttr_repr KernelData).
Proof using.
  intros Hg Hs. unfold segment_at. rewrite Hg.
  change (Z.land KERNEL_CS 0xFFF8) with 8. change (Z.land KERNEL_DS 0xFFF8) with 16.
  cbn [Z.ltb Z.add Pos.add Z.compare Pos.compare Pos.compare_cont Pos.succ].
  split; f_equal.
  - apply (stored_read_le _ _ _ 8 8 _ Hs); [cbn; lia|reflexivity|by vm_compute].
  - apply (stored_read_le _ _ _ 16 8 _ Hs); [cbn; lia|reflexivity|by vm_compute].
Qed.

Definition KERNEL_SELECTORS : Selectors := {| sel_cs := KERNEL_CS; sel_ss := KERNEL_DS; sel_ds := KERNEL_DS;
  sel_es := KERNEL_DS; sel_fs := KERNEL_DS; sel_gs := KERNEL_DS |}.

Lemma load_segment_ok test f v s d : segment_at s v = Some d -> test d = true ->
  load_segment test f v s = (Ok tt, with_selectors (f (selectors s)) s).
Proof using. intros Hs Ht. unfold load_segment. mstep. by rewrite Hs, Ht. Qed.

Lemma segments_ok {A} (k : unit -> M (System H) A) s gdt tss :
  gdtr s = (39, gdt) -> stored (bytes s) gdt (gdt_bytes_busy tss) ->
  (write_cs KERNEL_CS;; write_ss KERNEL_DS;; write_es KERNEL_DS;; write_ds KERNEL_DS;;
   write_fs KERNEL_DS;; write_gs KERNEL_DS ≫= k) s = k tt (with_selectors KERNEL_SELECTORS s).
Proof using.
  intros Hg Hs. destruct (gdt_segments s gdt tss Hg Hs) as [Hc Hd].
  unfold write_cs. rewrite (bind_ok _ _ _ _ _ (load_segment_ok is_code64 _ _ _ _ Hc eq_refl)).
  unfold write_ss. erewrite bind_ok by (eapply load_segment_ok; [exact Hd|reflexivity]).
  unfold write_es. erewrite bind_ok by (eapply load_segment_ok; [exact Hd|reflexivity]).
  unfold write_ds. erewrite bind_ok by (eapply load_segment_ok; [exact Hd|reflexivity]).
  unfold write_fs. erewrite bind_ok by (eapply load_segment_ok; [exact Hd|reflexivity]).
  unfold write_gs. erewrite bind_ok by (eapply load_segment_ok; [exact Hd|reflexivity]).
  reflexivity.
Qed.

(** The stacks of the task state, read back. *)
Lemma tss_stacks s tss p0 ps :
  (tr s).2 = tss -> stored (bytes s) tss (tss_bytes p0 ps) -> length ps = 7%nat ->
  Forall (fun p => in_width 64 (top_of p)) (p0 :: ps) ->
  rsp0_stack s = top_of p0 /\
  (forall n p, 1 <= n -> ps !! Z.to_nat (n - 1) = Some p -> ist_stack s n = top_of p).
Proof using.
  intros Ht Hs Hl Hw. unfold rsp0_stack, ist_stack. rewrite Ht.
  apply Forall_cons in Hw as [Hp0 Hw].
  do 7 (destruct ps as [|? ps]; [done|]). destruct ps; [|done]. split.
  - by apply (stored_read_le _ _ _ 4 8 _ Hs); [cbn; lia|reflexivity|].
  - intros n p Hn Hp.
    assert (in_width 64 (top_of p)) as Hpw
      by (rewrite Forall_forall in Hw; apply Hw; by eapply list_elem_of_lookup_2).
    pose proof (lookup_lt_Some _ _ _ Hp) as Hlt. cbn [length] in Hlt.
    assert (n = 1 \/ n = 2 \/ n = 3 \/ n = 4 \/ n = 5 \/ n = 6 \/ n = 7) as
      [-> | [-> | [-> | [-> | [-> | [-> | -> ] ] ] ] ] ] by lia; cbn in Hp; injection Hp as ->;
      rewrite <- Z.add_assoc.
    + by apply (stored_read_le _ _ _ 36 8 _ Hs); [cbn; lia|reflexivity|].
    + by apply (stored_read_le _ _ _ 44 8 _ Hs); [cbn; lia|reflexivity|].
    + by apply (stored_read_le _ _ _ 52 8 _ Hs); [cbn; lia|reflexivity|].
    + by apply (stored_read_le _ _ _ 60 8 _ Hs); [cbn; lia|reflexivity|].
    + by apply (stored_read_le _ _ _ 68 8 _ Hs); [cbn; lia|reflexivity|].
    + by apply (stored_read_le _ _ _ 76 8 _ Hs); [cbn; lia|reflexivity|].
    + by apply (stored_read_le _ _ _ 84 8 _ Hs); [cbn; lia|reflexivity|].
Qed.

Definition idt_bytes (fns : EntryPoints) : list Z := concat (IdtDescriptor_bytes <$> Idt_entries fns KERNEL_CS).
Lemma length_idt_bytes fns : length (idt_bytes fns) = 4096%nat.
Proof using.
  unfold idt_bytes. rewrite (length_concat_const 16) by apply Idt_bytes_const.
  rewrite length_fmap, length_Idt_entries. reflexivity.
Qed.

(** What [init_exceptions] leaves. *)
Record started (fns : EntryPoints) (s : System H) (live : list (Z * Layout)) (gdt tss idt p0 : Z) (ps : list Z)
    (s' : System H) : Prop := {
  st_ok : ga_ok (sheap s') ((idt, packed 4096) :: (gdt, packed GDT_SIZE) :: tss_boxes tss p0 ps ++ live);
  st_ps : length ps = 7%nat;
  st_gdtr : gdtr s' = (39, gdt); st_idtr : idtr s' = (4096, idt); st_tr : tr s' = (TSS64_SEL, tss);
  st_sel : selectors s' = KERNEL_SELECTORS;
  st_gdt : stored (bytes s') gdt (gdt_bytes_busy tss);
  st_tss : stored (bytes s') tss (tss_bytes p0 ps);
  st_idt : stored (bytes s') idt (idt_bytes fns) }.

Lemma pairs_lookup {A} (R : A -> A -> Prop) l i j x y :
  ForallOrdPairs R l -> l !! i = Some x -> l !! j = Some y -> (i < j)%nat -> R x y.
Proof using.
  intros Hl. revert i j. induction Hl as [|a l Ha _ IH]; intros [|i] [|j] Hi Hj Hij; simplify_eq/=; try lia.
  - rewrite Forall_forall in Ha. apply Ha. by eapply list_elem_of_lookup_2.
  - apply (IH i j); [done|done|lia].
Qed.

Lemma stacks_apart fns s live gdt tss idt p0 ps s' : started fns s live gdt tss idt p0 ps s' ->
  Forall (fun p => in_width 64 (top_of p)) (p0 :: ps) /\
  (forall i j p q, (p0 :: ps) !! i = Some p -> (p0 :: ps) !! j = Some q -> i <> j ->
     p + HANDLER_STACK_SIZE <= q \/ q + HANDLER_STACK_SIZE <= p) /\
  (forall p o, p ∈ p0 :: ps -> o ∈ live -> apart (stack_box p) o).
Proof using.
  intros St. destruct (ga_objects _ _ (st_ok _ _ _ _ _ _ _ _ _ St)) as [Hobj Hap].
  assert (tss_boxes tss p0 ps ++ live = (tss, packed TSS_SIZE) :: rev (stack_box <$> p0 :: ps) ++ live) as Heq.
  { unfold tss_boxes. cbn [fmap list_fmap rev app]. by rewrite <- !app_assoc. }
  rewrite Heq in Hobj, Hap. do 3 (inversion Hap as [|? ? _ Hap']; clear Hap; subst; rename Hap' into Hap).
  change (ForallOrdPairs apart (rev (stack_box <$> p0 :: ps) ++ live)) in Hap.
  do 3 apply Forall_cons in Hobj as [_ Hobj]. apply Forall_app in Hobj as [Hobj _].
  apply Forall_rev in Hobj. rewrite rev_involutive, Forall_fmap in Hobj. split_and!.
  - eapply Forall_impl; [exact Hobj|]. intros p (Hp & Hb & _). unfold in_width, top_of. cbn in *.
    unfold HANDLER_STACK_SIZE in *. lia.
  - intros i j p q Hi Hj Hne. set (l := stack_box <$> p0 :: ps) in *.
    assert (forall k x, (p0 :: ps) !! k = Some x ->
      (rev l ++ live) !! (length l - S k)%nat = Some (stack_box x)) as Hrev.
    { intros k x Hk. assert (l !! k = Some (stack_box x)) as Hlk by (unfold l; by rewrite list_lookup_fmap, Hk).
      pose proof (lookup_lt_Some _ _ _ Hlk). apply lookup_app_l_Some.
      rewrite rev_alt. change (rev_append l []) with (reverse l).
      rewrite reverse_lookup by lia. by replace (length l - S (length l - S k))%nat with k by lia. }
    assert (i < length l /\ j < length l)%nat as [Hil Hjl]
      by (unfold l; rewrite length_fmap; split; by eapply lookup_lt_Some).
    pose proof (pairs_lookup apart _ _ _ _ _ Hap (Hrev i p Hi) (Hrev j q Hj)) as H1.
    pose proof (pairs_lookup apart _ _ _ _ _ Hap (Hrev j q Hj) (Hrev i p Hi)) as H2.
    unfold apart, stack_box, STACK in *. cbn in *.
    destruct (decide (i < j)%nat); [destruct H2|destruct H1]; lia.
  - intros p o Hp Ho. pose proof (apart_in o live _ Hap Ho) as Hf.
    rewrite Forall_forall in Hf. apply Hf. apply list_elem_of_In, (proj1 (in_rev _ _)).
    apply list_elem_of_In, list_elem_of_fmap. by exists p.
Qed.

Lemma stack_positive fns s live gdt tss idt p0 ps s' i p :
  started fns s live gdt tss idt p0 ps s' -> ps !! i = Some p -> 0 < p.
Proof using.
  intros St Hi. destruct (ga_objects _ _ (st_ok _ _ _ _ _ _ _ _ _ St)) as [Hobj _].
  rewrite Forall_forall in Hobj. apply (Hobj (stack_box p)). do 2 right. unfold tss_boxes. cbn [app]. right.
  rewrite !elem_of_app. do 2 left. apply list_elem_of_In, (proj1 (in_rev _ _)), list_elem_of_In, list_elem_of_fmap.
  exists p. split; [done|]. by eapply list_elem_of_lookup_2.
Qed.

Lemma init_exceptions_started fns s live : ga_ok (sheap s) live ->
  oom_or (init_exceptions fns s) (fun '((gdt, tss), idt) s' => exists p0 ps, started fns s live gdt tss idt p0 ps s').
Proof using.
  intros Hok. unfold init_exceptions. eapply oom_bind; [by apply gdt_grew|].
  intros [gdt tss] s1 (p0 & ps & Hl & G1 & Ht1 & Hg1). cbn [fst].
  destruct (ga_objects _ _ (gr_ok _ _ _ _ G1)) as [Hobj Hap].
  assert (in_width 64 tss) as Htw.
  { cbn [app tss_boxes] in Hobj. apply Forall_cons in Hobj as [_ [(? & ? & _) _]%Forall_cons].
    cbn in *. unfold in_width, TSS_SIZE in *. lia. }
  destruct (load_ok s1 gdt tss Hg1 Htw) as (s2 & Hload & Hh2 & Hgd2 & Hid2 & Htr2 & Hg2 & Hb2).
  rewrite (bind_ok _ _ _ _ _ Hload), (segments_ok _ s2 gdt tss Hgd2 Hg2).
  set (s3 := with_selectors KERNEL_SELECTORS s2).
  assert (stored (bytes s3) tss (tss_bytes p0 ps)) as Ht3.
  { apply (stored_ext (bytes s1)); [done|]. intros b Hb. apply Hb2.
    cbn [app] in Hap. inversion Hap as [|? ? Hf _]; subst. cbn [tss_boxes app] in Hf.
    apply Forall_cons in Hf as [Hf _]. rewrite length_tss_bytes in Hb by done.
    unfold apart, packed, GDT_SIZE, TSS_SIZE in Hf. cbn in Hf. lia. }
  unfold Idt_new. rewrite length_Idt_entries. fold (idt_bytes fns).
  assert (ga_ok (sheap s3) (((gdt, packed GDT_SIZE) :: tss_boxes tss p0 ps) ++ live)) as Hok3.
  { change (sheap s3) with (sheap s2). rewrite Hh2. apply (gr_ok _ _ _ _ G1). }
  eapply oom_bind; [eapply oom_bind; [apply (box_bytes_grew s3 _ (idt_bytes fns) Hok3);
    rewrite length_idt_bytes; reflexivity|]|].
  { intros idt s4 Hi. rewrite length_idt_bytes in Hi.
    instantiate (1 := fun b s5 => exists s4, s5 = with_idtr (4096, b) s4 /\
      grew s3 (((gdt, packed GDT_SIZE) :: tss_boxes tss p0 ps) ++ live) s4 [(b, packed 4096)] /\
      stored (bytes s4) b (idt_bytes fns)). by exists s4. }
  intros idt s5 (s4 & -> & G4 & Hi4). exists p0, ps. split; [|exact Hl|..|exact Hi4].
  - exact (gr_ok _ _ _ _ G4).
  - change (gdtr s4 = (39, gdt)). by rewrite (gr_gdtr _ _ _ _ G4).
  - reflexivity.
  - change (tr s4 = (TSS64_SEL, tss)). by rewrite (gr_tr _ _ _ _ G4).
  - change (selectors s4 = KERNEL_SELECTORS). by rewrite (gr_sel _ _ _ _ G4).
  - apply (grew_stored _ _ _ _ gdt _ (packed GDT_SIZE) G4); [by left| |done].
    unfold gdt_bytes_busy, GDT_SIZE. rewrite length_insert. cbn. lia.
  - apply (grew_stored _ _ _ _ tss _ (packed TSS_SIZE) G4); [by right; left| |done].
    rewrite length_tss_bytes by done. unfold TSS_SIZE. cbn. lia.
Qed.
End start.

(** C6. [init_exceptions] either finds no memory for its boxes or leaves a processor that can
    take exceptions, read through the table registers and the bytes in memory.  Every one of
    the 256 vectors has a present interrupt gate to its own entry point (the unimplemented
    handler for all but six), on interrupt stack 1 (2 for the double fault), open to user
    code only for the breakpoint, through a code segment that is a 64-bit one for ring 0 (its
    readable bit, 41, stays clear); every segment register is loaded from the new table; and
    the task register's TSS has eight stacks of 64 KiB that do not overlap each other or any
    object that was live. *)
Theorem exceptions_routed {H} `{GlobalAllocLaws H} (fns : EntryPoints) (s : System H) (live : list (Z * Layout))
  (Hok : ga_ok (sheap s) live) (Hfns : forall v, in_width 64 (handler_of fns v)) :
  match init_exceptions fns s with
  | (Ok _, s') =>
      (forall v, 0 <= v < 256 -> gate_at s' v = Some {| g_offset := handler_of fns v; g_selector := KERNEL_CS;
         g_ist := if v =? 8 then 2 else 1; g_type := 14; g_dpl := if v =? 3 then 3 else 0; g_present := true |}) /\
      (exists d, segment_at s' KERNEL_CS = Some d /\ is_code64 d = true /\ Z.testbit d 41 = false) /\
      selectors s' = KERNEL_SELECTORS /\
      exists stacks, length stacks = 8%nat /\
        (forall p, stacks !! 0%nat = Some p -> rsp0_stack s' = p + HANDLER_STACK_SIZE) /\
        (forall n p, 1 <= n -> stacks !! Z.to_nat n = Some p -> ist_stack s' n = p + HANDLER_STACK_SIZE) /\
        (forall i j p q, stacks !! i = Some p -> stacks !! j = Some q -> i <> j ->
           p + HANDLER_STACK_SIZE <= q \/ q + HANDLER_STACK_SIZE <= p) /\
        (forall p o, p ∈ stacks -> o ∈ live -> apart (stack_box p) o)
  | (Panic e, _) => e = msg_oom
  | (Err _, _) => False
  end.
Proof.
  pose proof (init_exceptions_started fns s live Hok) as Hst. unfold oom_or in Hst.
  destruct (init_exceptions fns s) as [[[[gdt tss] idt]|e|e] s']; [|done..].
  destruct Hst as (p0 & ps & St). pose proof (st_ps _ _ _ _ _ _ _ _ _ St) as Hl.
  split_and!.
  - intros v Hv. by apply (gate_ok s' fns idt v); [apply (st_idtr _ _ _ _ _ _ _ _ _ St)|apply (st_idt _ _ _ _ _ _ _ _ _ St)|..].
  - exists (GdtAttr_repr KernelCode). split_and!; [|by vm_compute..].
    by apply (gdt_segments s' gdt tss); [apply (st_gdtr _ _ _ _ _ _ _ _ _ St)|apply (st_gdt _ _ _ _ _ _ _ _ _ St)].
  - apply (st_sel _ _ _ _ _ _ _ _ _ St).
  - destruct (stacks_apart _ _ _ _ _ _ _ _ _ St) as (Hw & Hpw & Ho).
    destruct (tss_stacks s' tss p0 ps) as [Hr0 Hist]; try done.
    { by rewrite (st_tr _ _ _ _ _ _ _ _ _ St). }
    { apply (st_tss _ _ _ _ _ _ _ _ _ St). }
    exists (p0 :: ps). split_and!; [cbn; lia| | |done|done].
    + by intros p [= <-].
    + intros n p Hn Hp. apply Hist; [done|]. by replace (Z.to_nat n) with (S (Z.to_nat (n - 1))) in Hp by lia.
Qed.

(** ** Exceptions from end to end *)

(** The processor takes exception [v]: it reads the gate and the interrupt stack through the
    table registers and delivers the exception as [deliver] says. *)
Definition processor_exception {H} (s : System H) (err : option Z) (v : Z) (c : Cpu) : option Cpu :=
  g ← gate_at s v;
  d ← segment_at s (g_selector g);
  if negb (g_present g && (g_type g =? 14) && is_code64 d) then None else
  let top := if g_ist g =? 0 then gpr c RSP else ist_stack s (g_ist g) in
  Some (deliver top err (g_offset g) (g_selector g) c).

(** C20. An [int3] anywhere after a successful [init_exceptions] ([trigger_debug_interrupt])
    goes through the tables to [interrupt_entrypoint3] on the first interrupt stack, and
    comes back with every register and the floating-point state unchanged. *)
Theorem breakpoint_returns {H} `{GlobalAllocLaws H} (fns : EntryPoints) (s s' : System H) r
  (live : list (Z * Layout)) (rust : Cpu -> Cpu) (mem_bytes : Z -> Z) (cr2 : Z) (c : Cpu)
  (Hok : ga_ok (sheap s) live) (Hfns : forall v, in_width 64 (handler_of fns v))
  (Hinit : init_exceptions fns s = (Ok r, s'))
  (Hrust : SysvCall rust (ist_stack s' 1 / 16 * 16)) (Hfpu : length (fpu c) = 64%nat) :
  exists c1 c2, processor_exception s' None 3 c = Some c1 /\
    rip c1 = interrupt_entrypoint3 fns /\ cs c1 = KERNEL_CS /\
    exec rust mem_bytes cr2 (stub 3) c1 = (Ok tt, c2) /\ resumed c c2.
Proof.
  pose proof (init_exceptions_started fns s live Hok) as Hst. unfold oom_or in Hst. rewrite Hinit in Hst.
  destruct r as [[gdt tss] idt]. destruct Hst as (p0 & ps & St).
  destruct (stacks_apart _ _ _ _ _ _ _ _ _ St) as (Hw & _ & _).
  destruct (tss_stacks s' tss p0 ps) as [_ Hist].
  { by rewrite (st_tr _ _ _ _ _ _ _ _ _ St). }
  { apply (st_tss _ _ _ _ _ _ _ _ _ St). }
  { apply (st_ps _ _ _ _ _ _ _ _ _ St). }
  { exact Hw. }
  assert (exists p1, ps !! 0%nat = Some p1) as [p1 Hp1].
  { apply lookup_lt_is_Some. rewrite (st_ps _ _ _ _ _ _ _ _ _ St). lia. }
  specialize (Hist 1 p1 ltac:(lia) Hp1).
  assert (1024 <= ist_stack s' 1 < 2 ^ 64) as Htop.
  { pose proof (stack_positive _ _ _ _ _ _ _ _ _ _ _ St Hp1). rewrite Forall_forall in Hw.
    specialize (Hw p1 (list_elem_of_lookup_2 (p0 :: ps) 1 p1 Hp1)). rewrite Hist. unfold in_width in Hw.
    unfold top_of, HANDLER_STACK_SIZE in *. lia. }
  exists (deliver (ist_stack s' 1) None (interrupt_entrypoint3 fns) KERNEL_CS c).
  destruct (interrupt_run rust mem_bytes cr2 c (ist_stack s' 1) None (interrupt_entrypoint3 fns) KERNEL_CS 3)
    as (sc & dummy & _ & Hr); try done.
  { split; [by intros [? ?]|]. intros Hi. exfalso. revert Hi. apply (bool_decide_unpack _); vm_compute; exact I. }
  cbn [inthandler] in Hr. destruct Hr as (c2 & Hrun & Hres & _). exists c2. split_and!; try done.
  unfold processor_exception.
  rewrite (gate_ok s' fns idt 3 (st_idtr _ _ _ _ _ _ _ _ _ St) (st_idt _ _ _ _ _ _ _ _ _ St) ltac:(lia) (Hfns 3)).
  cbn [mbind option_bind g_selector]. 
  destruct (gdt_segments s' gdt tss (st_gdtr _ _ _ _ _ _ _ _ _ St) (st_gdt _ _ _ _ _ _ _ _ _ St)) as [-> _].
  reflexivity.
Qed.

(** ** Examples *)
Definition example_fns : EntryPoints := {|
  int_handler_unimplemented := 0x140001000; interrupt_entrypoint3 := 0x140001100;
  interrupt_entrypoint6 := 0x140001200; interrupt_entrypoint8 := 0x140001300;
  interrupt_entrypoint13 := 0x140001400; interrupt_entrypoint14 := 0x140001500;
  interrupt_entrypoint32 := 0x140001600 |}.
Definition example_system : System FirstFitAllocator := Build_System example_state (fun _ => 0xCC) (0, 0) (0, 0) (0, 0)
  {| sel_cs := 0x38; sel_ss := 0x30; sel_ds := 0x30; sel_es := 0x30; sel_fs := 0x30; sel_gs := 0x30 |}.

Lemma example_ga_ok : ga_ok example_state [].
Proof.
  apply (init_ga_ok example_map example_descriptors); [vm_compute; reflexivity|exact example_mmap_ok|].
  vm_compute. reflexivity.
Qed.

Lemma example_fns_ok v : in_width 64 (handler_of example_fns v).
Proof.
  unfold handler_of. repeat (destruct (_ =? _); [by vm_compute|]). by vm_compute.
Qed.

Lemma exceptions_routed_witness : exists r s', init_exceptions example_fns example_system = (Ok r, s') /\
  gate_at s' 8 = Some {| g_offset := 0x140001300; g_selector := 8; g_ist := 2; g_type := 14; g_dpl := 0; g_present := true |}.
Proof.
  assert (0 <= 8 < 256) as H8 by lia.
  pose proof (exceptions_routed example_fns example_system [] example_ga_ok example_fns_ok) as T.
  destruct (outcome_ok_test (fun _ => true) (init_exceptions example_fns example_system)) as (r & s' & Hr & _);
    [vm_compute; reflexivity|].
  rewrite Hr in T. exists r, s'. split; [exact Hr|]. exact (proj1 T 8 H8).
Defined.

Lemma breakpoint_returns_witness : exists s' c1 c2,
  processor_exception (H := FirstFitAllocator) s' None 3 example_cpu = Some c1 /\ rip c1 = 0x140001100 /\
  exec example_rust (fun _ => 0x90) 0 (stub 3) c1 = (Ok tt, c2) /\ resumed example_cpu c2.
Proof.
  destruct (outcome_ok_test (fun _ => true) (init_exceptions example_fns example_system)) as (r & s' & Hr & _);
    [vm_compute; reflexivity|].
  destruct (breakpoint_returns example_fns example_system s' r [] example_rust (fun _ => 0x90) 0 example_cpu
    example_ga_ok example_fns_ok Hr (example_rust_sysv _) eq_refl) as (c1 & c2 & H1 & H2 & _ & H3 & H4).
  exists s', c1, c2. exact (conj H1 (conj H2 (conj H3 H4))).
Defined.
