(* ===== verification/Console.v ===== *)
(** The console: [serial.rs] and [print.rs].

    The serial port is driven through the class [PortIo]; [Uart] states what a 16550 does
    when its registers are read and written.  [global_print] sends text to the port and to
    the frame-buffer writer behind its lock.  [hexdump_bytes] is the loop of the code, with
    what it prints as its state. *)
From S2P Require Import Prelude Graphics Mutex.
Import Mutex.Mutex Graphics.Graphics Graphics.Text.

(** ** Port I/O and the serial port *)

Class PortIo (D : Type) : Type := {
  read_io_port_u8 : Z -> D -> Z * D;
  write_io_port_u8 : Z -> Z -> D -> D }.

Record SerialPort : Type := { base : Z }.
Definition SerialPort_new (b : Z) : SerialPort := {| base := b |}.
Definition new_for_com1 : SerialPort := SerialPort_new 0x3F8.
Definition SerialPort_default : SerialPort := new_for_com1.

Section serial.
Context {D : Type} {IO : PortIo D}.

Definition in8 (port : Z) : M D Z := fun d => let '(v, d) := read_io_port_u8 port d in (Ok v, d).
Definition out8 (port v : Z) : M D unit := fun d => (Ok tt, write_io_port_u8 port v d).

(** [self.base + n] over [u16]. *)
Definition port (self : SerialPort) (n : Z) : M D Z := lift (add_chk 16 (base self) n).

Definition BAUD_DIVISOR : Z := 1.

Definition init (self : SerialPort) : M D unit :=
  p ← port self 1; out8 p 0x00;;
  p ← port self 3; out8 p 0x80;;
  out8 (base self) (wrap 8 (Z.land BAUD_DIVISOR 0xff));;
  p ← port self 1; out8 p (wrap 8 (Z.shiftr BAUD_DIVISOR 8));;
  p ← port self 3; out8 p 0x03;;
  p ← port self 2; out8 p 0xC7;;
  p ← port self 4; out8 p 0x0B.

(** [while (read(base + 5) & 0x20) == 0 {}], cut off after [fuel] reads. *)
Fixpoint wait_tx (fuel : nat) (self : SerialPort) : M D unit :=
  match fuel with
  | O => panic "out of fuel"
  | S fuel => p ← port self 5; v ← in8 p; if Z.land v 0x20 =? 0 then wait_tx fuel self else mret tt
  end.

Definition send_char (fuel : nat) (self : SerialPort) (c : Z) : M D unit :=
  wait_tx fuel self;; out8 (base self) (wrap 8 c).

Definition try_read (self : SerialPort) : M D (option Z) :=
  p ← port self 5; v ← in8 p;
  if Z.land v 1 =? 0 then mret None else
  c ← in8 (base self);
  p ← port self 2; out8 p 0xC7;;
  mret (Some c).

Definition loopback_test (fuel : nat) (self : SerialPort) : M D unit :=
  p ← port self 4; out8 p 0x1e;;
  send_char fuel self 84;;
  r ← try_read self;
  c ← lift (ok_or r "loopback_test failed: No responese");
  if negb (c =? 84) then throw "loopback_test failed: wrong data received" else
  p ← port self 4; out8 p 0x0f.

(** The iterator yields as many characters as it counted. *)
Definition send_str (fuel : nat) (self : SerialPort) (s : list Z) : M D unit :=
  for_each s (send_char fuel self).

(** [fmt::Write]: a new port at the default address each time. *)
Definition serial_write_str (fuel : nat) (s : list Z) : M D unit := send_str fuel SerialPort_default s.
End serial.

(** *** What a 16550 at [base] does

    Received bytes wait in a queue; a byte written to the data register while the
    transmitter is empty goes out on the line or, in loopback mode, into that queue.  After
    a byte the transmitter is busy for some number of status reads.  The data and interrupt
    registers are the divisor latch while DLAB is set. *)
Class Uart (D : Type) `{PortIo D} (b : Z) : Type := {
  received : D -> list Z;
  sent : D -> list Z;
  loopback : D -> bool;
  dlab : D -> bool;
  busy : D -> nat;
  lsr_data d : Z.testbit (read_io_port_u8 (b + 5) d).1 0 = negb (bool_decide (received d = []));
  lsr_empty d : Z.testbit (read_io_port_u8 (b + 5) d).1 5 = (busy d =? 0)%nat;
  lsr_state d : let d' := (read_io_port_u8 (b + 5) d).2 in
    received d' = received d /\ sent d' = sent d /\ loopback d' = loopback d /\ dlab d' = dlab d /\
    busy d' = pred (busy d);
  thr_write d c : dlab d = false -> busy d = 0%nat -> is_byte c ->
    let d' := write_io_port_u8 b c d in
    received d' = (if loopback d then received d ++ [c] else received d) /\
    sent d' = (if loopback d then sent d else sent d ++ [c]) /\
    loopback d' = loopback d /\ dlab d' = false;
  rbr_read d c l : dlab d = false -> received d = c :: l ->
    let '(v, d') := read_io_port_u8 b d in
    v = c /\ received d' = l /\ sent d' = sent d /\ loopback d' = loopback d /\ dlab d' = false;
  (** bit 1 of the FIFO control register empties the receive queue *)
  fcr_write d v : let d' := write_io_port_u8 (b + 2) v d in
    received d' = (if Z.testbit v 1 then [] else received d) /\
    sent d' = sent d /\ loopback d' = loopback d /\ dlab d' = dlab d;
  (** bit 4 of the modem control register is loopback mode *)
  mcr_write d v : let d' := write_io_port_u8 (b + 4) v d in
    received d' = received d /\ sent d' = sent d /\ loopback d' = Z.testbit v 4 /\ dlab d' = dlab d }.

Section uart.
Context {D : Type} `{Uart D (base SerialPort_default)}.
Abbreviation com1 := SerialPort_default.
Implicit Types d : D.

Lemma port_ok n d : 0 <= n < 8 -> port com1 n d = (Ok (base com1 + n), d).
Proof using. intros Hn. unfold port, lift. rewrite add_chk_ok; [done|]. cbn. lia. Qed.

Lemma bind_port {A} n (k : Z -> M D A) d : 0 <= n < 8 -> (port com1 n ≫= k) d = k (base com1 + n) d.
Proof using. intros Hn. by rewrite (bind_ok _ _ _ _ _ (port_ok n d Hn)). Qed.

Lemma bind_in8 {A} p (k : Z -> M D A) d :
  (in8 p ≫= k) d = k (read_io_port_u8 p d).1 (read_io_port_u8 p d).2.
Proof using. unfold in8, mbind, M_bind. by destruct (read_io_port_u8 p d). Qed.

Lemma bind_out8 {A} p v (k : unit -> M D A) d : (out8 p v ≫= k) d = k tt (write_io_port_u8 p v d).
Proof using. done. Qed.

(** Waiting for the transmitter ends, with nothing else changed. *)
Lemma wait_tx_ok d : exists d', busy d' = 0%nat /\ received d' = received d /\ sent d' = sent d /\
  loopback d' = loopback d /\ dlab d' = dlab d /\
  forall fuel, (busy d < fuel)%nat -> wait_tx fuel com1 d = (Ok tt, d').
Proof using.
  remember (busy d) as n eqn:Hn. revert d Hn. induction n as [|n IH]; intros d Hn.
  - destruct (lsr_state d) as (H1 & H2 & H3 & H4 & H5). eexists. split_and!; [|exact H1|exact H2|exact H3|exact H4|].
    { by rewrite H5, <- Hn. }
    intros [|fuel] Hf; [lia|]. cbn [wait_tx]. rewrite bind_port, bind_in8 by lia.
    change 0x20 with (2 ^ 5). pose proof (land_pow2_testbit (read_io_port_u8 (base com1 + 5) d).1 5 ltac:(lia)) as Hb.
    rewrite lsr_empty, <- Hn in Hb. apply negb_true_iff in Hb. by rewrite Hb.
  - destruct (lsr_state d) as (H1 & H2 & H3 & H4 & H5).
    destruct (IH (read_io_port_u8 (base com1 + 5) d).2) as (d' & G0 & G1 & G2 & G3 & G4 & Hrun).
    { by rewrite H5, <- Hn. }
    exists d'. split_and!; try congruence. intros [|fuel] Hf; [lia|]. cbn [wait_tx].
    rewrite bind_port, bind_in8 by lia.
    change 0x20 with (2 ^ 5). pose proof (land_pow2_testbit (read_io_port_u8 (base com1 + 5) d).1 5 ltac:(lia)) as Hb.
    rewrite lsr_empty, <- Hn in Hb. apply negb_false_iff in Hb. rewrite Hb. apply Hrun. lia.
Qed.

Lemma send_char_ok c d : dlab d = false -> exists d',
  received d' = (if loopback d then received d ++ [wrap 8 c] else received d) /\
  sent d' = (if loopback d then sent d else sent d ++ [wrap 8 c]) /\
  loopback d' = loopback d /\ dlab d' = false /\
  forall fuel, (busy d < fuel)%nat -> send_char fuel com1 c d = (Ok tt, d').
Proof using.
  intros Hd. destruct (wait_tx_ok d) as (d1 & Hb & H1 & H2 & H3 & H4 & Hrun).
  destruct (thr_write d1 (wrap 8 c)) as (G1 & G2 & G3 & G4); [congruence|done|by apply wrap_width|].
  eexists. split_and!; [by rewrite G1, H1, H3|by rewrite G2, H2, H3|by rewrite G3|done|].
  intros fuel Hf. unfold send_char. by rewrite (bind_ok _ _ _ _ _ (Hrun fuel Hf)).
Qed.

(** Every character of a string is sent, in order, once there is fuel for the waits: on the
    line, or back into the receive queue in loopback mode. *)
Lemma send_str_any s d : dlab d = false -> exists fuel0 d',
  sent d' = (if loopback d then sent d else sent d ++ (wrap 8 <$> s)) /\
  received d' = (if loopback d then received d ++ (wrap 8 <$> s) else received d) /\
  loopback d' = loopback d /\ dlab d' = false /\
  forall fuel, (fuel0 <= fuel)%nat -> send_str fuel com1 s d = (Ok tt, d').
Proof using.
  revert d. induction s as [|c s IH]; intros d Hd.
  - exists 0%nat, d. by rewrite !app_nil_r; destruct (loopback d).
  - destruct (send_char_ok c d Hd) as (d1 & H1 & H2 & H3 & H4 & Hrun).
    destruct (IH d1 H4) as (f & d2 & G1 & G2 & G3 & G4 & Hrun'). rewrite H3 in *.
    exists (Nat.max f (S (busy d))), d2. rewrite G1, G2, H1, H2, fmap_cons.
    split_and!; [by destruct (loopback d); rewrite <- ?app_assoc..|done|done|].
    intros fuel Hf. unfold send_str. cbn [for_each]. rewrite (bind_ok _ _ _ _ _ (Hrun fuel ltac:(lia))).
    apply Hrun'. lia.
Qed.

Lemma send_str_ok s d : dlab d = false -> loopback d = false -> exists fuel0 d',
  sent d' = sent d ++ (wrap 8 <$> s) /\ received d' = received d /\ loopback d' = false /\ dlab d' = false /\
  forall fuel, (fuel0 <= fuel)%nat -> send_str fuel com1 s d = (Ok tt, d').
Proof using.
  intros Hd Hl. destruct (send_str_any s d Hd) as (f & d' & H1 & H2 & H3 & H4 & Hrun).
  rewrite Hl in *. by exists f, d'.
Qed.

Lemma try_read_ok d : dlab d = false -> exists d',
  try_read com1 d = (Ok (head (received d)), d') /\ received d' = [] /\ sent d' = sent d /\
  loopback d' = loopback d /\ dlab d' = false.
Proof using.
  intros Hd. destruct (lsr_state d) as (H1 & H2 & H3 & H4 & _).
  pose proof (land_pow2_testbit (read_io_port_u8 (base com1 + 5) d).1 0 ltac:(lia)) as Hb.
  rewrite lsr_data in Hb. change (2 ^ 0) with 1 in Hb.
  unfold try_read. rewrite bind_port, bind_in8 by lia.
  destruct (received d) as [|c l] eqn:Hr.
  - rewrite bool_decide_eq_true_2 in Hb by done. apply negb_false_iff in Hb. rewrite Hb.
    eexists. split_and!; [done|done|done|done|congruence].
  - rewrite bool_decide_eq_false_2 in Hb by done. apply negb_true_iff in Hb. rewrite Hb.
    set (d1 := (read_io_port_u8 (base com1 + 5) d).2) in *.
    pose proof (rbr_read d1 c l (eq_trans H4 Hd) H1) as Hrbr. rewrite bind_in8.
    destruct (read_io_port_u8 (base com1) d1) as [v d2]. cbn [fst snd].
    destruct Hrbr as (-> & G1 & G2 & G3 & G4). rewrite bind_port, bind_out8 by lia.
    destruct (fcr_write d2 0xC7) as (F1 & F2 & F3 & F4). eexists. split_and!; [done|done|congruence..].
Qed.

(** The loopback test passes on a port with nothing waiting, puts nothing on the line and
    leaves loopback mode; when another byte is waiting it reports wrong data and returns
    with the port still in loopback mode. *)
Lemma loopback_test_ok d : dlab d = false -> received d = [] -> exists fuel0 d',
  (forall fuel, (fuel0 <= fuel)%nat -> loopback_test fuel com1 d = (Ok tt, d')) /\
  loopback d' = false /\ sent d' = sent d /\ received d' = [] /\ dlab d' = false.
Proof using.
  intros Hdlab Hr. destruct (mcr_write (b := base com1) d 0x1e) as (M1 & M2 & M3 & M4).
  set (d1 := write_io_port_u8 (base com1 + 4) 0x1e d) in *.
  destruct (send_char_ok 84 d1 (eq_trans M4 Hdlab)) as (d2 & S1 & S2 & S3 & S4 & Hsend).
  rewrite M3 in *. change (Z.testbit 0x1e 4) with true in *. cbn iota in *.
  destruct (try_read_ok d2 S4) as (d3 & Hrun & R1 & R2 & R3 & R4). rewrite S1, M1, Hr in Hrun.
  destruct (mcr_write (b := base com1) d3 0x0f) as (N1 & N2 & N3 & N4).
  exists (S (busy d1)). eexists. split; [|split_and!; [by rewrite N3|congruence..]].
  intros fuel Hf. unfold loopback_test. rewrite bind_port, bind_out8 by lia. fold d1.
  rewrite (bind_ok _ _ _ _ _ (Hsend fuel ltac:(lia))), (bind_ok _ _ _ _ _ Hrun). cbn [head app ok_or]. mstep.
  change (wrap 8 84 =? 84) with true. cbn [negb]. by rewrite bind_port by lia.
Qed.

Lemma loopback_test_stuck c l d : dlab d = false -> received d = c :: l -> c <> 84 -> exists fuel0 d',
  (forall fuel, (fuel0 <= fuel)%nat ->
     loopback_test fuel com1 d = (Err "loopback_test failed: wrong data received", d')) /\
  loopback d' = true /\ sent d' = sent d /\ received d' = [] /\ dlab d' = false.
Proof using.
  intros Hdlab Hr Hc. destruct (mcr_write (b := base com1) d 0x1e) as (M1 & M2 & M3 & M4).
  set (d1 := write_io_port_u8 (base com1 + 4) 0x1e d) in *.
  destruct (send_char_ok 84 d1 (eq_trans M4 Hdlab)) as (d2 & S1 & S2 & S3 & S4 & Hsend).
  rewrite M3 in *. change (Z.testbit 0x1e 4) with true in *. cbn iota in *.
  destruct (try_read_ok d2 S4) as (d3 & Hrun & R1 & R2 & R3 & R4). rewrite S1, M1, Hr in Hrun.
  exists (S (busy d1)), d3. split; [|split_and!; congruence].
  intros fuel Hf. unfold loopback_test. rewrite bind_port, bind_out8 by lia. fold d1.
  rewrite (bind_ok _ _ _ _ _ (Hsend fuel ltac:(lia))), (bind_ok _ _ _ _ _ Hrun). cbn [head app ok_or]. mstep.
  by rewrite (proj2 (Z.eqb_neq _ _)) by done.
Qed.
End uart.

(** *** A port that answers the class's laws: each byte keeps the transmitter busy for three
    status reads. *)
Record SimpleUart : Type := {
  u_received : list Z; u_sent : list Z; u_loopback : bool; u_dlab : bool; u_busy : nat }.
#[export] Instance SimpleUart_PortIo : PortIo SimpleUart := {
  read_io_port_u8 p d :=
    if p =? 0x3F8 then
      if u_dlab d then (0, d) else
      match u_received d with
      | [] => (0, d)
      | c :: l => (c, {| u_received := l; u_sent := u_sent d; u_loopback := u_loopback d;
                         u_dlab := u_dlab d; u_busy := u_busy d |})
      end
    else if p =? 0x3FD then
      (Z.lor (Z.b2z (negb (bool_decide (u_received d = [])))) (if (u_busy d =? 0)%nat then 0x60 else 0),
       {| u_received := u_received d; u_sent := u_sent d; u_loopback := u_loopback d;
          u_dlab := u_dlab d; u_busy := pred (u_busy d) |})
    else (0, d);
  write_io_port_u8 p v d :=
    if p =? 0x3F8 then
      if u_dlab d then d else
      if u_loopback d
      then {| u_received := u_received d ++ [v]; u_sent := u_sent d; u_loopback := true; u_dlab := false; u_busy := 3 |}
      else {| u_received := u_received d; u_sent := u_sent d ++ [v]; u_loopback := false; u_dlab := false; u_busy := 3 |}
    else if p =? 0x3FA then
      {| u_received := if Z.testbit v 1 then [] else u_received d; u_sent := u_sent d;
         u_loopback := u_loopback d; u_dlab := u_dlab d; u_busy := u_busy d |}
    else if p =? 0x3FB then
      {| u_received := u_received d; u_sent := u_sent d; u_loopback := u_loopback d;
         u_dlab := Z.testbit v 7; u_busy := u_busy d |}
    else if p =? 0x3FC then
      {| u_received := u_received d; u_sent := u_sent d; u_loopback := Z.testbit v 4;
         u_dlab := u_dlab d; u_busy := u_busy d |}
    else d }.

#[export] Instance SimpleUart_Uart : Uart SimpleUart (base SerialPort_default).
Proof.
  refine {| received := u_received; sent := u_sent; loopback := u_loopback; dlab := u_dlab; busy := u_busy |}.
  - intros d. cbn [read_io_port_u8 SimpleUart_PortIo base SerialPort_default new_for_com1 SerialPort_new].
    change (0x3F8 + 5 =? 0x3F8) with false. change (0x3F8 + 5 =? 0x3FD) with true. cbn [fst].
    rewrite Z.lor_spec. destruct (bool_decide _), (u_busy d =? 0)%nat; reflexivity.
  - intros d. cbn [read_io_port_u8 SimpleUart_PortIo base SerialPort_default new_for_com1 SerialPort_new].
    change (0x3F8 + 5 =? 0x3F8) with false. change (0x3F8 + 5 =? 0x3FD) with true. cbn [fst].
    rewrite Z.lor_spec. destruct (bool_decide _), (u_busy d =? 0)%nat; reflexivity.
  - intros d. by split_and!.
  - intros d c Hd _ _. cbn [write_io_port_u8 SimpleUart_PortIo base SerialPort_default new_for_com1 SerialPort_new].
    change (0x3F8 =? 0x3F8) with true. rewrite Hd. by destruct (u_loopback d).
  - intros d c l Hd Hr. cbn [read_io_port_u8 SimpleUart_PortIo base SerialPort_default new_for_com1 SerialPort_new].
    change (0x3F8 =? 0x3F8) with true. by rewrite Hd, Hr.
  - intros d v. by split_and!.
  - intros d v. by split_and!.
Defined.

Definition example_uart (rx : list Z) : SimpleUart :=
  {| u_received := rx; u_sent := []; u_loopback := false; u_dlab := false; u_busy := 2 |}.

(** [init] leaves the port ready: the divisor latch is closed again and loopback is off. *)
Example init_ready : match init SerialPort_default (example_uart []) with
  | (Ok _, d) => u_dlab d = false /\ u_loopback d = false | _ => False end.
Proof. by split. Qed.

(** C8. The serial console loses and reorders nothing: [send_str] terminates on every port
    whose transmitter empties after each byte, and puts on the line exactly the low bytes of
    its characters, in order. *)
Theorem send_str_transmits {D} `{Uart D (base SerialPort_default)} (s : list Z) (d : D)
  (Hdlab : dlab d = false) (Hloop : loopback d = false) :
  exists fuel0, forall fuel, (fuel0 <= fuel)%nat -> exists d',
    send_str fuel SerialPort_default s d = (Ok tt, d') /\
    sent d' = sent d ++ (wrap 8 <$> s) /\ received d' = received d.
Proof.
  destruct (send_str_ok s d Hdlab Hloop) as (f & d' & H1 & H2 & _ & _ & Hrun).
  exists f. intros fuel Hf. exists d'. split; [by apply Hrun|done].
Qed.

Lemma send_str_transmits_witness : exists fuel0 d',
  send_str fuel0 SerialPort_default [72; 105; 10] (example_uart []) = (Ok tt, d') /\ u_sent d' = [72; 105; 10].
Proof.
  destruct (send_str_transmits [72; 105; 10] (example_uart [])) as (f & Hf); [reflexivity|reflexivity|].
  destruct (Hf f (Nat.le_refl f)) as (d' & H1 & H2 & _). exists f, d'. split; [exact H1|exact H2].
Defined.

(** [try_read] resets the receive queue: what had arrived behind the byte it returns is lost. *)
Example try_read_loses_input : match try_read SerialPort_default (example_uart [97; 98; 99]) with
  | (Ok (Some 97), d) => u_received d = [] | _ => False end.
Proof. reflexivity. Qed.

(** ** [hexdump_bytes] *)

(** Text as characters; [{:0wX}] of a non-negative number. *)
Definition text (s : string) : list Z := (fun c => Z.of_N (Ascii.N_of_ascii c)) <$> String.list_ascii_of_string s.
Definition hex_digit (d : Z) : Z := if d <? 10 then 48 + d else 55 + d.
Fixpoint hex_rev (fuel : nat) (n : Z) : list Z :=
  match fuel with
  | O => []
  | S fuel => if n =? 0 then [] else hex_digit (n mod 16) :: hex_rev fuel (n / 16)
  end.
Definition upper_hex (w : nat) (n : Z) : list Z :=
  let ds := hex_rev 16 n in rev (ds ++ replicate (w - length ds) 48).

Record Dump : Type := { d_i : nat; d_ascii : list Z; d_offset : Z; d_out : list Z }.
Definition print (s : list Z) : M Dump unit := modify (fun d =>
  {| d_i := d_i d; d_ascii := d_ascii d; d_offset := d_offset d; d_out := d_out d ++ s |}).
Definition set_i (i : nat) : M Dump unit := modify (fun d =>
  {| d_i := i; d_ascii := d_ascii d; d_offset := d_offset d; d_out := d_out d |}).
Definition set_offset (o : Z) : M Dump unit := modify (fun d =>
  {| d_i := d_i d; d_ascii := d_ascii d; d_offset := o; d_out := d_out d |}).
Definition set_ascii (i : nat) (v : Z) : M Dump unit := d ← get;
  if (i <? length (d_ascii d))%nat
  then modify (fun d => {| d_i := d_i d; d_ascii := <[i := v]> (d_ascii d); d_offset := d_offset d; d_out := d_out d |})
  else panic "index out of bounds".

(** The character of a full line and of the last, partial one. *)
Definition full_char (c : Z) : Z := if (0x20 <=? c) && (c <=? 0x7E) then c else 46.
Definition tail_char (c : Z) : Z := if (0x20 <=? c) && (c <=? 0x7f) then c else 46.

(** The body of the loop over the bytes; [offset] is an [i32]. *)
Definition hexdump_byte (v : Z) : M Dump unit :=
  d ← get;
  (if (d_i d =? 0)%nat then print (upper_hex 8 (d_offset d) ++ text ":  ") else mret tt);;
  print (upper_hex 2 v ++ text " ");;
  set_ascii (d_i d) v;;
  set_i (d_i d + 1);;
  d ← get;
  if negb (d_i d =? 16)%nat then mret tt else
  print (text " | ");;
  for_each (d_ascii d) (fun c => print [full_char c]);;
  print (text "|" ++ [10]);;
  o ← lift (if d_offset d + 16 <? 2 ^ 31 then Ok (d_offset d + 16) else Panic msg_add);
  set_offset o;;
  set_i 0.

Fixpoint pad_line (n : nat) : M Dump unit :=
  match n with O => mret tt | S n => d ← get; print (text "   ");; set_i (d_i d + 1);; pad_line n end.

Definition hexdump_bytes (bytes : list Z) : M Dump unit :=
  for_each bytes hexdump_byte;;
  d ← get;
  if (d_i d =? 0)%nat then mret tt else
  let old_i := d_i d in
  pad_line (16 - d_i d);;
  print (text "|");;
  d ← get;
  for_each (take old_i (d_ascii d)) (fun c => print [tail_char c]);;
  print (text "|" ++ [10]).

Definition Dump_start : Dump := {| d_i := 0; d_ascii := replicate 16 0; d_offset := 0; d_out := [] |}.

(** *** What a hex dump is: one line for every sixteen bytes. *)
Definition hex_cells (l : list Z) : list Z := concat ((fun v => upper_hex 2 v ++ text " ") <$> l).
Definition dump_line (offset : Z) (l : list Z) : list Z :=
  upper_hex 8 offset ++ text ":  " ++ hex_cells l ++
  (if (length l =? 16)%nat then text " | " ++ (full_char <$> l)
   else concat (replicate (16 - length l) (text "   ")) ++ text "|" ++ (tail_char <$> l)) ++ text "|" ++ [10].
Fixpoint dump_lines (fuel : nat) (offset : Z) (bytes : list Z) : list Z :=
  match fuel, bytes with
  | S fuel, _ :: _ => dump_line offset (take 16 bytes) ++ dump_lines fuel (offset + 16) (drop 16 bytes)
  | _, _ => []
  end.

Example hexdump_example :
  d_out (hexdump_bytes [72; 101; 0x7f] Dump_start).2 =
  text "00000000:  48 65 7F " ++ concat (replicate 13 (text "   ")) ++ text "|He" ++ [0x7f] ++ text "|" ++ [10].
Proof. vm_compute. reflexivity. Qed.

Lemma bind_print {A} s (k : unit -> M Dump A) d : (print s ≫= k) d =
  k tt {| d_i := d_i d; d_ascii := d_ascii d; d_offset := d_offset d; d_out := d_out d ++ s |}.
Proof. done. Qed.

Lemma for_each_print (f : Z -> Z) l i a o out :
  for_each l (fun c => print [f c]) {| d_i := i; d_ascii := a; d_offset := o; d_out := out |} =
  (Ok tt, {| d_i := i; d_ascii := a; d_offset := o; d_out := out ++ (f <$> l) |}).
Proof.
  revert out. induction l as [|c l IH]; intros out; cbn [for_each fmap list_fmap].
  - by rewrite app_nil_r.
  - rewrite bind_print. cbn [d_i d_ascii d_offset d_out]. rewrite IH. by rewrite <- app_assoc.
Qed.

Lemma hex_cells_snoc l v : hex_cells (l ++ [v]) = hex_cells l ++ upper_hex 2 v ++ text " ".
Proof. unfold hex_cells. rewrite fmap_app, concat_app. cbn [fmap list_fmap concat]. by rewrite app_nil_r. Qed.

(** A byte before the last column only adds its cell. *)
Lemma hexdump_byte_mid v i a o out : (i < 15)%nat -> length a = 16%nat ->
  hexdump_byte v {| d_i := i; d_ascii := a; d_offset := o; d_out := out |} =
  (Ok tt, {| d_i := S i; d_ascii := <[i := v]> a; d_offset := o;
    d_out := out ++ (if (i =? 0)%nat then upper_hex 8 o ++ text ":  " else []) ++ upper_hex 2 v ++ text " " |}).
Proof.
  intros Hi Ha. unfold hexdump_byte. mstep. cbn [d_i d_offset].
  rewrite (bind_ok _ _ _ tt {| d_i := i; d_ascii := a; d_offset := o;
    d_out := out ++ (if (i =? 0)%nat then upper_hex 8 o ++ text ":  " else []) |}).
  2:{ destruct (i =? 0)%nat; [done|]. by rewrite app_nil_r. }
  rewrite bind_print. cbn [d_i d_ascii d_offset d_out].
  erewrite bind_ok.
  2:{ unfold set_ascii. mstep. cbn [d_ascii]. rewrite Ha, (proj2 (Nat.ltb_lt _ _)) by lia. reflexivity. }
  mstep. mstep. cbn [d_i d_ascii d_offset d_out]. rewrite Nat.add_1_r, (proj2 (Nat.eqb_neq (S i) 16)) by lia.
  cbn [negb]. unfold mret, M_ret. by rewrite <- !app_assoc.
Qed.

(** Up to fifteen bytes fill the line so far. *)
Lemma hexdump_partial l o a out : (length l <= 15)%nat -> length a = 16%nat -> l <> [] -> exists a',
  for_each l hexdump_byte {| d_i := 0; d_ascii := a; d_offset := o; d_out := out |} =
  (Ok tt, {| d_i := length l; d_ascii := a'; d_offset := o;
    d_out := out ++ upper_hex 8 o ++ text ":  " ++ hex_cells l |}) /\ length a' = 16%nat /\ take (length l) a' = l.
Proof.
  intros Hl Ha. induction l as [|v l IH] using rev_ind; [done|]. intros _. rewrite length_app in *. cbn [length] in *.
  destruct (decide (l = [])) as [->|Hne].
  - exists (<[0%nat := v]> a). cbn [app for_each]. rewrite (bind_ok _ _ _ _ _ (hexdump_byte_mid v 0 a o out ltac:(lia) Ha)).
    split_and!; [|by rewrite length_insert|].
    + cbn [Nat.eqb hex_cells fmap list_fmap concat length Nat.add]. rewrite app_nil_r, <- !app_assoc. reflexivity.
    + destruct a; [done|]. reflexivity.
  - destruct (IH ltac:(lia) Hne) as (a' & Hrun & Ha' & Ht). exists (<[length l := v]> a').
    rewrite for_each_app, (bind_ok _ _ _ _ _ Hrun). cbn [for_each].
    rewrite (bind_ok _ _ _ _ _ (hexdump_byte_mid v (length l) a' o _ ltac:(lia) Ha')).
    rewrite (proj2 (Nat.eqb_neq _ _)) by by destruct l. split_and!; [|by rewrite length_insert|].
    + rewrite Nat.add_1_r, hex_cells_snoc, <- !app_assoc. reflexivity.
    + rewrite Nat.add_1_r. erewrite take_S_r by (apply list_lookup_insert_eq; lia).
      by rewrite take_insert_ge, Ht by lia.
Qed.

Lemma list_rev_snoc {A} (l : list A) n : length l = S n -> exists k v, l = k ++ [v] /\ length k = n.
Proof.
  destruct l as [|v k _] using rev_ind; [done|]. rewrite length_app. cbn. intros H. exists k, v. split; [done|lia].
Qed.

(** The sixteenth byte ends the line. *)
Lemma hexdump_byte_last v a o out l : length l = 15%nat -> length a = 16%nat -> take 15 a = l -> 0 <= o -> o + 16 < 2 ^ 31 ->
  hexdump_byte v {| d_i := 15; d_ascii := a; d_offset := o; d_out := out |} =
  (Ok tt, {| d_i := 0; d_ascii := l ++ [v]; d_offset := o + 16;
    d_out := out ++ upper_hex 2 v ++ text " " ++ text " | " ++ (full_char <$> l ++ [v]) ++ text "|" ++ [10] |}).
Proof.
  intros Hl Ha Ht Ho1 Ho. assert (<[15%nat := v]> a = l ++ [v]) as Hins.
  { rewrite <- Ht. do 16 (destruct a as [|? a]; [done|]). by destruct a. }
  unfold hexdump_byte. mstep. cbn [d_i d_offset Nat.eqb]. mstep. rewrite bind_print. cbn [d_i d_ascii d_offset d_out].
  erewrite bind_ok.
  2:{ unfold set_ascii. mstep. cbn [d_ascii]. rewrite Ha. cbn [Nat.ltb Nat.leb]. reflexivity. }
  mstep. mstep. cbn [d_i d_ascii d_offset d_out Nat.add Nat.eqb negb]. rewrite bind_print. cbn [d_i d_ascii d_offset d_out].
  rewrite Hins, (bind_ok _ _ _ _ _ (for_each_print full_char _ _ _ _ _)).
  rewrite bind_print. cbn [d_i d_ascii d_offset d_out]. rewrite (proj2 (Z.ltb_lt _ _)) by done.
  mstep. mstep. cbn [d_i d_ascii d_offset d_out]. unfold set_i, modify. cbn [d_i d_ascii d_offset d_out].
  by rewrite <- !app_assoc.
Qed.

Lemma hexdump_full_line l o a out : length l = 16%nat -> length a = 16%nat -> 0 <= o -> o + 16 < 2 ^ 31 ->
  for_each l hexdump_byte {| d_i := 0; d_ascii := a; d_offset := o; d_out := out |} =
  (Ok tt, {| d_i := 0; d_ascii := l; d_offset := o + 16; d_out := out ++ dump_line o l |}).
Proof.
  intros Hl Ha Ho1 Ho. destruct (list_rev_snoc l 15 Hl) as (k & v & -> & Hk).
  destruct (hexdump_partial k o a out) as (a' & Hrun & Ha' & Ht); [lia|done|by intros ->|].
  rewrite for_each_app, (bind_ok _ _ _ _ _ Hrun). cbn [for_each]. rewrite Hk in *.
  rewrite (bind_ok _ _ _ _ _ (hexdump_byte_last v a' o _ k Hk Ha' Ht Ho1 Ho)).
  unfold dump_line. rewrite Hl, hex_cells_snoc. cbn [Nat.eqb]. by rewrite <- !app_assoc.
Qed.

Lemma pad_line_eq n i a o out : pad_line n {| d_i := i; d_ascii := a; d_offset := o; d_out := out |} =
  (Ok tt, {| d_i := i + n; d_ascii := a; d_offset := o; d_out := out ++ concat (replicate n (text "   ")) |}).
Proof.
  revert i out. induction n as [|n IH]; intros i out; cbn [pad_line replicate concat].
  - by rewrite app_nil_r, Nat.add_0_r.
  - mstep. rewrite bind_print. mstep. cbn [d_i d_ascii d_offset d_out]. rewrite IH.
    by rewrite <- app_assoc, <- Nat.add_assoc.
Qed.

(** From a line boundary, the loop and the tail print the lines of the remaining bytes. *)
Lemma hexdump_lines fuel bytes o a out : (length bytes <= fuel)%nat -> length a = 16%nat -> 0 <= o ->
  o + Z.of_nat (length bytes) < 2 ^ 31 ->
  exists d, (hexdump_bytes bytes) {| d_i := 0; d_ascii := a; d_offset := o; d_out := out |} = (Ok tt, d) /\
    d_out d = out ++ dump_lines fuel o bytes.
Proof.
  revert bytes o a out. induction fuel as [|fuel IH]; intros bytes o a out Hf Ha Ho1 Ho.
  { destruct bytes; [|cbn in Hf; lia]. eexists. split; [reflexivity|]. by rewrite app_nil_r. }
  destruct bytes as [|v bytes]; [eexists; split; [reflexivity|]; by rewrite app_nil_r|].
  set (l := v :: bytes) in *. change (dump_lines (S fuel) o l) with
    (dump_line o (take 16 l) ++ dump_lines fuel (o + 16) (drop 16 l)).
  destruct (decide (16 <= length l)%nat) as [Hl|Hl].
  - assert (length (take 16 l) = 16%nat) as Ht by (rewrite length_take; lia).
    destruct (IH (drop 16 l) (o + 16) (take 16 l) (out ++ dump_line o (take 16 l))) as (d & Hrun & Hd);
      [rewrite length_drop; lia|done|lia|rewrite length_drop; lia|].
    exists d. rewrite app_assoc. split; [|done]. rewrite <- Hrun. unfold hexdump_bytes.
    rewrite <- (take_drop 16 l) at 1. unfold mbind, M_bind. rewrite for_each_app. unfold mbind, M_bind.
    rewrite hexdump_full_line by (done || lia). done.
  - rewrite (take_ge l) by lia. rewrite (drop_ge l) by lia.
    destruct (hexdump_partial l o a out) as (a' & Hrun & Ha' & Ht); [lia|done|done|].
    unfold hexdump_bytes. rewrite (bind_ok _ _ _ _ _ Hrun). mstep. cbn [d_i].
    rewrite (proj2 (Nat.eqb_neq _ _)) by done. rewrite (bind_ok _ _ _ _ _ (pad_line_eq _ _ _ _ _)).
    rewrite bind_print. mstep. cbn [d_i d_ascii d_offset d_out].
    rewrite Ht, (bind_ok _ _ _ _ _ (for_each_print tail_char _ _ _ _ _)).
    eexists. split; [reflexivity|]. cbn [d_i d_ascii d_offset d_out].
    unfold dump_line. rewrite (proj2 (Nat.eqb_neq _ _)) by lia.
    replace (dump_lines fuel (o + 16) []) with (@nil Z) by by destruct fuel.
    by rewrite app_nil_r, <- !app_assoc.
Qed.

(** C18. The dumping loop, which keeps a column, a sixteen-byte buffer and an offset, prints
    exactly one line for every sixteen bytes: the offset, the bytes in hexadecimal, padding
    for a short last line, and the printable characters.  (The character 0x7F, DEL, is shown
    as a dot in a full line but printed as it is in a short one.) *)
Theorem hexdump_is_dump_lines (bytes : list Z) (Hlen : Z.of_nat (length bytes) < 2 ^ 31) :
  exists d, hexdump_bytes bytes Dump_start = (Ok tt, d) /\
    d_out d = dump_lines (length bytes) 0 bytes /\
    full_char 0x7F = 46 /\ tail_char 0x7F = 0x7F.
Proof.
  destruct (hexdump_lines (length bytes) bytes 0 (replicate 16 0) []) as (d & Hrun & Hd);
    [done|done|lia|lia|]. by exists d.
Qed.

Lemma hexdump_is_dump_lines_witness :
  exists d, hexdump_bytes (range 60 80) Dump_start = (Ok tt, d) /\
    d_out d = dump_line 0 (range 60 76) ++ dump_line 16 (range 76 80).
Proof.
  destruct (hexdump_is_dump_lines (range 60 80)) as (d & H1 & H2 & _); [vm_compute; reflexivity|].
  exists d. split; [exact H1|]. rewrite H2. vm_compute. reflexivity.
Defined.

(** ** [global_print] *)

(** The serial port, the writer behind its lock (the bitmap and the cursor), and the video
    memory the writer draws in. *)
Record Console (D T : Type) : Type := {
  serial : D; GLOBAL_VRAM_WRITER : Mutex (option (T * (Z * Z))); video : vram }.
Arguments serial {D T}.
Arguments GLOBAL_VRAM_WRITER {D T}.
Arguments video {D T}.
Arguments Build_Console {D T}.

Section print.
Context {D T : Type} {IO : PortIo D} {BT : Bitmap T} (FONT_SOURCE : list Z).

Definition on_serial {A} (m : M D A) : M (Console D T) A :=
  zoom serial (fun d s => Build_Console d (GLOBAL_VRAM_WRITER s) (video s)) m.
Definition on_writer {A} (m : M (Mutex (option (T * (Z * Z)))) A) : M (Console D T) A :=
  zoom GLOBAL_VRAM_WRITER (fun w s => Build_Console (serial s) w (video s)) m.

(** A guard that is a temporary lives to the end of its statement. *)
Definition set_global_vram (vram : T) : M (Console D T) unit :=
  none ← on_writer (under_locked (w ← get; mret (bool_decide (is_Some w))));
  if (none : bool) then panic "assertion failed: GLOBAL_VRAM_WRITER.lock().is_none()" else
  on_writer (under_locked (put (Some (vram, (0, 0))))).

(** [fmt::write] hands the writer the pieces of the formatted text one by one. *)
Definition print_screen (pieces : list (list Z)) : M (Console D T) unit := fun s =>
  match lock (GLOBAL_VRAM_WRITER s) with
  | (Ok _, m) =>
      match Mutex.data m with
      | None => (Ok tt, Build_Console (serial s) (set_taken false m) (video s))
      | Some (b, (x, y)) =>
          let '(r, w) := for_each pieces (write_str FONT_SOURCE b)
            {| cursor_x := x; cursor_y := y; screen := video s |} in
          let m := set_data (Some (b, (cursor_x w, cursor_y w))) m in
          match r with
          | Ok _ => (Ok tt, Build_Console (serial s) (set_taken false m) (screen w))
          | Err e | Panic e => (Panic e, Build_Console (serial s) m (screen w))
          end
      end
  | (Err e, m) | (Panic e, m) => (Panic e, Build_Console (serial s) m (video s))
  end.

Definition global_print (fuel : nat) (pieces : list (list Z)) : M (Console D T) unit :=
  unwrapM (on_serial (for_each pieces (serial_write_str fuel)));; print_screen pieces.

(** With the lock free, [print_screen] is the writer's work and the lock is free again. *)
Lemma print_screen_free pieces s : Mutex.is_taken (GLOBAL_VRAM_WRITER s) = false ->
  print_screen pieces s =
    match Mutex.data (GLOBAL_VRAM_WRITER s) with
    | None => (Ok tt, s)
    | Some (b, (x, y)) =>
        let '(r, w) := for_each pieces (write_str FONT_SOURCE b)
          {| cursor_x := x; cursor_y := y; screen := video s |} in
        let d := Some (b, (cursor_x w, cursor_y w)) in
        match r with
        | Ok _ => (Ok tt, Build_Console (serial s) {| Mutex.data := d; Mutex.is_taken := false |} (screen w))
        | Err e | Panic e => (Panic e, Build_Console (serial s) {| Mutex.data := d; Mutex.is_taken := true |} (screen w))
        end
    end.
Proof using.
  intros Hf. unfold print_screen. rewrite lock_free by done.
  destruct s as [d [dat taken] vid]. cbn in Hf. subst taken. by destruct dat as [[b [x y]]|].
Qed.

Lemma write_str_app b l k w :
  write_str FONT_SOURCE b (l ++ k) w = (write_str FONT_SOURCE b l;; write_str FONT_SOURCE b k) w.
Proof using. apply for_each_app. Qed.
Lemma send_str_app fuel self l k (d : D) :
  send_str fuel self (l ++ k) d = (send_str fuel self l;; send_str fuel self k) d.
Proof using. apply for_each_app. Qed.

Lemma write_str_pieces b pieces w :
  for_each pieces (write_str FONT_SOURCE b) w = write_str FONT_SOURCE b (concat pieces) w.
Proof using.
  revert w. induction pieces as [|p pieces IH]; intros w; [done|]. cbn [for_each concat].
  rewrite write_str_app. unfold mbind, M_bind.
  destruct (write_str FONT_SOURCE b p w) as [[[]|e|e] w']; [apply IH|done..].
Qed.

Lemma serial_pieces fuel pieces (d : D) :
  for_each pieces (serial_write_str fuel) d = send_str fuel SerialPort_default (concat pieces) d.
Proof using.
  revert d. induction pieces as [|p pieces IH]; intros d; [done|]. cbn [for_each concat].
  rewrite send_str_app. unfold mbind, M_bind, serial_write_str at 1.
  destruct (send_str fuel SerialPort_default p d) as [[[]|e|e] d']; [apply IH|done..].
Qed.
End print.

(** C19. [print!] reaches both consoles: whatever pieces the formatter produces, the whole text
    goes out on the serial line in order, and if a frame buffer was registered the writer
    draws the whole text from its cursor, as one [write_str] of it would; the lock is free
    again afterwards, so that the next [print!] finds it so. *)
Theorem global_print_both {D T} {BT : Bitmap T} `{Uart D (base SerialPort_default)} (font : list Z)
  (pieces : list (list Z)) (s : Console D T)
  (Hdlab : dlab (serial s) = false) (Hloop : loopback (serial s) = false)
  (Hfree : Mutex.is_taken (GLOBAL_VRAM_WRITER s) = false) :
  exists fuel0, forall fuel, (fuel0 <= fuel)%nat ->
  match Mutex.data (GLOBAL_VRAM_WRITER s) with
  | None => exists s', global_print font fuel pieces s = (Ok tt, s') /\
      sent (serial s') = sent (serial s) ++ (wrap 8 <$> concat pieces) /\
      video s' = video s /\ GLOBAL_VRAM_WRITER s' = GLOBAL_VRAM_WRITER s
  | Some (b, (x, y)) => forall w,
      write_str font b (concat pieces) {| cursor_x := x; cursor_y := y; screen := video s |} = (Ok tt, w) ->
      exists s', global_print font fuel pieces s = (Ok tt, s') /\
      sent (serial s') = sent (serial s) ++ (wrap 8 <$> concat pieces) /\
      video s' = screen w /\
      Mutex.data (GLOBAL_VRAM_WRITER s') = Some (b, (cursor_x w, cursor_y w)) /\
      Mutex.is_taken (GLOBAL_VRAM_WRITER s') = false
  end.
Proof.
  destruct (send_str_ok (concat pieces) (serial s) Hdlab Hloop) as (f & d' & Hsent & _ & _ & _ & Hrun).
  exists f. intros fuel Hf.
  assert (unwrapM (on_serial (T := T) (for_each pieces (serial_write_str fuel))) s =
    (Ok tt, Build_Console d' (GLOBAL_VRAM_WRITER s) (video s))) as Hserial.
  { unfold unwrapM, on_serial, zoom. by rewrite serial_pieces, Hrun. }
  assert (global_print font fuel pieces s =
    print_screen font pieces (Build_Console d' (GLOBAL_VRAM_WRITER s) (video s))) as ->
    by (unfold global_print; by rewrite (bind_ok _ _ _ _ _ Hserial)).
  rewrite print_screen_free by done. cbn [GLOBAL_VRAM_WRITER video serial].
  destruct (Mutex.data (GLOBAL_VRAM_WRITER s)) as [[b [x y]]|].
  - intros w Hw. rewrite write_str_pieces, Hw. eexists. split; [reflexivity|]. by split_and!.
  - eexists. split; [reflexivity|]. by split_and!.
Qed.

Definition example_console : Console SimpleUart VramBufferInfo :=
  {| serial := example_uart []; GLOBAL_VRAM_WRITER := Mutex_new None; video := ∅ |}.

Lemma global_print_both_witness : exists fuel s',
  global_print [] fuel [[79; 75]; [10]] example_console = (Ok tt, s') /\ u_sent (serial s') = [79; 75; 10].
Proof.
  destruct (global_print_both [] [[79; 75]; [10]] example_console) as (f & Hf);
    [reflexivity|reflexivity|reflexivity|].
  destruct (Hf f (Nat.le_refl f)) as (s' & H1 & H2 & _). exists f, s'. split; [exact H1|exact H2].
Defined.

(** A second frame buffer is refused. *)
Example set_global_vram_once (v : VramBufferInfo) :
  match set_global_vram v example_console with
  | (Ok _, s) => (set_global_vram v s).1 = Panic "assertion failed: GLOBAL_VRAM_WRITER.lock().is_none()"
  | _ => False
  end.
Proof. reflexivity. Qed.
