(* ===== verification/Boot.v ===== *)
(** Start-up: the firmware calls of [uefi.rs], [init.rs], and the page-table services of
    [x86.rs] and [mmio.rs] that run on what start-up leaves.

    The firmware is the class [Firmware]; [UefiMemoryMap] states what UEFI documents about
    its memory map.  [init_pading] composes the memory map iterator of [Uefi] with
    [create_mapping] of [Paging]; [IoBox_new] composes a box of [Heap] with it, and is what
    [IoBoxes] of [Heap] stands for on a machine with page tables ([Mmu_IoBoxes]). *)
From S2P Require Import Prelude Uefi Allocator Heap Paging Graphics.
Import Allocator.Allocator BlockSpec Paging.Paging.

(** ** The firmware: [uefi.rs] *)

Record EfiGuid : Type := { data0 : Z; data1 : Z; data2 : Z; data3 : list Z }.
#[global] Instance EfiGuid_eq_dec : EqDecision EfiGuid.
Proof. solve_decision. Defined.

Definition EFI_GRAPHICS_OUTPUT_PROTOCOL_GUID : EfiGuid := {| data0 := 0x9042a9de; data1 := 0x23dc; data2 := 0x4a38;
  data3 := [0x96; 0xfb; 0x7a; 0xde; 0xd0; 0x80; 0x51; 0x6a] |}.
Definition EFI_LOADED_IMAGE_PROTOCOL_GUID : EfiGuid := {| data0 := 0x5B1B31A1; data1 := 0x9562; data2 := 0x11D2;
  data3 := [0x8E; 0x3F; 0x00; 0xA0; 0xC9; 0x69; 0x72; 0x3B] |}.
Definition EFI_ACPI_TABLE_GUID : EfiGuid := {| data0 := 0x8868e871; data1 := 0xe4f1; data2 := 0x11d3;
  data3 := [0xbc; 0x22; 0x00; 0x80; 0xc7; 0x3c; 0x88; 0x81] |}.

Record EfiConfigurationTable : Type := { vendor_guid : EfiGuid; vendor_table : Z }.

(** [lookup_config_table] over the [number_of_table_entries] entries. *)
Fixpoint lookup_config_table (tables : list EfiConfigurationTable) (guid : EfiGuid) : option EfiConfigurationTable :=
  match tables with
  | [] => None
  | ct :: tables => if decide (vendor_guid ct = guid) then Some ct else lookup_config_table tables guid
  end.
Definition acpi_table (tables : list EfiConfigurationTable) : option Z :=
  t ← lookup_config_table tables EFI_ACPI_TABLE_GUID; Some (vendor_table t).

(** [EfiGraphicsOutputProtocolMode] with its [info]. *)
Record GraphicsMode : Type := {
  frame_buffer_base : Z; horizontal_resolution : Z; vertical_resolution : Z; pixels_per_scan_line : Z }.

(** The services the code calls.  A located protocol is what the out-pointer points to
    afterwards, [None] while it is null; dereferencing that is undefined behaviour. *)
Class Firmware (F : Type) : Type := {
  fw_get_memory_map : MemoryMapHolder -> F -> EfiStatus * MemoryMapHolder * F;
  fw_exit_boot_services : Z -> Z -> F -> EfiStatus * F;
  fw_locate_protocol : EfiGuid -> F -> EfiStatus * option GraphicsMode;
  fw_handle_protocol : Z -> EfiGuid -> F -> EfiStatus * option Z }.

Section firmware.
Context {F : Type} {FW : Firmware F}.

Definition deref {A} (p : option A) : outcome A := match p with Some a => Ok a | None => Panic msg_ub end.

Definition locate_graphic_protocol : M F GraphicsMode := fun f =>
  let '(status, p) := fw_locate_protocol EFI_GRAPHICS_OUTPUT_PROTOCOL_GUID f in
  (if negb (EfiStatus_eq status Success) then Err "failed to locate graphics output protocol" else deref p, f).

(** The loaded image protocol, as its address. *)
Definition locate_loaded_image_protocol (image_handle : Z) : M F Z := fun f =>
  let '(status, p) := fw_handle_protocol image_handle EFI_LOADED_IMAGE_PROTOCOL_GUID f in
  (if negb (EfiStatus_eq status Success) then Err "failed to locate graphics output protocol" else deref p, f).

(** [u32 as i64]. *)
Definition init_vram : M F Graphics.VramBufferInfo :=
  gp ← locate_graphic_protocol;
  mret {| Graphics.v_buf := frame_buffer_base gp; Graphics.v_width := horizontal_resolution gp;
          Graphics.v_height := vertical_resolution gp; Graphics.v_pixels_per_line := pixels_per_scan_line gp |}.

Definition get_memory_map (map : MemoryMapHolder) : M F (EfiStatus * MemoryMapHolder) := fun f =>
  let '(status, map, f) := fw_get_memory_map map f in (Ok (status, map), f).
Definition exit_boot_services (image_handle key : Z) : M F EfiStatus := fun f =>
  let '(status, f) := fw_exit_boot_services image_handle key f in (Ok status, f).

(** The loop of [exit_from_efi_boot_services], cut off after [fuel] rounds; the result is the
    memory map it leaves. *)
Fixpoint exit_from_efi_boot_services (fuel : nat) (image_handle : Z) (map : MemoryMapHolder) :
    M F MemoryMapHolder :=
  match fuel with
  | O => panic "out of fuel"
  | S fuel =>
      '(status, map) ← get_memory_map map;
      if negb (EfiStatus_eq status Success) then panic "assertion `left == right` failed" else
      status ← exit_boot_services image_handle (map_key map);
      if EfiStatus_eq status Success then mret map else exit_from_efi_boot_services fuel image_handle map
  end.
End firmware.

(** [init_basic_runtime]: leave boot services, then give the heap the memory map. *)
Definition init_basic_runtime {F} `{Firmware F} (fuel : nat) (image_handle : Z) :
    M (F * FirstFitAllocator) MemoryMapHolder :=
  map ← zoom fst (fun f s => (f, s.2)) (exit_from_efi_boot_services fuel image_handle MemoryMapHolder_new);
  zoom snd (fun h s => (s.1, h)) (init_with_mmap map);;
  mret map.

(** ** Paging: [init.rs], [x86.rs] and [mmio.rs] *)

(** The page tables, the heap they come from, CR3, and the bytes of the objects on the heap. *)
Record Mmu (A : Type) : Type := { pages : PageMemory A; cr3 : Z; ram : Z -> Z }.
Arguments pages {A}.
Arguments cr3 {A}.
Arguments ram {A}.
Arguments Build_Mmu {A}.

Definition is_usable (t : EfiMemoryType) : bool :=
  match t with CONVENTIONAL_MEMORY | LOADER_CODE | LOADER_DATA => true | _ => false end.

(** The loop of [init_pading] over the memory map. *)
Fixpoint end_of_memory (end_of_mem : Z) (es : list EfiMemoryDescriptor) : outcome Z :=
  match es with
  | [] => Ok end_of_mem
  | e :: es =>
      end_of_mem ← (if is_usable (memory_type e) then
        size ← mul_chk 64 (number_of_pages e) PAGE_SIZE;
        last ← add_chk 64 (physical_start e) size;
        Ok (Z.max end_of_mem last)
      else Ok end_of_mem);
      end_of_memory end_of_mem es
  end.

Definition map_iter (map : MemoryMapHolder) : outcome (list EfiMemoryDescriptor) :=
  match MemoryMapHolder_iter map with Some r => r | None => Panic "out of fuel" end.

Section mmu.
Context {A : Type} `{FrameSource A}.

Definition on_pages {B} (m : M (PageMemory A) B) : M (Mmu A) B :=
  zoom pages (fun p s => Build_Mmu p (cr3 s) (ram s)) m.
Definition write_cr3 (table : Z) : M (Mmu A) unit := modify (fun s => Build_Mmu (pages s) table (ram s)).
Definition read_cr3 : M (Mmu A) Z := s ← get; mret (cr3 s).

Definition init_pading (memory_map : MemoryMapHolder) : M (Mmu A) unit :=
  table ← on_pages PML4_new;
  es ← lift (map_iter memory_map);
  end_of_mem ← lift (end_of_memory 0x100000000 es);
  unwrapM (on_pages (create_mapping 0 end_of_mem 0 ReadWriteKernel table));;
  unwrapM (on_pages (create_mapping 0 4096 0 NotPresent table));;
  write_cr3 table.

(** [take_current_page_table], [put_current_page_table] and [with_current_page_table]. *)
Definition take_current_page_table : M (Mmu A) Z := read_cr3.
Definition put_current_page_table (table : Z) : M (Mmu A) unit := write_cr3 table.
Definition with_current_page_table (callback : Z -> M (PageMemory A) unit) : M (Mmu A) unit :=
  table ← take_current_page_table;
  on_pages (callback table);;
  put_current_page_table table.

Definition flush_tlb : M (Mmu A) unit := t ← read_cr3; write_cr3 t.

(** [disable_cache], of the object at [region] of [size] bytes. *)
Definition disable_cache (region size : Z) : M (Mmu A) unit :=
  vend ← lift (add_chk 64 region size);
  with_current_page_table (fun pt => unwrapM (create_mapping region vend region ReadWriteIo pt)).
End mmu.

(** [IoBox::new] of a type of [size] bytes: [IoBoxInner] is aligned to pages and its data
    comes first. *)
Definition IoBoxInner_layout (size : Z) : Layout :=
  {| l_size := (size + 4095) / 4096 * 4096; l_align := 4096 |}.
Section io_box.
Context {A : Type} `{FrameSource A} {GA : GlobalAlloc A}.

(** The heap is where the page tables come from, too. *)
#[export] Instance Mmu_GlobalAlloc : GlobalAlloc (Mmu A) := {
  galloc l := on_pages (zoom frames (fun a s => {| tables := tables s; frames := a |}) (galloc l)) }.

(** What is moved into the box is [MaybeUninit::<T>::zeroed()]. *)
Definition write_zeroed (p size : Z) : M (Mmu A) unit :=
  modify (fun s => Build_Mmu (pages s) (cr3 s) (fun a => if decide (p <= a < p + size) then 0 else ram s a)).
Definition IoBox_new (size : Z) : M (Mmu A) Z :=
  p ← box_new (IoBoxInner_layout size);
  write_zeroed p size;;
  disable_cache p size;;
  mret p.

#[export] Instance Mmu_IoBoxes : IoBoxes (Mmu A) := { io_box := IoBox_new }.
End io_box.

(** [Mmio] and [IoBox] are references to what is at an address; dropping an [Mmio] frees
    nothing. *)
Record Mmio : Type := { inner : Z }.
Definition from_raw (raw : Z) : Mmio := {| inner := raw |}.
Definition Mmio_as_ref (m : Mmio) : Z := inner m.

(** [pin.rs]: the bytes of the object at [this] of [own] bytes, as address and length. *)
Definition as_mut_slice (this own : Z) : Z * Z := (this, own).
Definition as_mut_slice_sized (this own size : Z) : outcome (Z * Z) :=
  if own <? size then Err "Cannot take mut slice longer than the object" else Ok (this, size).

(** [init_allocator]: the number it prints, in MiB. *)
Fixpoint total_pages (total : Z) (es : list EfiMemoryDescriptor) : outcome Z :=
  match es with
  | [] => Ok total
  | e :: es =>
      if negb (bool_decide (memory_type e = CONVENTIONAL_MEMORY)) then total_pages total es else
      total ← add_chk 64 total (number_of_pages e); total_pages total es
  end.
Definition init_allocator (memory_map : MemoryMapHolder) : outcome Z :=
  es ← map_iter memory_map;
  total ← total_pages 0 es;
  size ← mul_chk 64 total 4096;
  Ok (size / 1024 / 1024).

(** ** The address space [init_pading] builds *)

Lemma end_of_memory_spec es : forall e0 e1, end_of_memory e0 es = Ok e1 ->
  e0 <= e1 /\ (forall e, e ∈ es -> is_usable (memory_type e) = true ->
    physical_start e + number_of_pages e * 4096 <= e1) /\
  (e1 = e0 \/ exists e, e ∈ es /\ is_usable (memory_type e) = true /\ e1 = physical_start e + number_of_pages e * 4096).
Proof.
  induction es as [|e es IH]; intros e0 e1 He; cbn [end_of_memory] in He.
  { injection He as ->. split_and!; [done|by intros e ?%elem_of_nil|by left]. }
  destruct (is_usable (memory_type e)) eqn:Hu.
  - unfold mul_chk, PAGE_SIZE in He. destruct (number_of_pages e * 4096 <? 2 ^ 64); [|done].
    cbn [mbind outcome_bind] in He. unfold add_chk in He.
    destruct (physical_start e + number_of_pages e * 4096 <? 2 ^ 64); [|done]. cbn [mbind outcome_bind] in He.
    destruct (IH _ _ He) as (Hle & Hall & Hor). split_and!; [lia| |].
    + intros f [->|Hf]%elem_of_cons Hfu; [lia|by apply Hall].
    + destruct Hor as [->|(f & Hf & Hfu & ->)].
      * destruct (Z.max_spec e0 (physical_start e + number_of_pages e * 4096)) as [[_ ->]|[_ ->]].
        -- right. exists e. split_and!; [by left|done|done].
        -- by left.
      * right. exists f. split_and!; [by right|done|done].
  - cbn [mbind outcome_bind] in He. destruct (IH _ _ He) as (Hle & Hall & Hor). split_and!; [done| |].
    + intros f [->|Hf]%elem_of_cons Hfu; [congruence|by apply Hall].
    + destruct Hor as [->|(f & Hf & Hfu & ->)]; [by left|]. right. exists f. split_and!; [by right|done|done].
Qed.

Lemma oom_unwrap {S A} (r : outcome A * S) Q (m : M S A) s :
  m s = r -> oom_or r Q -> oom_or (unwrapM m s) Q.
Proof. intros <- H. unfold unwrapM. destruct (m s) as [[a|e|e] s']; [done..|done]. Qed.

Lemma oom_zoom_pages {A B} (m : M (PageMemory A) B) (s : Mmu A) Q :
  oom_or (m (pages s)) Q -> oom_or (on_pages m s) (fun b s' => Q b (pages s') /\ cr3 s' = cr3 s /\ ram s' = ram s).
Proof. unfold on_pages, zoom. destruct (m (pages s)) as [[a|e|e] p]; [by intros H|done..]. Qed.

(** A mapping run on part of the machine, its error turned into a panic. *)
Lemma mapping_on_pages {A} {HF : FrameSource A} {HL : FrameSourceLaws A} (s : Mmu A) root dp vs ve ph attr :
  wf_tables root dp (pages s) -> 0 <= vs < ve /\ ve <= 2 ^ 48 -> (4096 | vs) ->
  0 <= ph /\ ph + ve <= 2 ^ 64 -> (4096 | ph) ->
  oom_or (unwrapM (on_pages (create_mapping vs ve ph attr root)) s) (fun _ s' =>
    (cr3 s' = cr3 s /\ ram s' = ram s) /\ (exists dp', wf_tables root dp' (pages s')) /\
    forall va, 0 <= va < 2 ^ 48 -> leaf (tables (pages s')) root va =
      if decide (vs <= va /\ va / 4096 * 4096 < ve) then mapped (ph + (va - vs) / 4096 * 4096) attr
      else leaf (tables (pages s)) root va).
Proof.
  intros Hwf Hv Hva Hp Hpa. eapply oom_unwrap; [reflexivity|].
  eapply oom_weaken; [apply oom_zoom_pages, (create_mapping_spec root vs ve ph attr (pages s) Hv Hva Hp Hpa dp Hwf)|].
  intros [] s' [[H1 H2] [H3 H4]]. by split_and!.
Qed.

(** C7. The address space that [init_pading] builds and loads: when it does not run out of
    memory, every address from 4096 up to the end of the usable memory of the map, and at
    least up to 4 GiB, is mapped to itself, writable, for the kernel; so is the whole of
    every conventional and loader descriptor above page 0.  Page 0 is not mapped, so a null
    pointer faults, and neither is anything above. *)
Theorem init_pading_identity {A} {HF : FrameSource A} {HL : FrameSourceLaws A} (a : A) (cr3_0 : Z) (ram_0 : Z -> Z)
  (memory_map : MemoryMapHolder) (es : list EfiMemoryDescriptor) (last : Z)
  (Ha : fs_ok a) (Hmap : MemoryMapHolder_iter memory_map = Some (Ok es))
  (Hend : end_of_memory 0x100000000 es = Ok last) (Hlast : last <= 2 ^ 48) :
  match init_pading memory_map (Build_Mmu {| tables := ∅; frames := a |} cr3_0 ram_0) with
  | (Ok _, s) =>
      (exists dp, wf_tables (cr3 s) dp (pages s)) /\
      (forall va, 0 <= va < 2 ^ 48 -> leaf (tables (pages s)) (cr3 s) va =
         if decide (4096 <= va /\ va / 4096 * 4096 < last)
         then Some (Z.lor (va / 4096 * 4096) (PageAttr_repr ReadWriteKernel)) else None) /\
      (forall va, 4096 <= va < 0x100000000 -> is_Some (leaf (tables (pages s)) (cr3 s) va)) /\
      (forall e va, e ∈ es -> is_usable (memory_type e) = true -> 4096 <= va ->
         physical_start e <= va < physical_start e + number_of_pages e * 4096 ->
         is_Some (leaf (tables (pages s)) (cr3 s) va))
  | (Panic e, _) => e = msg_oom
  | (Err _, _) => False
  end.
Proof.
  destruct (end_of_memory_spec es _ _ Hend) as (Hge & Husable & _).
  assert (oom_or (init_pading memory_map (Build_Mmu {| tables := ∅; frames := a |} cr3_0 ram_0)) (fun _ s =>
    (exists dp, wf_tables (cr3 s) dp (pages s)) /\
    (forall va, 0 <= va < 2 ^ 48 -> leaf (tables (pages s)) (cr3 s) va =
         if decide (4096 <= va /\ va / 4096 * 4096 < last)
         then Some (Z.lor (va / 4096 * 4096) (PageAttr_repr ReadWriteKernel)) else None))) as Hrun.
  { unfold init_pading. eapply oom_bind; [apply oom_zoom_pages, (new_pml4_spec a Ha)|].
    intros table s1 [[Hwf Hnone] _]. unfold map_iter. rewrite Hmap. mstep. rewrite Hend. mstep.
    eapply oom_bind; [apply (mapping_on_pages s1 table _ 0 last 0 ReadWriteKernel Hwf); try lia; apply Z.divide_0_r|].
    intros [] s2 (_ & (dp2 & Hwf2) & Hm2).
    eapply oom_bind; [apply (mapping_on_pages s2 table dp2 0 4096 0 NotPresent Hwf2); try lia; apply Z.divide_0_r|].
    intros [] s3 (_ & Hwf3 & Hm3). split; [done|]. intros va Hva. cbn [pages cr3].
    rewrite Hm3 by done. destruct (decide (0 <= va /\ va / 4096 * 4096 < 4096)) as [Hd|Hd].
    - rewrite decide_False by div_lia. done.
    - rewrite Hm2 by done. rewrite !Z.sub_0_r, Z.add_0_l.
      destruct (decide (4096 <= va /\ va / 4096 * 4096 < last)) as [Hd'|Hd'].
      + by rewrite decide_True by div_lia.
      + rewrite decide_False by div_lia. apply Hnone. }
  unfold oom_or in Hrun. destruct (init_pading _ _) as [[[]|e|e] s]; [|done..].
  destruct Hrun as [Hwf Hleaf]. split_and!; [done|done| |].
  - intros va Hva. rewrite Hleaf by lia. rewrite decide_True by div_lia. by eexists.
  - intros e va He Hu Hva Hin. pose proof (Husable e He Hu). rewrite Hleaf by lia.
    rewrite decide_True by div_lia. by eexists.
Qed.

Lemma example_init_ok : fs_ok example_state.
Proof. exact (ex_intro _ _ example_represents). Qed.

Lemma init_pading_identity_witness :
  match init_pading example_map (Build_Mmu {| tables := ∅; frames := example_state |} 0x1000 (fun _ => 0)) with
  | (Ok _, s) => leaf (tables (pages s)) (cr3 s) 0 = None /\
      leaf (tables (pages s)) (cr3 s) 0x7FFFF123 = Some 0x7FFFF003
  | (Panic e, _) => e = msg_oom
  | (Err _, _) => False
  end.
Proof.
  pose proof (init_pading_identity example_state 0x1000 (fun _ => 0) example_map example_descriptors 0x100000000
    example_init_ok ltac:(vm_compute; reflexivity) eq_refl ltac:(lia)) as T.
  revert T. generalize (init_pading example_map (Build_Mmu {| tables := ∅; frames := example_state |} 0x1000 (fun _ => 0))).
  intros [[r|e|e] s] T; [|exact T|exact T]. destruct T as (_ & T & _).
  split; [exact (T 0 ltac:(lia))|exact (T 0x7FFFF123 ltac:(lia))].
Defined.

(** ** Leaving boot services *)

(** What UEFI documents of the memory map services: [GetMemoryMap] writes back the size of
    the map, and the map itself, its key and its stride when it fits in the size it is given;
    [ExitBootServices] lets the image go only with the current key. *)
Class UefiMemoryMap (F : Type) `{Firmware F} : Type := {
  fw_descriptors : F -> list EfiMemoryDescriptor;
  fw_padding : F -> nat;
  fw_key : F -> Z;
  fw_left : F -> bool;
  fw_get map f : let '(_, map', f') := fw_get_memory_map map f in
    let bytes := encode_map (fw_padding f) (fw_descriptors f) in
    f' = f /\ memory_map_size map' = Z.of_nat (length bytes) /\
    (Z.of_nat (length bytes) <= memory_map_size map ->
      memory_map_buffer map' = bytes ++ drop (length bytes) (memory_map_buffer map) /\
      map_key map' = fw_key f /\ descriptor_size map' = Z.of_nat (descriptor_bytes + fw_padding f));
  fw_exit handle key f : fw_left f = false -> fw_left (fw_exit_boot_services handle key f).2 = true -> key = fw_key f }.

Section leave.
Context {F : Type} `{UefiMemoryMap F}.
Implicit Types f : F.

Definition map_bytes f : Z := Z.of_nat (length (encode_map (fw_padding f) (fw_descriptors f))).

(** The firmware once it has been asked to leave, with its current key. *)
Definition after_exit (handle : Z) f : F := (fw_exit_boot_services handle (fw_key f) f).2.

(** The loop is left in its first round, with the map that was current then; the firmware has
    been asked once, with the right key. *)
Lemma exit_boot_services_once (handle : Z) (map : MemoryMapHolder) f :
  map_bytes f <= memory_map_size map -> Forall descriptor_in_width (fw_descriptors f) ->
  map_bytes f < 2 ^ 63 -> Z.of_nat (descriptor_bytes + fw_padding f) < 2 ^ 63 ->
  exists map', (forall fuel, exit_from_efi_boot_services (S fuel) handle map f = (Ok map', after_exit handle f)) /\
    MemoryMapHolder_iter map' = Some (Ok (fw_descriptors f)).
Proof using.
  intros Hs Hw H1 H2. pose proof (fw_get map f) as Hg.
  destruct (fw_get_memory_map map f) as [[[] map'] f'] eqn:E. destruct Hg as (-> & H3 & H4).
  destruct (H4 Hs) as (H5 & H6 & H7). exists map'. split.
  - intros fuel. cbn [exit_from_efi_boot_services].
    rewrite (bind_ok _ _ _ (Success, map') f) by (unfold get_memory_map; by rewrite E). cbn [EfiStatus_eq negb].
    unfold exit_boot_services, after_exit, mbind, M_bind. rewrite H6.
    by destruct (fw_exit_boot_services handle (fw_key f) f) as [[] f'].
  - by apply (memory_map_iter_roundtrip map' (fw_padding f) (fw_descriptors f)
      (drop (length (encode_map (fw_padding f) (fw_descriptors f))) (memory_map_buffer map)));
      try done; unfold map_bytes in *; lia.
Qed.

(** So when the firmware does not let go (its map has changed since), nobody notices: the
    kernel goes on with boot services still running. *)
Lemma exit_boot_services_refusal (handle : Z) (map : MemoryMapHolder) f fuel :
  map_bytes f <= memory_map_size map -> Forall descriptor_in_width (fw_descriptors f) ->
  map_bytes f < 2 ^ 63 -> Z.of_nat (descriptor_bytes + fw_padding f) < 2 ^ 63 ->
  fw_left (after_exit handle f) = false ->
  exists map' f', exit_from_efi_boot_services (S fuel) handle map f = (Ok map', f') /\ fw_left f' = false.
Proof using.
  intros Hs Hw H1 H2 Hl. destruct (exit_boot_services_once handle map f Hs Hw H1 H2) as (map' & Hrun & _).
  exists map', (after_exit handle f). by rewrite Hrun.
Qed.
End leave.

(** A firmware that lets the image go with the right key. *)
Record ScriptFw : Type := { script_map : list EfiMemoryDescriptor; script_key : Z; script_left : bool }.
#[export] Instance ScriptFw_Firmware : Firmware ScriptFw := {
  fw_get_memory_map map f :=
    let bytes := encode_map 8 (script_map f) in
    let n := Z.of_nat (length bytes) in
    (Success,
     if n <=? memory_map_size map then
       {| memory_map_buffer := bytes ++ drop (length bytes) (memory_map_buffer map); memory_map_size := n;
          map_key := script_key f; descriptor_size := 48; descriptor_version := 1 |}
     else {| memory_map_buffer := memory_map_buffer map; memory_map_size := n;
             map_key := map_key map; descriptor_size := 48; descriptor_version := 1 |}, f);
  fw_exit_boot_services _ key f :=
    (Success, {| script_map := script_map f; script_key := script_key f;
                 script_left := script_left f || (key =? script_key f) |});
  fw_locate_protocol guid _ := (Success,
    if decide (guid = EFI_GRAPHICS_OUTPUT_PROTOCOL_GUID)
    then Some {| frame_buffer_base := 0x80000000; horizontal_resolution := 640; vertical_resolution := 480;
                 pixels_per_scan_line := 640 |}
    else None);
  fw_handle_protocol _ guid _ :=
    (Success, if decide (guid = EFI_LOADED_IMAGE_PROTOCOL_GUID) then Some 0x7E000000 else None) }.
#[export] Instance ScriptFw_UefiMemoryMap : UefiMemoryMap ScriptFw.
Proof.
  refine {| fw_descriptors := script_map; fw_padding _ := 8%nat; fw_key := script_key; fw_left := script_left |}.
  - intros map f. cbn [fw_get_memory_map ScriptFw_Firmware].
    destruct (Z.leb_spec (Z.of_nat (length (encode_map 8 (script_map f)))) (memory_map_size map)); split_and!; try done; lia.
  - intros handle key f Hl. cbn. rewrite Hl. intros Hk. by apply Z.eqb_eq in Hk.
Defined.

Definition quiet_firmware : ScriptFw := {| script_map := example_descriptors; script_key := 3; script_left := false |}.

Example quiet_exit : script_left (exit_from_efi_boot_services 1 7 MemoryMapHolder_new quiet_firmware).2 = true.
Proof. vm_compute. reflexivity. Qed.

(** ** Uncached boxes *)

(** The unused part of the heap lies below 256 TiB, where page tables can map it. *)
Definition heap_low (st : FirstFitAllocator) : Prop :=
  forall bs, represents st bs -> Forall (fun b => b_alloc b = false -> b_end b <= 2 ^ 48) bs.

Lemma spec_alloc_low bs l p bs' : wf_blocks bs -> layout_ok l -> spec_alloc bs l = Some (p, bs') ->
  Forall (fun b => b_alloc b = false -> b_end b <= 2 ^ 48) bs ->
  Forall (fun b => b_alloc b = false -> b_end b <= 2 ^ 48) bs'.
Proof.
  intros Hb Hl Hsp Hlow. rewrite Forall_forall in Hlow. apply Forall_forall. intros c Hc Hcf.
  destruct (spec_alloc_free bs l p bs' c Hb Hl Hsp Hc Hcf) as (e & He & Hef & Hw).
  specialize (Hlow e He Hef). unfold within in Hw. lia.
Qed.

(** Allocating anything from the heap keeps page tables well formed. *)
Lemma galloc_tables (l : Layout) root dp t st : layout_ok l ->
  wf_tables root dp {| tables := t; frames := st |} -> heap_low st ->
  exists p st', galloc l st = (Ok p, st') /\ wf_tables root dp {| tables := t; frames := st' |} /\ heap_low st' /\
    (p = 0 \/ (l_align l | p) /\ 0 < p /\ p + l_size l <= 2 ^ 48).
Proof.
  intros Hl Hwf Hlow. destruct (wf_frames _ _ _ Hwf) as [bs Hrep]. cbn [frames] in Hrep.
  pose proof (alloc_with_options_refines st bs l Hrep Hl) as Href. cbn [galloc FirstFit_GlobalAlloc].
  destruct (spec_alloc bs l) as [[p bs']|] eqn:Hsp; [|by exists 0, st; auto].
  destruct Href as (st' & Hrun & Hrep'). pose proof Hrep as [_ Hb]. specialize (Hlow bs Hrep).
  destruct (spec_alloc_some _ _ _ _ Hb Hl Hsp) as (Hs & Hal & (b & Hin & Hbf & Hlo & Hhi) & _).
  exists p, st'. split; [done|]. split; [|split].
  - destruct Hwf as [H1 H2 H3 H4 H5 Hfresh]. split; try done; [by exists bs'|].
    intros x d Hx Hav. apply (Hfresh x d Hx). destruct Hav as (cs & c & Hrepc & Hc & Hcf & Hlo' & Hhi').
    cbn [frames] in Hrepc. rewrite (represents_det _ _ _ Hrepc Hrep') in Hc.
    destruct (spec_alloc_free bs l p bs' c Hb Hl Hsp Hc Hcf) as (e & He & Hef & Hw).
    exists bs, e. unfold within in Hw. cbn [frames]. split_and!; try done; lia.
  - intros cs Hcs. rewrite (represents_det _ _ _ Hcs Hrep'). by eapply spec_alloc_low.
  - right. split; [done|]. rewrite Forall_forall in Hlow. specialize (Hlow b Hin Hbf).
    destruct Hb as [Hok _]. rewrite Forall_forall in Hok. destruct (Hok b Hin) as (_ & _ & _ & ? & _).
    pose proof (request_size_ge (l_size l) Hs). unfold HEADER_SIZE in *. lia.
Qed.

Lemma on_pages_unwrap {A B} (m : M (PageMemory A) B) (s : Mmu A) : on_pages (unwrapM m) s = unwrapM (on_pages m) s.
Proof. unfold on_pages, unwrapM, zoom. by destruct (m (pages s)). Qed.

(** [disable_cache] of an object at the start of a page. *)
Lemma disable_cache_spec {A} {HF : FrameSource A} {HL : FrameSourceLaws A} (s : Mmu A) dp p size :
  wf_tables (cr3 s) dp (pages s) -> (4096 | p) -> 0 <= p -> 0 < size -> p + size <= 2 ^ 48 ->
  oom_or (disable_cache p size s) (fun _ s' =>
    (cr3 s' = cr3 s /\ ram s' = ram s) /\ (exists dp', wf_tables (cr3 s) dp' (pages s')) /\
    forall va, 0 <= va < 2 ^ 48 -> leaf (tables (pages s')) (cr3 s) va =
      if decide (p <= va /\ va / 4096 * 4096 < p + size) then mapped (va / 4096 * 4096) ReadWriteIo
      else leaf (tables (pages s)) (cr3 s) va).
Proof.
  intros Hwf Hal Hp Hs Hend. unfold disable_cache. rewrite add_chk_ok by lia. mstep.
  unfold with_current_page_table, take_current_page_table, read_cr3. mstep.
  eapply oom_bind.
  - rewrite on_pages_unwrap. apply (mapping_on_pages s (cr3 s) dp p (p + size) p ReadWriteIo Hwf); lia || done.
  - intros [] s2 ([H1 Hram] & H2 & H3). split; [done|]. split; [done|]. intros va Hva. cbn [pages].
    rewrite H3 by done. case_decide; [|done]. f_equal. destruct Hal as [k ->]. div_lia.
Qed.

(** ** The heap under the page tables *)

(** Mapping touches the source of frames only by taking frames from it. *)
Section frames_kept.
Context {A : Type} `{FrameSource A} (I : A -> Prop) (Halloc : forall a, I a -> I (fs_alloc a).2).
Let J (s : PageMemory A) : Prop := I (frames s).

Lemma keeps_read_entry t i : keeps J (read_entry t i).
Proof using. intros s Hs. unfold read_entry. by destruct (tables s !! t) as [es|]; [destruct (es !! i)|]. Qed.

Lemma keeps_write_entry t i v : keeps J (write_entry t i v).
Proof using. apply keeps_bind; [apply keeps_read_entry|]. by intros _ s Hs. Qed.

Lemma keeps_ensure_populated t i : keeps J (ensure_populated t i).
Proof using Halloc.
  apply keeps_bind; [apply keeps_read_entry|]. intros v. destruct (is_present v); [apply keeps_ret|].
  apply keeps_bind; [apply keeps_read_entry|]. intros w. destruct (is_present w); [apply (keeps_lift J (Err _))|].
  apply keeps_bind; [|intros next; apply keeps_write_entry].
  intros s Hs. unfold J, new_table in *. specialize (Halloc _ Hs). by destruct (fs_alloc (frames s)) as [[p|e|e] a].
Qed.

Lemma keeps_page_loop vs ve ph attr fuel : forall t addr, keeps J (page_loop vs ve ph attr fuel t addr).
Proof using.
  induction fuel as [|fuel IH]; intros t addr; [by intros s|]. cbn [page_loop].
  apply keeps_bind; [apply keeps_lift|]. intros sum. apply keeps_bind; [apply keeps_lift|]. intros p.
  apply keeps_bind; [|intros _; destruct (loop_ends _ _ _); [apply keeps_ret|apply IH] ].
  unfold set_page. destruct (negb _); [apply (keeps_lift J (Err _))|apply keeps_write_entry].
Qed.

Lemma keeps_table_loop ve level inner fuel : (forall t addr, keeps J (inner t addr)) ->
  forall t addr, keeps J (table_loop ve level inner fuel t addr).
Proof using Halloc.
  intros Hi. induction fuel as [|fuel IH]; intros t addr; [by intros s|]. cbn [table_loop].
  apply keeps_bind; [apply keeps_ensure_populated|]. intros _. apply keeps_bind; [apply keeps_read_entry|]. intros v.
  apply keeps_bind; [apply keeps_lift|]. intros next. apply keeps_bind; [apply Hi|]. intros a.
  destruct (loop_ends _ _ _); [apply keeps_ret|apply IH].
Qed.

Lemma keeps_disable_cache p size : keeps (fun s : Mmu A => I (frames (pages s))) (disable_cache p size).
Proof using Halloc.
  apply keeps_bind; [apply keeps_lift|]. intros vend. unfold with_current_page_table.
  apply keeps_bind; [by intros s Hs|]. intros table. apply keeps_bind; [|by intros _ s Hs].
  intros s Hs. assert (keeps J (unwrapM (create_mapping p vend p ReadWriteIo table))) as Hk.
  { apply keeps_unwrap, keeps_bind; [|intros _; apply keeps_ret]. by repeat (apply keeps_table_loop; intros ? ?); apply keeps_page_loop. }
  specialize (Hk (pages s) Hs). unfold on_pages, zoom. by destruct (unwrapM _ (pages s)) as [r q].
Qed.
End frames_kept.

(** Tables the kernel's code can walk, over a heap that is in order. *)
Definition mmu_ok (s : Mmu FirstFitAllocator) : Prop :=
  (exists dp, wf_tables (cr3 s) dp (pages s)) /\ heap_low (frames (pages s)).

(** The page of [va] is one of the pages that the [size] bytes at [p] meet. *)
Definition in_pages (p size va : Z) : Prop := p <= va /\ va / 4096 * 4096 < p + size.
#[export] Instance in_pages_dec p size va : Decision (in_pages p size va).
Proof. unfold in_pages. apply _. Defined.

Lemma frames_kept a : (exists bs, represents a bs) /\ heap_low a ->
  (exists bs, represents (fs_alloc a).2 bs) /\ heap_low (fs_alloc a).2.
Proof.
  intros [[bs Hrep] Hlow]. cbn [fs_alloc KernelHeap].
  pose proof (alloc_with_options_refines a bs LAYOUT_PAGE_4K Hrep page_layout_ok) as Href.
  destruct (spec_alloc bs LAYOUT_PAGE_4K) as [[p bs']|] eqn:Hsp; [|rewrite Href; by split; [exists bs|]].
  destruct Href as (st' & -> & Hrep'). cbn [snd]. split; [by exists bs'|].
  intros cs Hcs. rewrite (represents_det _ _ _ Hcs Hrep').
  eapply spec_alloc_low; [apply Hrep|exact page_layout_ok|exact Hsp|by apply Hlow].
Qed.

Lemma disable_cache_ok (s : Mmu FirstFitAllocator) p size :
  mmu_ok s -> (4096 | p) -> 0 <= p -> 0 < size -> p + size <= 2 ^ 48 ->
  oom_or (disable_cache p size s) (fun _ s' =>
    (cr3 s' = cr3 s /\ ram s' = ram s) /\ mmu_ok s' /\
    forall va, 0 <= va < 2 ^ 48 -> leaf (tables (pages s')) (cr3 s') va =
      if decide (in_pages p size va) then mapped (va / 4096 * 4096) ReadWriteIo
      else leaf (tables (pages s)) (cr3 s) va).
Proof.
  intros [[dp Hwf] Hlow] Hal Hp Hs Hend. pose proof (disable_cache_spec s dp p size Hwf Hal Hp Hs Hend) as H.
  pose proof (keeps_disable_cache (fun a => (exists bs, represents a bs) /\ heap_low a) frames_kept p size s
    (conj (wf_frames _ _ _ Hwf) Hlow)) as [_ Hk].
  destruct (disable_cache p size s) as [[[]|e|e] s']; [|done..]. destruct H as ([Hcr Hram] & [dp' Hwf'] & Hleaf).
  cbn [oom_or]. unfold mmu_ok. rewrite Hcr. split_and!; try done. by exists dp'.
Qed.

(** Allocation on the whole machine. *)
Lemma galloc_mmu l (s : Mmu FirstFitAllocator) : mmu_ok s -> layout_ok l ->
  exists p st', galloc l s = (Ok p, Build_Mmu {| tables := tables (pages s); frames := st' |} (cr3 s) (ram s)) /\
    mmu_ok (Build_Mmu {| tables := tables (pages s); frames := st' |} (cr3 s) (ram s)) /\
    (p = 0 \/ (l_align l | p) /\ 0 < p /\ p + l_size l <= 2 ^ 48).
Proof.
  destruct s as [[t st] c m]. intros [[dp Hwf] Hlow] Hl. cbn [pages cr3 frames] in *.
  destruct (galloc_tables l c dp t st Hl Hwf Hlow) as (p & st' & Hrun & Hwf' & Hlow' & Hp).
  exists p, st'. split; [|split; [|exact Hp]].
  - unfold galloc at 1. cbn [Mmu_GlobalAlloc]. unfold on_pages, zoom. cbn [pages frames]. by rewrite Hrun.
  - split; [by exists dp|exact Hlow'].
Qed.

Lemma box_mmu l (s : Mmu FirstFitAllocator) : mmu_ok s -> layout_ok l ->
  oom_or (box_new l s) (fun p s' => mmu_ok s' /\
    (cr3 s' = cr3 s /\ ram s' = ram s /\ tables (pages s') = tables (pages s)) /\
    (l_align l | p) /\ 0 < p /\ p + l_size l <= 2 ^ 48).
Proof.
  intros Hs Hl. destruct (galloc_mmu l s Hs Hl) as (p & st' & Hrun & Hs' & Hp).
  unfold box_new. rewrite (bind_ok _ _ _ _ _ Hrun). destruct Hp as [->|(? & Hp & ?)]; [done|].
  by rewrite (proj2 (Z.eqb_neq p 0)) by lia.
Qed.

Lemma IoBoxInner_layout_ok size : 0 < size <= 2 ^ 40 -> layout_ok (IoBoxInner_layout size).
Proof.
  intros Hs. split; [cbn; div_lia|]. split; [by exists 12|]. cbn.
  rewrite Z.mul_comm, <- Z.mul_comm. div_lia.
Qed.

(** [IoBox::new]: what it allocates, clears and maps. *)
Lemma io_box_ok (size : Z) (s : Mmu FirstFitAllocator) : 0 < size <= 2 ^ 40 -> mmu_ok s ->
  oom_or (IoBox_new size s) (fun p s' =>
    ((4096 | p) /\ 0 < p /\ p + size <= 2 ^ 48) /\ cr3 s' = cr3 s /\ mmu_ok s' /\
    (forall a, ram s' a = if decide (p <= a < p + size) then 0 else ram s a) /\
    forall va, 0 <= va < 2 ^ 48 -> leaf (tables (pages s')) (cr3 s') va =
      if decide (in_pages p size va) then mapped (va / 4096 * 4096) ReadWriteIo
      else leaf (tables (pages s)) (cr3 s) va).
Proof.
  intros Hsize Hs. unfold IoBox_new. eapply oom_bind; [apply (box_mmu _ s Hs (IoBoxInner_layout_ok size Hsize))|].
  intros p s1 (Hs' & (Hcr1 & Hram1 & Htab1) & Hal & Hp & Hend). mstep.
  change (4096 | p) in Hal. assert (p + size <= 2 ^ 48) as Hend' by (cbn [l_size IoBoxInner_layout] in Hend; div_lia).
  eapply oom_bind; [apply disable_cache_ok; [exact Hs'|lia || done..]|].
  intros [] s2 ([Hcr Hram] & Hok & Hleaf). cbn [mret M_ret oom_or pages cr3 ram] in *. split_and!; try done.
  - congruence.
  - intros a. by rewrite Hram, Hram1.
  - intros va Hva. by rewrite Hleaf, Htab1, Hcr1.
Qed.


(** Empty page tables outside the example heap. *)
Definition example_mmu : Mmu FirstFitAllocator :=
  Build_Mmu {| tables := {[0x1000 := replicate 512 0]}; frames := example_state |} 0x1000 (fun _ => 0xAA).

Lemma example_mmu_wf : wf_tables 0x1000 {[0x1000 := 0%nat]} (pages example_mmu).
Proof.
  assert (forall t es i v, tables (pages example_mmu) !! t = Some es -> es !! i = Some v -> is_present v = false) as Hz.
  { intros t es i v Ht Hi. cbn [tables pages example_mmu] in Ht. apply lookup_singleton_Some in Ht as [_ <-]. by eapply zeros_not_present. }
  split.
  - apply lookup_singleton_eq.
  - intros t d Ht. apply lookup_singleton_Some in Ht as [<- <-]. split; [lia|].
    exists (replicate 512 0). split; [apply lookup_singleton_eq|reflexivity].
  - intros t d i es v _ _ Ht Hi Hp. rewrite (Hz _ _ _ _ Ht Hi) in Hp. discriminate Hp.
  - intros t d i es v t' d' i' es' v' _ _ Ht Hi Hp. rewrite (Hz _ _ _ _ Ht Hi) in Hp. discriminate Hp.
  - exact example_init_ok.
  - intros t d Ht. apply lookup_singleton_Some in Ht as [<- _]. intros (bs & b & Hrep & Hb & _ & Hlo & _).
    cbn [frames pages example_mmu] in Hrep. rewrite (represents_det _ _ _ Hrep example_represents) in Hb.
    unfold example_blocks in Hb. apply list_elem_of_singleton in Hb as ->. cbn in Hlo. lia.
Qed.

Lemma example_mmu_low : heap_low (frames (pages example_mmu)).
Proof.
  intros bs Hrep. cbn [frames pages example_mmu] in Hrep. rewrite (represents_det _ _ _ Hrep example_represents).
  repeat constructor. unfold b_end. cbn. lia.
Qed.


(** ** Large pages *)

Lemma table_loop_panic {A} `{FrameSource A} ve d LEVEL inner fuel t va v e (s : PageMemory A) :
  (d <= 3)%nat -> LEVEL = 4 - Z.of_nat d -> entry_at (tables s) d t va = Some v ->
  inner (child_of v) va s = (Panic e, s) ->
  table_loop ve LEVEL inner (S fuel) t va s = (Panic e, s).
Proof.
  intros Hd -> He Hi. unfold entry_at in He.
  destruct (tables s !! t) as [es|] eqn:Hes; [|done]. cbn [mbind option_bind] in He.
  destruct (es !! idx d va) as [w|] eqn:Hw; [|done]. cbn [mbind option_bind] in He.
  destruct (is_present w) eqn:Hp; [|done]. injection He as ->.
  assert (read_entry t (idx d va) s = (Ok v, s)) as Hread by (unfold read_entry; by rewrite Hes, Hw).
  cbn [table_loop]. rewrite calc_index_idx by done. unfold ensure_populated.
  rewrite (bind_ok _ _ _ tt s) by (rewrite (bind_ok _ _ _ _ _ Hread); by rewrite Hp).
  rewrite (bind_ok _ _ _ _ _ Hread). unfold table_mut. rewrite Hp. mstep.
  by apply bind_panic.
Qed.

Lemma page_loop_panic {A} `{FrameSource A} vs ve phys attr fuel t (s : PageMemory A) :
  tables s !! t = None -> 0 <= vs -> 0 <= phys /\ phys + vs < 2 ^ 64 -> (4096 | phys) ->
  page_loop vs ve phys attr (S fuel) t vs s = (Panic msg_ub, s).
Proof.
  intros Hpage Hvs Hphys Hal.
  cbn [page_loop]. rewrite (bind_ok (lift (add_chk 64 phys vs)) _ s (phys + vs) s)
    by (unfold lift; by rewrite add_chk_ok by lia).
  rewrite (bind_ok (lift (sub_chk (phys + vs) vs)) _ s phys s)
    by (unfold lift; rewrite sub_chk_ok by lia; do 2 f_equal; lia).
  apply bind_panic. unfold set_page. rewrite aligned_mask by done. cbn [Z.eqb negb].
  unfold write_entry. apply bind_panic. unfold read_entry. by rewrite Hpage.
Qed.

(** [create_mapping] does not know large pages.  When the walk of the first address meets
    a page directory entry with the page-size bit set, as in the tables UEFI hands over (and
    [disable_cache] runs on whatever tables CR3 has; start-up never loads the kernel's own),
    it takes the 2 MiB page for a page table and writes its entry into that memory, which in
    Rust is undefined behaviour. *)
Theorem create_mapping_large_page {A} `{FrameSource A} (root vs ve phys pd v : Z) (attr : PageAttr) (s : PageMemory A)
  (Hpath : path (tables s) root 2 vs = Some pd) (Hentry : entry_at (tables s) 2 pd vs = Some v)
  (Hlarge : Z.testbit v 7 = true) (Hpage : tables s !! child_of v = None)
  (Hvs : 0 <= vs) (Hphys : 0 <= phys /\ phys + vs < 2 ^ 64) (Hal : (4096 | phys)) :
  create_mapping vs ve phys attr root s = (Panic msg_ub, s).
Proof.
  cbn [path mbind option_bind] in Hpath.
  destruct (entry_at (tables s) 0 root vs) as [v0|] eqn:H0; [|done]. cbn [mbind option_bind] in Hpath.
  destruct (entry_at (tables s) 1 (child_of v0) vs) as [v1|] eqn:H1; [|done].
  cbn [mbind option_bind] in Hpath. injection Hpath as <-.
  unfold create_mapping. apply bind_panic.
  eapply (table_loop_panic ve 0); [lia|reflexivity|exact H0|].
  eapply (table_loop_panic ve 1); [lia|reflexivity|exact H1|].
  eapply (table_loop_panic ve 2); [lia|reflexivity|exact Hentry|].
  by apply page_loop_panic.
Qed.

(** Firmware tables that map the first 2 MiB with one large page. *)
Definition firmware_tables : PageMemory FirstFitAllocator := {|
  tables := {[0x1000 := 0x2003 :: replicate 511 0; 0x2000 := 0x3003 :: replicate 511 0;
              0x3000 := 0x83 :: replicate 511 0]};
  frames := example_state |}.

Lemma create_mapping_large_page_witness :
  (create_mapping 0x5000 0x6000 0x5000 ReadWriteIo 0x1000 firmware_tables).1 = Panic msg_ub.
Proof.
  rewrite (create_mapping_large_page 0x1000 0x5000 0x6000 0x5000 0x3000 0x83 ReadWriteIo firmware_tables).
  - reflexivity.
  - vm_compute. reflexivity.
  - vm_compute. reflexivity.
  - reflexivity.
  - vm_compute. reflexivity.
  - lia.
  - lia.
  - by exists 5.
Defined.

(** ** The dropped table *)

(** [get_page_pointer] on the kernel's heap: the boxed table is dropped at the end of the
    function, and its address returned. *)
Definition get_page_pointer (memory_map : MemoryMapHolder) : M FirstFitAllocator Z :=
  table ← box_new LAYOUT_PAGE_4K;
  es ← lift (map_iter memory_map);
  _ ← lift (end_of_memory 0x100000000 es);
  dealloc table LAYOUT_PAGE_4K;;
  mret table.

Lemma get_page_pointer_dangles map es last st bs live :
  client_inv st live bs -> MemoryMapHolder_iter map = Some (Ok es) -> end_of_memory 0x100000000 es = Ok last ->
  match get_page_pointer map st with
  | (Ok p, st') => exists bs', client_inv st' live bs' /\ exists b, b ∈ bs' /\ b_alloc b = false /\ b_addr b = p - 32
  | (Panic e, _) => e = msg_oom
  | (Err _, _) => False
  end.
Proof.
  intros Hinv Hit Hend. pose proof Hinv as (Hrep & _).
  pose proof (alloc_with_options_refines st bs LAYOUT_PAGE_4K Hrep page_layout_ok) as Href.
  unfold get_page_pointer, box_new. cbn [galloc FirstFit_GlobalAlloc].
  destruct (spec_alloc bs LAYOUT_PAGE_4K) as [[p bs1]|] eqn:Hsp.
  2:{ rewrite (bind_panic _ _ _ msg_oom st); [done|]. by rewrite (bind_ok _ _ _ _ _ Href). }
  destruct Href as (st1 & Hrun & Hrep1). pose proof Hrep as [_ Hb].
  pose proof (spec_alloc_pos _ _ _ _ Hb page_layout_ok Hsp) as Hp0.
  destruct (client_inv_alloc _ _ _ _ _ _ Hinv page_layout_ok Hrun Hp0) as (bs2 & Hsp2 & Hinv2).
  rewrite Hsp in Hsp2. injection Hsp2 as <-.
  rewrite (bind_ok _ _ _ p st1) by (rewrite (bind_ok _ _ _ _ _ Hrun), (proj2 (Z.eqb_neq _ _)) by done; done).
  unfold map_iter. rewrite Hit. mstep. rewrite Hend. mstep.
  destruct (client_inv_dealloc st1 [] p LAYOUT_PAGE_4K live bs1 Hinv2) as (st2 & Hd & Hinv3).
  rewrite (bind_ok _ _ _ _ _ Hd). exists (spec_dealloc bs1 p). split; [exact Hinv3|].
  destruct (spec_alloc_some _ _ _ _ Hb page_layout_ok Hsp) as (_ & _ & _ & (b & Hin & _ & Haddr & _) & _).
  unfold HEADER_SIZE in Haddr.
  exists {| b_addr := b_addr b; b_size := b_size b; b_alloc := false |}. split_and!; [|done|done].
  unfold spec_dealloc. apply list_elem_of_fmap. exists b. split; [|done].
  unfold HEADER_SIZE. by rewrite (proj2 (Z.eqb_eq _ _)) by lia.
Qed.
