(* ===== verification/Attach.v ===== *)
(** * Attaching the controller: [PciXhciDriver::attach] of [src/src/xhci.rs] and
    [BarMem64::disable_cach] of [src/src/pci.rs].

    The point where the parts of the kernel meet: the function's configuration space ([Pci]),
    the page tables and the heap behind them ([Boot], [Paging], [Allocator]), the registers of
    the controller ([Controller]), and the executor that gets the driver's task.  The boxes
    the controller's memory is made of are allocated, and the shared ones remapped, on the
    same page tables as the register window; [since] follows them through the steps. *)

From S2P Require Import Prelude Bits Allocator Heap Paging Pci Boot Trb Event Executor Controller.
Import Allocator.Allocator BlockSpec Paging.Paging Pci.Pci Trb.TrbRing Trb.CommandRing Event.Event Executor.Executor
  Registers Portsc.
Import Controller.Controller.

Module Attach.

(** The configuration space, the registers, the processor's tables with the heap, and the
    [static GLOBAL_EXECUTOR]. *)
Record Host (C D T : Type) : Type := Build_Host {
  config : C; mmio : D; mmu : Mmu FirstFitAllocator; tasks : option (Executor T) }.
Arguments config {C D T}.
Arguments mmio {C D T}.
Arguments mmu {C D T}.
Arguments tasks {C D T}.
Arguments Build_Host {C D T}.

(** [BarMem64::disable_cach]. *)
Definition disable_cach (self : BarMem64) : M (Mmu FirstFitAllocator) unit :=
  let vstart := bar_addr self in
  vend ← lift (add_chk 64 vstart (bar_size self));
  with_current_page_table (fun pt => unwrapM (create_mapping vstart vend vstart ReadWriteIo pt)).

Section attach.
Context {C D T : Type} {CS : ConfigSpace C} {MB : MmioBus D}.

Definition on_config {A} (m : M C A) : M (Host C D T) A :=
  zoom config (fun c h => Build_Host c (mmio h) (mmu h) (tasks h)) m.
Definition on_mmio {A} (m : M D A) : M (Host C D T) A :=
  zoom mmio (fun d h => Build_Host (config h) d (mmu h) (tasks h)) m.
Definition on_mmu {A} (m : M (Mmu FirstFitAllocator) A) : M (Host C D T) A :=
  zoom mmu (fun t h => Build_Host (config h) (mmio h) t (tasks h)) m.
(** The registers, and the tables with the heap. *)
Definition on_machine {A} (m : M (Machine D (Mmu FirstFitAllocator)) A) : M (Host C D T) A :=
  zoom (fun h => Build_Machine (mmio h) (mmu h)) (fun s h => Build_Host (config h) (bus s) (mheap s) (tasks h)) m.

(** [run xhc] is the task that [Self::run] makes; [fuel] bounds the controller's polling. *)
Definition attach (fuel : nat) (run : Controller -> T) (pci : Pci) (bdf : Z) : M (Host C D T) unit :=
  on_config (disable_interrupt pci bdf);;
  on_config (enable_bus_mastering pci bdf);;
  bar0 ← on_config (try_bar0_mem64 pci bdf);
  on_mmu (disable_cach bar0);;
  regs ← on_mmio (setup_xhc_registers (bar_addr bar0));
  xhc ← on_machine (Controller_new fuel regs);
  modify (fun h => Build_Host (config h) (mmio h) (mmu h) (spawn_global (run xhc) (tasks h))).
End attach.
End Attach.
Import Attach.

(** ** Memory *)

(** The page that an address is in. *)
Definition page_of (va : Z) : Z := va / 4096 * 4096.

(** What has become of the tables of [s]: the pages [ps] are mapped to themselves, uncached,
    and every other translation is as it was. *)
Record since (s : Mmu FirstFitAllocator) (ps : list Z) (s' : Mmu FirstFitAllocator) : Prop := {
  since_ok : mmu_ok s';
  since_leaf va : 0 <= va < 2 ^ 48 -> leaf (tables (pages s')) (cr3 s') va =
    if decide (page_of va ∈ ps) then mapped (page_of va) ReadWriteIo else leaf (tables (pages s)) (cr3 s) va }.

Lemma since_refl s : mmu_ok s -> since s [] s.
Proof. intros Hs. by split. Qed.

Section since.
Context (s : Mmu FirstFitAllocator).

Lemma since_galloc l ps s1 : since s ps s1 -> layout_ok l ->
  exists p s2, galloc l s1 = (Ok p, s2) /\ since s ps s2.
Proof using.
  intros [Hok Hleaf] Hl. destruct (galloc_mmu l s1 Hok Hl) as (p & st & Hrun & Hok' & _). by eexists p, _.
Qed.

Lemma since_box l ps s1 : since s ps s1 -> layout_ok l -> memory_or (box_new l s1) (fun _ => since s ps).
Proof using.
  intros Hs Hl. destruct (since_galloc l ps s1 Hs Hl) as (p & s2 & Hrun & Hs2).
  unfold box_new. rewrite (bind_ok _ _ _ _ _ Hrun). destruct (p =? 0); [by left|exact Hs2].
Qed.

Lemma since_raw size align msg ps s1 : since s ps s1 -> layout_ok {| l_size := size; l_align := align |} ->
  Layout_from_size_align size align <> None -> memory_or (raw_alloc size align msg s1) (fun _ => since s ps).
Proof using.
  intros Hs Hl Hn. unfold raw_alloc, Layout_from_size_align in *. destruct (_ && _); [|done].
  cbn [ok_or]. mstep. destruct (since_galloc _ ps s1 Hs Hl) as (p & s2 & Hrun & Hs2).
  rewrite (bind_ok _ _ _ _ _ Hrun). destruct (p =? 0); [by right|exact Hs2].
Qed.

(** A box of one page takes the page out of the cache. *)
Lemma since_io_box ps s1 : since s ps s1 ->
  memory_or (io_box 4096 s1) (fun p s2 => since s (p :: ps) s2 /\ (4096 | p)).
Proof using.
  intros [Hok Hleaf]. eapply ends_weaken; [apply oom_memory, io_box_ok; [lia|exact Hok]|].
  intros p s2 ([Hal _] & _ & Hok2 & _ & Hleaf2). split; [|done]. split; [done|]. intros va Hva.
  rewrite Hleaf2, Hleaf by done. destruct Hal as [k ->]. unfold page_of, in_pages.
  destruct (decide (k * 4096 <= va /\ va / 4096 * 4096 < k * 4096 + 4096)) as [Hd|Hd].
  - by rewrite decide_True by (apply elem_of_cons; left; div_lia).
  - destruct (decide (va / 4096 * 4096 ∈ ps)) as [Hin|Hin].
    + by rewrite decide_True by (by apply elem_of_cons; right).
    + rewrite decide_False; [done|]. intros [He|?]%elem_of_cons; [|done]. apply Hd. div_lia.
Qed.

(** The rings of a controller, each from the start of a page, and the pages that are no
    longer cached: theirs and the segment table's. *)
Definition rings_new (events : EventRing) (commands : CommandRing) : Prop :=
  exists a b, EventRing_new a = Ok events /\ CommandRing_default b = Ok commands /\ (4096 | a) /\ (4096 | b).
Definition io_pages (erst : Z) (events : EventRing) (commands : CommandRing) : list Z :=
  [r_addr (cr_ring commands); erst; r_addr (er_ring events)].

Lemma since_scratchpad num p s1 : 0 <= num < 2 ^ 10 -> 12 <= p <= 27 -> since s [] s1 ->
  memory_or (ScratchpadBuffers_alloc num (2 ^ p) s1) (fun _ => since s []).
Proof using.
  intros Hn Hp Hs. unfold ScratchpadBuffers_alloc.
  assert (2 ^ p <= 2 ^ 27) as Hpage by (apply Z.pow_le_mono_r; lia). pose proof (Z.pow_pos_nonneg 2 p ltac:(lia) ltac:(lia)) as Hpos.
  set (m := Z.max num 1). assert (1 <= m < 2 ^ 10) as Hm by lia.
  destruct (pow2_layout (8 * m) p ltac:(lia) ltac:(lia)) as [L1 N1]. destruct (pow2_layout (2 ^ p) p ltac:(lia) ltac:(lia)) as [L2 N2].
  destruct (pow2_layout (8 * m) 3 ltac:(lia) ltac:(lia)) as [L3 _]. destruct (pow2_layout (2 ^ p) 0 ltac:(lia) ltac:(lia)) as [L4 _].
  eapply ends_bind; [by apply since_raw|]. intros q1 h1 H1. eapply ends_bind; [by apply (since_box _ _ _ H1 L3)|].
  intros table h2 H2. eapply (ends_bind _ _ _ _ (fun _ => since s [])); [|intros bufs h3 H3; exact H3]. apply ends_mapM; [|done].
  intros q3 h3 H3. eapply ends_bind; [by apply since_raw|]. intros q4 h4 H4. by apply (since_box _ _ _ H4 L4).
Qed.

Lemma Controller_alloc_memory num p s1 : 0 <= num < 2 ^ 10 -> 12 <= p <= 27 -> since s [] s1 ->
  memory_or (Controller_alloc num (2 ^ p) s1) (fun r s2 => let '(_, erst, events, commands) := r in
    (4096 | erst) /\ rings_new events commands /\ since s (io_pages erst events commands) s2).
Proof using.
  intros Hn Hp Hs. unfold Controller_alloc, dcbaa_new.
  eapply ends_bind; [by apply since_scratchpad|]. intros sp h1 H1.
  destruct (pow2_layout 2048 6 ltac:(lia) ltac:(lia)) as [L5 _].
  eapply (ends_bind _ _ _ _ (fun _ => since s [])).
  { eapply ends_bind; [by apply (since_box _ _ _ H1 L5)|]. intros q h2 H2. exact H2. }
  intros dc h2 H2. eapply ends_bind; [by apply since_io_box|]. intros ring h3 [H3 Hring].
  assert (exists e, EventRing_new ring = Ok e /\ r_addr (er_ring e) = ring) as (e & Ee & Re)
    by (unfold EventRing_new; rewrite trb_link_eq; by eexists).
  rewrite Ee. mstep. eapply ends_bind; [by apply since_io_box|]. intros erst h4 [H4 Herst].
  eapply ends_bind; [by apply since_io_box|]. intros cmds h5 [H5 Hcmds].
  assert (exists c, CommandRing_default cmds = Ok c /\ r_addr (cr_ring c) = cmds) as (c & Ec & Rc).
  { unfold CommandRing_default. cbn [phys_addr TrbRing_new r_addr cr_ring]. rewrite trb_link_eq. by eexists. }
  rewrite Ec. mstep. cbn [mret M_ret ends_or]. split; [done|]. split; [by exists ring, cmds|].
  unfold io_pages. by rewrite Re, Rc.
Qed.
End since.

(** ** The function's configuration space *)

(** The documented behaviour of the command register's Bus Master and Interrupt Disable bits
    next to BAR 0. *)
Record pci_function {C} {CS : ConfigSpace C} (pci : Pci) (bdf : Z) (bar : C -> Z) (master masked : C -> bool) (k : Z) : Prop := {
  pf_bar : bar0_device pci bdf bar k 4;
  pf_read c : exists w, cs_read 4 (ecm_start pci + Z.shiftl bdf 12 + 4) c = (w, c) /\ in_width 32 w /\
    Z.testbit w 2 = master c /\ Z.testbit w 10 = masked c;
  pf_write c v : in_width 32 v -> let c' := cs_write 4 (ecm_start pci + Z.shiftl bdf 12 + 4) v c in
    master c' = Z.testbit v 2 /\ masked c' = Z.testbit v 10 /\ bar c' = bar c;
  pf_bar_write c v ofs : ofs = 0x10 \/ ofs = 0x14 ->
    let c' := cs_write 4 (ecm_start pci + Z.shiftl bdf 12 + ofs) v c in master c' = master c /\ masked c' = masked c;
}.

Section config.
Context {C : Type} {CS : ConfigSpace C} (pci : Pci) (bdf : Z) (bar : C -> Z) (master masked : C -> bool) (k : Z).
Context (Hf : pci_function pci bdf bar master masked k).

Lemma base_ok : ecm_base pci bdf = Ok (ecm_start pci + Z.shiftl bdf 12).
Proof using Hf.
  destruct (pf_bar _ _ _ _ _ _ Hf) as [_ _ (H0 & H1 & H2) _ _ _ _ _]. unfold ecm_base. apply add_chk_ok.
  rewrite Z.shiftl_mul_pow2 by lia. lia.
Qed.

Lemma set_flags_ok flags c : in_width 32 flags ->
  exists c', set_command_and_status_flags pci bdf flags c = (Ok tt, c') /\
    master c' = master c || Z.testbit flags 2 /\ masked c' = masked c || Z.testbit flags 10 /\ bar c' = bar c.
Proof using Hf.
  intros Hfl. destruct (pf_read _ _ _ _ _ _ Hf c) as (w & Hr & Hw & Hm & Hd).
  assert (in_width 32 (Z.lor w flags)) as Hv.
  { apply in_width_testbit; [lia|apply Z.lor_nonneg; by destruct Hw, Hfl|]. intros i Hi.
    by rewrite Z.lor_spec, (testbit_high 32 w), (testbit_high 32 flags) by (done || lia). }
  destruct (pf_write _ _ _ _ _ _ Hf c (Z.lor w flags) Hv) as (H1 & H2 & H3).
  exists (cs_write 4 (ecm_start pci + Z.shiftl bdf 12 + 4) (Z.lor w flags) c).
  split; [|rewrite Z.lor_spec in H1, H2; rewrite Hm in H1; rewrite Hd in H2; exact (conj H1 (conj H2 H3))].
  unfold set_command_and_status_flags, read_register_u32, write_register_u32. rewrite base_ok.
  rewrite (bind_ok _ _ c w c).
  - mstep. reflexivity.
  - mstep. unfold ConfigRegisters_read, volatile_read. change (negb ((0 <=? 4) && (4 <? 256)) || negb (4 mod 4 =? 0)) with false.
    cbv iota. change (4 / 4 * 4) with 4. cbv beta. by rewrite Hr.
Qed.

(** Sizing BAR 0 keeps the two bits. *)
Definition bits_are (a b : bool) (c : C) : Prop := master c = a /\ masked c = b.

Lemma keeps_bar_read ofs a b : ofs = 0x10 \/ ofs = 0x14 -> keeps (bits_are a b) (read_register_u32 pci bdf ofs).
Proof using Hf.
  intros Hofs c Hc. destruct (pf_bar _ _ _ _ _ _ Hf) as [_ _ _ _ Hlo Hhi _ _].
  unfold read_register_u32. rewrite base_ok. mstep. unfold ConfigRegisters_read, volatile_read.
  destruct Hofs as [-> | ->]; cbn [negb andb orb Z.leb Z.ltb Z.eqb Z.compare].
  - change (0x10 mod 4 =? 0) with true. change (0x10 / 4 * 4) with 0x10. cbn. by rewrite Hlo.
  - change (0x14 mod 4 =? 0) with true. change (0x14 / 4 * 4) with 0x14. cbn. rewrite <- Z.add_assoc in Hhi.
    change (0x10 + 4) with 0x14 in Hhi. by rewrite Hhi.
Qed.

Lemma keeps_bar_write ofs v a b : ofs = 0x10 \/ ofs = 0x14 -> keeps (bits_are a b) (write_register_u32 pci bdf ofs v).
Proof using Hf.
  intros Hofs c [Ha Hb]. destruct (pf_bar_write _ _ _ _ _ _ Hf c v ofs Hofs) as [H1 H2].
  unfold write_register_u32. rewrite base_ok. mstep. unfold ConfigRegisters_write, volatile_write, modify.
  destruct Hofs as [-> | ->]; cbn [negb andb orb Z.leb Z.ltb Z.eqb Z.compare].
  - change (0x10 mod 4 =? 0) with true. change (0x10 / 4 * 4) with 0x10. cbn. split; congruence.
  - change (0x14 mod 4 =? 0) with true. change (0x14 / 4 * 4) with 0x14. cbn. split; congruence.
Qed.

Lemma keeps_bar0 a b : keeps (bits_are a b) (try_bar0_mem64 pci bdf).
Proof using Hf.
  assert (keeps (bits_are a b) (read_register_u64 pci bdf 0x10)) as Hr.
  { apply keeps_bind; [apply keeps_bar_read; by left|]. intros lo. change (add_chk 64 0x10 4) with (Ok 0x14).
    apply (keeps_bind _ (read_register_u32 pci bdf 0x14)); [apply keeps_bar_read; by right|]. intros hi. apply keeps_ret. }
  assert (forall v, keeps (bits_are a b) (write_register_u64 pci bdf 0x10 v)) as Hw.
  { intros v. apply keeps_bind; [apply keeps_bar_write; by left|]. intros _. change (add_chk 64 0x10 4) with (Ok 0x14).
    apply (keeps_bar_write 0x14). by right. }
  apply keeps_bind; [exact Hr|]. intros bar0. destruct (_ =? _); [|apply keeps_lift].
  apply keeps_bind; [apply Hw|]. intros _. apply keeps_bind; [exact Hr|]. intros v.
  apply keeps_bind; [apply keeps_lift|]. intros size. apply keeps_bind; [apply Hw|]. intros _. apply keeps_ret.
Qed.

(** What [attach] does to the configuration space. *)
Lemma config_ok base c : in_width 64 base -> (2 ^ k | base) -> bar c = base + 4 -> exists c',
  (disable_interrupt pci bdf;; enable_bus_mastering pci bdf;; try_bar0_mem64 pci bdf) c =
    (Ok {| bar_addr := base; bar_size := 2 ^ k |}, c') /\ bar c' = bar c /\ bits_are true true c'.
Proof using Hf.
  intros Hb Hal Hbar.
  destruct (set_flags_ok (Z.shiftl 1 10) c ltac:(split; vm_compute; done)) as (c1 & E1 & M1 & D1 & B1).
  destruct (set_flags_ok (Z.shiftl 1 2) c1 ltac:(split; vm_compute; done)) as (c2 & E2 & M2 & D2 & B2).
  destruct (try_bar0_eq pci bdf bar k 4 (pf_bar _ _ _ _ _ _ Hf) c2 base eq_refl Hb Hal ltac:(congruence)) as (c3 & E3 & B3).
  exists c3. split; [|split; [congruence|] ].
  - unfold disable_interrupt, enable_bus_mastering. rewrite (bind_ok _ _ _ _ _ E1), (bind_ok _ _ _ _ _ E2), E3.
    change (4 - 4) with 0. by rewrite Z.add_0_r, Z.sub_0_r.
  - pose proof (keeps_bar0 true true c2) as Hk. rewrite E3 in Hk. apply Hk. split.
    + rewrite M2. by rewrite orb_true_r.
    + rewrite D2, D1. by rewrite orb_true_r.
Qed.
End config.

(** ** The registers *)

(** The capability registers of the controller at [base]. *)
Record xhc_capabilities (D : Type) {MB : MmioBus D} (base len p1 p2 db rts : Z) : Prop := {
  xc_len (d : D) : (mmio_read base d).1 = len;
  xc_p1 (d : D) : (mmio_read (hcsparams1 base) d).1 = p1;
  xc_p2 (d : D) : (mmio_read (hcsparams2 base) d).1 = p2;
  xc_db (d : D) : (mmio_read (base + 0x14) d).1 = db;
  xc_rts (d : D) : (mmio_read (base + 0x18) d).1 = rts;
}.

(** Where the controller's registers are; a doorbell for every port and one more. *)
Definition registers_at (base len p1 db rts : Z) : XhcRegisters :=
  let n := get_field p1 24 8 in
  {| cap_regs := base; op_regs := base + len; rt_regs := base + rts;
     doorbell_regs := (fun i => base + db + 4 * i) <$> range 0 (n + 1);
     portsc := (fun port => base + len + 0x400 + 4 * ((port - 1) * 4)) <$> range 1 (n + 1) |}.

Section registers.
Context {D : Type} `{BusTrace D} (base len p1 p2 db rts : Z) (Hcap : xhc_capabilities D base len p1 p2 db rts).

Lemma ports_ok (d : D) : exists d', num_of_ports base d = (Ok (get_field p1 24 8), d') /\ bus_trace d' = bus_trace d.
Proof using Hcap.
  eexists. split; [unfold num_of_ports; rewrite bind_reg_read, (xc_p1 _ _ _ _ _ _ _ Hcap), extract_bits_field by lia; reflexivity|].
  apply trace_read.
Qed.

Lemma doorbells_ok l : forall d : D, exists d',
  mapM (fun i => off ← dboff base; mret (base + off + 4 * i)) l d = (Ok ((fun i => base + db + 4 * i) <$> l), d') /\
  bus_trace d' = bus_trace d.
Proof using Hcap.
  induction l as [|i l IH]; intros d; [by exists d|]. cbn [mapM fmap list_fmap].
  destruct (IH (mmio_read (base + 0x14) d).2) as (d' & E & T). exists d'. split; [|by rewrite T, trace_read].
  rewrite (bind_ok _ _ d (base + db + 4 * i) (mmio_read (base + 0x14) d).2)
    by (unfold dboff; rewrite bind_reg_read, (xc_db _ _ _ _ _ _ _ Hcap); reflexivity).
  by rewrite (bind_ok _ _ _ _ _ E).
Qed.

Lemma setup_registers_ok (d : D) : exists d', setup_xhc_registers base d = (Ok (registers_at base len p1 db rts), d') /\
  bus_trace d' = bus_trace d.
Proof using Hcap.
  pose proof (get_field_width p1 24 8 ltac:(lia) ltac:(lia)) as [Hn _].
  set (d1 := (mmio_read base d).2). set (d2 := (mmio_read (base + 0x18) d1).2). set (d3 := (mmio_read base d2).2).
  destruct (ports_ok d3) as (d4 & E4 & T4). destruct (ports_ok d4) as (d5 & E5 & T5).
  destruct (doorbells_ok (range 0 (get_field p1 24 8 + 1)) d5) as (d6 & E6 & T6).
  exists d6. split; [|rewrite T6, T5, T4; unfold d3, d2, d1; by rewrite !trace_read].
  unfold setup_xhc_registers, caplength, rtsoff. rewrite bind_reg_read. fold d1. rewrite bind_reg_read. fold d2.
  rewrite (bind_ok (PortSc_new base base) _ d2 (portsc (registers_at base len p1 db rts)) d4).
  2:{ unfold PortSc_new, caplength. rewrite bind_reg_read. fold d3. rewrite (bind_ok _ _ _ _ _ E4), (xc_len _ _ _ _ _ _ _ Hcap). reflexivity. }
  rewrite (bind_ok _ _ _ _ _ E5), (bind_ok _ _ _ _ _ E6).
  rewrite (xc_len _ _ _ _ _ _ _ Hcap), (xc_rts _ _ _ _ _ _ _ Hcap).
  assert (Z.of_nat (length ((fun i => base + db + 4 * i) <$> range 0 (get_field p1 24 8 + 1))) = 1 + get_field p1 24 8) as ->.
  { rewrite length_fmap. unfold range. rewrite length_fmap, length_seq. lia. }
  rewrite Z.eqb_refl. reflexivity.
Qed.
End registers.

(** ** The steps of [attach] *)

Section steps.
Context {C D T : Type} {CS : ConfigSpace C} {MB : MmioBus D}.

Lemma attach_eq fuel (run : Controller -> T) pci bdf c1 bar0 t1 r (h : Host C D T) d2 :
  (disable_interrupt pci bdf;; enable_bus_mastering pci bdf;; try_bar0_mem64 pci bdf) (config h) = (Ok bar0, c1) ->
  disable_cach bar0 (mmu h) = (Ok tt, t1) ->
  setup_xhc_registers (bar_addr bar0) (mmio h) = (Ok r, d2) ->
  attach fuel run pci bdf h =
    (xhc ← on_machine (Controller_new fuel r);
     modify (fun h => Build_Host (config h) (mmio h) (mmu h) (spawn_global (run xhc) (tasks h))))
    (Build_Host c1 d2 t1 (tasks h)).
Proof using.
  intros E1 E2 E3. unfold attach, mbind, M_bind, on_config, zoom in *.
  destruct (disable_interrupt pci bdf (config h)) as [[[]|e|e] x1]; [|done..]. cbn [config mmio mmu tasks].
  destruct (enable_bus_mastering pci bdf x1) as [[[]|e|e] x2]; [|done..]. cbn [config mmio mmu tasks].
  rewrite E1. unfold on_mmu, zoom. cbn [config mmio mmu tasks]. rewrite E2. unfold on_mmio, zoom.
  cbn [config mmio mmu tasks]. by rewrite E3.
Qed.

Lemma attach_cach_panic fuel (run : Controller -> T) pci bdf c1 bar0 t1 e (h : Host C D T) :
  (disable_interrupt pci bdf;; enable_bus_mastering pci bdf;; try_bar0_mem64 pci bdf) (config h) = (Ok bar0, c1) ->
  disable_cach bar0 (mmu h) = (Panic e, t1) ->
  exists h', attach fuel run pci bdf h = (Panic e, h').
Proof using.
  intros E1 E2. unfold attach, mbind, M_bind, on_config, zoom in *.
  destruct (disable_interrupt pci bdf (config h)) as [[[]|x|x] x1]; [|done..]. cbn [config mmio mmu tasks].
  destruct (enable_bus_mastering pci bdf x1) as [[[]|x|x] x2]; [|done..]. cbn [config mmio mmu tasks].
  rewrite E1. unfold on_mmu, zoom. cbn [config mmio mmu tasks]. rewrite E2. by eexists.
Qed.
End steps.

(** The window of a BAR starts a page and covers whole pages. *)
Lemma window_pages base k va : 12 <= k -> (2 ^ k | base) ->
  (4096 | base) /\ (base <= va /\ va / 4096 * 4096 < base + 2 ^ k <-> base <= va < base + 2 ^ k).
Proof.
  intros Hk Hb. assert (4096 | 2 ^ k) as Hp.
  { exists (2 ^ (k - 12)). change 4096 with (2 ^ 12). rewrite <- Z.pow_add_r by lia. f_equal. lia. }
  split; [by etrans|]. destruct Hp as [p Hp], Hb as [b ->]. rewrite Hp. div_lia.
Qed.

Lemma window_or_page base k (ps : list Z) va (x y : option Z) : 12 <= k -> (2 ^ k | base) ->
  (if decide (page_of va ∈ ps) then x else if decide (in_pages base (2 ^ k) va) then x else y) =
  (if decide (base <= va < base + 2 ^ k \/ page_of va ∈ ps) then x else y).
Proof.
  intros Hk Hal. destruct (window_pages base k va Hk Hal) as [_ Hw]. unfold in_pages.
  repeat case_decide; tauto || done.
Qed.

Lemma scratchpad_width p2 : 0 <= Z.lor (Z.shiftl (get_field p2 21 5) 5) (get_field p2 27 5) < 2 ^ 10.
Proof.
  apply (in_width_testbit 10); [lia| |].
  - apply Z.lor_nonneg. split; [apply Z.shiftl_nonneg|]; by apply get_field_width.
  - intros i Hi. rewrite Z.lor_spec, Z.shiftl_spec by lia.
    rewrite (testbit_high 5 (get_field p2 21 5)), (testbit_high 5 (get_field p2 27 5)); try done; try lia; by apply get_field_width.
Qed.

(** ** Properties *)

(** C23. Attaching a controller whose BAR 0 is a 64-bit non-prefetchable memory BAR of [2^k]
    bytes, [k] at least 12, below 2^48, with page tables and a heap in order: either memory
    runs out on the way, or Bus Master and Interrupt Disable are set in the function's
    command register and its BAR is as before; the processor now finds the pages of the
    register window, and the three pages that hold the event ring, its segment table and the
    command ring, at their own addresses, uncached, and every other translation as before;
    the registers are found at the offsets that the capability registers give; the
    controller has been brought up with exactly the writes of [bring_up], on rings that start
    pages; and the driver's task is at the end of the executor's queue. *)
Theorem attach_starts {C D T} {CS : ConfigSpace C} `{BusTrace D} (run : Controller -> T) (pci : Pci)
  (bdf : Z) (bar : C -> Z) (master masked : C -> bool) (k base len p1 p2 db rts kp : Z) (h : Host C D T) (dp : gmap Z nat)
  (Hf : pci_function pci bdf bar master masked k) (Hbar : bar (config h) = base + 4)
  (Hbase : 0 <= base) (Hal : (2 ^ k | base)) (Hk : 12 <= k) (Hend : base + 2 ^ k <= 2 ^ 48)
  (Hwf : wf_tables (cr3 (mmu h)) dp (pages (mmu h))) (Hlow : heap_low (frames (pages (mmu h))))
  (Hcap : xhc_capabilities D base len p1 p2 db rts) (Hhw : XhcHardware D (base + len))
  (Hkp : 0 <= kp < 16) (Hpage : forall d : D, (mmio_read (pagesize (base + len)) d).1 = 2 ^ kp) :
  let r := registers_at base len p1 db rts in
  exists fuel0, forall fuel, (fuel0 <= fuel)%nat -> memory_or (attach fuel run pci bdf h) (fun _ h' =>
    (bar (config h') = bar (config h) /\ master (config h') = true /\ masked (config h') = true) /\
    exists c erst events v0 v1 v2 conf,
      (forall va, 0 <= va < 2 ^ 48 -> leaf (tables (pages (mmu h'))) (cr3 (mmu h')) va =
         if decide (base <= va < base + 2 ^ k \/
                    page_of va ∈ [r_addr (cr_ring (command_ring c)); erst; r_addr (er_ring events)])
         then mapped (page_of va) ReadWriteIo
         else leaf (tables (pages (mmu h))) (cr3 (mmu h)) va) /\
      tasks h' = spawn_global (run c) (tasks h) /\ regs c = r /\
      rings_new events (command_ring c) /\ (4096 | erst) /\
      get_field conf 0 8 = get_field p1 0 8 /\ erdp (primary_event_ring c) = Some (irs (rt_regs r) 0 + 24) /\
      bus_trace (mmio h') = bus_trace (mmio h) ++
        bring_up (op_regs r) (irs (rt_regs r) 0) v0 v1 v2 conf erst events (device_context_base_array c) (command_ring c)).
Proof.
  intros r. destruct (config_ok pci bdf bar master masked k Hf base (config h)) as (c1 & E1 & B1 & M1 & D1); [|done|done|].
  { split; [done|]. pose proof (Z.pow_pos_nonneg 2 k ltac:(lia) ltac:(lia)). assert (2 ^ 48 < 2 ^ 64) by done. lia. }
  pose proof (disable_cache_ok (mmu h) base (2 ^ k) (conj (ex_intro _ dp Hwf) Hlow) (proj1 (window_pages base k 0 Hk Hal))
    Hbase ltac:(apply Z.pow_pos_nonneg; lia) Hend) as Hcach.
  change (disable_cache base (2 ^ k) (mmu h)) with (disable_cach {| bar_addr := base; bar_size := 2 ^ k |} (mmu h)) in Hcach.
  destruct (disable_cach _ (mmu h)) as [[[]|e|e] t1] eqn:E2; [|done|].
  2:{ exists 0%nat. intros fuel _. destruct (attach_cach_panic fuel run pci bdf _ _ _ _ h E1 E2) as [h' ->]. by left. }
  destruct Hcach as (_ & Hok & Hleaf).
  destruct (setup_registers_ok base len p1 p2 db rts Hcap (mmio h)) as (d2 & E3 & T3).
  set (s := {| bus := d2; mheap := t1 |}).
  pose proof (Controller_alloc_memory t1 _ (kp + 12) (mheap s) (scratchpad_width p2) ltac:(lia) (since_refl t1 Hok)) as Ha.
  destruct (Controller_alloc _ _ (mheap s)) as [[[[[dcbaa erst] events] commands]|e|e] t2] eqn:Ea; [|done|].
  - destruct (controller_new_starts r s kp p1 p2 dcbaa erst events commands t2 Hkp Hpage
      (xc_p1 _ _ _ _ _ _ _ Hcap) (xc_p2 _ _ _ _ _ _ _ Hcap) Ea)
      as (fuel0 & c & d' & v0 & v1 & v2 & conf & Hrun & Hconf & Htr & Herdp & Hcr & Hdc & Hregs).
    exists fuel0. intros fuel Hfuel. rewrite (attach_eq fuel run pci bdf _ _ _ _ h _ E1 E2 E3).
    rewrite (bind_ok _ _ _ c (Build_Host c1 d' t2 (tasks h)))
      by (unfold on_machine, zoom; cbn [config mmio mmu tasks]; fold s; fold r; by rewrite (Hrun fuel Hfuel)).
    cbn [modify ends_or config mmio mmu tasks]. split; [done|]. destruct Ha as (Herst & Hrings & [_ Hsince]).
    exists c, erst, events, v0, v1, v2, conf. rewrite Hcr, Hdc. split; [|split_and!; try done].
    + intros va Hva. rewrite Hsince, Hleaf by done. by apply window_or_page.
    + rewrite Htr. cbn [bus s]. by rewrite T3.
  - destruct (controller_new_fails r s kp p2 e t2 Hkp Hpage (xc_p2 _ _ _ _ _ _ _ Hcap) Ea) as (fuel0 & d' & Hrun).
    exists fuel0. intros fuel Hfuel. rewrite (attach_eq fuel run pci bdf _ _ _ _ h _ E1 E2 E3).
    erewrite bind_panic; [|unfold on_machine, zoom; cbn [config mmio mmu tasks]; fold s; fold r; by rewrite (Hrun fuel Hfuel)].
    exact Ha.
Qed.

(** A function with a command register and a BAR of 2^14 bytes. *)
Record FunctionSpace : Type := { fn_command : Z; fn_bar : OneBar }.
Definition fn_word (c : FunctionSpace) : Z := wrap 32 (fn_command c).
#[export] Instance FunctionSpace_ConfigSpace : ConfigSpace FunctionSpace := {
  cs_read w a c :=
    if a =? one_bar_addr - 12 then (fn_word c, c) else ((cs_read w a (fn_bar c)).1, c);
  cs_write w a v c :=
    if a =? one_bar_addr - 12 then {| fn_command := v; fn_bar := fn_bar c |}
    else {| fn_command := fn_command c; fn_bar := cs_write w a v (fn_bar c) |};
}.

Lemma function_space_bar w a v (c : FunctionSpace) : a <> one_bar_addr - 12 ->
  fn_bar (cs_write w a v c) = cs_write w a v (fn_bar c).
Proof. intros Ha. unfold cs_write at 1. cbn [FunctionSpace_ConfigSpace]. by rewrite (proj2 (Z.eqb_neq _ _) Ha). Qed.

Lemma function_space : pci_function example_pci 8 (fun c => one_bar (fn_bar c))
  (fun c => Z.testbit (fn_word c) 2) (fun c => Z.testbit (fn_word c) 10) 14.
Proof.
  destruct one_bar_device as [H1 H2 H3 H4 H5 H6 H7 H8]. split.
  - split; try done.
    + intros d v. rewrite function_space_bar by done. apply H7.
    + intros d v. rewrite function_space_bar by done. apply H8.
  - intros c. exists (fn_word c). split; [reflexivity|]. split; [by apply wrap_width|done].
  - intros c v Hv. cbn [cs_write FunctionSpace_ConfigSpace]. change (_ =? _) with true. cbv zeta iota.
    unfold fn_word. cbn [fn_command fn_bar]. by rewrite wrap_small.
  - intros c v ofs [-> | ->]; done.
Qed.

(** A controller in that window whose HCHalted bit is the complement of RUN. *)
Record WindowXhc : Type := { wx_writes : list (Z * Z) }.
Definition window_run (d : WindowXhc) : bool :=
  match filter (fun w => w.1 = 0xFE800020) (rev (wx_writes d)) with w :: _ => Z.testbit w.2 0 | [] => true end.
Definition window_regs : list (Z * Z) :=
  [(0xFE800000, 0x20); (0xFE800004, 0x02000840); (0xFE800008, 0x10000000); (0xFE800014, 0x2000);
   (0xFE800018, 0x1000); (0xFE800028, 1)].
#[export] Instance WindowXhc_MmioBus : MmioBus WindowXhc := {
  mmio_read a d :=
    (if a =? 0xFE800024 then (if window_run d then 0 else 1)
     else match list_find (fun w => w.1 = a) window_regs with Some (_, w) => w.2 | None => 0 end, d);
  mmio_write a v d := {| wx_writes := wx_writes d ++ [(a, v)] |};
}.
#[export] Instance WindowXhc_BusTrace : BusTrace WindowXhc.
Proof. refine {| bus_trace := wx_writes |}; done. Defined.
#[export] Instance WindowXhc_XhcHardware : XhcHardware WindowXhc 0xFE800020.
Proof.
  assert (forall d tr v, wx_writes d = tr ++ [(0xFE800020, v)] -> window_run d = Z.testbit v 0) as E.
  { intros d tr v Hd. unfold window_run. by rewrite Hd, rev_unit. }
  split.
  - intros d tr v Hd Hv. exists 0%nat. cbn. by rewrite (E _ _ _ Hd), Hv.
  - intros d tr v Hd Hv. exists 0%nat. cbn. by rewrite (E _ _ _ Hd), Hv.
  - intros d. cbn. by destruct (window_run d).
Qed.

Definition example_host : Host FunctionSpace WindowXhc Controller :=
  Build_Host {| fn_command := 3; fn_bar := example_bar |} {| wx_writes := [] |} example_mmu None.

Lemma attach_starts_witness : exists fuel h',
  attach fuel id example_pci 8 example_host = (Ok tt, h') /\ fn_word (config h') = 0x407 /\
  leaf (tables (pages (mmu h'))) (cr3 (mmu h')) 0xFE800ABC = Some 0xFE80001B /\
  length (wx_writes (mmio h')) = 11%nat /\ exists c, tasks h' = spawn_global c None.
Proof.
  destruct (attach_starts id example_pci 8 (fun c => one_bar (fn_bar c)) (fun c => Z.testbit (fn_word c) 2)
    (fun c => Z.testbit (fn_word c) 10) 14 0xFE800000 0x20 0x02000840 0x10000000 0x2000 0x1000 0 example_host
    {[0x1000 := 0%nat]} function_space eq_refl ltac:(lia) ltac:(by exists 0x3FA00) ltac:(lia) ltac:(lia)
    example_mmu_wf example_mmu_low ltac:(done) WindowXhc_XhcHardware ltac:(lia) ltac:(done)) as [fuel0 T].
  exists (2 + fuel0)%nat. specialize (T (2 + fuel0)%nat ltac:(lia)).
  assert (is_ok (attach (2 + fuel0) id example_pci 8 example_host).1 = true) as E by (vm_compute; reflexivity).
  assert (fn_word (config (attach (2 + fuel0) id example_pci 8 example_host).2) = 0x407) as E2 by (vm_compute; reflexivity).
  revert T E E2. generalize (attach (2 + fuel0) id example_pci 8 example_host). intros [[[]|e|e] h'] T E E2; [|discriminate E..].
  exists h'. destruct T as (_ & c & erst & events & v0 & v1 & v2 & conf & Hl & Ht & _ & _ & _ & _ & _ & Htr).
  split; [reflexivity|]. split; [exact E2|]. split; [|split].
  - rewrite Hl by lia. rewrite decide_True by (left; lia). reflexivity.
  - change (wx_writes (mmio h')) with (bus_trace (mmio h')). rewrite Htr. reflexivity.
  - exists c. exact Ht.
Defined.
