(* ===== verification/Kernel.v ===== *)
(** The running kernel: the state its parts share once it is up, what its log macros print,
    and the main loop, [Executor::run] over the task of [main.rs] that monitors the serial
    port.  [Start] models how this state is reached. *)
From S2P Require Import Prelude Graphics Mutex Executor Console Allocator Segments.
Import Mutex.Mutex Graphics.Graphics Graphics.Text Executor.Hpet Executor.Executor Allocator.Allocator.

(** ** The state *)

(** The timer: where its registers answer, the registers, and the [static HPET]. *)
Record Timer : Type := { hpet_at : Z; registers : HpetRegisters; HPET : option Hpet }.

(** The firmware [F], the serial device [D] and the PCI bus [P] are the machine's. *)
Record Kernel (F D P : Type) : Type := {
  firmware : F;
  system : System FirstFitAllocator;
  console : Console D VramBufferInfo;
  timer : Timer;
  bus : P }.
Arguments firmware {F D P}.
Arguments system {F D P}.
Arguments console {F D P}.
Arguments timer {F D P}.
Arguments bus {F D P}.
Arguments Build_Kernel {F D P}.

(** The task that [efi_main] spawns, between polls: not started, or asleep in its loop. *)
Inductive SerialTask : Type := Starting | Sleeping (f : TimeoutFuture).

Section kernel.
Context {F D P : Type} {IO : PortIo D}.
Abbreviation Kernel := (Kernel F D P).

Definition with_console c (k : Kernel) : Kernel := Build_Kernel (firmware k) (system k) c (timer k) (bus k).
Definition with_timer t (k : Kernel) : Kernel := Build_Kernel (firmware k) (system k) (console k) t (bus k).
Definition on_console {A} (m : M (Console D VramBufferInfo) A) : M Kernel A := zoom console with_console m.
Definition on_timer {A} (m : M Timer A) : M Kernel A := zoom timer with_timer m.

(** *** [print!], [println!], [info!] and [error!]

    [fuel] bounds each wait for the transmitter and the task's loop. *)
Context (FONT_SOURCE : chars) (fuel : nat).

Definition print (t : list Z) : M Kernel unit := on_console (global_print FONT_SOURCE fuel [t]).
Definition println (t : list Z) : M Kernel unit := print (t ++ [10]).

(** [{}] and [{:<3}] of a line number. *)
Fixpoint dec_rev (fuel : nat) (n : Z) : list Z :=
  match fuel with
  | O => []
  | S fuel => (48 + n mod 10) :: (if n <? 10 then [] else dec_rev fuel (n / 10))
  end.
Definition decimal (n : Z) : list Z := rev (dec_rev 20 n).
Definition log_line (level file : string) (line : Z) (t : list Z) : list Z :=
  text "[" ++ text level ++ text "] " ++ text file ++ text ":" ++
  decimal line ++ replicate (3 - length (decimal line)) 32 ++ text ": " ++ t ++ [10].
Definition info (file : string) (line : Z) (t : list Z) : M Kernel unit := print (log_line "INFO" file line t).
Definition error (file : string) (line : Z) (t : list Z) : M Kernel unit := print (log_line "ERROR" file line t).

(** *** Time *)

(** [global_timestamp], in nanoseconds. *)
Definition now : M Kernel Z :=
  on_timer (t ← get; lift (global_timestamp (HPET t) (main_counter_value (registers t)))).

(** [Duration::from_millis(20)]. *)
Definition NAP : Z := 20 * 1000000.

(** *** The task that monitors the serial port

    [char_debug v] is what the core library prints for [Some(char)] of a byte. *)
Context (char_debug : Z -> list Z).

Definition on_port {A} (m : M D A) : M Kernel A := on_console (on_serial m).

Definition input_text (v : Z) : list Z := text "serial input: 0x" ++ upper_hex 2 v ++ text " = " ++ char_debug v.

(** The loop up to its next [await] that is not ready: [sleep(...)] makes the future, and
    awaiting polls it at once. *)
Fixpoint monitor (n : nat) : M Kernel SerialTask :=
  match n with
  | O => panic "out of fuel"
  | S n =>
      r ← on_port (try_read SerialPort_default);
      match r with Some v => info "src/main.rs" 47 (input_text v) | None => mret tt end;;
      t ← now;
      let f := TimeoutFuture_new t NAP in
      t ← now;
      match TimeoutFuture_poll f t with Ready _ => monitor n | Pending => mret (Sleeping f) end
  end.

Definition go_on : M Kernel (Poll (outcome unit) * SerialTask) := t ← monitor fuel; mret (Pending, t).

Definition serial_task (t : SerialTask) : M Kernel (Poll (outcome unit) * SerialTask) :=
  match t with
  | Starting => fun k =>
      match on_port (loopback_test fuel SerialPort_default) k with
      | (Ok _, k) => (info "src/main.rs" 43 (text "started to monitor serial port");; go_on) k
      | (Err e, k) =>
          (error "src/main.rs" 40 ([34] ++ text e ++ [34]);;
           mret (Ready (Err "serial loopback test failed"), t)) k
      | (Panic e, k) => (Panic e, k)
      end
  | Sleeping f =>
      t ← now;
      match TimeoutFuture_poll f t with Ready _ => go_on | Pending => mret (Pending, Sleeping f) end
  end.

(** A panic inside a poll ends the kernel; the executor would see no more of the task. *)
#[export] Instance SerialTask_Future : Future Kernel SerialTask unit := {
  poll t k :=
    match serial_task t k with
    | (Ok (r, t), k) => (r, t, [], k)
    | (Err e, k) | (Panic e, k) => (Ready (Panic e), t, [], k)
    end }.

(** [{:?}] of a task's result, and of the task, which [efi_main] spawned. *)
Definition result_debug (r : outcome unit) : list Z :=
  match r with
  | Ok _ => text "Ok(())"
  | Err e | Panic e => text "Err(" ++ [34] ++ text e ++ [34] ++ text ")"
  end.
Definition completed_text (r : outcome unit) : list Z :=
  text "Task completed: Task(src/main.rs:52): " ++ result_debug r.
#[export] Instance SerialTask_Log : TaskLog Kernel SerialTask := {
  log_completed _ r := info "src/executor.rs" 99 (completed_text r) }.
End kernel.

(** ** Printing does not fail *)

(** Room on the screen for [n] more characters: cursors are [i64] and only grow. *)
Definition screen_ready {D} (n : nat) (c : Console D VramBufferInfo) : Prop :=
  Mutex.is_taken (GLOBAL_VRAM_WRITER c) = false /\
  match Mutex.data (GLOBAL_VRAM_WRITER c) with
  | None => True
  | Some (b, (x, y)) => bitmap_ok b /\ 0 <= x /\ 0 <= y /\
      x + 8 * Z.of_nat n < 2 ^ 61 /\ y + 16 * Z.of_nat n < 2 ^ 61
  end.
Definition writer_bitmap {D} (c : Console D VramBufferInfo) : option VramBufferInfo :=
  fst <$> Mutex.data (GLOBAL_VRAM_WRITER c).

Lemma screen_ready_le {D} n m (c : Console D VramBufferInfo) : (m <= n)%nat -> screen_ready n c -> screen_ready m c.
Proof.
  intros Hle [Ht Hd]. split; [done|]. destruct (Mutex.data _) as [[b [x y]]|]; [|done].
  destruct Hd as (? & ? & ? & ? & ?). split_and!; try done; lia.
Qed.

Lemma draw_char_ok font (b : VramBufferInfo) x y color c m :
  bitmap_ok b -> - 2 ^ 62 < x < 2 ^ 62 -> - 2 ^ 62 < y < 2 ^ 62 ->
  exists m', draw_font_fg font b x y color c m = (Ok tt, m').
Proof.
  intros Hb Hx Hy. destruct (lookup_font font c) as [g|] eqn:Hg.
  - eexists. by eapply draw_font_eq.
  - exists m. unfold draw_font_fg. by rewrite Hg.
Qed.

Lemma write_str_ok font (b : VramBufferInfo) (s : chars) : bitmap_ok b -> forall w,
  0 <= cursor_x w -> 0 <= cursor_y w ->
  cursor_x w + 8 * Z.of_nat (length s) < 2 ^ 61 -> cursor_y w + 16 * Z.of_nat (length s) < 2 ^ 61 ->
  exists w', write_str font b s w = (Ok tt, w') /\
    0 <= cursor_x w' <= cursor_x w + 8 * Z.of_nat (length s) /\
    0 <= cursor_y w' <= cursor_y w + 16 * Z.of_nat (length s).
Proof.
  intros Hb. induction s as [|c s IH]; intros w Hx Hy Hxs Hys; cbn [length] in *.
  - exists w. split; [done|lia].
  - assert (exists w1, (self ← get;
      if c =? NEWLINE then y ← lift (add64 (cursor_y self) 16); set_cursor 0 y
      else on_screen (draw_font_fg font b (cursor_x self) (cursor_y self) 0xffffff c);;
           x ← lift (add64 (cursor_x self) 8); set_cursor x (cursor_y self)) w = (Ok tt, w1) /\
      0 <= cursor_x w1 <= cursor_x w + 8 /\ 0 <= cursor_y w1 <= cursor_y w + 16) as (w1 & Hrun & Hx1 & Hy1).
    { mstep. unfold add64. destruct (c =? NEWLINE).
      - rewrite (i64_chk_ok msg_add (cursor_y w + 16)) by lia. mstep. eexists. split; [reflexivity|]. cbn. lia.
      - destruct (draw_char_ok font b (cursor_x w) (cursor_y w) 0xffffff c (screen w)) as (m' & Hd); [done|lia|lia|].
        rewrite (bind_ok _ _ _ tt {| cursor_x := cursor_x w; cursor_y := cursor_y w; screen := m' |})
          by (unfold on_screen, zoom; by rewrite Hd).
        rewrite (i64_chk_ok msg_add (cursor_x w + 8)) by lia. mstep. eexists. split; [reflexivity|]. cbn. lia. }
    destruct (IH w1) as (w2 & Hrun2 & Hx2 & Hy2); [lia..|].
    exists w2. split; [|lia]. unfold write_str. cbn [for_each]. by rewrite (bind_ok _ _ _ _ _ Hrun).
Qed.

Section printing.
Context {D : Type} `{Uart D (base SerialPort_default)}.
Implicit Types c : Console D VramBufferInfo.

(** [print!] of one text: what it does to the port, and that the screen stays usable. *)
Lemma global_print_ok font n t c :
  dlab (serial c) = false -> screen_ready (n + length t) c -> exists fuel0 c',
  (forall fuel, (fuel0 <= fuel)%nat -> global_print font fuel [t] c = (Ok tt, c')) /\
  sent (serial c') = (if loopback (serial c) then sent (serial c) else sent (serial c) ++ (wrap 8 <$> t)) /\
  received (serial c') = (if loopback (serial c) then received (serial c) ++ (wrap 8 <$> t) else received (serial c)) /\
  loopback (serial c') = loopback (serial c) /\ dlab (serial c') = false /\
  screen_ready n c' /\ writer_bitmap c' = writer_bitmap c.
Proof using.
  intros Hd [Hfree Hscr]. destruct (send_str_any t (serial c) Hd) as (f & d' & H1 & H2 & H3 & H4 & Hrun).
  assert (forall fuel, (f <= fuel)%nat -> global_print font fuel [t] c =
    print_screen font [t] (Build_Console d' (GLOBAL_VRAM_WRITER c) (video c))) as Hprint.
  { intros fuel Hf. unfold global_print.
    rewrite (bind_ok _ _ _ tt (Build_Console d' (GLOBAL_VRAM_WRITER c) (video c))); [done|].
    unfold unwrapM, on_serial, zoom. rewrite serial_pieces. cbn [concat]. rewrite app_nil_r. by rewrite Hrun. }
  rewrite print_screen_free in Hprint by done. cbn [GLOBAL_VRAM_WRITER video serial] in Hprint.
  unfold writer_bitmap. destruct (Mutex.data (GLOBAL_VRAM_WRITER c)) as [[b [x y]]|] eqn:Hdat.
  - destruct Hscr as (Hb & Hx & Hy & Hxn & Hyn).
    destruct (write_str_ok font b t Hb {| cursor_x := x; cursor_y := y; screen := video c |}) as (w & Hw & Hwx & Hwy);
      [done|done|cbn [cursor_x cursor_y]; lia..|]. cbn [cursor_x cursor_y] in Hwx, Hwy.
    rewrite write_str_pieces in Hprint. cbn [concat] in Hprint. rewrite app_nil_r, Hw in Hprint.
    exists f. eexists. split; [exact Hprint|]. unfold screen_ready.
    cbn [serial GLOBAL_VRAM_WRITER Mutex.data Mutex.is_taken fmap option_fmap option_map fst snd].
    split_and!; done || lia.
  - exists f. eexists. split; [exact Hprint|]. unfold screen_ready. cbn [serial GLOBAL_VRAM_WRITER]. rewrite Hdat. by split_and!.
Qed.
End printing.

(** ** The main loop *)

(** Bytes arrive at the port from outside, behind those that wait. *)
Class SerialLine (D : Type) `{Uart D (base SerialPort_default)} : Type := {
  arrive : Z -> D -> D;
  arrive_ok c d : received (arrive c d) = received d ++ [c] /\ sent (arrive c d) = sent d /\
    loopback (arrive c d) = loopback d /\ dlab (arrive c d) = dlab d }.

(** What happens to the running kernel: a byte arrives, the counter advances, the executor
    goes round its loop once. *)
Inductive event : Type := Arrive (c : Z) | Count (ticks : Z) | Round.

Definition advance (ticks : Z) (t : Timer) : Timer :=
  {| hpet_at := hpet_at t; HPET := HPET t;
     registers := set_main_counter (wrap 64 (main_counter_value (registers t) + ticks)) (registers t) |}.

Section main_loop.
Context {F D P : Type} {IO : PortIo D} {UD : Uart D (base SerialPort_default)} {SL : SerialLine D} (font : chars) (char_debug : Z -> list Z) (h : Hpet).
Abbreviation kernel := (Kernel F D P).
Abbreviation running := (option (Executor SerialTask) * kernel)%type.

Definition on_device (f : D -> D) (k : kernel) : kernel :=
  let c := console k in with_console (Build_Console (f (serial c)) (GLOBAL_VRAM_WRITER c) (video c)) k.

Definition happen (fuel : nat) (e : event) : M running unit :=
  match e with
  | Arrive c => modify (fun s => (s.1, on_device (arrive c) s.2))
  | Count n => modify (fun s => (s.1, with_timer (advance n (timer s.2)) s.2))
  | Round => run_once (Fut := SerialTask_Future font fuel char_debug) (Log := SerialTask_Log font fuel)
  end.
Definition happens (fuel : nat) (es : list event) : M running unit := for_each es (happen fuel).

(** *** What the loop promises: a listener that wakes up every 20 ms and hears one byte *)
Record Listener : Type := { counter : Z; wake : Z; waiting : list Z; heard : list Z }.

Definition timestamp (c : Z) : Z := wrap 64 (c * 1000000000 / freq h).

Definition listen (e : event) (l : Listener) : Listener :=
  match e with
  | Arrive c => {| counter := counter l; wake := wake l; waiting := waiting l ++ [c]; heard := heard l |}
  | Count n => {| counter := wrap 64 (counter l + n); wake := wake l; waiting := waiting l; heard := heard l |}
  | Round =>
      if wake l <? timestamp (counter l) then
        {| counter := counter l; wake := timestamp (counter l) + NAP; waiting := [];
           heard := heard l ++ take 1 (waiting l) |}
      else l
  end.
Definition listens (es : list event) (l : Listener) : Listener := foldl (fun l e => listen e l) l es.

Definition report (v : Z) : list Z := log_line "INFO" "src/main.rs" 47 (input_text char_debug v).
Definition reports (l : Listener) : list Z := concat (report <$> heard l).
Definition banner : list Z := log_line "INFO" "src/main.rs" 43 (text "started to monitor serial port").

(** The kernel shows what the listener heard; [n] bounds the characters on the screen. *)
Record listening (sent0 : list Z) (n : nat) (l : Listener) (s : running) : Prop := {
  ls_queue : s.1 = Some {| task_queue := Some [Sleeping {| time_out := wake l |}] |};
  ls_clock : HPET (timer s.2) = Some h;
  ls_counter : main_counter_value (registers (timer s.2)) = counter l;
  ls_width : in_width 64 (counter l);
  ls_received : received (serial (console s.2)) = waiting l;
  ls_sent : sent (serial (console s.2)) = sent0 ++ (wrap 8 <$> reports l);
  ls_loopback : loopback (serial (console s.2)) = false;
  ls_dlab : dlab (serial (console s.2)) = false;
  ls_screen : screen_ready (n - length (reports l)) (console s.2) }.

(** *** Steps *)

(** The console's line is open. *)
Definition open_line (n : nat) (c : Console D VramBufferInfo) : Prop :=
  loopback (serial c) = false /\ dlab (serial c) = false /\ screen_ready n c.

Lemma print_ok n t (k : kernel) : open_line (n + length t) (console k) -> exists fuel0 c',
  (forall fuel, (fuel0 <= fuel)%nat -> print font fuel t k = (Ok tt, with_console c' k)) /\
  sent (serial c') = sent (serial (console k)) ++ (wrap 8 <$> t) /\
  received (serial c') = received (serial (console k)) /\ open_line n c' /\
  writer_bitmap c' = writer_bitmap (console k).
Proof using.
  intros (Hl & Hd & Hs). destruct (global_print_ok font n t (console k) Hd Hs) as (f & c' & Hrun & H1 & H2 & H3 & H4 & H5 & H6).
  rewrite Hl in *. exists f, c'. split_and!; try done. intros fuel Hf. unfold print, on_console, zoom. by rewrite Hrun.
Qed.

Lemma now_ok (k : kernel) : HPET (timer k) = Some h -> 0 < freq h -> in_width 64 (main_counter_value (registers (timer k))) ->
  now k = (Ok (timestamp (main_counter_value (registers (timer k)))), k).
Proof using.
  intros Hh Hf [Hc0 Hc1]. unfold now, on_timer, zoom. mstep. rewrite Hh. unfold lift, global_timestamp, timestamp.
  rewrite mul_chk_ok by lia. cbn [mbind outcome_bind]. unfold div_chk. rewrite (proj2 (Z.eqb_neq _ _)) by lia.
  by destruct k.
Qed.

Lemma on_port_ok {A} (m : M D A) (k : kernel) r d' : m (serial (console k)) = (r, d') ->
  on_port m k = (r, on_device (fun _ => d') k).
Proof using. intros Hm. unfold on_port, on_console, on_serial, zoom. by rewrite Hm. Qed.

(** A wake-up of the task: one byte is taken and reported, the rest is lost, and it sleeps
    again. *)
Lemma monitor_ok n (k : kernel) :
  let ts := timestamp (main_counter_value (registers (timer k))) in
  let heard := take 1 (received (serial (console k))) in
  HPET (timer k) = Some h -> 0 < freq h -> in_width 64 (main_counter_value (registers (timer k))) ->
  open_line (n + length (concat (report <$> heard))) (console k) -> exists fuel0 c',
  (forall fuel loops, (fuel0 <= fuel)%nat -> (0 < loops)%nat ->
     monitor font fuel char_debug loops k = (Ok (Sleeping {| time_out := ts + NAP |}), with_console c' k)) /\
  sent (serial c') = sent (serial (console k)) ++ (wrap 8 <$> concat (report <$> heard)) /\
  received (serial c') = [] /\ open_line n c'.
Proof using.
  intros ts heard0 Hh Hf Hw (Hl & Hd & Hs).
  destruct (try_read_ok (serial (console k)) Hd) as (d' & Hrun & R1 & R2 & R3 & R4).
  set (k1 := on_device (fun _ => d') k).
  assert (exists fuel0 c', (forall fuel, (fuel0 <= fuel)%nat ->
      match head (received (serial (console k))) with
      | Some v => info font fuel "src/main.rs" 47 (input_text char_debug v) | None => mret tt end k1 =
      (Ok tt, with_console c' k)) /\
    sent (serial c') = sent (serial (console k)) ++ (wrap 8 <$> concat (report <$> heard0)) /\
    received (serial c') = [] /\ open_line n c') as (f & c' & Hinfo & H1 & H2 & H3).
  { unfold heard0 in *. destruct (received (serial (console k))) as [|v l]; cbn [head take] in *.
    - exists 0%nat, (console k1). split; [by intros|]. cbn [console k1 on_device with_console serial].
      cbn [fmap list_fmap concat]. rewrite app_nil_r. unfold open_line. cbn [serial].
      split; [done|]. split; [done|]. split; [congruence|]. split; [done|].
      apply (screen_ready_le _ n) in Hs; [exact Hs|lia].
    - cbn [fmap list_fmap concat] in *. rewrite app_nil_r in *.
      destruct (print_ok n (report v) k1) as (f & c' & Hp & S1 & S2 & S3 & _).
      { unfold open_line. cbn [console k1 on_device with_console serial]. split; [congruence|]. split; [done|exact Hs]. }
      exists f, c'. split; [exact Hp|]. split; [by rewrite S1, <- R2|]. split; [by rewrite S2|done]. }
  exists f, c'. split_and!; try done. intros fuel [|loops] Hfuel Hloops; [lia|]. cbn [monitor].
  rewrite (bind_ok _ _ _ _ _ (on_port_ok _ k _ _ Hrun)). fold k1. rewrite (bind_ok _ _ _ _ _ (Hinfo fuel Hfuel)).
  rewrite !(bind_ok _ _ _ _ _ (now_ok (with_console c' k) Hh Hf Hw)). fold ts.
  unfold TimeoutFuture_poll, TimeoutFuture_new. cbn [time_out with_console timer]. fold ts.
  by rewrite (proj2 (Z.ltb_ge _ _)) by (unfold NAP; lia).
Qed.

(** One iteration of the executor with the task alone in the queue. *)
Lemma round_pending fuel t t' (k k' : kernel) :
  serial_task font fuel char_debug t k = (Ok (Pending, t'), k') ->
  happen fuel Round (Some {| task_queue := Some [t] |}, k) = (Ok tt, (Some {| task_queue := Some [t'] |}, k')).
Proof using. intros Ht. unfold happen, run_once. cbn [queue task_queue poll SerialTask_Future]. by rewrite Ht. Qed.

Lemma reports_listen e l : exists new, reports (listen e l) = reports l ++ new.
Proof using.
  destruct e as [c|m|]; cbn [listen]; try (exists []; by rewrite app_nil_r).
  destruct (_ <? _); [|exists []; by rewrite app_nil_r].
  unfold reports. cbn [heard]. rewrite fmap_app, concat_app. by eexists.
Qed.

Lemma reports_listens es : forall l, (length (reports l) <= length (reports (listens es l)))%nat.
Proof using.
  induction es as [|e es IH]; intros l; [done|]. cbn [listens foldl]. etrans; [|apply IH].
  destruct (reports_listen e l) as (new & ->). rewrite length_app. lia.
Qed.

Lemma step_listening sent0 n e l s : 0 < freq h ->
  (length (reports (listen e l)) <= n)%nat -> listening sent0 n l s -> exists fuel0 s',
  (forall fuel, (fuel0 <= fuel)%nat -> happen fuel e s = (Ok tt, s')) /\ listening sent0 n (listen e l) s'.
Proof using.
  intros Hf Hroom [Hq Hc Hcnt Hw Hr Hs Hl Hd Hscr]. destruct s as [g k]. cbn [fst snd] in *. subst g.
  destruct e as [c|m|]; cbn [listen] in *.
  - exists 0%nat. eexists. split; [intros fuel _; cbn [happen fst snd]; reflexivity|]. destruct (arrive_ok c (serial (console k))) as (A1 & A2 & A3 & A4).
    split; cbn [fst snd on_device with_console console serial waiting timer counter wake];
      first [exact Hscr|rewrite A2; exact Hs|done|congruence].
  - exists 0%nat. eexists. split; [intros fuel _; cbn [happen fst snd]; reflexivity|].
    split; try done; cbn [snd with_timer advance timer registers set_main_counter main_counter_value counter].
    + by rewrite Hcnt.
    + by apply wrap_width.
  - destruct (Z.ltb_spec (wake l) (timestamp (counter l))) as [Hdue|Hnot].
    + unfold reports in Hroom. cbn [heard] in Hroom. rewrite fmap_app, concat_app, length_app in Hroom.
      rewrite <- Hcnt in Hdue, Hw. fold (reports l) in Hroom. rewrite <- Hr in Hroom.
      destruct (monitor_ok (n - length (reports l) - length (concat (report <$> take 1 (received (serial (console k)))))) k
        Hc Hf Hw) as (f & c' & Hmon & M1 & M2 & M3 & M4 & M5).
      { split; [done|]. split; [done|]. eapply screen_ready_le; [|exact Hscr]. lia. }
      exists (S f). eexists. split.
      { intros fuel Hfuel. eapply round_pending. unfold serial_task, go_on.
        rewrite (bind_ok _ _ _ _ _ (now_ok k Hc Hf Hw)). unfold TimeoutFuture_poll. cbn [time_out].
        rewrite (proj2 (Z.ltb_lt _ _)) by done.
        rewrite (bind_ok _ _ _ _ _ (Hmon fuel fuel ltac:(lia) ltac:(lia))). reflexivity. }
      rewrite Hcnt. split; cbn [fst snd counter wake waiting heard with_console timer console]; try done.
      * by rewrite <- Hcnt.
      * rewrite M1, Hs, <- (assoc_L (++)), <- fmap_app, Hr. do 2 f_equal. unfold reports. cbn [heard].
        by rewrite (fmap_app report), concat_app.
      * unfold reports at 1. cbn [heard]. rewrite fmap_app, concat_app, length_app, <- Hr. fold (reports l).
        eapply screen_ready_le; [|exact M5]. lia.
    + exists 0%nat. eexists. split.
      { intros fuel _. eapply round_pending. unfold serial_task.
        rewrite (bind_ok _ _ _ _ _ (now_ok k Hc Hf ltac:(by rewrite Hcnt))). unfold TimeoutFuture_poll. cbn [time_out].
        rewrite (proj2 (Z.ltb_ge _ _)) by (by rewrite Hcnt). reflexivity. }
      by split.
Qed.

Lemma listening_runs sent0 n es : 0 < freq h -> forall l s,
  (length (reports (listens es l)) <= n)%nat -> listening sent0 n l s -> exists fuel0 s',
  (forall fuel, (fuel0 <= fuel)%nat -> happens fuel es s = (Ok tt, s')) /\ listening sent0 n (listens es l) s'.
Proof using.
  intros Hf. induction es as [|e es IH]; intros l s Hroom Hls.
  - by exists 0%nat, s.
  - cbn [listens foldl] in *. destruct (step_listening sent0 n e l s Hf) as (f1 & s1 & H1 & L1); [|done|].
    { etrans; [apply (reports_listens es)|done]. }
    destruct (IH (listen e l) s1 Hroom L1) as (f2 & s2 & H2 & L2). exists (Nat.max f1 f2), s2. split; [|done].
    intros fuel Hfuel. unfold happens. cbn [for_each]. rewrite (bind_ok _ _ _ _ _ (H1 fuel ltac:(lia))). apply H2. lia.
Qed.

(** The task's first poll, on a port with nothing waiting. *)
Lemma first_round n (k : kernel) :
  HPET (timer k) = Some h -> 0 < freq h -> in_width 64 (main_counter_value (registers (timer k))) ->
  received (serial (console k)) = [] -> open_line (n + length banner) (console k) ->
  let c := main_counter_value (registers (timer k)) in exists fuel0 s',
  (forall fuel, (fuel0 <= fuel)%nat -> happen fuel Round (Some {| task_queue := Some [Starting] |}, k) = (Ok tt, s')) /\
  listening (sent (serial (console k)) ++ (wrap 8 <$> banner)) n
    {| counter := c; wake := timestamp c + NAP; waiting := []; heard := [] |} s'.
Proof using.
  intros Hh Hf Hw Hr (Hl & Hd & Hs) c.
  destruct (loopback_test_ok (serial (console k)) Hd Hr) as (f1 & d1 & H1 & B1 & B2 & B3 & B4).
  set (k1 := on_device (fun _ => d1) k).
  destruct (print_ok n banner k1) as (f2 & c2 & H2 & P1 & P2 & P3 & _); [by split|].
  set (k2 := with_console c2 k1).
  destruct (monitor_ok n k2 Hh Hf Hw) as (f3 & c3 & H3 & M1 & M2 & M3).
  { cbn [k2 with_console console]. rewrite P2. change (received (serial (console k1))) with (received d1). rewrite B3.
    cbn [take fmap list_fmap concat length]. by rewrite Nat.add_0_r. }
  cbn [k2 with_console console] in M1. rewrite P2 in M1.
  change (received (serial (console k1))) with (received d1) in M1. rewrite B3 in M1.
  cbn [take fmap list_fmap concat] in M1. rewrite app_nil_r in M1.
  exists (S (Nat.max f1 (Nat.max f2 f3))). eexists. split.
  { intros fuel Hfuel. eapply round_pending. unfold serial_task.
    rewrite (on_port_ok _ k _ _ (H1 fuel ltac:(lia))). fold k1.
    rewrite (bind_ok _ _ _ _ _ (H2 fuel ltac:(lia) : info _ _ _ _ _ _ = _)). fold k2. unfold go_on.
    rewrite (bind_ok _ _ _ _ _ (H3 fuel fuel ltac:(lia) ltac:(lia))). reflexivity. }
  destruct M3 as (M3 & M4 & M5).
  split; try done; cbn [fst snd with_console console heard reports fmap list_fmap concat].
  - rewrite M1, P1. change (sent (serial (console k1))) with (sent d1). by rewrite B2, app_nil_r.
  - by rewrite Nat.sub_0_r.
Qed.
End main_loop.

(** ** What the running kernel does *)

Fixpoint arrivals (es : list event) : list Z :=
  match es with [] => [] | Arrive c :: es => c :: arrivals es | _ :: es => arrivals es end.

(** No wake-up finds more than one byte waiting. *)
Fixpoint calm (h : Hpet) (es : list event) (l : Listener) : bool :=
  match es with
  | [] => true
  | e :: es =>
      match e with
      | Round => (negb (wake l <? timestamp h (counter l)) || (length (waiting l) <=? 1)%nat)
      | _ => true
      end && calm h es (listen h e l)
  end.

Lemma listens_arrivals h es : forall l,
  sublist (heard (listens h es l) ++ waiting (listens h es l)) (heard l ++ waiting l ++ arrivals es) /\
  (calm h es l = true -> heard (listens h es l) ++ waiting (listens h es l) = heard l ++ waiting l ++ arrivals es).
Proof.
  induction es as [|e es IH]; intros l; cbn [listens foldl calm arrivals]; [by rewrite app_nil_r|].
  destruct (IH (listen h e l)) as [H1 H2]. fold (listens h es (listen h e l)).
  destruct e as [c|m|]; cbn [listen waiting heard] in *.
  - rewrite <- (assoc_L (++)) in H1, H2. split; [exact H1|intros Hc; by apply H2].
  - split; [exact H1|intros Hc; by apply H2].
  - destruct (_ <? _); cbn [negb orb waiting heard] in *; [|split; [exact H1|intros Hc; by apply H2]].
    rewrite <- (assoc_L (++)) in H1, H2. cbn [app] in H1, H2. split.
    + etrans; [exact H1|]. apply sublist_app; [done|]. apply sublist_app; [|done]. apply sublist_take.
    + intros [Hl Hc]%andb_prop. rewrite (H2 Hc). apply Nat.leb_le in Hl. do 2 f_equal. by apply take_ge.
Qed.

(** C10. The main loop.  Once the serial task is the only one in the queue of a kernel whose
    timer runs, and nothing waits at the serial port, the executor does what the listener
    specifies, for every sequence of arriving bytes, clock ticks and rounds: it announces
    itself, and then at each wake-up, 20 ms and a tick or more after the last one, reports
    the oldest waiting byte and drops the others.  So the reported and waiting bytes are
    always a subsequence of those that arrived, in order, and all of them when no wake-up
    finds two.  No step fails, and the task is never lost from the queue. *)
Theorem serial_monitor_refines {F D P} {IO : PortIo D} {UD : Uart D (base SerialPort_default)}
  {SL : SerialLine D} (font : chars) (char_debug : Z -> list Z) (h : Hpet) (k : Kernel F D P) (es : list event) (n : nat)
  (l0 := {| counter := main_counter_value (registers (timer k));
            wake := timestamp h (main_counter_value (registers (timer k))) + NAP; waiting := []; heard := [] |})
  (Hclock : HPET (timer k) = Some h) (Hfreq : 0 < freq h)
  (Hwidth : in_width 64 (main_counter_value (registers (timer k))))
  (Hempty : received (serial (console k)) = [])
  (Hroom : (length (reports char_debug (listens h es l0)) <= n)%nat)
  (Hline : open_line (n + length banner) (console k)) :
  exists fuel0 s', (forall fuel, (fuel0 <= fuel)%nat ->
    happens font char_debug fuel (Round :: es) (Some {| task_queue := Some [Starting] |}, k) = (Ok tt, s')) /\
  let l := listens h es l0 in
  s'.1 = Some {| task_queue := Some [Sleeping {| time_out := wake l |}] |} /\
  received (serial (console s'.2)) = waiting l /\
  sent (serial (console s'.2)) = sent (serial (console k)) ++ (wrap 8 <$> banner ++ reports char_debug l) /\
  sublist (heard l ++ waiting l) (arrivals es) /\
  (calm h es l0 = true -> heard l ++ waiting l = arrivals es).
Proof.
  destruct (first_round font char_debug h n k Hclock Hfreq Hwidth Hempty Hline) as (f1 & s1 & H1 & L1).
  fold l0 in L1.
  destruct (listening_runs font char_debug h _ n es Hfreq l0 s1 Hroom L1) as (f2 & s2 & H2 & L2).
  destruct (listens_arrivals h es l0) as [A1 A2].
  exists (Nat.max f1 f2), s2. split.
  - intros fuel Hf. unfold happens. cbn [for_each]. rewrite (bind_ok _ _ _ _ _ (H1 fuel ltac:(lia))). apply H2. lia.
  - destruct L2 as [Q _ _ _ R S _ _ _]. split_and!; try done. by rewrite S, fmap_app, (assoc_L (++)).
Qed.

(** Printing to a looped port: any texts, one after the other, go to the screen and to the
    receiver of the port itself. *)
Definition prints {F D P} {IO : PortIo D} (font : chars) (fuel : nat) (ts : list (list Z)) : M (Kernel F D P) unit :=
  for_each ts (print font fuel).

Lemma prints_looped {F D P} {IO : PortIo D} {UD : Uart D (base SerialPort_default)} (font : chars) ts :
  forall (n : nat) (k : Kernel F D P), loopback (serial (console k)) = true -> dlab (serial (console k)) = false ->
  screen_ready (n + length (concat ts)) (console k) -> exists fuel0 k',
  (forall fuel, (fuel0 <= fuel)%nat -> prints font fuel ts k = (Ok tt, k')) /\
  sent (serial (console k')) = sent (serial (console k)) /\ loopback (serial (console k')) = true /\
  dlab (serial (console k')) = false /\ screen_ready n (console k').
Proof.
  induction ts as [|t ts IH]; intros n k Hl Hd Hs; cbn [concat] in Hs.
  - exists 0%nat, k. split; [by intros|]. split_and!; try done. eapply screen_ready_le; [|exact Hs]. lia.
  - rewrite length_app in Hs.
    destruct (global_print_ok font (n + length (concat ts)) t (console k) Hd) as (f1 & c1 & P1 & S1 & _ & L1 & D1 & R1 & _).
    { eapply screen_ready_le; [|exact Hs]. lia. }
    rewrite Hl in *. destruct (IH n (with_console c1 k) L1 D1 R1) as (f2 & k2 & P2 & S2 & H2).
    exists (Nat.max f1 f2), k2. split; [|split; [by rewrite S2|done] ].
    intros fuel Hf. unfold prints. cbn [for_each].
    rewrite (bind_ok _ _ _ tt (with_console c1 k)) by (unfold print, on_console, zoom; by rewrite P1 by lia).
    apply P2. lia.
Qed.

(** C16. The main loop on a port where a byte other than the test's own 'T' (84) is already
    waiting when the task starts (a key pressed while the kernel boots): the loopback test
    takes it for its answer and fails, the task ends, and the port is left looped, so that
    the report of the failure, the executor's line about it, and everything that is printed
    from then on, in any number of prints, never reaches the serial line. *)
Theorem serial_task_muted {F D P} {IO : PortIo D} {UD : Uart D (base SerialPort_default)}
  {SL : SerialLine D} (font : chars) (char_debug : Z -> list Z) (k : Kernel F D P) (c : Z) (l : list Z) (n : nat)
  (failure := log_line "ERROR" "src/main.rs" 40 ([34] ++ text "loopback_test failed: wrong data received" ++ [34]))
  (completed := log_line "INFO" "src/executor.rs" 99 (completed_text (Err "serial loopback test failed")))
  (Hwaiting : received (serial (console k)) = c :: l) (Hc : c <> 84) (Hdlab : dlab (serial (console k)) = false)
  (Hscreen : screen_ready (n + length (failure ++ completed)) (console k)) :
  exists fuel0 k1, (forall fuel, (fuel0 <= fuel)%nat ->
    happens font char_debug fuel [Round] (Some {| task_queue := Some [Starting] |}, k) =
      (Ok tt, (Some {| task_queue := Some [] |}, k1))) /\
  sent (serial (console k1)) = sent (serial (console k)) /\
  forall ts, (length (concat ts) <= n)%nat -> exists fuel1 k2,
    (forall fuel, (fuel1 <= fuel)%nat -> prints font fuel ts k1 = (Ok tt, k2)) /\
    sent (serial (console k2)) = sent (serial (console k)).
Proof.
  destruct (loopback_test_stuck c l (serial (console k)) Hdlab Hwaiting Hc) as (f1 & d1 & H1 & B1 & B2 & B3 & B4).
  set (k1 := on_device (fun _ => d1) k).
  destruct (prints_looped font [failure; completed] n k1) as (f2 & k2 & H2 & P1 & P2 & P3 & P4); [done..| |].
  { cbn [concat]. rewrite app_nil_r. exact Hscreen. }
  change (serial (console k1)) with d1 in *. rewrite B2 in P1.
  exists (Nat.max f1 f2), k2. split; [|split; [done|] ].
  - intros fuel Hf. specialize (H2 fuel ltac:(lia)). unfold prints in H2. cbn [for_each] in H2.
    apply bind_ok_inv in H2 as ([] & k3 & E1 & H2). apply bind_ok_inv in H2 as ([] & k4 & E2 & [= ->]).
    assert (poll (Future := SerialTask_Future font fuel char_debug) Starting k =
      (Ready (Err "serial loopback test failed"), Starting, [], k3)) as Hpoll.
    { cbn [poll SerialTask_Future]. unfold serial_task. rewrite (on_port_ok _ k _ _ (H1 fuel ltac:(lia))). fold k1.
      unfold error. fold failure. by rewrite (bind_ok _ _ _ _ _ E1). }
    assert (log_completed (TaskLog := SerialTask_Log font fuel) Starting (Err "serial loopback test failed") k3 = (Ok tt, k2))
      as Hlog by exact E2.
    unfold happens. cbn [for_each]. rewrite (bind_ok _ _ _ tt (Some {| task_queue := Some [] |}, k2)); [reflexivity|].
    cbn [happen]. unfold run_once. cbn [queue task_queue]. rewrite Hpoll. cbn [foldl]. by rewrite Hlog.
  - intros ts Ht. destruct (prints_looped font ts 0 k2) as (f3 & k3 & H3 & S1 & _); [done..| |].
    { eapply screen_ready_le; [|exact P4]. lia. }
    exists f3, k3. split; [done|]. congruence.
Qed.

(** *** A small machine *)
#[export] Instance SimpleUart_Line : SerialLine SimpleUart.
Proof.
  refine {| arrive c d := {| u_received := u_received d ++ [c]; u_sent := u_sent d; u_loopback := u_loopback d;
    u_dlab := u_dlab d; u_busy := u_busy d |} |}.
  by intros c d.
Defined.

(** A timer of 100 MHz. *)
Definition example_hpet : Hpet := {| num_of_timers := 3; freq := 100000000 |}.
Definition example_kernel (rx : list Z) : Kernel unit SimpleUart unit := {|
  firmware := tt; system := example_system; bus := tt;
  console := {| serial := example_uart rx; GLOBAL_VRAM_WRITER := Mutex_new None; video := ∅ |};
  timer := {| hpet_at := 0xFED00000; HPET := Some example_hpet;
              registers := {| capabilities_and_id := 0; configuration := 1; main_counter_value := 0; timers := [] |} |} |}.

(** Two keys, the second one after the first was reported; ticks of 10 ns. *)
Definition example_events : list event :=
  [Arrive 65; Count 1000; Round; Count 3000000; Round; Arrive 66; Count 3000000; Round].

Lemma serial_monitor_refines_witness : exists fuel s',
  happens [] (fun v => [v]) fuel (Round :: example_events) (Some {| task_queue := Some [Starting] |}, example_kernel []) = (Ok tt, s') /\
  u_received (serial (console s'.2)) = [] /\
  u_sent (serial (console s'.2)) = wrap 8 <$> banner ++ report (fun v => [v]) 65 ++ report (fun v => [v]) 66.
Proof.
  destruct (serial_monitor_refines [] (fun v => [v]) example_hpet (example_kernel []) example_events 1000)
    as (f & s' & Hrun & _ & H1 & H2 & _).
  - reflexivity.
  - reflexivity.
  - split; reflexivity.
  - reflexivity.
  - apply Nat.leb_le. vm_compute. reflexivity.
  - split; [reflexivity|]. split; [reflexivity|]. split; [reflexivity|exact I].
  - exists f, s'. split; [exact (Hrun f (Nat.le_refl f))|]. split; [exact H1|]. exact H2.
Defined.

Lemma serial_task_muted_witness : exists fuel k1,
  happens [] (fun v => [v]) fuel [Round] (Some {| task_queue := Some [Starting] |}, example_kernel [97]) =
    (Ok tt, (Some {| task_queue := Some [] |}, k1)) /\ u_sent (serial (console k1)) = [].
Proof.
  destruct (serial_task_muted [] (fun v => [v]) (example_kernel [97]) 97 [] 100) as (f & k1 & Hrun & H1 & _).
  - reflexivity.
  - discriminate.
  - reflexivity.
  - split; [reflexivity|exact I].
  - exists f, k1. split; [exact (Hrun f (Nat.le_refl f))|exact H1].
Defined.
