(* ===== verification/Start.v ===== *)
(** Start-up: [efi_main] of [main.rs] and the functions of [init.rs] it calls in order, from
    the firmware's hands to the executor's loop that [Kernel] models. *)
From S2P Require Import Prelude Uefi Allocator Heap Graphics Display Acpi Pci Mutex Executor Console Segments Boot.
Import Mutex.Mutex Graphics.Graphics Graphics.Text Executor.Hpet Executor.Executor Allocator.Allocator.
Import Acpi.Acpi Pci.Pci.
From S2P Require Import Kernel.

(** Attaching a driver may also queue its task: the probe runs on the bus and the queue. *)
#[export] Instance pair_ConfigSpace {P G} `{ConfigSpace P} : ConfigSpace (P * G) := {
  cs_read size addr d := let '(v, p) := cs_read size addr d.1 in (v, (p, d.2));
  cs_write size addr v d := (cs_write size addr v d.1, d.2) }.

(** [{:#x}] and [{:#p}]. *)
Definition lower_hex (w : nat) (n : Z) : list Z :=
  text "0x" ++ ((fun c => if 65 <=? c then c + 32 else c) <$> upper_hex w n).

(** [Display] of an [EcamEntry]. *)
Definition EcamEntry_text (mem : phys_mem) (entry : Z) : outcome (list Z) :=
  ecm_base_address ← ecam_base_address mem entry;
  start_pci_bus ← read_le mem (entry + 10) 1;
  end_pci_bus ← read_le mem (entry + 11) 1;
  Ok (text "ECAM: bus " ++ decimal start_pci_bus ++ text "-" ++ decimal end_pci_bus ++
      text " is mapped at " ++ lower_hex 1 ecm_base_address).

Section start.
Context {F D P T : Type} {FW : Firmware F} {IO : PortIo D} {CS : ConfigSpace P}.
(** The font, the fuel of the loops, the ACPI tables in memory, the configuration table and
    the image handle the firmware passes, the addresses of the interrupt entry points, what
    attaching the xHCI driver does, and the serial task as a task of the executor. *)
Context (FONT_SOURCE : chars) (fuel : nat) (mem : phys_mem) (tables : list EfiConfigurationTable)
  (image_handle : Z) (fns : EntryPoints) (attach : Pci -> Z -> M (P * option (Executor T)) unit)
  (serial_task : SerialTask -> T).
Abbreviation Kernel := (Kernel F D P).
(** The [static GLOBAL_EXECUTOR] and the rest. *)
Abbreviation Machine := (option (Executor T) * Kernel)%type.

Definition with_firmware f (k : Kernel) : Kernel := Build_Kernel f (system k) (console k) (timer k) (bus k).
Definition with_system s (k : Kernel) : Kernel := Build_Kernel (firmware k) s (console k) (timer k) (bus k).
Definition with_bus p (k : Kernel) : Kernel := Build_Kernel (firmware k) (system k) (console k) (timer k) p.
Definition on_firmware {A} (m : M F A) : M Kernel A := zoom firmware with_firmware m.
Definition on_system {A} (m : M (System FirstFitAllocator) A) : M Kernel A := zoom system with_system m.
(** The frame buffer is memory the console also draws in. *)
Definition on_video {A} (m : M vram A) : M Kernel A :=
  on_console (zoom video (fun v c => Build_Console (serial c) (GLOBAL_VRAM_WRITER c) v) m).
(** The firmware and the heap. *)
Definition on_runtime {A} (m : M (F * FirstFitAllocator) A) : M Kernel A :=
  zoom (fun k => (firmware k, sheap (system k)))
    (fun p k => with_firmware p.1 (with_system (with_heap p.2 (system k)) k)) m.

(** [init_allocator] and what it prints. *)
Definition report_memory (memory_map : MemoryMapHolder) : M Kernel unit :=
  mib ← lift (init_allocator memory_map);
  info FONT_SOURCE fuel "src/init.rs" 96 (text "Total memory size: " ++ decimal mib ++ text " MiB").

(** The registers are a reference to the address the table gives. *)
Definition hpet_at_address (a : Z) : M Timer unit :=
  t ← get; if a =? hpet_at t then mret tt else panic msg_ub.
Definition on_registers {A} (m : M HpetRegisters A) : M Timer A :=
  zoom registers (fun r t => {| hpet_at := hpet_at t; registers := r; HPET := HPET t |}) m.
Definition on_static {A} (m : M (option Hpet) A) : M Timer A :=
  zoom HPET (fun h t => {| hpet_at := hpet_at t; registers := registers t; HPET := h |}) m.

Definition init_hpet (acpi : Z) : M Kernel unit :=
  hpet ← lift (o ← rsdp_hpet mem acpi; unwrap (ok_or o "failed to get HPET table"));
  hpet ← lift (unwrap (hpet_base_address mem hpet));
  info FONT_SOURCE fuel "src/init.rs" 82 (text "HPET is at " ++ lower_hex 16 hpet);;
  hpet ← on_timer (hpet_at_address hpet;; on_registers Hpet_new);
  on_timer (on_static (set_global_hpet hpet)).

Definition on_kernel {A} (m : M Kernel A) : M Machine A := zoom snd (fun k s => (s.1, k)) m.
Definition on_bus {A} (m : M (P * option (Executor T)) A) : M Machine A :=
  zoom (fun s => (bus s.2, s.1)) (fun p s => (p.2, with_bus p.1 s.2)) m.

Definition init_pci (acpi : Z) : M Machine unit :=
  o ← lift (rsdp_mcfg mem acpi);
  match o with
  | None => mret tt
  | Some mcfg =>
      n ← lift (mcfg_num_of_entries mem mcfg);
      for_each (range 0 n) (fun i =>
        e ← lift (mcfg_entry mem mcfg i);
        match e with
        | Some e => t ← lift (EcamEntry_text mem e); on_kernel (info FONT_SOURCE fuel "src/init.rs" 110 t)
        | None => mret tt
        end);;
      pci ← lift (Pci_new mem mcfg);
      on_bus (probe_devices pci (attach pci));;
      on_kernel (info FONT_SOURCE fuel "src/pci.rs" 182 (text "PCI device probing completed"))
  end.

(** [efi_main] up to [start_global_executor]. *)
Definition boot : M Kernel Z :=
  println FONT_SOURCE fuel (text "[mushix] Starting up...");;
  _ ← on_firmware (unwrapM (locate_loaded_image_protocol image_handle));
  vram ← on_firmware (unwrapM init_vram);
  on_video (init_display FONT_SOURCE vram);;
  on_console (set_global_vram vram);;
  acpi ← lift (unwrap (ok_or (acpi_table tables) "failed to get ACPI table"));
  memory_map ← on_runtime (init_basic_runtime fuel image_handle);
  report_memory memory_map;;
  _ ← on_system (init_exceptions fns);
  init_hpet acpi;;
  mret acpi.
Definition efi_main : M Machine unit :=
  acpi ← on_kernel boot;
  init_pci acpi;;
  modify (fun s => (spawn_global (serial_task Starting) s.1, s.2)).
End start.

(** ** The clock *)

(** Converting counts of a timer with a period of [p] femtoseconds: the frequency is cut to an
    integer, so the clock is never slow, and fast by less than a part in [10^15 / p]. *)
Lemma clock_accuracy (p c : Z) (h : Hpet) :
  0 < p <= 10 ^ 8 -> freq h = 10 ^ 15 / p -> 0 <= c -> c * p < 2 ^ 64 * 999999 ->
  c * p < (timestamp h c + 1) * 10 ^ 6 /\ timestamp h c * (10 ^ 15 - p) <= c * p * 10 ^ 9.
Proof.
  intros Hp Hf Hc Hlt. unfold timestamp. rewrite Hf.
  pose proof (Z.mul_div_le (10 ^ 15) p ltac:(lia)) as H1.
  pose proof (Z.mul_succ_div_gt (10 ^ 15) p ltac:(lia)) as H2.
  set (f := 10 ^ 15 / p) in *. assert (0 < f) by nia.
  pose proof (Z.mul_div_le (c * 1000000000) f ltac:(lia)) as H3.
  pose proof (Z.mul_succ_div_gt (c * 1000000000) f ltac:(lia)) as H4.
  set (ns := c * 1000000000 / f) in *. assert (0 <= ns) by (apply Z.div_pos; lia).
  assert (ns * (10 ^ 15 - p) <= c * p * 10 ^ 9) as Hup.
  { etrans; [|apply (Z.mul_le_mono_nonneg_l _ _ p) in H3; [|lia]; etrans; [exact H3|lia]].
    replace (p * (f * ns)) with (ns * (p * f)) by ring. apply Z.mul_le_mono_nonneg_l; lia. }
  rewrite wrap_small by (split; [lia|]; nia). split; [|exact Hup].
  apply (Z.mul_lt_mono_pos_r 1000000000); [lia|].
  apply (Z.mul_lt_mono_pos_r p) in H4; [|lia].
  assert ((ns + 1) * (p * f) <= (ns + 1) * 10 ^ 15) by (apply Z.mul_le_mono_nonneg_l; lia). lia.
Qed.

Section hpet.
Context {F D P : Type} {IO : PortIo D} {UD : Uart D (base SerialPort_default)} (font : chars) (mem : phys_mem).
Implicit Types k : Kernel F D P.

(** Everything but the console and the timer is as before. *)
Definition same_machine k k' : Prop := firmware k' = firmware k /\ system k' = system k /\ bus k' = bus k.

Definition hpet_line (a : Z) : list Z := log_line "INFO" "src/init.rs" 82 (text "HPET is at " ++ lower_hex 16 a).

Lemma init_hpet_ok n acpi k table a :
  let r := registers (timer k) in let period := Z.shiftr (capabilities_and_id r) 32 in
  rsdp_hpet mem acpi = Ok (Some table) -> hpet_base_address mem table = Ok a -> a = hpet_at (timer k) ->
  HPET (timer k) = None -> length (timers r) = 32%nat -> in_width 64 (configuration r) -> period <> 0 ->
  open_line (n + length (hpet_line a)) (console k) -> exists fuel0 k' h,
  (forall fuel, (fuel0 <= fuel)%nat -> init_hpet font fuel mem acpi k = (Ok tt, k')) /\
  HPET (timer k') = Some h /\ freq h = 1000000000000000 / period /\
  main_counter_value (registers (timer k')) = 0 /\
  sent (serial (console k')) = sent (serial (console k)) ++ (wrap 8 <$> hpet_line a) /\
  received (serial (console k')) = received (serial (console k)) /\
  open_line n (console k') /\ writer_bitmap (console k') = writer_bitmap (console k) /\ same_machine k k'.
Proof using.
  intros r period Ht Ha Hat Hnone Hlen Hw Hp Hline.
  destruct (print_ok font n (hpet_line a) k Hline) as (f & c' & Hprint & S1 & S2 & S3 & S4).
  destruct (hpet_new_correct r Hlen Hw) as [_ Hnew].
  destruct (Hnew Hp) as (h & r' & Hrun & _ & Hfreq & Hcnt & _).
  set (k1 := with_console c' k).
  exists f. eexists. exists h. split.
  { intros fuel Hf. unfold init_hpet. rewrite Ht.
    rewrite (bind_ok _ _ _ table k) by reflexivity. rewrite Ha. rewrite (bind_ok _ _ _ a k) by reflexivity.
    rewrite (bind_ok _ _ _ _ _ (Hprint fuel Hf : info _ _ _ _ _ _ = _)). fold k1.
    rewrite (bind_ok _ _ _ h (with_timer {| hpet_at := hpet_at (timer k); registers := r'; HPET := None |} k1)).
    2:{ unfold on_timer, zoom. cbn [timer k1 with_console].
        rewrite (bind_ok _ _ _ tt (timer k)) by (unfold hpet_at_address; mstep; by rewrite Hat, Z.eqb_refl). unfold on_registers, zoom. fold r.
        rewrite Hrun, Hnone. reflexivity. }
    unfold on_timer, on_static, zoom, set_global_hpet. cbn [timer with_timer HPET]. mstep. reflexivity. }
  cbn [timer with_timer console with_console registers k1 HPET]. by split_and!.
Qed.
End hpet.

(** C15. The clock.  When the firmware's tables place the HPET where it answers, in memory
    space, and its period is one the HPET specification allows (at most 100 ns), [init_hpet]
    reports its address, installs the timer and starts it from 0; from then on
    [global_timestamp] is the time since then, [c] periods, in nanoseconds: never slow, and
    fast by less than a part in [10^15 / period] since the frequency is rounded down.  It
    panics when there is no table, or its address is in another space. *)
Theorem init_hpet_clock {F D P} {IO : PortIo D} {UD : Uart D (base SerialPort_default)} (font : chars) (mem : phys_mem)
  (acpi : Z) (k : Kernel F D P) (n : nat) (period := Z.shiftr (capabilities_and_id (registers (timer k))) 32)
  (Hnone : HPET (timer k) = None) (Hlen : length (timers (registers (timer k))) = 32%nat)
  (Hw : in_width 64 (configuration (registers (timer k)))) (Hperiod : 0 < period <= 10 ^ 8)
  (Hline : open_line (n + length (hpet_line (hpet_at (timer k)))) (console k)) :
  match rsdp_hpet mem acpi with
  | Ok None => forall fuel, init_hpet font fuel mem acpi k = (Panic "failed to get HPET table", k)
  | Ok (Some table) =>
      match hpet_base_address mem table with
      | Err e => forall fuel, init_hpet font fuel mem acpi k = (Panic e, k)
      | Ok a => a = hpet_at (timer k) -> exists fuel0 k',
          (forall fuel, (fuel0 <= fuel)%nat -> init_hpet font fuel mem acpi k = (Ok tt, k')) /\
          main_counter_value (registers (timer k')) = 0 /\
          forall c, 0 <= c < 2 ^ 64 -> c * period < 2 ^ 64 * 999999 -> exists ns,
            let k1 := with_timer (advance c (timer k')) k' in now k1 = (Ok ns, k1) /\
            c * period < (ns + 1) * 10 ^ 6 /\ ns * (10 ^ 15 - period) <= c * period * 10 ^ 9
      | Panic _ => True
      end
  | _ => True
  end.
Proof.
  destruct (rsdp_hpet mem acpi) as [[table|]|e|e] eqn:Ht; [| |done|done].
  2:{ intros fuel. unfold init_hpet. apply bind_panic. by rewrite Ht. }
  destruct (hpet_base_address mem table) as [a|e|e] eqn:Ha; [| |done].
  2:{ intros fuel. unfold init_hpet. rewrite Ht. rewrite (bind_ok _ _ _ table k) by reflexivity.
      apply bind_panic. by rewrite Ha. }
  intros ->. destruct (init_hpet_ok font mem n acpi k table _ Ht Ha eq_refl Hnone Hlen Hw) as
    (f & k' & h & Hrun & Hh & Hfreq & Hcnt & _); [fold period; lia|done|]. fold period in Hfreq.
  exists f, k'. split; [done|]. split; [done|]. intros c [Hc0 Hc1] Hlt.
  destruct (clock_accuracy period c h Hperiod Hfreq Hc0 Hlt) as [A1 A2].
  exists (timestamp h c). cbn zeta. split; [|done].
  assert (0 < freq h) by (rewrite Hfreq; apply Z.div_str_pos; lia).
  assert (main_counter_value (registers (timer (with_timer (advance c (timer k')) k'))) = c) as Hc.
  { cbn [timer with_timer advance registers set_main_counter main_counter_value].
    by rewrite Hcnt, Z.add_0_l, wrap_small. }
  rewrite (now_ok h); [by rewrite Hc|exact Hh|done|rewrite Hc; by split].
Qed.

(** ** The lengths of what start-up prints *)

Lemma decimal_length n : (length (decimal n) <= 20)%nat.
Proof.
  unfold decimal. rewrite length_rev. generalize 20%nat. intros fuel. revert n.
  induction fuel as [|fuel IH]; intros n; [done|]. cbn [dec_rev length]. destruct (n <? 10); cbn [length]; [lia|].
  specialize (IH (n / 10)). lia.
Qed.

Lemma hex_rev_length fuel : forall n, (length (hex_rev fuel n) <= fuel)%nat.
Proof.
  induction fuel as [|fuel IH]; intros n; [done|]. cbn [hex_rev]. destruct (n =? 0); cbn [length]; [lia|].
  specialize (IH (n / 16)). lia.
Qed.

Lemma lower_hex_length w n : (w <= 16)%nat -> (length (lower_hex w n) <= 18)%nat.
Proof.
  intros Hw. unfold lower_hex, upper_hex. cbv zeta. rewrite length_app, length_fmap, length_rev, length_app, length_replicate.
  pose proof (hex_rev_length 16 n). change (length (text "0x")) with 2%nat. lia.
Qed.

Lemma log_line_length level file line t :
  (length (log_line level file line t) <= 30 + length (text level) + length (text file) + length t)%nat.
Proof.
  unfold log_line. rewrite !length_app, length_replicate. pose proof (decimal_length line).
  change (length (text "[")) with 1%nat. change (length (text "] ")) with 2%nat.
  change (length (text ":")) with 1%nat. change (length (text ": ")) with 2%nat. cbn [length]. lia.
Qed.

Lemma EcamEntry_text_length mem e t : EcamEntry_text mem e = Ok t -> (length t <= 100)%nat.
Proof.
  unfold EcamEntry_text. destruct (ecam_base_address mem e) as [b|?|?]; [|done..].
  cbn [mbind outcome_bind]. destruct (read_le mem (e + 10) 1) as [s|?|?]; [|done..].
  cbn [mbind outcome_bind]. destruct (read_le mem (e + 11) 1) as [l|?|?]; [|done..].
  cbn [mbind outcome_bind]. intros Heq. remember (text "ECAM: bus " ++ _) as x eqn:Hx in Heq. injection Heq as <-. rewrite Hx, !length_app.
  pose proof (decimal_length s). pose proof (decimal_length l). pose proof (lower_hex_length 1 b).
  change (length (text "ECAM: bus ")) with 10%nat. change (length (text "-")) with 1%nat.
  change (length (text " is mapped at ")) with 14%nat. lia.
Qed.

(** ** Probing the bus *)

(** The probe reaches the end whatever answers, if attaching does not panic. *)
Lemma probe_devices_total {B} {CS : ConfigSpace B} (self : Pci) (attach : Z -> M B unit) (d : B) :
  0 <= ecm_start self < 2 ^ 63 -> (forall bdf d e, (attach bdf d).1 <> Panic e) ->
  exists d', probe_devices self attach d = (Ok tt, d').
Proof.
  intros Hs Hattach. rewrite probe_devices_order.
  assert (forall l d, (forall id, id ∈ l -> 0 <= id < 8192) -> exists d', for_each l (probe_id self attach) d = (Ok tt, d')) as H.
  2:{ apply H. intros id Hid%elem_of_range. lia. }
  clear d. induction l as [|id l IH]; intros d Hl; [by exists d|]. cbn [for_each].
  assert (exists d1, probe_id self attach id d = (Ok tt, d1)) as (d1 & H1).
  { assert (0 <= id < 8192) as Hid by (apply Hl; by left).
    assert (ecm_base self id = Ok (ecm_start self + id * 4096)) as Hb.
    { unfold ecm_base. rewrite Z.shiftl_mul_pow2 by lia. apply add_chk_ok. lia. }
    assert (forall ofs d, ofs = 0 \/ ofs = 2 -> exists v d', read_register_u16 self id ofs d = (Ok v, d')) as Hread.
    { intros ofs d' Hofs. unfold read_register_u16. rewrite (bind_ok _ _ _ (ecm_start self + id * 4096) d')
        by (unfold lift; by rewrite Hb).
      unfold ConfigRegisters_read, volatile_read. destruct Hofs as [-> | -> ]; cbn [negb andb orb Z.leb Z.ltb Z.eqb Z.compare];
        [change (0 mod 2 =? 0) with true|change (2 mod 2 =? 0) with true]; cbn; destruct (cs_read _ _ _); by eexists _, _. }
    assert (exists o d1, read_vendor_id_and_device_id self id d = (Ok o, d1)) as (o & d1 & Ho).
    { unfold read_vendor_id_and_device_id, ok_read. destruct (Hread 0 d) as (v & d1 & ->); [by left|].
      destruct (Hread 2 d1) as (w & d2 & ->); [by right|].
      destruct (_ || _); [by eexists _, _|]. destruct (_ || _); by eexists _, _. }
    unfold probe_id. rewrite (bind_ok _ _ _ _ _ Ho). destruct o as [vd|]; [|by exists d1].
    destruct (supports vd); [|by exists d1]. unfold ignore_err. pose proof (Hattach id d1) as Ha.
    destruct (attach id d1) as [[[]|e|e] d2]; [by eexists..|]. by destruct (Ha e). }
  rewrite (bind_ok _ _ _ _ _ H1). apply IH. intros id' Hid'. apply Hl. by right.
Qed.

Section pci.
Context {F D P T : Type} {IO : PortIo D} {UD : Uart D (base SerialPort_default)} {CS : ConfigSpace P}.
Context (font : chars) (mem : phys_mem) (attach : Pci -> Z -> M (P * option (Executor T)) unit).

(** What the tables must say of the buses: nothing, or one ECAM window that can be addressed;
    attaching a driver may fail but not panic. *)
Definition pci_ready (acpi : Z) : Prop :=
  rsdp_mcfg mem acpi = Ok None \/
  exists mcfg t pci, rsdp_mcfg mem acpi = Ok (Some mcfg) /\ mcfg_num_of_entries mem mcfg = Ok 1 /\
    EcamEntry_text mem (mcfg + MCFG_HEADER_SIZE + ECAM_ENTRY_SIZE * 0) = Ok t /\ Pci_new mem mcfg = Ok pci /\
    0 <= ecm_start pci < 2 ^ 63 /\ forall bdf s e, (attach pci bdf s).1 <> Panic e.

Lemma init_pci_ok n acpi g (k : Kernel F D P) :
  pci_ready acpi -> open_line (n + 300) (console k) -> exists fuel0 g' k',
  (forall fuel, (fuel0 <= fuel)%nat -> init_pci font fuel mem attach acpi (g, k) = (Ok tt, (g', k'))) /\
  firmware k' = firmware k /\ system k' = system k /\ timer k' = timer k /\ received (serial (console k')) = received (serial (console k)) /\
  open_line n (console k') /\ writer_bitmap (console k') = writer_bitmap (console k).
Proof using.
  intros [Hnone|(mcfg & t & pci & Hm & H1 & Ht & Hnew & Hpci & Hattach)] (Hl & Hd & Hs).
  { exists 0%nat, g, k. split; [|split_and!; try done; split_and!; try done].
    - intros fuel _. unfold init_pci. rewrite Hnone. reflexivity.
    - eapply screen_ready_le; [|exact Hs]. lia. }
  set (ecam := log_line "INFO" "src/init.rs" 110 t).
  set (completed := log_line "INFO" "src/pci.rs" 182 (text "PCI device probing completed")).
  assert (length ecam <= 150)%nat as Hecam.
  { pose proof (log_line_length "INFO" "src/init.rs" 110 t) as Hlen. fold ecam in Hlen. pose proof (EcamEntry_text_length _ _ _ Ht).
    change (length (text "INFO")) with 4%nat in *. change (length (text "src/init.rs")) with 11%nat in *. lia. }
  assert (length completed <= 150)%nat as Hcompl by (apply Nat.leb_le; vm_compute; reflexivity).
  destruct (print_ok font (n + length completed) ecam k) as (f1 & c1 & P1 & _ & R1 & (L1 & D1 & S1) & W1).
  { split_and!; [done|done|]. eapply screen_ready_le; [|exact Hs]. lia. }
  set (k1 := with_console c1 k).
  destruct (probe_devices_total pci (attach pci) (bus k1, g) Hpci (fun bdf d e => Hattach bdf d e)) as ([p2 g2] & Hprobe).
  set (k2 := with_bus p2 k1).
  destruct (print_ok font n completed k2) as (f3 & c3 & P3 & _ & R3 & O3 & W3); [by split|].
  exists (Nat.max f1 f3), g2, (with_console c3 k2). split; [|split_and!; try done].
  - intros fuel Hf. unfold init_pci. rewrite Hm. rewrite (bind_ok _ _ _ (Some mcfg) (g, k)) by reflexivity.
    rewrite H1. rewrite (bind_ok _ _ _ 1 (g, k)) by reflexivity.
    rewrite (bind_ok _ _ _ tt (g, k1)).
    2:{ change (range 0 1) with [0]. cbn [for_each]. unfold mcfg_entry. rewrite H1.
        rewrite (bind_ok _ _ _ tt (g, k1)); [reflexivity|].
        rewrite (bind_ok _ _ _ (Some (mcfg + MCFG_HEADER_SIZE + ECAM_ENTRY_SIZE * 0)) (g, k)) by reflexivity.
        rewrite Ht. rewrite (bind_ok _ _ _ t (g, k)) by reflexivity. unfold on_kernel, zoom, info. cbn [snd fst].
        fold ecam. by rewrite P1 by lia. }
    rewrite Hnew. rewrite (bind_ok _ _ _ pci (g, k1)) by reflexivity.
    rewrite (bind_ok _ _ _ tt (g2, k2)) by (unfold on_bus, zoom; cbn [fst snd]; by rewrite Hprobe).
    unfold on_kernel, zoom, info. cbn [snd fst]. fold completed. by rewrite P3 by lia.
  - cbn [console with_console]. rewrite R3. exact R1.
  - cbn [console with_console]. rewrite W3. exact W1.
Qed.
End pci.

(** ** [efi_main] *)

Section efi_main.
Context {F D P T : Type} {FW : Firmware F} {UM : UefiMemoryMap F} {IO : PortIo D}
  {UD : Uart D (base SerialPort_default)} {CS : ConfigSpace P}.
Context (font : chars) (mem : phys_mem) (tables : list EfiConfigurationTable) (image_handle : Z) (fns : EntryPoints)
  (attach : Pci -> Z -> M (P * option (Executor T)) unit) (serial_task : SerialTask -> T).

Definition vram_of (mode : GraphicsMode) : VramBufferInfo :=
  {| v_buf := frame_buffer_base mode; v_width := horizontal_resolution mode;
     v_height := vertical_resolution mode; v_pixels_per_line := pixels_per_scan_line mode |}.
Definition hpet_period (k : Kernel F D P) : Z := Z.shiftr (capabilities_and_id (registers (timer k))) 32.

(** A machine as the firmware hands it over: the protocols are there, the screen is large
    enough, the memory map fits in the buffer and has page-aligned and disjoint conventional
    memory, the firmware lets go when it is asked to with that map's key, the tables list an
    HPET where it answers, the serial line is open with nothing waiting, and the kernel's
    own statics are initial. *)
Record bootable (k : Kernel F D P) (mode : GraphicsMode) (acpi table total : Z) : Prop := {
  bt_image : exists img, fw_handle_protocol image_handle EFI_LOADED_IMAGE_PROTOCOL_GUID (firmware k) = (Success, Some img);
  bt_graphics : fw_locate_protocol EFI_GRAPHICS_OUTPUT_PROTOCOL_GUID (firmware k) = (Success, Some mode);
  bt_screen : bitmap_ok (vram_of mode) /\ width (vram_of mode) < 2 ^ 61 /\ height (vram_of mode) < 2 ^ 61 /\
    screen_fits (vram_of mode);
  bt_acpi : acpi_table tables = Some acpi;
  bt_map : let f := firmware k in map_bytes f <= MEMORY_MAP_BUFFER_SIZE /\ Forall descriptor_in_width (fw_descriptors f) /\
    Z.of_nat (descriptor_bytes + fw_padding f) < 2 ^ 63 /\ mmap_ok (fw_descriptors f) /\
    total_pages 0 (fw_descriptors f) = Ok total /\ total * 4096 < 2 ^ 64;
  bt_leave : fw_left (after_exit image_handle (firmware k)) = true;
  bt_heap : sheap (system k) = ALLOCATOR;
  bt_hpet : rsdp_hpet mem acpi = Ok (Some table) /\ hpet_base_address mem table = Ok (hpet_at (timer k)) /\
    length (timers (registers (timer k))) = 32%nat /\ in_width 64 (configuration (registers (timer k))) /\
    hpet_period k <> 0;
  bt_statics : GLOBAL_VRAM_WRITER (console k) = Mutex_new None /\ HPET (timer k) = None;
  bt_line : loopback (serial (console k)) = false /\ dlab (serial (console k)) = false /\
    received (serial (console k)) = [];
  bt_pci : pci_ready mem attach acpi }.

(** What start-up leaves: the state the main loop needs. *)
Record booted (n : nat) (mode : GraphicsMode) (period : Z) (k : Kernel F D P) : Prop := {
  bd_clock : exists h, HPET (timer k) = Some h /\ freq h = 1000000000000000 / period;
  bd_counter : main_counter_value (registers (timer k)) = 0;
  bd_line : received (serial (console k)) = [] /\ open_line n (console k);
  bd_screen : writer_bitmap (console k) = Some (vram_of mode);
  bd_firmware : fw_left (firmware k) = true;
  bd_exceptions : exists s gdt tss idt p0 ps, started fns s [] gdt tss idt p0 ps (system k) }.

Lemma init_allocator_ok map es total : MemoryMapHolder_iter map = Some (Ok es) ->
  total_pages 0 es = Ok total -> total * 4096 < 2 ^ 64 -> init_allocator map = Ok (total * 4096 / 1024 / 1024).
Proof using.
  intros Hi Ht Hl. unfold init_allocator, map_iter. rewrite Hi. cbn [mbind outcome_bind]. rewrite Ht.
  cbn [mbind outcome_bind]. by rewrite mul_chk_ok.
Qed.

(** The screen and the firmware, up to the heap. *)
Lemma set_global_vram_ok (c : Console D VramBufferInfo) v : GLOBAL_VRAM_WRITER c = Mutex_new None ->
  set_global_vram v c = (Ok tt, Build_Console (serial c) (Mutex_new (Some (v, (0, 0)))) (video c)).
Proof using. destruct c as [d w m]. cbn [GLOBAL_VRAM_WRITER]. intros ->. reflexivity. Qed.

Definition start_line : list Z := text "[mushix] Starting up..." ++ [10].
Definition memory_line (total : Z) : list Z :=
  log_line "INFO" "src/init.rs" 96 (text "Total memory size: " ++ decimal (total * 4096 / 1024 / 1024) ++ text " MiB").

Lemma writer_none (c : Console D VramBufferInfo) n :
  writer_bitmap c = None -> screen_ready n c -> GLOBAL_VRAM_WRITER c = Mutex_new None.
Proof using.
  destruct c as [d [dat tk] v]. unfold writer_bitmap, screen_ready. cbn.
  intros Hw [-> _]. by destruct dat.
Qed.

(** Until the heap is there: the firmware's services, the screen, and the memory map. *)
Lemma boot_runtime n k mode acpi table total :
  bootable k mode acpi table total -> 16 * Z.of_nat n < 2 ^ 61 -> exists fuel0 map st c',
  (forall fuel, (fuel0 <= fuel)%nat ->
     boot font fuel mem tables image_handle fns k =
       (report_memory font fuel map;; _ ← on_system (init_exceptions fns); init_hpet font fuel mem acpi;; mret acpi)
         (Build_Kernel (after_exit image_handle (firmware k)) (with_heap st (system k)) c' (timer k) (bus k))) /\
  init_allocator map = Ok (total * 4096 / 1024 / 1024) /\ ga_ok st [] /\
  received (serial c') = [] /\ open_line n c' /\ writer_bitmap c' = Some (vram_of mode).
Proof using.
  intros [[img Himg] Hgop (Hb & Hvw & Hvh & Hfits) Hacpi (Hmfits & Hdw & Hs2 & Hmm & Htot & Htl) _
    Hheap _ [Hwr _] (Hl & Hd & Hr) _] Hn.
  destruct (print_ok font 0 start_line k) as (f1 & c1 & P1 & _ & R1 & (L1 & D1 & S1) & W1).
  { split_and!; [done|done|]. split; by rewrite Hwr. }
  assert (GLOBAL_VRAM_WRITER c1 = Mutex_new None) as Hwr1.
  { apply (writer_none _ 0); [|exact S1]. rewrite W1. unfold writer_bitmap. by rewrite Hwr. }
  destruct (init_display_draws font (vram_of mode) (video c1) Hb Hvw Hvh Hfits) as (m2 & Hdisp & _).
  set (c2 := Build_Console (serial c1) (Mutex_new (Some (vram_of mode, (0, 0)))) m2).
  destruct (exit_boot_services_once image_handle MemoryMapHolder_new (firmware k) Hmfits Hdw) as (map & Hexit & Hit);
    [eapply Z.le_lt_trans; [exact Hmfits|done]|done|]. set (f' := after_exit image_handle (firmware k)) in *.
  destruct (init_with_mmap_refines map _ Hit Hmm) as (st & Hst & _).
  exists (S f1), map, st, c2. split; [|split; [|split]].
  - intros fuel Hf. destruct k as [fw sys con tm bs]. cbn [firmware system console timer bus] in *. unfold boot.
    rewrite (bind_ok _ _ _ _ _ (P1 fuel ltac:(lia) : println _ _ _ _ = _)).
    change (with_console c1 (Build_Kernel fw sys con tm bs)) with (Build_Kernel fw sys c1 tm bs).
    rewrite (bind_ok _ _ _ img (Build_Kernel fw sys c1 tm bs))
      by (unfold on_firmware, zoom, unwrapM, locate_loaded_image_protocol; cbn [firmware]; rewrite Himg; reflexivity).
    rewrite (bind_ok _ _ _ (vram_of mode) (Build_Kernel fw sys c1 tm bs))
      by (unfold on_firmware, zoom, unwrapM, init_vram, locate_graphic_protocol, mbind, M_bind; cbn [firmware];
          rewrite Hgop; reflexivity).
    rewrite (bind_ok _ _ _ tt (Build_Kernel fw sys (Build_Console (serial c1) (GLOBAL_VRAM_WRITER c1) m2) tm bs))
      by (unfold on_video, on_console, zoom; cbn [console]; rewrite Hdisp; reflexivity).
    rewrite (bind_ok _ _ _ tt (Build_Kernel fw sys c2 tm bs))
      by (unfold on_console, zoom; cbn [console]; rewrite set_global_vram_ok by exact Hwr1; reflexivity).
    rewrite Hacpi. rewrite (bind_ok _ _ _ acpi (Build_Kernel fw sys c2 tm bs)) by reflexivity.
    rewrite (bind_ok _ _ _ map (Build_Kernel f' (with_heap st sys) c2 tm bs)); [reflexivity|].
    unfold on_runtime, zoom at 1, init_basic_runtime. cbn [firmware system]. rewrite Hheap.
    rewrite (bind_ok _ _ _ map (f', ALLOCATOR)) by (unfold zoom; cbn [fst snd]; destruct fuel; [lia|]; rewrite Hexit; reflexivity).
    rewrite (bind_ok _ _ _ tt (f', st)) by (unfold zoom; cbn [fst snd]; rewrite Hst; reflexivity).
    reflexivity.
  - by apply (init_allocator_ok map (fw_descriptors (firmware k))).
  - by apply (init_ga_ok map _ st Hit Hmm).
  - split; [cbn [serial c2]; by rewrite R1|]. split; [|done]. split; [exact L1|]. split; [exact D1|].
    split; [done|]. cbn [c2 GLOBAL_VRAM_WRITER Mutex_new Mutex.data]. split_and!; [exact Hb|lia..].
Qed.

Lemma memory_line_length total : (length (memory_line total) <= 100)%nat.
Proof using.
  unfold memory_line. pose proof (log_line_length "INFO" "src/init.rs" 96
    (text "Total memory size: " ++ decimal (total * 4096 / 1024 / 1024) ++ text " MiB")) as H.
  pose proof (decimal_length (total * 4096 / 1024 / 1024)). rewrite !length_app in H.
  change (length (text "INFO")) with 4%nat in H. change (length (text "src/init.rs")) with 11%nat in H.
  change (length (text "Total memory size: ")) with 19%nat in H. change (length (text " MiB")) with 4%nat in H. lia.
Qed.
Lemma hpet_line_length a : (length (hpet_line a) <= 100)%nat.
Proof using.
  unfold hpet_line. pose proof (log_line_length "INFO" "src/init.rs" 82 (text "HPET is at " ++ lower_hex 16 a)) as H.
  pose proof (lower_hex_length 16 a ltac:(lia)). rewrite length_app in H.
  change (length (text "INFO")) with 4%nat in H. change (length (text "src/init.rs")) with 11%nat in H.
  change (length (text "HPET is at ")) with 11%nat in H. lia.
Qed.

Lemma open_line_le n m (c : Console D VramBufferInfo) : (m <= n)%nat -> open_line n c -> open_line m c.
Proof using. intros Hle (? & ? & ?). split; [done|]. split; [done|]. by eapply screen_ready_le. Qed.

End efi_main.


(** ** A machine that starts *)

(** Its ACPI tables: HPET, MCFG, an XSDT that lists them and an RSDP, from 0x1000. *)
Definition start_acpi : phys_mem := mem_of 0x1000 (
  (HPET_SIGNATURE ++ le_encode 4 56 ++ replicate 36 0 ++ le_encode 8 0xFED00000 ++ replicate 4 0) ++
  (MCFG_SIGNATURE ++ le_encode 4 60 ++ replicate 36 0 ++ le_encode 8 0xB0000000 ++ [0; 0; 0; 31] ++ replicate 4 0) ++
  example_xsdt ++ example_rsdp).
Definition start_tables : list EfiConfigurationTable :=
  [{| vendor_guid := EFI_ACPI_TABLE_GUID; vendor_table := 0x10A8 |}].
Definition start_timer : Timer := {| hpet_at := 0xFED00000; HPET := None; registers :=
  {| capabilities_and_id := Z.shiftl 10000000 32; configuration := 0; main_counter_value := 77; timers := replicate 32 0 |} |}.
Definition start_mode : GraphicsMode := {| frame_buffer_base := 0x80000000; horizontal_resolution := 640;
  vertical_resolution := 480; pixels_per_scan_line := 640 |}.

(** A bus where nothing answers. *)
Definition empty_bus : ConfigSpace unit := {| cs_read _ _ d := (0xffff, d); cs_write _ _ _ d := d |}.

Definition start_kernel : Kernel ScriptFw SimpleUart unit := {|
  firmware := quiet_firmware; bus := tt; timer := start_timer;
  system := Build_System ALLOCATOR (fun _ => 0) (0, 0) (0, 0) (0, 0)
    {| sel_cs := 0x38; sel_ss := 0x30; sel_ds := 0x30; sel_es := 0x30; sel_fs := 0x30; sel_gs := 0x30 |};
  console := {| serial := example_uart []; GLOBAL_VRAM_WRITER := Mutex_new None; video := ∅ |} |}.

Definition no_driver (_ : Pci) (_ : Z) : M (unit * option (Executor SerialTask)) unit := mret tt.

Lemma start_bootable : bootable (T := SerialTask) start_acpi start_tables 7 no_driver start_kernel
  start_mode 0x10A8 0x1000 (match total_pages 0 example_descriptors with Ok t => t | _ => 0 end).
Proof.
  split.
  - by eexists.
  - reflexivity.
  - split; [split; cbn; lia|]. split; [cbn; lia|]. split; [cbn; lia|]. split; cbn; lia.
  - reflexivity.
  - split; [vm_compute; discriminate|]. split; [repeat constructor; simpl; lia|]. split; [vm_compute; reflexivity|].
    split; [exact example_mmap_ok|]. split; vm_compute; reflexivity.
  - vm_compute. reflexivity.
  - reflexivity.
  - split; [vm_compute; reflexivity|]. split; [vm_compute; reflexivity|]. split; [reflexivity|].
    split; [split; cbn; lia|discriminate].
  - by split.
  - by split.
  - right. exists 0x1038. do 2 eexists. split; [vm_compute; reflexivity|]. split; [vm_compute; reflexivity|].
    split; [vm_compute; reflexivity|]. split; [vm_compute; reflexivity|]. split; [cbn; lia|]. discriminate.
Qed.


Lemma init_hpet_clock_witness : exists fuel k',
  init_hpet [] fuel start_acpi 0x10A8 start_kernel = (Ok tt, k') /\ main_counter_value (registers (timer k')) = 0.
Proof.
  pose proof (init_hpet_clock [] start_acpi 0x10A8 start_kernel 100) as H.
  assert (rsdp_hpet start_acpi 0x10A8 = Ok (Some 0x1000)) as E1 by (vm_compute; reflexivity).
  assert (hpet_base_address start_acpi 0x1000 = Ok 0xFED00000) as E2 by (vm_compute; reflexivity).
  rewrite E1, E2 in H.
  destruct H as (f & k' & Hrun & Hc & _); [reflexivity|reflexivity|split; cbn; lia|split; [reflexivity|discriminate]| |reflexivity|].
  - split; [reflexivity|]. split; [reflexivity|]. split; [reflexivity|exact I].
  - exists f, k'. split; [exact (Hrun f (Nat.le_refl f))|exact Hc].
Defined.
