(* ===== verification/Tests.v ===== *)
(** * The kernel's unit tests: the [#[test_case]] functions of [allocator.rs], [bits.rs] and
    [volatile.rs], the runner and panic handler of [test_runner.rs], and the exit of [qemu.rs].

    [main.rs]'s own panic handler ends the same way.

    The tests of the allocator run on the kernel's own heap, whatever earlier clients have
    done with it; what they write into their objects is kept in a memory of bytes.  One of
    them writes without looking at its pointers, and a run ends where that is undefined. *)

From S2P Require Import Prelude Bits Allocator Heap Graphics Console Kernel.
Import Allocator.Allocator BlockSpec Bits.Bits Bits.Volatile.

Module Tests.

(** [assert!] and [assert_eq!], with the text of the condition. *)
Definition assert {S} (condition : bool) (message : string) : M S unit :=
  if condition then mret tt else panic message.
Definition msg_null : string := "assertion failed: *e as usize != 0".
Definition msg_align : string := "assertion failed: *e as usize % align == 0".
Definition msg_byte : string := "assertion failed: unsafe { *pointer.add(k) } == i as u8".

(** *** [allocator.rs] *)

(** The heap with [static ALLOCATOR], and the bytes of the objects in it. *)
Record Memory : Type := { heap : FirstFitAllocator; cells : Z -> Z }.
Definition on_heap {A} (m : M FirstFitAllocator A) : M Memory A :=
  zoom heap (fun h s => {| heap := h; cells := cells s |}) m.

Definition layout (size align : Z) (message : string) : M Memory Layout :=
  lift (unwrap (ok_or (Layout_from_size_align size align) message)).

(** The inner loop over the hundred pointers. *)
Definition malloc_aligned (align : Z) : M Memory unit :=
  for_each (range 0 100) (fun _ =>
    l ← layout 1234 align "failed to create layout";
    e ← on_heap (alloc_with_options l);
    assert (negb (e =? 0)) msg_null;;
    assert (e mod align =? 0) msg_align).

Definition malloc_align : M Memory unit :=
  for_each [1; 2; 4; 8; 16; 32; 4096] malloc_aligned.

(** [vec![_; n]] of elements of [size] bytes, and its drop. *)
Definition vec_layout (size n : Z) : Layout := {| l_size := size * n; l_align := 8 |}.
Definition vec_new (l : Layout) : M Memory Z := on_heap (box_new l).
Definition vec_drop (p : Z) (l : Layout) : M Memory unit := on_heap (dealloc p l).

Definition malloc_align_random_order : M Memory unit :=
  for_each [32; 4096; 8; 4; 16; 2; 1] (fun align =>
    pointers ← vec_new (vec_layout 8 100);
    malloc_aligned align;;
    vec_drop pointers (vec_layout 8 100)).

(** The table [allocations]. *)
Definition allocations : list Layout :=
  (fun sa => {| l_size := sa.1; l_align := sa.2 |}) <$>
  [(128, 128); (32, 32); (8, 8); (16, 16); (6000, 64); (4, 4); (2, 2); (600000, 64); (64, 64); (1, 1);
   (6000, 64); (6000, 64); (6000, 64); (6000, 64); (6000, 64); (6000, 64);
   (3, 64); (3, 64); (3, 64); (3, 64); (3, 64); (3, 64); (3, 64); (3, 64); (3, 64); (3, 64);
   (6000, 64); (6000, 64); (600000, 64); (6000, 64); (60000, 64); (60000, 64); (60000, 64); (60000, 64)].

(** [iter().zip(..).enumerate()], and [step_by(2)] on it. *)
Definition enumerated (ps : list Z) : list (nat * (Layout * Z)) := imap pair (zip allocations ps).
Fixpoint step_by_2 {A} (l : list A) : list A :=
  match l with x :: _ :: l => x :: step_by_2 l | l => l end.

(** [*pointer.add(k) = i as u8] for the bytes of an object.  Nothing checks the pointer: a
    write through null is undefined behaviour, and the model has nothing to say of the
    program from there on. *)
Definition write_byte (p k v : Z) : M Memory unit :=
  if p =? 0 then panic msg_ub else
  modify (fun s => {| heap := heap s; cells := fun a => if a =? p + k then v else cells s a |}).
Definition fill (i : nat) (l : Layout) (p : Z) : M Memory unit :=
  for_each (range 0 (l_size l)) (fun k => write_byte p k (wrap 8 (Z.of_nat i))).
Definition check (e : nat * (Layout * Z)) : M Memory unit :=
  let '(i, (l, p)) := e in
  for_each (range 0 (l_size l)) (fun k => s ← get; assert (cells s (p + k) =? wrap 8 (Z.of_nat i)) msg_byte).

(** The loops that allocate an object for each entry and fill it; the result is [pointers]. *)
Fixpoint write_all (es : list (nat * (Layout * Z))) (pointers : list Z) : M Memory (list Z) :=
  match es with
  | [] => mret pointers
  | (i, (l, _)) :: es =>
      p ← on_heap (alloc_with_options l);
      fill i l p;;
      write_all es (<[i := p]> pointers)
  end.

Definition allocated_objects_have_no_overlap : M Memory unit :=
  let n := Z.of_nat (length allocations) in
  table ← vec_new (vec_layout 16 n);
  vec ← vec_new (vec_layout 8 n);
  pointers ← (let pointers := replicate (length allocations) 0 in write_all (enumerated pointers) pointers);
  for_each (enumerated pointers) check;;
  for_each (step_by_2 (enumerated pointers)) (fun '(_, (l, p)) => on_heap (dealloc p l));;
  for_each (step_by_2 (tail (enumerated pointers))) check;;
  pointers ← write_all (step_by_2 (enumerated pointers)) pointers;
  for_each (enumerated pointers) check;;
  vec_drop vec (vec_layout 8 n);;
  vec_drop table (vec_layout 16 n).

(** [round_down_to_nearest_pow2] tests nothing. *)
Definition round_down_to_nearest_pow2 : M Memory unit := mret tt.

#[export] Instance outcome_eq_dec {A} `{EqDecision A} : EqDecision (outcome A).
Proof. solve_decision. Defined.

Definition assert_eq {S A} `{EqDecision A} (a b : A) : M S unit :=
  assert (bool_decide (a = b)) "assertion `left == right` failed".

Definition round_up_to_nearest_pow2_tests : M Memory unit :=
  for_each [(0, Err "Out of range"); (1, Ok 1); (2, Ok 2); (3, Ok 4); (4, Ok 4); (5, Ok 8); (6, Ok 8); (7, Ok 8);
            (8, Ok 8); (9, Ok 16); (9, Ok 16)]
    (fun '(v, r) => assert_eq (round_up_to_nearest_pow2 v) r).

(** *** [bits.rs] and [volatile.rs] *)

Definition extract_bits_tests : M Memory unit :=
  assert_eq (extract_bits 32 (Z.shiftl 30 24) 24 8) 30;;
  for_each [(0x123, 0, 12, 0x123); (0x123, 4, 12, 0x12); (0x123, 4, 8, 0x12); (0x123, 4, 4, 0x2); (0x123, 4, 0, 0x0);
            (0x1234567812345678, 60, 4, 0x1); (0x1234567812345678, 64, 0, 0x0);
            (0x1234567812345678, 0, 64, 0x1234567812345678); (0x1234567812345678, 0, 65, 0x1234567812345678)]
    (fun '(v, shift, width, r) => assert_eq (extract_bits 64 v shift width) r).

(** [assert!(v.write_bits(..).is_ok())] and its opposite; [assert_eq!(v.read(), r)]. *)
Definition writes (tw shift width value : Z) (ok : bool) : M Z unit := fun v =>
  let '(r, v) := write_bits tw shift width value v in
  assert (eqb (is_ok r) ok) "assertion failed: v.write_bits" v.
Definition reads (r : Z) : M Z unit := v ← Volatile_read; assert_eq v r.

Definition write_bits_tests : M Memory unit :=
  _ ← zoom (fun _ => 0) (fun _ s => s) (
    reads 0;; writes 16 0 1 0 true;; reads 0;; writes 16 0 1 1 true;; reads 1;; writes 16 0 1 2 false;; reads 1;;
    writes 16 1 1 0 true;; reads 1;; writes 16 1 1 1 true;; reads 3;; writes 16 1 1 0 true;; reads 1;;
    writes 16 1 1 2 false;; reads 1;; writes 16 8 4 0xA true;; reads 0x0A01;; x ← read_bits 16 8 4; assert_eq x 0xA);
  zoom (fun _ => 0) (fun _ s => s) (reads 0;; writes 32 24 8 0xAA true;; reads 0xAA000000).

(** *** [test_runner.rs], [qemu.rs] and the panic handlers *)

Inductive QemuExitCode : Type := Success | Fail.
Definition code_u32 (c : QemuExitCode) : Z := match c with Success => 1 | Fail => 2 end.

(** [Testable]: a function with its [type_name]. *)
Record Testable : Type := { type_name : list Z; body : M Memory unit }.

Section runner.
Context {D : Type} {IO : PortIo D} (fuel : nat) (debug : string -> list Z).

(** Nothing runs after [exit_qemu]: the processor is halted for ever in the state it leaves. *)
Definition exit_qemu (code : QemuExitCode) : M D unit := out8 0xf4 (wrap 8 (code_u32 code)).

Definition on_serial {A} (m : M D A) : M (D * Memory) A := zoom fst (fun d s => (d, s.2)) m.
Definition on_memory {A} (m : M Memory A) : M (D * Memory) A := zoom snd (fun m s => (s.1, m)) m.
Definition writeln (pieces : list (list Z)) : M (D * Memory) unit :=
  unwrapM (on_serial (for_each (pieces ++ [[10]]) (serial_write_str fuel))).

Definition run (t : Testable) : M (D * Memory) unit :=
  writeln [text "[Runnning] >>> "; type_name t];;
  on_memory (body t);;
  writeln [text "[Pass    ] <<< "; type_name t].

Definition test_runner (tests : list Testable) : M (D * Memory) unit :=
  let n := decimal (Z.of_nat (length tests)) in
  writeln [text "Running "; n; text " tests"];;
  for_each tests run;;
  writeln [text "Completed "; n; text " tests"];;
  on_serial (exit_qemu Success).

(** The panic handler; [debug] is the core library's text for a [PanicInfo]. *)
Definition panic_handler (e : string) : M (D * Memory) unit :=
  writeln [text "Panic duringt est: "; debug e];;
  on_serial (exit_qemu Fail).

(** A run of the test kernel: a panic ends in the handler.  Undefined behaviour is not a
    panic: the handler need not run, and the run is cut off there. *)
Definition run_unit_tests (tests : list Testable) : M (D * Memory) unit := fun s =>
  match test_runner tests s with
  | (Panic e, s) => if String.eqb e msg_ub then (Panic msg_ub, s) else panic_handler e s
  | r => r
  end.
End runner.

(** The panic handler of the kernel itself, in [main.rs]; [info] is the [PanicInfo]'s text. *)
Definition kernel_panic {F D P} {IO : PortIo D} (font : list Z) (fuel : nat) (info : list Z) : M (Kernel F D P) unit :=
  println font fuel (text "panic: " ++ info);;
  on_console (Console.on_serial (exit_qemu Fail)).
End Tests.
Import Tests.

(** ** The allocator's tests *)

(** A test may notice that memory has run out: at its own assertion on null, or at a vector.
    Or it does not, and writes through the null pointer. *)
Definition noticed (e : string) : Prop := e = msg_oom \/ e = msg_null.
Definition exhausted (e : string) : Prop := noticed e \/ e = msg_ub.

Lemma ga_ok_perm (h : FirstFitAllocator) live live' : live ≡ₚ live' -> ga_ok h live -> ga_ok h live'.
Proof.
  intros Hp (bs & Hrep & Hown & Hnd). exists bs.
  split; [exact Hrep|]. split; [by rewrite <- Hp|]. by rewrite <- (fmap_Permutation fst _ _ Hp).
Qed.

Section clients.
(** The objects of earlier clients, and what is in them. *)
Context (base : list (Z * Layout)) (c0 : Z -> Z).

Definition kept (s : Memory) : Prop :=
  forall p l a, (p, l) ∈ base -> p <= a < p + l_size l -> cells s a = c0 a.

(** The heap has the objects [objs] besides the earlier ones, whose bytes are as before. *)
Record serves (objs : list (Z * Layout)) (s : Memory) : Prop := {
  sv_heap : ga_ok (heap s) (objs ++ base);
  sv_kept : kept s;
}.

Lemma serves_perm objs objs' s : objs ≡ₚ objs' -> serves objs s -> serves objs' s.
Proof using. intros Hp [H1 H2]. split; [|done]. eapply ga_ok_perm; [|exact H1]. by rewrite Hp. Qed.

Lemma alloc_serves l objs s : serves objs s -> layout_ok l -> exists p h',
  on_heap (alloc_with_options l) s = (Ok p, {| heap := h'; cells := cells s |}) /\
  (p = 0 /\ serves objs {| heap := h'; cells := cells s |} \/
   p <> 0 /\ serves ((p, l) :: objs) {| heap := h'; cells := cells s |}).
Proof using.
  intros [H1 H2] Hl. destruct (ga_alloc (heap s) _ l H1 Hl) as (p & h' & Hrun & Hcase).
  exists p, h'. split; [unfold on_heap, zoom; change (alloc_with_options l) with (galloc l); by rewrite Hrun|].
  destruct Hcase as [[? ?]|[? ?]]; [left|right]; by split.
Qed.

Lemma dealloc_serves p l objs s : serves ((p, l) :: objs) s -> exists h',
  on_heap (dealloc p l) s = (Ok tt, {| heap := h'; cells := cells s |}) /\ serves objs {| heap := h'; cells := cells s |}.
Proof using.
  intros [[bs H1] H2]. destruct (client_inv_dealloc (heap s) [] p l (objs ++ base) bs H1) as (h' & Hrun & H3).
  exists h'. split; [unfold on_heap, zoom; by rewrite Hrun|]. split; [by eexists|done].
Qed.

Lemma vec_serves l objs s : serves objs s -> layout_ok l ->
  ends_or noticed (vec_new l s) (fun p s' => serves ((p, l) :: objs) s' /\ cells s' = cells s).
Proof using.
  intros [H1 H2] Hl. unfold vec_new, on_heap, zoom.
  destruct (box_new_ok (heap s) _ l H1 Hl) as [(p & h' & -> & Hok)|(h' & ->)]; cbn; [by split|by left].
Qed.

(** Allocating and checking the hundred objects. *)
Lemma malloc_aligned_ok p objs s : 0 <= p <= 40 -> serves objs s ->
  ends_or noticed (malloc_aligned (2 ^ p) s) (fun _ s' => exists new, serves (new ++ objs) s').
Proof using.
  intros Hp Hs. apply (ends_for_each noticed _ (fun s' => exists new, serves (new ++ objs) s')); [|by exists []].
  intros _ s1 _ [new H1]. destruct (pow2_layout 1234 p ltac:(lia) Hp) as [Hl Hsome].
  unfold layout, Layout_from_size_align in *. destruct (_ && _); [|done]. cbn [ok_or unwrap]. mstep.
  destruct (alloc_serves _ _ _ H1 Hl) as (q & h' & Hrun & Hcase). rewrite (bind_ok _ _ _ _ _ Hrun).
  destruct Hcase as [[-> _]|[Hq H2]]; [by right|]. rewrite (proj2 (Z.eqb_neq q 0) Hq). unfold assert at 1. cbn [negb].
  destruct (ga_objects _ _ (sv_heap _ _ H2)) as [Hobj _]. apply Forall_cons in Hobj as [(_ & _ & Hal & _) _].
  cbn [l_align fst snd] in Hal. apply Z.mod_divide in Hal; [|lia]. rewrite Hal. by exists ((q, {| l_size := 1234; l_align := 2 ^ p |}) :: new).
Qed.

Lemma small_pow2 align : align ∈ [1; 2; 4; 8; 16; 32; 4096] -> exists p, 0 <= p <= 40 /\ align = 2 ^ p.
Proof using.
  intros Ha. repeat (apply elem_of_cons in Ha as [->|Ha]); [by exists 0|by exists 1|by exists 2|by exists 3|by exists 4
    |by exists 5|by exists 12|by apply elem_of_nil in Ha].
Qed.

Lemma malloc_align_ok s : serves [] s -> ends_or noticed (malloc_align s) (fun _ s' => exists new, serves new s').
Proof using.
  intros Hs. apply (ends_for_each noticed _ (fun s' => exists new, serves new s')); [|by exists []].
  intros align s1 Ha [new H1]. destruct (small_pow2 align Ha) as (p & Hp & ->).
  eapply ends_weaken; [by apply (malloc_aligned_ok p new)|]. intros _ s2 [more H2]. by exists (more ++ new).
Qed.

Lemma malloc_align_random_order_ok s : serves [] s ->
  ends_or noticed (malloc_align_random_order s) (fun _ s' => exists new, serves new s').
Proof using.
  intros Hs. apply (ends_for_each noticed _ (fun s' => exists new, serves new s')); [|by exists []].
  intros align s1 Ha [new H1].
  assert (layout_ok (vec_layout 8 100)) as Hv by (apply (pow2_layout 800 3); lia).
  destruct (small_pow2 align) as (p & Hp & ->).
  { apply (elem_of_Permutation_proper align _ [32; 4096; 8; 4; 16; 2; 1]); [|done].
    by apply (bool_decide_unpack _); vm_compute. }
  eapply ends_bind; [by apply (vec_serves _ _ _ H1 Hv)|]. intros v s2 [H2 _].
  eapply ends_bind; [by apply (malloc_aligned_ok p _ _ Hp H2)|]. intros [] s3 [more H3].
  destruct (dealloc_serves v (vec_layout 8 100) (more ++ new) s3) as (h' & Hrun & H4).
  { eapply serves_perm; [|exact H3]. by rewrite Permutation_middle. }
  unfold vec_drop. rewrite Hrun. by exists (more ++ new).
Qed.

(** *** Filling objects and reading them back *)

Definition object (e : nat * (Layout * Z)) : Z * Layout := (e.2.2, e.2.1).
Definition holds (s : Memory) (e : nat * (Layout * Z)) : Prop :=
  forall a, e.2.2 <= a < e.2.2 + l_size e.2.1 -> cells s a = wrap 8 (Z.of_nat e.1).

(** The heap has the objects of [es], each full of its index, and the vectors [vs]. *)
Definition filled (vs : list (Z * Layout)) (es : list (nat * (Layout * Z))) (s : Memory) : Prop :=
  serves ((object <$> es) ++ vs) s /\ Forall (holds s) es.

Lemma filled_perm vs es es' s : es ≡ₚ es' -> filled vs es s -> filled vs es' s.
Proof using.
  intros Hp [H1 H2]. split; [|by rewrite <- Hp]. eapply serves_perm; [|exact H1]. by rewrite (fmap_Permutation object _ _ Hp).
Qed.

Lemma range_snoc n : 0 <= n -> range 0 (n + 1) = range 0 n ++ [n].
Proof using.
  intros Hn. unfold range. rewrite !Z.sub_0_r, Z2Nat.inj_add, Nat.add_1_r, seq_S, fmap_app by lia. cbn. by rewrite Z2Nat.id.
Qed.

Lemma fill_ok i l p s : p <> 0 -> 0 <= l_size l -> exists c, fill i l p s = (Ok tt, {| heap := heap s; cells := c |}) /\
  forall a, c a = if (p <=? a) && (a <? p + l_size l) then wrap 8 (Z.of_nat i) else cells s a.
Proof using.
  intros Hp. unfold fill. generalize (l_size l). clear l.
  refine (natlike_ind _ _ _).
  - exists (cells s). split; [by destruct s|]. intros a. rewrite Z.add_0_r. destruct (Z.leb_spec p a), (Z.ltb_spec a p); done || lia.
  - intros n Hn (c & Hrun & Hc). exists (fun a => if a =? p + n then wrap 8 (Z.of_nat i) else c a). split.
    + change (Z.succ n) with (n + 1). rewrite range_snoc, for_each_app by done. rewrite (bind_ok _ _ _ _ _ Hrun).
      cbn [for_each]. unfold write_byte. by rewrite (proj2 (Z.eqb_neq p 0) Hp).
    + intros a. destruct (Z.eqb_spec a (p + n)) as [->|Ha]; [|rewrite Hc].
      * by rewrite (proj2 (Z.leb_le _ _)), (proj2 (Z.ltb_lt _ _)) by lia.
      * destruct (Z.leb_spec p a), (Z.ltb_spec a (p + n)), (Z.ltb_spec a (p + Z.succ n)); done || lia.
Qed.

Lemma fill_null i l s : 0 < l_size l -> exists s', fill i l 0 s = (Panic msg_ub, s').
Proof using.
  intros Hl. unfold fill, range. rewrite Z.sub_0_r. destruct (Z.to_nat (l_size l)) as [|n] eqn:Hn; [lia|]. by eexists.
Qed.

Lemma check_ok e s : holds s e -> check e s = (Ok tt, s).
Proof using.
  destruct e as [i [l p]]. intros Hh. unfold check.
  assert (forall k, k ∈ range 0 (l_size l) -> cells s (p + k) = wrap 8 (Z.of_nat i)) as H.
  { intros k Hk%elem_of_range. apply Hh. cbn. lia. }
  clear Hh. induction (range 0 (l_size l)) as [|k ks IH]; [done|]. cbn [for_each].
  rewrite (bind_ok _ _ s tt s); [apply IH; intros k' Hk'; apply H; by right|].
  rewrite (bind_ok get _ s s s) by done. rewrite (H k) by (by left). by rewrite Z.eqb_refl.
Qed.

Lemma check_all es s : Forall (holds s) es -> for_each es check s = (Ok tt, s).
Proof using. induction 1 as [|e es He _ IH]; [done|]. cbn [for_each]. by rewrite (bind_ok _ _ _ _ _ (check_ok e s He)). Qed.

(** A new object is filled without touching the others. *)
Lemma filled_fill vs es s i l p : 0 < l_size l -> p <> 0 -> serves ((p, l) :: (object <$> es) ++ vs) s -> Forall (holds s) es ->
  exists s', fill i l p s = (Ok tt, s') /\ filled vs ((i, (l, p)) :: es) s'.
Proof using.
  intros Hl Hp [H1 H2] Hes. destruct (fill_ok i l p s Hp ltac:(lia)) as (c & Hrun & Hc). eexists. split; [exact Hrun|].
  destruct (ga_objects _ _ H1) as [_ Hap]. inversion Hap as [|? ? Hfirst _]; subst. rewrite List.Forall_forall in Hfirst.
  assert (forall q m a, In (q, m) (((object <$> es) ++ vs) ++ base) -> q <= a < q + l_size m -> c a = cells s a) as Hsame.
  { intros q m a Hin Ha. specialize (Hfirst _ Hin). unfold apart in Hfirst. cbn in Hfirst. rewrite Hc.
    destruct (Z.leb_spec p a), (Z.ltb_spec a (p + l_size l)); done || lia. }
  split; [split|].
  - exact H1.
  - intros q m a Hq Ha. cbn [cells]. rewrite (Hsame q m a); [by apply (H2 q m)| |done]. apply in_or_app. right. by apply list_elem_of_In.
  - apply Forall_cons. split.
    + intros a Ha. cbn in Ha |- *. by rewrite Hc, (proj2 (Z.leb_le _ _)), (proj2 (Z.ltb_lt _ _)) by lia.
    + apply Forall_forall. intros e He a Ha. cbn [cells]. rewrite Forall_forall in Hes.
      rewrite (Hsame e.2.2 e.2.1 a); [by apply (Hes e He)| |done].
      do 2 (apply in_or_app; left). apply list_elem_of_In, list_elem_of_fmap. by exists e.
Qed.

Lemma filled_dealloc vs i l p es s : filled vs ((i, (l, p)) :: es) s -> exists s',
  on_heap (dealloc p l) s = (Ok tt, s') /\ filled vs es s'.
Proof using.
  intros [H1 H2]. apply Forall_cons in H2 as [_ H2]. destruct (dealloc_serves p l _ s H1) as (h' & Hrun & H3).
  eexists. split; [exact Hrun|]. by split.
Qed.

Lemma filled_dealloc_all vs es : forall rest s, filled vs (es ++ rest) s -> exists s',
  for_each es (fun '(_, (l, p)) => on_heap (dealloc p l)) s = (Ok tt, s') /\ filled vs rest s'.
Proof using.
  induction es as [|[i [l p]] es IH]; intros rest s Hs; [by exists s|].
  destruct (filled_dealloc _ _ _ _ _ _ Hs) as (s1 & E1 & H1). destruct (IH rest s1 H1) as (s2 & E2 & H2).
  exists s2. split; [|done]. cbn [for_each]. by rewrite (bind_ok _ _ _ _ _ E1).
Qed.

(** *** The loops over [allocations] *)

Definition at_index (ps : list Z) (e : nat * (Layout * Z)) : nat * (Layout * Z) := (e.1, (e.2.1, ps !!! e.1)).
Definition entry_ok (n : nat) (e : nat * (Layout * Z)) : Prop := (e.1 < n)%nat /\ layout_ok e.2.1 /\ 0 < l_size e.2.1.

Lemma write_all_ok vs todo : forall don ps s, NoDup (todo.*1) -> Forall (entry_ok (length ps)) todo -> filled vs don s ->
  ends_or exhausted (write_all todo ps s) (fun ps' s' => length ps' = length ps /\
    (forall j, j ∉ todo.*1 -> ps' !!! j = ps !!! j) /\ filled vs ((at_index ps' <$> todo) ++ don) s').
Proof using.
  induction todo as [|[i [l q]] todo IH]; intros don ps s Hn Hok Hs; [done|].
  apply Forall_cons in Hok as [(Hi & Hl & Hpos) Hok]. rewrite fmap_cons in Hn. apply NoDup_cons in Hn as [Hni Hn]. cbn [fst snd] in *.
  destruct Hs as [H1 H2]. destruct (alloc_serves _ _ _ H1 Hl) as (p & h' & Hrun & Hcase). cbn [write_all].
  rewrite (bind_ok _ _ _ _ _ Hrun). destruct Hcase as [[-> _]|[Hp H3]].
  { destruct (fill_null i l {| heap := h'; cells := cells s |} Hpos) as [s' E]. rewrite (bind_panic _ _ _ _ _ E). by right. }
  destruct (filled_fill vs don {| heap := h'; cells := cells s |} i l p Hpos Hp H3 H2) as (s1 & E & H4).
  rewrite (bind_ok _ _ _ _ _ E).
  assert (length (<[i:=p]> ps) = length ps) as Hlen by apply length_insert.
  eapply ends_weaken; [apply (IH _ _ _ Hn ltac:(by rewrite Hlen) H4)|].
  intros ps' s' (G1 & G2 & G3). split; [congruence|]. split.
  - intros j Hj. rewrite fmap_cons in Hj. apply not_elem_of_cons in Hj as [Hji Hj]. cbn in Hji.
    rewrite G2 by done. by apply list_lookup_total_insert_ne.
  - cbn [fmap list_fmap]. unfold at_index at 1. cbn [fst snd]. rewrite (G2 i Hni), list_lookup_total_insert_eq by done.
    eapply filled_perm; [|exact G3]. by rewrite <- Permutation_middle.
Qed.

Lemma enumerated_at ps : length ps = length allocations ->
  enumerated ps = at_index ps <$> enumerated (replicate (length allocations) 0).
Proof using.
  intros Hlen. unfold enumerated. generalize dependent allocations. intros ls Hlen. apply list_eq. intros j.
  rewrite list_lookup_fmap, !list_lookup_imap, !lookup_zip_with.
  destruct (ls !! j) as [l|] eqn:Hl; [|done]. pose proof (lookup_lt_Some _ _ _ Hl) as Hj.
  rewrite lookup_replicate_2 by done. rewrite <- Hlen in Hj. apply list_lookup_lookup_total_lt in Hj. by rewrite Hj.
Qed.

Lemma step_by_2_fmap {A B} (f : A -> B) (l : list A) : step_by_2 (f <$> l) = f <$> step_by_2 l.
Proof using.
  assert (forall n (l : list A), (length l <= n)%nat -> step_by_2 (f <$> l) = f <$> step_by_2 l) as H; [|by apply (H (length l))].
  intros n. induction n as [|n IH]; intros [|x [|y k]] Hn; try done; cbn in Hn; [lia|]. cbn. f_equal. apply IH. lia.
Qed.

Lemma step_by_2_perm {A} (l : list A) : l ≡ₚ step_by_2 l ++ step_by_2 (tail l).
Proof using.
  assert (forall n (l : list A), (length l <= n)%nat -> l ≡ₚ step_by_2 l ++ step_by_2 (tail l)) as H; [|by apply (H (length l))].
  intros n. induction n as [|n IH]; intros [|x [|y k]] Hn; try done; cbn in Hn; [lia|].
  assert (step_by_2 (y :: k) = y :: step_by_2 (tail k)) as Ht by by destruct k.
  change (step_by_2 (x :: y :: k)) with (x :: step_by_2 k). cbn [tail app]. rewrite Ht, <- Permutation_middle.
  do 2 constructor. apply IH. lia.
Qed.

Lemma at_index_ext ps ps' (es : list (nat * (Layout * Z))) : (forall e, e ∈ es -> ps' !!! e.1 = ps !!! e.1) -> at_index ps' <$> es = at_index ps <$> es.
Proof using.
  intros H. induction es as [|e es IH]; [done|]. cbn. unfold at_index at 1 3. rewrite (H e) by (by left). f_equal.
  apply IH. intros e' He'. apply H. by right.
Qed.

(** The entries by index: all, the even and the odd ones. *)
Definition entries : list (nat * (Layout * Z)) := enumerated (replicate (length allocations) 0).

Lemma allocations_ok : Forall (fun l => layout_ok l /\ 0 < l_size l) allocations.
Proof using.
  assert (forallb (fun l => existsb (fun p => l_align l =? 2 ^ p) (range 0 13) && (0 <? l_size l) && (l_size l <=? 2 ^ 40))
    allocations = true) as H by (vm_compute; reflexivity).
  apply Forall_forall. intros l Hl%list_elem_of_In. rewrite forallb_forall in H. specialize (H l Hl).
  apply andb_prop in H as [[H H1%Z.ltb_lt]%andb_prop H2%Z.leb_le].
  apply existsb_exists in H as (p & Hp%list_elem_of_In%elem_of_range & Ha%Z.eqb_eq).
  destruct l as [size align]. cbn [l_size l_align] in *. subst. split; [|done]. apply (pow2_layout size p); lia.
Qed.

Lemma entries_ok es : es ⊆ entries -> Forall (entry_ok (length allocations)) es.
Proof using.
  intros Hes. apply Forall_forall. intros [i [l q]] He%Hes. unfold entries, enumerated in He.
  apply list_elem_of_lookup_1 in He as [j Hj]. rewrite list_lookup_imap, lookup_zip_with in Hj.
  pose proof allocations_ok as Ha. revert Hj Ha. generalize (replicate (length allocations) 0). generalize allocations. intros ls zs Hj Ha.
  destruct (ls !! j) as [l'|] eqn:Hl; [|done]. destruct (zs !! j); [|done]. cbn in Hj. injection Hj as -> -> ->.
  rewrite Forall_lookup in Ha. destruct (Ha _ _ Hl). split; [by eapply lookup_lt_Some|done].
Qed.

Lemma entries_split : entries ≡ₚ step_by_2 entries ++ step_by_2 (tail entries).
Proof using. apply step_by_2_perm. Qed.

Lemma entries_indices : NoDup (entries.*1) /\ NoDup ((step_by_2 entries).*1) /\
  Forall (fun e => e.1 ∉ (step_by_2 entries).*1) (step_by_2 (tail entries)).
Proof using. split; [|split]; apply (bool_decide_unpack _); vm_compute; exact I. Qed.

(** From the vectors to the end: every object reads back as it was filled, before and after
    every other one was freed and allocated again. *)
Lemma no_overlap_body vs (k : M Memory unit) Q s : filled vs [] s ->
  (forall es s', filled vs es s' -> ends_or exhausted (k s') Q) ->
  ends_or exhausted (
    (pointers ← write_all entries (replicate (length allocations) 0);
     for_each (enumerated pointers) check;;
     for_each (step_by_2 (enumerated pointers)) (fun '(_, (l, p)) => on_heap (dealloc p l));;
     for_each (step_by_2 (tail (enumerated pointers))) check;;
     pointers ← write_all (step_by_2 (enumerated pointers)) pointers;
     for_each (enumerated pointers) check;; k) s) Q.
Proof using.
  intros Hs Hk. destruct entries_indices as (N1 & N2 & N3). pose proof entries_split as Hsplit.
  assert (step_by_2 entries ⊆ entries) as Hsub by (intros e He; rewrite Hsplit; apply elem_of_app; by left).
  eapply ends_bind.
  { apply (write_all_ok vs entries [] _ _ N1); [|exact Hs]. rewrite length_replicate. by apply entries_ok. }
  intros ps s1 (L1 & _ & H1). rewrite length_replicate in L1. rewrite app_nil_r in H1.
  rewrite (enumerated_at ps L1). fold entries. rewrite (bind_ok _ _ _ _ _ (check_all _ _ (proj2 H1))).
  rewrite <- fmap_tail, !step_by_2_fmap.
  destruct (filled_dealloc_all vs (at_index ps <$> step_by_2 entries) (at_index ps <$> step_by_2 (tail entries)) s1) as (s2 & E2 & H2).
  { eapply filled_perm; [|exact H1]. by rewrite Hsplit at 1; rewrite fmap_app. }
  rewrite (bind_ok _ _ _ _ _ E2), (bind_ok _ _ _ _ _ (check_all _ _ (proj2 H2))).
  assert ((at_index ps <$> step_by_2 entries).*1 = (step_by_2 entries).*1) as Hidx
    by (rewrite <- list_fmap_compose; by apply list_fmap_ext).
  eapply ends_bind.
  { apply (write_all_ok vs (at_index ps <$> step_by_2 entries) (at_index ps <$> step_by_2 (tail entries)) ps);
      [by rewrite Hidx| |exact H2]. rewrite L1.
    apply Forall_fmap. eapply Forall_impl; [by apply (entries_ok _ Hsub)|]. by intros [i [l q]]. }
  intros ps' s3 (L3 & G3 & H3). rewrite Hidx in G3.
  assert (at_index ps' <$> (at_index ps <$> step_by_2 entries) = at_index ps' <$> step_by_2 entries) as Hat
    by (rewrite <- list_fmap_compose; by apply list_fmap_ext).
  rewrite Hat in H3. rewrite <- (at_index_ext ps ps' (step_by_2 (tail entries))) in H3.
  2:{ intros e He. rewrite Forall_forall in N3. by apply G3, N3. }
  rewrite <- fmap_app in H3.
  assert (filled vs (at_index ps' <$> entries) s3) as H4 by (eapply filled_perm; [|exact H3]; by rewrite <- Hsplit).
  rewrite (enumerated_at ps') by congruence. fold entries. rewrite (bind_ok _ _ _ _ _ (check_all _ _ (proj2 H4))). by eapply Hk.
Qed.

Lemma allocated_objects_have_no_overlap_ok s : serves [] s ->
  ends_or exhausted (allocated_objects_have_no_overlap s) (fun _ s' => exists new, serves new s').
Proof using.
  intros Hs. unfold allocated_objects_have_no_overlap. change (Z.of_nat (length allocations)) with 34. cbv zeta.
  assert (layout_ok (vec_layout 16 34)) as V1 by (apply (pow2_layout 544 3); lia).
  assert (layout_ok (vec_layout 8 34)) as V2 by (apply (pow2_layout 272 3); lia).
  assert (forall e, noticed e -> exhausted e) as Hn by (by left).
  eapply ends_bind; [exact (ends_allow _ _ _ _ Hn (vec_serves _ _ _ Hs V1))|]. intros table s1 [H1 _].
  eapply ends_bind; [exact (ends_allow _ _ _ _ Hn (vec_serves _ _ _ H1 V2))|]. intros vec s2 [H2 _].
  apply (no_overlap_body [(vec, vec_layout 8 34); (table, vec_layout 16 34)]); [by split|]. intros es s3 [H3 _].
  destruct (dealloc_serves vec (vec_layout 8 34) ((object <$> es) ++ [(table, vec_layout 16 34)]) s3) as (h' & E & H4).
  { eapply serves_perm; [|exact H3]. by rewrite <- Permutation_middle. }
  unfold vec_drop. rewrite (bind_ok _ _ _ _ _ E).
  destruct (dealloc_serves table (vec_layout 16 34) (object <$> es) {| heap := h'; cells := cells s3 |}) as (h2 & E2 & H5).
  { eapply serves_perm; [|exact H4]. by rewrite <- Permutation_cons_append. }
  rewrite E2. by eexists.
Qed.
End clients.

(** ** The runner *)

(** What the runner prints for a test that passes, and before it runs. *)
Definition started (t : Testable) : list Z := text "[Runnning] >>> " ++ type_name t ++ [10].
Definition passed (t : Testable) : list Z := started t ++ text "[Pass    ] <<< " ++ type_name t ++ [10].
Definition heading (verb : string) (tests : list Testable) : list Z :=
  text verb ++ decimal (Z.of_nat (length tests)) ++ text " tests" ++ [10].

Section runner.
Context {D : Type} `{Uart D (base SerialPort_default)}.

Definition line_open (d : D) : Prop := dlab d = false /\ loopback d = false.

(** [d'] follows [d], with [txt] on the line. *)
Record sends (txt : list Z) (d d' : D) : Prop := {
  sn_open : line_open d';
  sn_received : received d' = received d;
  sn_sent : sent d' = sent d ++ (wrap 8 <$> txt);
}.

Lemma sends_trans a b d1 d2 d3 : sends a d1 d2 -> sends b d2 d3 -> sends (a ++ b) d1 d3.
Proof using. intros [_ H1 H2] [G0 G1 G2]. split; [done|congruence|]. by rewrite G2, H2, fmap_app, app_assoc. Qed.

Lemma writeln_ok pieces d m : line_open d -> exists f d', sends (concat pieces ++ [10]) d d' /\
  forall fuel, (f <= fuel)%nat -> writeln fuel pieces (d, m) = (Ok tt, (d', m)).
Proof using.
  intros [Hd Hl]. destruct (send_str_ok (concat pieces ++ [10]) d Hd Hl) as (f & d' & H1 & H2 & H3 & H4 & Hrun).
  exists f, d'. split; [by split|]. intros fuel Hf. unfold writeln, unwrapM, Tests.on_serial, zoom. cbn [fst snd].
  rewrite serial_pieces, concat_app. cbn [concat app]. by rewrite (Hrun fuel Hf).
Qed.

(** How a test may stop: only one of them does not check its pointers. *)
Definition may_stop (t : Testable) (e : string) : Prop :=
  noticed e \/ e = msg_ub /\ body t = allocated_objects_have_no_overlap.

(** A test keeps what the others need. *)
Definition test_ok (I : Memory -> Prop) (t : Testable) : Prop :=
  forall m, I m -> ends_or (may_stop t) (body t m) (fun _ => I).

Lemma run_ok (I : Memory -> Prop) t d m : line_open d -> I m -> test_ok I t -> exists f d' m' r txt,
  (forall fuel, (f <= fuel)%nat -> run fuel t (d, m) = (r, (d', m'))) /\ sends txt d d' /\
  ((r = Ok tt /\ txt = passed t /\ I m') \/ (exists e, may_stop t e /\ r = Panic e /\ txt = started t)).
Proof using.
  intros Hd Hm Ht. destruct (writeln_ok [text "[Runnning] >>> "; type_name t] d m Hd) as (f1 & d1 & S1 & E1).
  cbn [concat] in S1. rewrite app_nil_r, <- app_assoc in S1. specialize (Ht m Hm).
  destruct (body t m) as [[[]|e|e] m'] eqn:Eb; [|done|].
  - destruct (writeln_ok [text "[Pass    ] <<< "; type_name t] d1 m' (sn_open _ _ _ S1)) as (f2 & d2 & S2 & E2).
    cbn [concat] in S2. rewrite app_nil_r, <- app_assoc in S2.
    exists (Nat.max f1 f2), d2, m', (Ok tt), (passed t). split; [|split; [by eapply sends_trans|by left] ].
    intros fuel Hf. unfold run. rewrite (bind_ok _ _ _ _ _ (E1 fuel ltac:(lia))).
    rewrite (bind_ok _ _ _ tt (d1, m')) by (unfold on_memory, zoom; cbn [fst snd]; by rewrite Eb). apply E2. lia.
  - exists f1, d1, m', (Panic e), (started t). split; [|split; [done|right; by exists e] ].
    intros fuel Hf. unfold run. rewrite (bind_ok _ _ _ _ _ (E1 fuel Hf)).
    rewrite (bind_panic _ _ _ e (d1, m')); [done|]. unfold on_memory, zoom. cbn [fst snd]. by rewrite Eb.
Qed.

Lemma run_all_ok (I : Memory -> Prop) tests : Forall (test_ok I) tests -> forall d m, line_open d -> I m ->
  exists f d' m' r txt,
  (forall fuel, (f <= fuel)%nat -> for_each tests (run fuel) (d, m) = (r, (d', m'))) /\ sends txt d d' /\
  ((r = Ok tt /\ txt = concat (passed <$> tests) /\ I m') \/
   (exists pre t post e, tests = pre ++ t :: post /\ may_stop t e /\ r = Panic e /\
      txt = concat (passed <$> pre) ++ started t)).
Proof using.
  induction 1 as [|t tests Ht _ IH]; intros d m Hd Hm.
  { exists 0%nat, d, m, (Ok tt), []. split; [done|]. split; [|by left]. split; [done|done|by rewrite app_nil_r]. }
  destruct (run_ok I t d m Hd Hm Ht) as (f1 & d1 & m1 & r1 & t1 & E1 & S1 & [(-> & -> & H1)|(e & He & -> & ->)]).
  2:{ exists f1, d1, m1, (Panic e), (started t). split; [|split; [done|right] ].
      - intros fuel Hf. cbn [for_each]. by rewrite (bind_panic _ _ _ _ _ (E1 fuel Hf)).
      - by exists [], t, tests, e. }
  destruct (IH d1 m1 (sn_open _ _ _ S1) H1) as (f2 & d2 & m2 & r2 & t2 & E2 & S2 & Hcase).
  exists (Nat.max f1 f2), d2, m2, r2, (passed t ++ t2). split; [|split; [by eapply sends_trans|] ].
  - intros fuel Hf. cbn [for_each]. rewrite (bind_ok _ _ _ _ _ (E1 fuel ltac:(lia))). apply E2. lia.
  - destruct Hcase as [(-> & -> & H2)|(pre & u & post & e & -> & He & -> & ->)]; [by left|right].
    exists (t :: pre), u, post, e. split; [done|]. split; [done|]. split; [done|]. cbn [fmap list_fmap concat].
    by rewrite app_assoc.
Qed.
End runner.

(** A panic of the kernel is reported on both consoles before the machine exits. *)
Lemma panic_ok {F D P} {IO : PortIo D} {UD : Uart D (base SerialPort_default)} font n info (k : Kernel F D P) :
  let line := (text "panic: " ++ info) ++ [10] in open_line (n + length line) (console k) ->
  exists fuel0 k', (forall fuel, (fuel0 <= fuel)%nat ->
    kernel_panic font fuel info k =
      (Ok tt, with_console (Build_Console (write_io_port_u8 0xf4 2 (serial (console k'))) (GLOBAL_VRAM_WRITER (console k')) (video (console k'))) k')) /\
  sent (serial (console k')) = sent (serial (console k)) ++ (wrap 8 <$> line).
Proof.
  intros line Hk. destruct (print_ok font n line k Hk) as (f & c' & Hrun & Hsent & _).
  exists f, (with_console c' k). split; [|exact Hsent]. intros fuel Hf. unfold kernel_panic, println. fold line.
  by rewrite (bind_ok _ _ _ _ _ (Hrun fuel Hf)).
Qed.

(** The bodies of the tests. *)
Definition kernel_tests : list (M Memory unit) :=
  [round_down_to_nearest_pow2; round_up_to_nearest_pow2_tests; malloc_align; malloc_align_random_order;
   allocated_objects_have_no_overlap; extract_bits_tests; write_bits_tests].

Lemma kernel_test_ok base c0 t : body t ∈ kernel_tests -> test_ok (fun m => exists new, serves base c0 new m) t.
Proof.
  intros Ht m [new Hm].
  assert (serves (new ++ base) (cells m) [] m) as Hs by (destruct Hm; by split).
  assert (forall allowed (r : outcome unit * Memory), (forall e, allowed e -> may_stop t e) ->
    ends_or allowed r (fun _ s' => exists more, serves (new ++ base) (cells m) more s') ->
    ends_or (may_stop t) r (fun _ s' => exists more, serves base c0 more s')) as Hweak.
  { intros allowed r Hall Hr. apply (ends_allow _ _ _ _ Hall). eapply ends_weaken; [exact Hr|]. intros _ s' [more [H1 H2]]. exists (more ++ new).
    split; [by rewrite <- app_assoc|]. intros p l a Hp Ha. rewrite (H2 p l a) by (done || by apply elem_of_app; right).
    by apply (sv_kept _ _ _ _ Hm p l). }
  unfold kernel_tests in Ht. rewrite !elem_of_cons in Ht. destruct_or? Ht; [..|by apply elem_of_nil in Ht]; rewrite Ht; try (by exists new).
  - eapply Hweak; [|by apply malloc_align_ok]. by left.
  - eapply Hweak; [|by apply malloc_align_random_order_ok]. by left.
  - eapply Hweak; [|by apply allocated_objects_have_no_overlap_ok]. intros e [?|?]; [by left|by right].
Qed.

(** ** Properties *)

(** C39. The unit tests.  On any heap that earlier clients left, with the serial line open, a
    run of the test kernel over any selection of the tests (all but the one of [IoBox], which
    needs page tables the kernel can walk) ends in one of three ways.  Every test passes: the
    line has the report of each between the two headings, the exit port got 1 (success),
    every object of the earlier clients is still allocated and holds what it held.  Or memory
    ran out, a test noticed (at its assertion on null, or in a vector), the report stops at
    that test, the panic follows, and the exit port got 2.  Or memory ran out in
    [allocated_objects_have_no_overlap], the only test that does not check its pointers, which
    has written through null: that is undefined behaviour, and of the rest of that run nothing
    is said.  No other assertion of the tests fails; in particular, as long as memory lasts no
    two objects overlap, and everything allocated is aligned, whatever was freed in between. *)
Theorem unit_tests_report {D} `{Uart D (base SerialPort_default)} (debug : string -> list Z) (tests : list Testable)
  (live : list (Z * Layout)) (d : D) (m : Memory)
  (Htests : Forall (fun t => body t ∈ kernel_tests) tests) (Hline : line_open d) (Hheap : ga_ok (heap m) live) :
  exists fuel0 d' m' res txt,
    (forall fuel, (fuel0 <= fuel)%nat -> run_unit_tests fuel debug tests (d, m) = res) /\
    sends (heading "Running " tests ++ txt) d d' /\
    ((res = (Ok tt, (write_io_port_u8 0xf4 1 d', m')) /\
        txt = concat (passed <$> tests) ++ heading "Completed " tests /\
        exists new, serves live (cells m) new m') \/
     (exists pre t post, tests = pre ++ t :: post /\
        ((exists e, noticed e /\ res = (Ok tt, (write_io_port_u8 0xf4 2 d', m')) /\
            txt = concat (passed <$> pre) ++ started t ++ text "Panic duringt est: " ++ debug e ++ [10]) \/
         (body t = allocated_objects_have_no_overlap /\ res = (Panic msg_ub, (d', m')) /\
            txt = concat (passed <$> pre) ++ started t)))).
Proof.
  assert (exists new, serves live (cells m) new m) as Hm by (exists []; by split).
  assert (Forall (test_ok (fun m' => exists new, serves live (cells m) new m')) tests) as Hok
    by (eapply Forall_impl; [exact Htests|]; intros t; apply kernel_test_ok).
  destruct (writeln_ok [text "Running "; decimal (Z.of_nat (length tests)); text " tests"] d m Hline) as (f1 & d1 & S1 & E1).
  cbn [concat] in S1. rewrite app_nil_r, <- !app_assoc in S1.
  destruct (run_all_ok _ tests Hok d1 m (sn_open _ _ _ S1) Hm) as (f2 & d2 & m2 & r & t2 & E2 & S2 & Hcase).
  destruct Hcase as [(-> & -> & H2)|(pre & t & post & e & -> & He & -> & ->)].
  - destruct (writeln_ok [text "Completed "; decimal (Z.of_nat (length tests)); text " tests"] d2 m2 (sn_open _ _ _ S2))
      as (f3 & d3 & S3 & E3). cbn [concat] in S3. rewrite app_nil_r, <- !app_assoc in S3.
    exists (Nat.max f1 (Nat.max f2 f3)), d3, m2. do 2 eexists. split; [|split; [|by left] ].
    + intros fuel Hf. unfold run_unit_tests, test_runner. cbv zeta.
      rewrite (bind_ok _ _ _ _ _ (E1 fuel ltac:(lia))), (bind_ok _ _ _ _ _ (E2 fuel ltac:(lia))).
      rewrite (bind_ok _ _ _ _ _ (E3 fuel ltac:(lia))). reflexivity.
    + eapply sends_trans; [exact S1|]. by eapply sends_trans.
  - assert (forall fuel, (Nat.max f1 f2 <= fuel)%nat -> run_unit_tests fuel debug (pre ++ t :: post) (d, m) =
      if String.eqb e msg_ub then (Panic msg_ub, (d2, m2)) else panic_handler fuel debug e (d2, m2)) as E.
    { intros fuel Hf. unfold run_unit_tests, test_runner. cbv zeta.
      by rewrite (bind_ok _ _ _ _ _ (E1 fuel ltac:(lia))), (bind_panic _ _ _ _ _ (E2 fuel ltac:(lia))). }
    destruct He as [He|[-> Hb]].
    + destruct (writeln_ok [text "Panic duringt est: "; debug e] d2 m2 (sn_open _ _ _ S2)) as (f3 & d3 & S3 & E3).
      cbn [concat] in S3. rewrite app_nil_r, <- !app_assoc in S3.
      exists (Nat.max f1 (Nat.max f2 f3)), d3, m2. do 2 eexists.
      split; [|split; [|right; exists pre, t, post; split; [done|left; exists e; by split_and!] ] ].
      * intros fuel Hf. rewrite E by lia. assert (String.eqb e msg_ub = false) as -> by (by destruct He as [->| ->]).
        unfold panic_handler. rewrite (bind_ok _ _ _ _ _ (E3 fuel ltac:(lia))). reflexivity.
      * eapply sends_trans; [exact S1|]. rewrite app_assoc. by eapply sends_trans.
    + exists (Nat.max f1 f2), d2, m2. do 2 eexists.
      split; [exact E|split; [by eapply sends_trans|right; exists pre, t, post; split; [done|by right] ] ].
Qed.

Definition example_tests : list Testable :=
  [{| type_name := text "mushix::allocator::round_up_to_nearest_pow2_tests"; body := round_up_to_nearest_pow2_tests |};
   {| type_name := text "mushix::allocator::test::malloc_align"; body := malloc_align |};
   {| type_name := text "mushix::allocator::test::allocated_objects_have_no_overlap";
      body := allocated_objects_have_no_overlap |};
   {| type_name := text "mushix::volatile::write_bits_tests"; body := write_bits_tests |}].
Definition example_memory : Memory := Build_Memory example_state (fun _ => 0).

(** There is memory enough for the tests of alignment on a heap of 7 MiB. *)
Example malloc_tests_pass : is_ok (malloc_align example_memory).1 = true /\ is_ok (malloc_align_random_order example_memory).1 = true.
Proof. split; vm_compute; reflexivity. Qed.

Lemma unit_tests_report_witness : exists fuel d' m' res txt,
  run_unit_tests fuel text example_tests (example_uart [], example_memory) = res /\
  u_sent d' = wrap 8 <$> (heading "Running " example_tests ++ txt) /\
  (res = (Ok tt, (write_io_port_u8 0xf4 1 d', m')) \/ res = (Ok tt, (write_io_port_u8 0xf4 2 d', m')) \/
   res = (Panic msg_ub, (d', m'))).
Proof.
  destruct (unit_tests_report text example_tests [] (example_uart []) example_memory) as
    (fuel & d' & m' & res & txt & Hrun & [_ _ Hsent] & Hcase).
  - repeat (apply Forall_cons; split); [..|apply Forall_nil; exact I]; unfold kernel_tests; rewrite !elem_of_cons; cbn [body]; tauto.
  - by split.
  - exists example_blocks. split; [exact example_represents|]. split; constructor.
  - exists fuel, d', m', res, txt. split; [exact (Hrun fuel (Nat.le_refl fuel))|]. split; [exact Hsent|].
    destruct Hcase as [(E & _)|(? & ? & ? & _ & [(? & _ & E & _)|(_ & E & _)])]; [by left|by right; left|by right; right].
Defined.
