(* ===== verification/Format.v ===== *)
(** * What the kernel prints of its data: the [Debug] and [Display] texts of [x86.rs] and
    [pci.rs], and the lines of the interrupt handler.

    A panic on this kernel leaves nothing but its report: [InterruptInfo_text_read] says that
    the interrupted context can be read back from it. *)

From S2P Require Import Prelude Paging Pci Interrupt Console Kernel Start.
Import Paging.Paging Pci.Pci.

Module Format.

(** [{:#0nX}] for [n = w + 2]. *)
Definition upper_0x (w : nat) (n : Z) : list Z := text "0x" ++ upper_hex w n.
Definition newline : list Z := [10].
Definition indent (n : nat) : list Z := newline ++ replicate n 32.

(** *** [pci.rs] *)

Definition VendorDeviceId_text (v : VendorDeviceId) : list Z :=
  text "VendorDeviceId { vendor: " ++ lower_hex 4 (vendor v) ++ text ", device: " ++ lower_hex 4 (device v) ++ text " }".

Definition BusDeviceFunction_text (id : Z) : list Z :=
  text "pci/bus/" ++ lower_hex 2 (bdf_bus id) ++ text "/device/" ++ lower_hex 2 (bdf_device id) ++
  text "/function/" ++ lower_hex 1 (bdf_function id).

(** The sum is checked. *)
Definition BarMem64_text (b : BarMem64) : outcome (list Z) :=
  size ← add_chk 64 (bar_addr b) (bar_size b);
  Ok (text "BarMem64 { addr: " ++ lower_hex 16 (bar_addr b) ++ text ", size: " ++ lower_hex 16 size ++ text " }").

(** *** Page tables *)

(** [Entry::format]; [this] is where the entry is. *)
Definition Entry_text (LEVEL this value : Z) : list Z :=
  text "L" ++ decimal LEVEL ++ text "Entry @ " ++ lower_hex 16 this ++ text " { " ++ upper_0x 16 value ++ text " " ++
  text (if is_present value then "P" else "N") ++ text (if is_writable value then "W" else "R") ++
  text (if is_user value then "U" else "K") ++ text " " ++ text "}".

(** [{:3}] *)
Definition decimal_3 (n : Z) : list Z := replicate (3 - length (decimal n)) 32 ++ decimal n.

(** [Table::format], of the table at [this]. *)
Definition Table_text (LEVEL this : Z) (entry : list Z) : list Z :=
  text "L" ++ decimal LEVEL ++ text "Table @ " ++ lower_hex 16 this ++ text " {" ++ newline ++
  concat (imap (fun i e =>
    if negb (is_present e) then [] else
    text "  entry[" ++ decimal_3 (Z.of_nat i) ++ text "] = " ++ Entry_text LEVEL (this + 8 * Z.of_nat i) e) entry) ++
  text "}" ++ newline.

(** [Table::next_level]: [get] of the entry, then its table. *)
Definition next_level (entry : list Z) (index : nat) : option Z :=
  e ← entry !! index; match table_mut e with Ok t => Some t | _ => None end.

(** *** The interrupt handler *)

Definition InterruptInfo_text (s : InterruptInfo) : list Z :=
  let g := greg s in let c := ctx s in
  indent 8 ++ text "{" ++
  indent 12 ++ text "rip: " ++ upper_0x 16 (i_rip c) ++ text ", CS: " ++ upper_0x 4 (i_cs c) ++ text "," ++
  indent 12 ++ text "rsp: " ++ upper_0x 16 (i_rsp c) ++ text ", SS: " ++ upper_0x 4 (i_ss c) ++ text "," ++
  indent 12 ++ text "rbp: " ++ upper_0x 16 (i_rbp g) ++ text "," ++ newline ++
  indent 12 ++ text "rflags: " ++ upper_0x 16 (i_rflags c) ++ text "," ++
  indent 12 ++ text "error_code: " ++ upper_0x 16 (error_code s) ++ text "," ++ newline ++
  indent 12 ++ text "rax: " ++ upper_0x 16 (i_rax g) ++ text ", rcx: " ++ upper_0x 16 (i_rcx g) ++ text "," ++
  indent 12 ++ text "rdx: " ++ upper_0x 16 (i_rdx g) ++ text ", rbx: " ++ upper_0x 16 (i_rbx g) ++ text "," ++
  indent 12 ++ text "rsi: " ++ upper_0x 16 (i_rsi g) ++ text ", rdi: " ++ upper_0x 16 (i_rdi g) ++ text "," ++
  indent 12 ++ text "r8: " ++ upper_0x 16 (i_r8 g) ++ text ", r9: " ++ upper_0x 16 (i_r9 g) ++ text "," ++
  indent 12 ++ text "r10: " ++ upper_0x 16 (i_r10 g) ++ text ", r11: " ++ upper_0x 16 (i_r11 g) ++ text "," ++
  indent 12 ++ text "r12: " ++ upper_0x 16 (i_r12 g) ++ text ", r13: " ++ upper_0x 16 (i_r13 g) ++ text "," ++
  indent 12 ++ text "r14: " ++ upper_0x 16 (i_r14 g) ++ text ", r15: " ++ upper_0x 16 (i_r15 g) ++ text "," ++
  indent 8 ++ text "}".

(** What [inthandler] prints for each of its reports; [bytes_debug] is the core library's
    [{:#02X?}] of a slice. *)
Definition Report_text (bytes_debug : list Z -> list Z) (r : Report) : list Z :=
  match r with
  | Interrupt_info i => text "Interrupt Info: " ++ InterruptInfo_text i
  | Exception index => text "Exception " ++ upper_0x 2 index ++ text ": "
  | Message m => text m
  | Bytes_at_rip bytes => text " = " ++ bytes_debug bytes
  | CR2 a => text "CR2: " ++ upper_0x 16 a
  | Caused_by mode access page structures =>
      text "Caused by: A" ++ text mode ++ text " mode " ++ text access ++ text " on " ++ text page ++
      text " page, page structres are " ++ text structures
  end.
End Format.
Import Format.

(** ** Reading hexadecimal numbers back *)

Definition hex_value (c : Z) : Z := if c <? 58 then c - 48 else c - 55.
Definition read_hex (l : list Z) : Z := fold_right (fun c a => hex_value c + 16 * a) 0 (rev l).

Lemma hex_digit_value d : 0 <= d < 16 -> hex_value (hex_digit d) = d.
Proof. intros Hd. unfold hex_value, hex_digit. destruct (Z.ltb_spec d 10), (Z.ltb_spec (48 + d) 58), (Z.ltb_spec (55 + d) 58); lia. Qed.

Lemma hex_rev_value fuel : forall n, 0 <= n < 16 ^ Z.of_nat fuel ->
  fold_right (fun c a => hex_value c + 16 * a) 0 (hex_rev fuel n) = n.
Proof.
  induction fuel as [|fuel IH]; intros n Hn; [cbn in *; lia|]. cbn [hex_rev]. destruct (Z.eqb_spec n 0) as [->|Hne]; [done|].
  rewrite Nat2Z.inj_succ, Z.pow_succ_r in Hn by lia. cbn [fold_right]. rewrite IH, hex_digit_value by div_lia. div_lia.
Qed.

Lemma hex_rev_length_le fuel w : forall n, 0 <= n < 16 ^ Z.of_nat w -> (length (hex_rev fuel n) <= w)%nat.
Proof.
  revert w. induction fuel as [|fuel IH]; intros w n Hn; [cbn; lia|]. cbn [hex_rev]. destruct (Z.eqb_spec n 0); [cbn; lia|].
  destruct w as [|w]; [cbn in Hn; lia|]. rewrite Nat2Z.inj_succ, Z.pow_succ_r in Hn by lia. cbn [length].
  specialize (IH w (n / 16) ltac:(div_lia)). lia.
Qed.

Lemma zeros_value n : fold_right (fun c a => hex_value c + 16 * a) 0 (replicate n 48) = 0.
Proof. induction n as [|n IH]; [done|]. cbn [replicate fold_right]. by rewrite IH. Qed.

Lemma read_upper_hex w n : in_width 64 n -> read_hex (upper_hex w n) = n.
Proof.
  intros Hn. unfold read_hex, upper_hex. cbv zeta. rewrite rev_involutive, fold_right_app, zeros_value.
  apply (hex_rev_value 16). exact Hn.
Qed.

Lemma upper_hex_length w n : (w <= 16)%nat -> in_width (4 * Z.of_nat w) n -> length (upper_hex w n) = w.
Proof.
  intros Hw Hn. unfold upper_hex. cbv zeta. rewrite length_rev, length_app, length_replicate.
  assert (length (hex_rev 16 n) <= w)%nat; [|lia]. apply hex_rev_length_le.
  change 16 with (2 ^ 4). rewrite <- Z.pow_mul_r by lia. exact Hn.
Qed.

(** A number of fixed width at the front of a text. *)
Lemma hex_field w x y r s : (w <= 16)%nat -> in_width (4 * Z.of_nat w) x -> in_width (4 * Z.of_nat w) y ->
  upper_0x w x ++ r = upper_0x w y ++ s -> x = y /\ r = s.
Proof.
  intros Hw Hx Hy H. unfold upper_0x in H. rewrite <- !app_assoc in H. apply app_inv_head in H.
  apply app_inj_1 in H as [H1 H2]; [|by rewrite !upper_hex_length]. split; [|exact H2].
  assert (2 ^ (4 * Z.of_nat w) <= 2 ^ 64) by (apply Z.pow_le_mono_r; lia).
  rewrite <- (read_upper_hex w x), <- (read_upper_hex w y), H1 by (unfold in_width in *; lia). reflexivity.
Qed.

(** Registers of 64 bits, selectors of 16. *)
Record context_ok (s : InterruptInfo) : Prop := {
  ok_error : in_width 64 (error_code s);
  ok_flow : in_width 64 (i_rip (ctx s)) /\ in_width 64 (i_rflags (ctx s)) /\ in_width 64 (i_rsp (ctx s));
  ok_selectors : in_width 16 (i_cs (ctx s)) /\ in_width 16 (i_ss (ctx s));
  ok_gpr : let g := greg s in Forall (in_width 64)
    [i_rax g; i_rdx g; i_rbx g; i_rbp g; i_rsi g; i_rdi g; i_r8 g; i_r9 g; i_r10 g; i_r11 g; i_r12 g; i_r13 g; i_r14 g; i_r15 g; i_rcx g];
}.

Ltac peel H :=
  match type of H with
  | text _ ++ _ = _ => apply app_inv_head in H
  | newline ++ _ = _ => apply app_inv_head in H
  | indent _ ++ _ = _ => apply app_inv_head in H
  | upper_0x _ _ ++ _ = _ => apply hex_field in H as [? H]; [|clear H; (lia || assumption)..]
  end.

(** The report of an interrupt determines the interrupted registers. *)
Theorem InterruptInfo_text_read (a b : InterruptInfo) : context_ok a -> context_ok b ->
  InterruptInfo_text a = InterruptInfo_text b -> greg a = greg b /\ error_code a = error_code b /\ ctx a = ctx b.
Proof.
  intros [A1 (A2 & A3 & A4) (A5 & A6) A7] [B1 (B2 & B3 & B4) (B5 & B6) B7] H. cbv zeta in *.
  rewrite !Forall_cons in A7, B7. destruct_and! A7. destruct_and! B7.
  unfold InterruptInfo_text in H. cbv zeta in H. repeat peel H.
  destruct a as [? ? ga ? ca], b as [? ? gb ? cb]. destruct ga, gb, ca, cb. cbn in *. by subst.
Qed.
